(** * MindFormers distributed core: gradient handling, data-parallel wrapper,
      ZeRO optimizer and collective wrappers

    A shallow embedding of the orchestration code of
    - [mindformers/experimental/distri_cores/grad_handler.py],
    - [mindformers/experimental/parallel_core/pynative/distributed/distributed_data_parallel.py],
    - [mindformers/experimental/parallel_core/pynative/optimizer/zero/adamw_zero.py],
    - [mindformers/experimental/distri_cores/tensor_parallel/collective_primitives.py].

    The tensor engine and the collectives belong to the host runtime; the
    Python code only schedules calls into it.  The runtime is therefore an
    interface (a class of operations without laws), the Python control flow is
    written out as Rocq functions, Python exceptions are values of [result],
    and mutable objects are threaded through as explicit state. *)

From Stdlib Require Import ZArith String Lia.
From stdpp Require Import base option list gmap strings numbers.
From stdpp Require sorting.

Open Scope string_scope.
Open Scope list_scope.
Open Scope Z_scope.

(** ** Python outcomes *)

Inductive exn :=
| AttributeError | IndexError | KeyError | ZeroDivisionError
| NotImplementedError | ValueError | TypeError.

Inductive result (A : Type) :=
| Ok (a : A)
| Raise (e : exn).
Arguments Ok {A} a.
Arguments Raise {A} e.

Global Instance result_bind : MBind result :=
  λ A B k r, match r with Ok a => k a | Raise e => Raise e end.
Global Instance result_ret : MRet result := λ A a, Ok a.
Global Instance result_fmap : FMap result :=
  λ A B f r, match r with Ok a => Ok (f a) | Raise e => Raise e end.

(** Python's [a % b] and [a // b] on ints: floored, and an error on [b = 0]. *)
Definition py_mod (a b : Z) : result Z :=
  if b =? 0 then Raise ZeroDivisionError else Ok (a mod b).

Definition py_floordiv (a b : Z) : result Z :=
  if b =? 0 then Raise ZeroDivisionError else Ok (a / b).

(** [needle in haystack] on Python strings. *)
Fixpoint str_contains (needle haystack : string) : bool :=
  String.prefix needle haystack ||
  match haystack with
  | EmptyString => false
  | String _ rest => str_contains needle rest
  end.

(** [tuple[i]] / [list[i]] for a non-negative index. *)
Definition py_index {A} (l : list A) (i : nat) : result A :=
  match l !! i with Some x => Ok x | None => Raise IndexError end.

(** The mindspore dtypes the code names or compares. *)
Inductive dtype := float16 | bfloat16 | float32 | float64 | int32 | int64.

Global Instance dtype_eq_dec : EqDecision dtype.
Proof. solve_decision. Defined.

(** * grad_handler.py: [GradAccumulator] *)

Module GradAccumulator.

(** The runtime calls of [GradAccumulator], per tensor. *)
Class AccumOps := {
  tensor : Type;
  (** [ops.ZerosLike()] *)
  zeroslike : tensor → tensor;
  (** [ops.assign_add(variable, value)]: the new content of [variable] *)
  assign_add : tensor → tensor → tensor;
  (** [tensor / accumulate_step] with a Python int *)
  div_int : tensor → Z → tensor;
}.

(** [HyperMap] over one tuple and over two tuples of equal length.  The runtime
    rejects tuples of different lengths; such inputs are outside this model. *)
Definition hyper_map {A B} (f : A → B) (xs : list A) : list B := f <$> xs.
Definition hyper_map2 {A B C} (f : A → B → C) (xs : list A) (ys : list B) : list C :=
  zip_with f xs ys.

Record GradAccumulator `{AccumOps} := mkGradAccumulator {
  counter : Z;
  accumulate_step : Z;
  is_mean_op : bool;
  has_init : bool;
  need_clear : bool;
  inner_grads : option (list tensor);
}.

Section accumulator.
Context `{AccumOps}.

(** [validator.check_non_negative_int] *)
Definition check_non_negative_int (v : Z) : result Z :=
  if v <? 0 then Raise ValueError else Ok v.

Definition __init__ (micro_batch_num : Z) (op : string) : result GradAccumulator :=
  step ← check_non_negative_int micro_batch_num ;
  if negb (String.eqb op "mean" || String.eqb op "sum")
  then Raise NotImplementedError
  else Ok {| counter := 0; accumulate_step := step;
             is_mean_op := String.eqb op "mean";
             has_init := false; need_clear := false; inner_grads := None |}.

Definition _init_inner_grads (param : tensor) : tensor := zeroslike param.

(** [inner_grads.assign_value(zeroslike(inner_grads))] *)
Definition _clear_value (inner : tensor) : tensor := zeroslike inner.

(** [inner_grads.assign_value(inner_grads / self.accumulate_step)] *)
Definition _mean_value (self : GradAccumulator) (inner : tensor) : tensor :=
  div_int inner (accumulate_step self).

(** One call.  The object keeps the mutations made before an exception. *)
Definition __call__ (self : GradAccumulator) (grads : list tensor)
  : GradAccumulator * result (option (list tensor)) :=
  let inner0 :=
    if has_init self then inner_grads self
    else Some (hyper_map _init_inner_grads grads) in
  match inner0 with
  | None => (self, Raise TypeError)
  | Some inner0 =>
    let inner1 := if need_clear self then hyper_map _clear_value inner0 else inner0 in
    let inner2 := hyper_map2 assign_add inner1 grads in
    let counter' := counter self + 1 in
    let self' := {| counter := counter'; accumulate_step := accumulate_step self;
                    is_mean_op := is_mean_op self; has_init := true;
                    need_clear := false; inner_grads := Some inner2 |} in
    match py_mod counter' (accumulate_step self) with
    | Raise e => (self', Raise e)
    | Ok r =>
      if r =? 0 then
        let inner3 := if is_mean_op self then hyper_map (_mean_value self) inner2
                      else inner2 in
        ({| counter := counter'; accumulate_step := accumulate_step self;
            is_mean_op := is_mean_op self; has_init := true;
            need_clear := true; inner_grads := Some inner3 |},
         Ok (Some inner3))
      else (self', Ok None)
    end
  end.

(** A sequence of calls on one accumulator. *)
Fixpoint calls (self : GradAccumulator) (gs : list (list tensor))
  : GradAccumulator * list (result (option (list tensor))) :=
  match gs with
  | [] => (self, [])
  | g :: gs' =>
    let '(self1, r) := __call__ self g in
    let '(self2, rs) := calls self1 gs' in
    (self2, r :: rs)
  end.

(** The gradients of one accumulation window added onto zero tensors. *)
Definition accumulate (zeros : list tensor) (window : list (list tensor)) : list tensor :=
  fold_left (hyper_map2 assign_add) window zeros.

(** The final division of the [mean] mode. *)
Definition finish (mean : bool) (step : Z) (acc : list tensor) : list tensor :=
  if mean then (λ t, div_int t step) <$> acc else acc.

(** The accumulator as [__init__] leaves it. *)
Definition fresh (step : Z) (mean : bool) : GradAccumulator :=
  {| counter := 0; accumulate_step := step; is_mean_op := mean;
     has_init := false; need_clear := false; inner_grads := None |}.

(** What the [n]-th call ([n ≥ 1]) has to return when [gs] lists the gradient
    tuples of the calls, each of [L] tensors: nothing off a window boundary,
    and on a boundary the last [step] tuples added onto zero tensors. *)
Definition nth_call_returns (L : nat) (mean : bool) (step : Z)
    (gs : list (list tensor)) (n : nat) (r : result (option (list tensor))) : Prop :=
  (Z.of_nat n mod step ≠ 0 → r = Ok None) ∧
  (Z.of_nat n mod step = 0 →
     ∃ y, length y = L ∧
       r = Ok (Some (finish mean step
              (accumulate (zeroslike <$> y) (drop (n - Z.to_nat step) (take n gs)))))).

(** The state of an accumulator after the calls [gs]. *)
Definition acc_inv (mb : Z) (mean : bool) (L : nat) (gs : list (list tensor))
    (s : GradAccumulator) : Prop :=
  counter s = Z.of_nat (length gs) ∧ accumulate_step s = mb ∧ is_mean_op s = mean ∧
  if decide (length gs = 0%nat) then has_init s = false ∧ need_clear s = false
  else has_init s = true ∧ ∃ inner, inner_grads s = Some inner ∧ length inner = L ∧
    (Z.of_nat (length gs) mod mb = 0 → need_clear s = true) ∧
    (Z.of_nat (length gs) mod mb ≠ 0 →
       need_clear s = false ∧ ∃ y, length y = L ∧
         inner = accumulate (zeroslike <$> y)
                   (drop (length gs - Z.to_nat (Z.of_nat (length gs) mod mb)) gs)).

End accumulator.

(** One-element integer tensors, to run the accumulator on examples. *)
Definition Z_accum_ops : AccumOps :=
  {| tensor := Z; zeroslike := λ _, 0; assign_add := Z.add; div_int := Z.div |}.

End GradAccumulator.

(** * grad_handler.py: [ClipGlobalNorm] *)

Module ClipGlobalNorm.

(** The runtime calls of [ClipGlobalNorm] and [_get_square_sum], and the
    Python floats they are applied to. *)
Class ClipOps := {
  tensor : Type;
  pyfloat : Type;
  group : Type;
  (** [P.Cast()(grad, mstype.float32)] *)
  cast_fp32 : tensor → tensor;
  (** [mint.square], [mint.sum], [Tensor.expand_dims(0)], [mint.sqrt] *)
  square : tensor → tensor;
  sum : tensor → tensor;
  expand_dims0 : tensor → tensor;
  sqrt : tensor → tensor;
  (** [ops.addn] *)
  addn : list tensor → tensor;
  (** [all_reduce(x, "sum", group)] *)
  all_reduce_sum : tensor → group → tensor;
  (** [tensor + float], [float / tensor], [tensor * tensor] *)
  add_float : tensor → pyfloat → tensor;
  float_div : pyfloat → tensor → tensor;
  mul : tensor → tensor → tensor;
  (** the truth value of [tensor < float] *)
  lt_float : tensor → pyfloat → bool;
  (** the literals [1.0e-6] and [1.0] *)
  float_1em6 : pyfloat;
  float_1 : pyfloat;
  (** [get_group_size(group)] and [get_tp_rank()] *)
  get_group_size : group → Z;
  get_tp_rank : Z;
}.

(** [mindspore.Parameter], as far as this class reads it. *)
Record MsParameter := { name : string }.

Record ClipGlobalNorm `{ClipOps} := {
  params : list MsParameter;
  reduce_comm_group : group;
  clip_value : pyfloat;
  norm_type : string;
}.

Section clip.
Context `{ClipOps}.

Definition _get_square_sum (grad : tensor) : tensor :=
  expand_dims0 (sum (square (cast_fp32 grad))).

Definition grad_scale_func (grad scale : tensor) : tensor := mul grad scale.

(** [inplace_apply_to_tensor_list(func)(tensor_list, scale)]: every slot of
    the list is overwritten, in order. *)
Definition inplace_apply_func (func : tensor → tensor → tensor)
    (tensor_list : list tensor) (scale : tensor) : list tensor :=
  foldl (λ l idx, match l !! idx with
                  | Some t => <[idx := func t scale]> l
                  | None => l
                  end)
        tensor_list (seq 0 (length tensor_list)).

Definition is_duplicate_grad (param : MsParameter) : bool :=
  str_contains "norm" (name param)
  || str_contains "mlp.projection.bias" (name param)
  || str_contains "attention.out_proj.bias" (name param).

(** The loop of [get_grads] from index [i] on, [norm_grads] so far. *)
Fixpoint get_grads_loop (rank_id : Z) (i : nat) (ps : list MsParameter)
    (grads norm_grads : list tensor) : result (list tensor) :=
  match ps with
  | [] => Ok norm_grads
  | param :: ps' =>
    norm_grads' ←
      (if is_duplicate_grad param then
         if rank_id =? 0 then g ← py_index grads i; Ok (norm_grads ++ [g])
         else Ok norm_grads
       else g ← py_index grads i; Ok (norm_grads ++ [g]));
    get_grads_loop rank_id (S i) ps' grads norm_grads'
  end.

Definition get_grads (self : ClipGlobalNorm) (grads : list tensor) : result (list tensor) :=
  get_grads_loop get_tp_rank 0 (params self) grads [].

Definition get_grad_norm_fp32 (self : ClipGlobalNorm) (grads : list tensor)
  : result tensor :=
  square_reduce_sum ←
    (if String.eqb (norm_type self) "l2"
     then Ok (addn (_get_square_sum <$> grads))
     else Raise NotImplementedError);
  let square_reduce_sum :=
    if get_group_size (reduce_comm_group self) >? 1
    then all_reduce_sum square_reduce_sum (reduce_comm_group self)
    else square_reduce_sum in
  Ok (sqrt square_reduce_sum).

(** [construct]: the returned norm, and the list [grads] as the call leaves it. *)
Definition construct (self : ClipGlobalNorm) (grads : list tensor)
  : result (tensor * list tensor) :=
  norm_grads ← get_grads self grads;
  total_norm ← get_grad_norm_fp32 self norm_grads;
  let clip_coeff := float_div (clip_value self) (add_float total_norm float_1em6) in
  if lt_float clip_coeff float_1
  then Ok (total_norm, inplace_apply_func grad_scale_func grads clip_coeff)
  else Ok (total_norm, grads).

(** The gradients that enter the norm: those of the parameters that are not
    duplicated across the tensor-parallel group, and the duplicated ones on
    rank 0 only. *)
Definition enters_norm (pg : MsParameter * tensor) : bool :=
  negb (is_duplicate_grad pg.1) || (get_tp_rank =? 0).

Definition l2_norm (self : ClipGlobalNorm) (gs : list tensor) : tensor :=
  let s := addn (_get_square_sum <$> gs) in
  sqrt (if get_group_size (reduce_comm_group self) >? 1
        then all_reduce_sum s (reduce_comm_group self) else s).

End clip.

(** Integers for tensors and floats, to run the clipping on examples; the
    literal [1.0e-6] is read as [0] and the coefficient is kept in thousandths. *)
Definition Z_clip_ops (rank : Z) : ClipOps :=
  {| tensor := Z; pyfloat := Z; group := Z;
     cast_fp32 := id; square := λ x, x * x; sum := id; expand_dims0 := id;
     sqrt := Z.sqrt; addn := foldr Z.add 0; all_reduce_sum := λ x g, x * g;
     add_float := Z.add; float_div := λ c x, 1000 * c / x;
     mul := λ g c, g * c / 1000; lt_float := λ x c, x <? 1000 * c;
     float_1em6 := 0; float_1 := 1;
     get_group_size := id; get_tp_rank := rank |}.

(** Two parameters on rank 1 of the tensor-parallel group; the second one is
    a duplicated layer-norm weight. *)
Definition clip_example : @ClipGlobalNorm (Z_clip_ops 1) :=
  @Build_ClipGlobalNorm (Z_clip_ops 1)
    [ {| name := "layers.0.attention.wq.weight" |};
      {| name := "layers.0.attention_norm.weight" |} ] 1 1000 "l2".

End ClipGlobalNorm.

(** * grad_handler.py: [GradClipByValue] *)

Module GradClipByValue.

(** [ops.clip_by_value(x, clip_value_min, clip_value_max)] and the negation of
    a Python float. *)
Class ClipValueOps := {
  tensor : Type;
  pyfloat : Type;
  clip_by_value : tensor → pyfloat → pyfloat → tensor;
  neg : pyfloat → pyfloat;
}.

Record GradClipByValue `{ClipValueOps} := { clip_value : pyfloat }.

Section clip_by_value.
Context `{ClipValueOps}.

(** [inplace_apply_to_tensor_list(func)(tensor_list, *args)] with two more
    arguments: every slot of the list is overwritten, in order. *)
Definition inplace_apply_func (func : tensor → pyfloat → pyfloat → tensor)
    (tensor_list : list tensor) (arg1 arg2 : pyfloat) : list tensor :=
  foldl (λ l idx, match l !! idx with
                  | Some t => <[idx := func t arg1 arg2]> l
                  | None => l
                  end)
        tensor_list (seq 0 (length tensor_list)).

(** [construct] returns nothing: the list [grads] as the call leaves it. *)
Definition construct (self : GradClipByValue) (grads : list tensor) : list tensor :=
  inplace_apply_func clip_by_value grads (neg (clip_value self)) (clip_value self).

End clip_by_value.

(** Integers for tensors and floats, to run the clipping on examples. *)
Definition Z_clip_value_ops : ClipValueOps :=
  {| tensor := Z; pyfloat := Z;
     clip_by_value := λ x lo hi, Z.max lo (Z.min x hi); neg := Z.opp |}.

End GradClipByValue.

(** * distributed_data_parallel.py *)

Module DistributedDataParallel.

(** The runtime of the wrapper: tensor calls, Python floats, the process
    groups of [parallel_state], and the two things [ParamAndGradBuffer]
    (a class outside these sources) decides when it is constructed. *)
Class DdpOps := {
  tensor : Type;
  group : Type;
  pyfloat : Type;
  (** [mint.add(a, b)] *)
  add : tensor → tensor → tensor;
  (** [t.astype(dtype)] *)
  astype : tensor → dtype → tensor;
  (** [dst.copy_(src)]: the new content of [dst] *)
  copy_ : tensor → tensor → tensor;
  (** [ops.Tensor(0, dtype)] *)
  Tensor0 : dtype → tensor;
  (** the literal [1.0] and [float / int] *)
  float_1 : pyfloat;
  float_div_int : pyfloat → Z → pyfloat;
  get_data_parallel_world_size : Z;
  get_pipeline_model_parallel_rank : Z;
  (** [get_data_parallel_group(with_context_parallel=...)] *)
  get_data_parallel_group : bool → group;
  get_data_modulo_expert_parallel_group : group;
  (** [ParamAndGradBuffer.__init__]: the [main_grad] it gives a parameter of
      the buffer (by grad dtype and position of the parameter), and the
      [sync_enabled] a new buffer starts with *)
  buffer_main_grad : dtype → nat → option tensor;
  buffer_sync_enabled : bool;
}.

(** A backward hook of a parameter: the closure [param_hook] that
    [_make_param_hook] builds for a parameter, or one registered by other code. *)
Inductive hook :=
| param_hook (param : nat)
| foreign_hook (tag : nat).

(** [mindspore.Parameter] with the attributes the wrapper reads and writes.
    [allreduce] is the optional attribute read by [getattr(param, 'allreduce', True)]. *)
Record MsParameter `{DdpOps} := {
  name : string;
  p_dtype : dtype;
  requires_grad : bool;
  allreduce : option bool;
  grad : option tensor;
  main_grad : option tensor;
  grad_accumulated : bool;
  hooks : list hook;
}.

Record TrainingConfig := { calculate_per_token_loss : bool }.

Record DistributedDataParallelConfig := {
  cfg_bucket_size : option Z;
  overlap_grad_reduce : bool;
  average_in_collective : bool;
  grad_reduce_in_fp32 : bool;
}.

(** A [ParamAndGradBuffer] object: the arguments of its constructor
    ([ddp_config] is the wrapper's own, [param_to_name] is [None]) and the
    attribute [sync_enabled]. Parameters are named by their position in the
    module. *)
Record ParamAndGradBuffer `{DdpOps} := {
  param_dtype : dtype;
  grad_dtype : dtype;
  params : list nat;
  data_parallel_group : group;
  buf_bucket_size : option Z;
  gradient_scaling_factor : pyfloat;
  sync_enabled : bool;
}.

(** The calls of buffer methods, in the order they are made. *)
Inductive buffer_call :=
| issue_grad_reduce_call (buffer : nat)
| final_grad_reduce_call (buffer : nat)
| register_grad_ready_call (buffer : nat) (param : nat)
| reset_call (buffer : nat).

(** The wrapper with the objects it shares: the parameters of the wrapped
    module (in the order of [get_parameters()]), the buffer objects ([heap],
    a buffer is named by its position) and the log of buffer calls. *)
Record DistributedDataParallel `{DdpOps} := {
  config : TrainingConfig;
  ddp_config : DistributedDataParallelConfig;
  module : list MsParameter;
  param_to_buffer : gmap nat nat;
  bucket_size : option Z;
  heap : list ParamAndGradBuffer;
  buffers : list nat;
  expert_parallel_buffers : list nat;
  calls : list buffer_call;
}.

Section ddp.
Context `{DdpOps}.

Global Instance MsParameter_inhabited : Inhabited MsParameter :=
  populate {| name := ""; p_dtype := float32; requires_grad := false;
              allreduce := None; grad := None; main_grad := None;
              grad_accumulated := false; hooks := [] |}.

(** ** Attribute writes *)

Definition set_cfg_bucket_size (c : DistributedDataParallelConfig) (b : option Z) :=
  {| cfg_bucket_size := b; overlap_grad_reduce := overlap_grad_reduce c;
     average_in_collective := average_in_collective c;
     grad_reduce_in_fp32 := grad_reduce_in_fp32 c |}.

Definition set_main_grad (p : MsParameter) (m : option tensor) : MsParameter :=
  {| name := name p; p_dtype := p_dtype p; requires_grad := requires_grad p;
     allreduce := allreduce p; grad := grad p; main_grad := m;
     grad_accumulated := grad_accumulated p; hooks := hooks p |}.


(** [param.grad = None; param.main_grad = None; param.grad_accumulated = False] *)
Definition reset_grads (p : MsParameter) : MsParameter :=
  {| name := name p; p_dtype := p_dtype p; requires_grad := requires_grad p;
     allreduce := allreduce p; grad := None; main_grad := None;
     grad_accumulated := false; hooks := hooks p |}.

(** [param.register_hook(h)] *)
Definition register_hook (p : MsParameter) (h : hook) : MsParameter :=
  {| name := name p; p_dtype := p_dtype p; requires_grad := requires_grad p;
     allreduce := allreduce p; grad := grad p; main_grad := main_grad p;
     grad_accumulated := grad_accumulated p; hooks := hooks p ++ [h] |}.

Definition set_sync_enabled (enable : bool) (b : ParamAndGradBuffer) : ParamAndGradBuffer :=
  {| param_dtype := param_dtype b; grad_dtype := grad_dtype b; params := params b;
     data_parallel_group := data_parallel_group b; buf_bucket_size := buf_bucket_size b;
     gradient_scaling_factor := gradient_scaling_factor b; sync_enabled := enable |}.

Definition set_module (self : DistributedDataParallel) (m : list MsParameter) :=
  {| config := config self; ddp_config := ddp_config self; module := m;
     param_to_buffer := param_to_buffer self; bucket_size := bucket_size self;
     heap := heap self; buffers := buffers self;
     expert_parallel_buffers := expert_parallel_buffers self; calls := calls self |}.

Definition set_heap (self : DistributedDataParallel) (h : list ParamAndGradBuffer) :=
  {| config := config self; ddp_config := ddp_config self; module := module self;
     param_to_buffer := param_to_buffer self; bucket_size := bucket_size self;
     heap := h; buffers := buffers self;
     expert_parallel_buffers := expert_parallel_buffers self; calls := calls self |}.

Definition set_buffers (self : DistributedDataParallel) (bufs : list nat) :=
  {| config := config self; ddp_config := ddp_config self; module := module self;
     param_to_buffer := param_to_buffer self; bucket_size := bucket_size self;
     heap := heap self; buffers := bufs;
     expert_parallel_buffers := expert_parallel_buffers self; calls := calls self |}.

Definition set_expert_parallel_buffers (self : DistributedDataParallel) (bufs : list nat) :=
  {| config := config self; ddp_config := ddp_config self; module := module self;
     param_to_buffer := param_to_buffer self; bucket_size := bucket_size self;
     heap := heap self; buffers := buffers self;
     expert_parallel_buffers := bufs; calls := calls self |}.

Definition log_call (self : DistributedDataParallel) (c : buffer_call) :=
  {| config := config self; ddp_config := ddp_config self; module := module self;
     param_to_buffer := param_to_buffer self; bucket_size := bucket_size self;
     heap := heap self; buffers := buffers self;
     expert_parallel_buffers := expert_parallel_buffers self;
     calls := calls self ++ [c] |}.

(** An attribute of the instance that holds a list of buffers, by the name the
    source writes after [self.]: [__init__] sets [buffers] and
    [expert_parallel_buffers]; under any other name there is no such list. *)
Definition getattr_buffers (self : DistributedDataParallel) (attr : string)
  : result (list nat) :=
  if String.eqb attr "buffers" then Ok (buffers self)
  else if String.eqb attr "expert_parallel_buffers" then Ok (expert_parallel_buffers self)
  else Raise AttributeError.

(** ** [__init__] *)

(** The loop over [parameters_and_names()] from position [i] on: the
    parameters as it leaves them, [dense_params], [expert_parallel_params]. *)
Fixpoint collect_params (i : nat) (ps : list MsParameter)
  : list MsParameter * list nat * list nat :=
  match ps with
  | [] => ([], [], [])
  | p :: ps' =>
    let '(ps'', dense_params, expert_parallel_params) := collect_params (S i) ps' in
    if negb (requires_grad p) then (p :: ps'', dense_params, expert_parallel_params)
    else if default true (allreduce p)
         then (reset_grads p :: ps'', i :: dense_params, expert_parallel_params)
         else (reset_grads p :: ps'', dense_params, i :: expert_parallel_params)
  end.

(** [if key not in d: d[key] = []] and [d[key].append(v)] on a dict, which
    keeps its keys in the order of their first insertion. *)
Fixpoint dict_append {K V} `{EqDecision K} (key : K) (v : V) (d : list (K * list V))
  : list (K * list V) :=
  match d with
  | [] => [(key, [v])]
  | (k, vs) :: d' =>
    if decide (key = k) then (k, vs ++ [v]) :: d'
    else (k, vs) :: dict_append key v d'
  end.

Definition param_and_grad_dtype (self : DistributedDataParallel) (param : nat)
  : dtype * dtype :=
  let p := module self !!! param in
  (p_dtype p, if grad_reduce_in_fp32 (ddp_config self) then float32 else p_dtype p).

Definition group_by_dtype (self : DistributedDataParallel) (input_params : list nat)
  : list ((dtype * dtype) * list nat) :=
  foldl (λ d param, dict_append (param_and_grad_dtype self param) param d)
        [] input_params.

(** [ParamAndGradBuffer(...)] for one dtype group: the new buffer object, and
    the parameters of the group with the [main_grad] the buffer gives them. *)
Definition new_buffer (self : DistributedDataParallel) (dtypes : dtype * dtype)
    (ps : list nat) (g : group) (scaling : pyfloat)
  : ParamAndGradBuffer * list MsParameter :=
  ({| param_dtype := dtypes.1; grad_dtype := dtypes.2; params := ps;
      data_parallel_group := g; buf_bucket_size := bucket_size self;
      gradient_scaling_factor := scaling; sync_enabled := buffer_sync_enabled |},
   foldl (λ m param,
            alter (λ p, set_main_grad p (buffer_main_grad dtypes.2 param)) param m)
         (module self) ps).

(** The body of the loop over the items of [param_and_grad_dtype_to_params]:
    the new buffer is appended to [buffers], and every parameter of the group
    is entered in [self.param_to_buffer]. *)
Definition allocate_buffer (g : group) (gradient_scaling_factor : pyfloat)
    (acc : DistributedDataParallel * list nat) (item : (dtype * dtype) * list nat)
  : DistributedDataParallel * list nat :=
  let '(self, bufs) := acc in
  let '(dtypes, ps) := item in
  let '(buf, m) := new_buffer self dtypes ps g gradient_scaling_factor in
  let b := length (heap self) in
  ({| config := config self; ddp_config := ddp_config self; module := m;
      param_to_buffer := foldl (λ d param, <[param := b]> d) (param_to_buffer self) ps;
      bucket_size := bucket_size self; heap := heap self ++ [buf];
      buffers := buffers self;
      expert_parallel_buffers := expert_parallel_buffers self;
      calls := calls self |},
   bufs ++ [b]).

Definition allocate_buffers_for_parameters (self : DistributedDataParallel)
    (input_params : list nat) (g : group) (gradient_scaling_factor : pyfloat)
  : DistributedDataParallel * list nat :=
  foldl (allocate_buffer g gradient_scaling_factor) (self, [])
        (group_by_dtype self input_params).

Definition register_hook_for_params (self : DistributedDataParallel)
  : DistributedDataParallel :=
  set_module self
    (imap (λ i param, if requires_grad param
                      then register_hook param (param_hook i) else param)
          (module self)).

Definition __init__ (config : TrainingConfig) (ddp_config : DistributedDataParallelConfig)
    (module : list MsParameter) (disable_bucketing : bool) : DistributedDataParallel :=
  let ddp_config :=
    match cfg_bucket_size ddp_config with
    | None =>
      let dp_size := get_data_parallel_world_size in
      set_cfg_bucket_size ddp_config (Some (Z.max 40000000 (1000000 * dp_size)))
    | Some _ => ddp_config
    end in
  let bucket_size :=
    if (get_pipeline_model_parallel_rank >? 0) || disable_bucketing
       || negb (overlap_grad_reduce ddp_config)
    then None else cfg_bucket_size ddp_config in
  let '(module, dense_params, expert_parallel_params) := collect_params 0 module in
  let '(gradient_scaling_factor, expert_gradient_scaling_factor) :=
    if calculate_per_token_loss config then (float_1, float_1)
    else if average_in_collective ddp_config then (float_1, float_1)
    else let data_parallel_world_size := get_data_parallel_world_size in
         (float_div_int float_1 data_parallel_world_size,
          float_div_int float_1 data_parallel_world_size) in
  let self :=
    {| config := config; ddp_config := ddp_config; module := module;
       param_to_buffer := ∅; bucket_size := bucket_size; heap := [];
       buffers := []; expert_parallel_buffers := []; calls := [] |} in
  let '(self, bufs) :=
    allocate_buffers_for_parameters self dense_params
      (get_data_parallel_group true) gradient_scaling_factor in
  let self := set_buffers self bufs in
  let '(self, bufs) :=
    allocate_buffers_for_parameters self expert_parallel_params
      get_data_modulo_expert_parallel_group expert_gradient_scaling_factor in
  let self := set_expert_parallel_buffers self bufs in
  register_hook_for_params self.

(** ** Methods *)

(** [for buffer in <list>: buffer.<method>()], the method being a call into
    the buffer class. *)
Definition call_each (self : DistributedDataParallel) (method : nat → buffer_call)
    (bufs : list nat) : DistributedDataParallel :=
  foldl (λ s buffer, log_call s (method buffer)) self bufs.

Definition issue_grad_reduce (self : DistributedDataParallel)
  : DistributedDataParallel * result () :=
  match (bs ← getattr_buffers self "buffers";
         es ← getattr_buffers self "expert_paralle_buffers";
         Ok (bs ++ es)) with
  | Raise e => (self, Raise e)
  | Ok bufs => (call_each self issue_grad_reduce_call bufs, Ok ())
  end.

Definition final_grad_reduce (self : DistributedDataParallel)
  : DistributedDataParallel * result () :=
  match (bs ← getattr_buffers self "buffers";
         es ← getattr_buffers self "expert_parallel_buffers";
         Ok (bs ++ es)) with
  | Raise e => (self, Raise e)
  | Ok bufs => (call_each self final_grad_reduce_call bufs, Ok ())
  end.


Definition enable_sync (self : DistributedDataParallel) (enable : bool)
  : DistributedDataParallel * result () :=
  match (bs ← getattr_buffers self "buffers";
         es ← getattr_buffers self "expert_parallel_buffers";
         Ok (bs ++ es)) with
  | Raise e => (self, Raise e)
  | Ok bufs =>
    (set_heap self
       (foldl (λ h buffer, alter (set_sync_enabled enable) buffer h) (heap self) bufs),
     Ok ())
  end.

(** [with self.no_sync(): body].  The generator runs [enable_sync(False)],
    yields to the body, and its [finally] runs [enable_sync(True)] whether the
    body returned or raised; the outcome of the body then stands. *)
Definition no_sync (body : DistributedDataParallel → DistributedDataParallel * result ())
    (self : DistributedDataParallel) : DistributedDataParallel * result () :=
  match enable_sync self false with
  | (s1, Raise e) => (s1, Raise e)
  | (s1, Ok _) =>
    let '(s2, outcome) := body s1 in
    match enable_sync s2 true with
    | (s3, Raise e) => (s3, Raise e)
    | (s3, Ok _) => (s3, outcome)
    end
  end.

(** The closure [param_hook] of [_make_param_hook(param, self.param_to_buffer)],
    called with [grad]. *)
Definition run_param_hook (self : DistributedDataParallel) (param : nat) (grad_ : tensor)
  : DistributedDataParallel * result tensor :=
  match param_to_buffer self !! param with
  | None => (self, Raise KeyError)
  | Some buffer =>
    let p := module self !!! param in
    let accumulated :=
      if negb (grad_accumulated p) then
        match main_grad p with
        | None => Raise AttributeError
        | Some mg =>
          match heap self !! buffer with
          | None => Raise AttributeError (* no buffer object: not a Python state *)
          | Some buf =>
            Ok (set_module self
                  (<[param := set_main_grad p
                       (Some (copy_ mg (add mg (astype grad_ (grad_dtype buf)))))]>
                     (module self)))
          end
        end
      else Ok self in
    match accumulated with
    | Raise e => (self, Raise e)
    | Ok self1 =>
      let self2 :=
        if overlap_grad_reduce (ddp_config self1)
        then log_call self1 (register_grad_ready_call buffer param)
        else self1 in
      (self2,
       Ok (match grad (module self2 !!! param) with
           | None => Tensor0 (p_dtype (module self2 !!! param))
           | Some g => g
           end))
    end
  end.

(** ** Invariants of the allocation *)

(** The attributes of a parameter that the buffer allocation leaves alone. *)
Definition static_of (p : MsParameter) : string * dtype * bool * option bool * list hook :=
  (name p, p_dtype p, requires_grad p, allreduce p, hooks p).

(** A parameter is in the group of a key of the dict. *)
Definition covered {K} (d : list (K * list nat)) (i : nat) (k : K) : Prop :=
  ∃ ps, (k, ps) ∈ d ∧ i ∈ ps.

(** What a run of the allocation loop leaves as it was, or only extends. *)
Record alloc_frame (s0 s : DistributedDataParallel) : Prop := {
  fr_config : config s = config s0;
  fr_ddp_config : ddp_config s = ddp_config s0;
  fr_bucket_size : bucket_size s = bucket_size s0;
  fr_buffers : buffers s = buffers s0;
  fr_expert : expert_parallel_buffers s = expert_parallel_buffers s0;
  fr_calls : calls s = calls s0;
  fr_module : static_of <$> module s = static_of <$> module s0;
  fr_heap : ∃ newh, heap s = heap s0 ++ newh;
  fr_dom : ∀ i, is_Some (param_to_buffer s0 !! i) → is_Some (param_to_buffer s !! i);
}.

(** Every entry of [param_to_buffer] names a buffer object that holds the
    parameter and has the dtypes of the parameter's group. *)
Definition ptb_ok (s : DistributedDataParallel) : Prop :=
  ∀ i b, param_to_buffer s !! i = Some b →
    ∃ buf, heap s !! b = Some buf ∧ i ∈ params buf ∧
      (param_dtype buf, grad_dtype buf) = param_and_grad_dtype s i.

(** The object [ParamAndGradBuffer(...)] that the allocation loop builds for
    one item of the dict. *)
Definition buffer_of (bucket_size : option Z) (g : group) (scaling : pyfloat)
    (item : (dtype * dtype) * list nat) : ParamAndGradBuffer :=
  {| param_dtype := item.1.1; grad_dtype := item.1.2; params := item.2;
     data_parallel_group := g; buf_bucket_size := bucket_size;
     gradient_scaling_factor := scaling; sync_enabled := buffer_sync_enabled |}.


End ddp.

(** Integer tensors, tagged with nothing, to run the wrapper on examples. *)
Definition Z_ddp_ops (dp_size pp_rank : Z) : DdpOps :=
  {| tensor := Z; group := string; pyfloat := Z * Z;
     add := Z.add; astype := λ t _, t; copy_ := λ _ src, src; Tensor0 := λ _, 0;
     float_1 := (1, 1); float_div_int := λ f n, (f.1, f.2 * n);
     get_data_parallel_world_size := dp_size;
     get_pipeline_model_parallel_rank := pp_rank;
     get_data_parallel_group := λ cp, if cp then "dp-cp" else "dp";
     get_data_modulo_expert_parallel_group := "dp-modulo-ep";
     buffer_main_grad := λ _ _, Some 0;
     buffer_sync_enabled := true |}.

(** A module of three parameters: a dense fp16 weight, a frozen embedding and
    an expert weight; gradients are reduced in fp32 and overlapped. *)
Definition ddp_example : @DistributedDataParallel (Z_ddp_ops 2 0) :=
  @__init__ (Z_ddp_ops 2 0) {| calculate_per_token_loss := false |}
    {| cfg_bucket_size := None; overlap_grad_reduce := true;
       average_in_collective := false; grad_reduce_in_fp32 := true |}
    [ @Build_MsParameter (Z_ddp_ops 2 0) "w" float16 true None None None false [];
      @Build_MsParameter (Z_ddp_ops 2 0) "emb" float16 false None None None false [];
      @Build_MsParameter (Z_ddp_ops 2 0) "expert.w" bfloat16 true (Some false)
        None None false [] ]
    false.

(** The first parameter and its buffer in [ddp_example]. *)
Definition ddp_example_w : @MsParameter (Z_ddp_ops 2 0) :=
  @Build_MsParameter (Z_ddp_ops 2 0) "w" float16 true None None (Some 0) false
    [param_hook 0].

Definition ddp_example_buffer : @ParamAndGradBuffer (Z_ddp_ops 2 0) :=
  @Build_ParamAndGradBuffer (Z_ddp_ops 2 0) float16 float32 [0%nat] "dp-cp"
    (Some 40000000) (1, 2) true.

(** Five parameters: two fp16 weights and an fp32 bias that are dense, a
    frozen embedding, and an expert weight. *)
Definition ddp_example_params : list (@MsParameter (Z_ddp_ops 2 0)) :=
  [ @Build_MsParameter (Z_ddp_ops 2 0) "w1" float16 true None None None false [];
    @Build_MsParameter (Z_ddp_ops 2 0) "b1" float32 true None None None false [];
    @Build_MsParameter (Z_ddp_ops 2 0) "w2" float16 true (Some true) None None false [];
    @Build_MsParameter (Z_ddp_ops 2 0) "emb" float16 false None None None false [];
    @Build_MsParameter (Z_ddp_ops 2 0) "expert.w" float16 true (Some false)
      None None false [] ].

Definition ddp_example_config : DistributedDataParallelConfig :=
  {| cfg_bucket_size := None; overlap_grad_reduce := true;
     average_in_collective := false; grad_reduce_in_fp32 := false |}.


End DistributedDataParallel.

(** * adamw_zero.py *)

Module AdamWZeRO.

(** The runtime of the optimizer.  A tensor is known here by its dtype and
    shape; what it holds is the runtime's ([payload]), and so are the process
    groups of [parallel_state]. *)
Class ZeroOps := {
  payload : Type;
  group : Type;
  (** the number of ranks of a process group *)
  group_size : group → Z;
  (** the content after [comm_func.all_gather_into_tensor],
      [comm_func.reduce_scatter_tensor], [comm_func.all_reduce] *)
  rt_all_gather : group → payload → payload;
  rt_reduce_scatter : group → payload → payload;
  rt_all_reduce : group → payload → payload;
  (** [ops.cast], [mint.div(t, n)], output [i] of [P.Split(0, n)] *)
  rt_cast : dtype → payload → payload;
  rt_div : payload → Z → payload;
  rt_split : Z → nat → payload → payload;
  (** [initializer(init, shape, dtype)] *)
  rt_initializer : string → list Z → dtype → payload;
  (** [parallel_state], each by [with_context_parallel] *)
  get_data_parallel_world_size : bool → Z;
  get_data_parallel_rank : bool → Z;
  get_data_parallel_group : bool → group;
}.

Record tensor `{ZeroOps} := {
  t_dtype : dtype;
  t_shape : list Z;
  t_data : payload;
}.

(** The collectives the optimizer asks for, in the order of the calls. *)
Inductive collective `{ZeroOps} :=
| AllGather (g : group)
| ReduceScatter (g : group)
| AllReduce (g : group).

(** The two gradient hooks of [_regist_hook_for_params]. *)
Inductive grad_hook := reduce_scatter_hook | reduce_hook.

(** [mindspore.Parameter]: its name, its tensor and its backward hooks. *)
Record MsParameter `{ZeroOps} := {
  name : string;
  data : tensor;
  hooks : list grad_hook;
}.

Record AdamW `{ZeroOps} := {
  zero_level : string;
  allreduce_after_grad_accumulation : bool;
  with_context_parallel : bool;
  grad_allreduce_sum : bool;
  _parameters : list MsParameter;
  _parameter_splited : list bool;
  _status_splited : list bool;
  all_gather_ops : list bool;
  shard_size : Z;
  shard_id : Z;
  dp_cp_group : group;
  zero3_parameters : list string;
  moments1 : list MsParameter;
  moments2 : list MsParameter;
}.

Section zero.
Context `{ZeroOps}.

(** ** Shapes and dtypes of the runtime calls

    Modelled from the documentation of the runtime: gathering along the first
    dimension multiplies it by the size of the group, scattering and
    [P.Split(0, n)] divide it, the other calls keep the shape. *)

Definition scale_first_dim (f : Z → Z) (shape : list Z) : list Z :=
  match shape with
  | [] => []
  | d :: rest => f d :: rest
  end.

Definition all_gather_into_tensor (t : tensor) (g : group) : tensor :=
  {| t_dtype := t_dtype t;
     t_shape := scale_first_dim (λ d, group_size g * d) (t_shape t);
     t_data := rt_all_gather g (t_data t) |}.

Definition reduce_scatter_tensor (t : tensor) (g : group) : tensor :=
  {| t_dtype := t_dtype t;
     t_shape := scale_first_dim (λ d, d / group_size g) (t_shape t);
     t_data := rt_reduce_scatter g (t_data t) |}.

Definition all_reduce (t : tensor) (g : group) : tensor :=
  {| t_dtype := t_dtype t; t_shape := t_shape t;
     t_data := rt_all_reduce g (t_data t) |}.

Definition cast (t : tensor) (d : dtype) : tensor :=
  {| t_dtype := d; t_shape := t_shape t; t_data := rt_cast d (t_data t) |}.

Definition div (t : tensor) (n : Z) : tensor :=
  {| t_dtype := t_dtype t; t_shape := t_shape t; t_data := rt_div (t_data t) n |}.

(** [P.Split(0, n)(t)[i]] *)
Definition split_chunk (n : Z) (i : nat) (t : tensor) : tensor :=
  {| t_dtype := t_dtype t;
     t_shape := scale_first_dim (λ d, d / n) (t_shape t);
     t_data := rt_split n i (t_data t) |}.

(** ** Module-level functions *)

Definition _split_params_to_fp32 (shard_id : Z) (n : Z) (param : tensor)
    (need_split : bool) : tensor :=
  let splited_param :=
    if need_split then split_chunk n (Z.to_nat shard_id) param else param in
  if decide (t_dtype splited_param ≠ float32) then cast splited_param float32
  else splited_param.

(** [_update_params_opt_parallel]: the parameter after [assign_value], and
    the collectives called. *)
Definition _update_params_opt_parallel (g : group) (param : MsParameter)
    (update : tensor) (all_gather : bool) : MsParameter * list collective :=
  let '(update, called) :=
    if all_gather then (all_gather_into_tensor update g, [AllGather g])
    else (update, []) in
  let update :=
    if decide (t_dtype update ≠ t_dtype (data param))
    then cast update (t_dtype (data param)) else update in
  ({| name := name param; data := update; hooks := hooks param |}, called).

Definition _inner_grad_reduce_scatter (dp_cp_group : group) (grad_allreduce_sum : bool)
    (shard_size : Z) (grads : tensor) (grads_splited parameter_splited : bool)
  : tensor * list collective :=
  let '(grads, called) :=
    if grads_splited || parameter_splited
    then (reduce_scatter_tensor grads dp_cp_group, [ReduceScatter dp_cp_group])
    else (all_reduce grads dp_cp_group, [AllReduce dp_cp_group]) in
  let grads := if negb grad_allreduce_sum then div grads shard_size else grads in
  (grads, called).

(** ** [AdamW] *)

(** [x in ["z2", "z3"]] *)
Definition in_z2_z3 (zero_level : string) : bool :=
  String.eqb zero_level "z2" || String.eqb zero_level "z3".

(** The loop of [_parameter_status_split] from index [i] on; the two lists are
    [_parameter_splited] and [_status_splited]. *)
Fixpoint _parameter_status_split_loop (zero_level : string) (zero3_parameters : list string)
    (shard_size : Z) (i : nat) (ps : list MsParameter)
    (parameter_splited status_splited : list bool) : result (list bool * list bool) :=
  match ps with
  | [] => Ok (parameter_splited, status_splited)
  | param :: ps' =>
    lists ←
      (if String.eqb zero_level "z3" then
         if bool_decide (name param ∈ zero3_parameters)
         then Ok (<[i := true]> parameter_splited, status_splited)
         else
           d ← py_index (t_shape (data param)) 0;
           r ← py_mod d shard_size;
           Ok (parameter_splited,
               if r =? 0 then <[i := true]> status_splited else status_splited)
       else
         d ← py_index (t_shape (data param)) 0;
         r ← py_mod d shard_size;
         Ok (parameter_splited,
             if r =? 0 then <[i := true]> status_splited else status_splited));
    _parameter_status_split_loop zero_level zero3_parameters shard_size (S i) ps'
      lists.1 lists.2
  end.

Definition _init_all_gather_ops (status_splited all_gather_ops : list bool) : list bool :=
  foldl (λ ops '(i, param_splited), if param_splited : bool then <[i := true]> ops else ops)
        all_gather_ops (zip (seq 0 (length status_splited)) status_splited).

Definition _regist_hook_for_params (zero_level : string)
    (parameter_splited status_splited : list bool) (ps : list MsParameter)
  : list MsParameter :=
  imap (λ i param,
          {| name := name param; data := data param;
             hooks := hooks param ++
               [if (parameter_splited !!! i || status_splited !!! i) && in_z2_z3 zero_level
                then reduce_scatter_hook else reduce_hook] |})
       ps.

(** The loop of [_init_momentum] from index [i] on. *)
Fixpoint _init_momentum_loop (status_splited : list bool) (shard_size : Z)
    (prefix init : string) (i : nat) (ps : list MsParameter) : result (list MsParameter) :=
  match ps with
  | [] => Ok []
  | param :: ps' =>
    let param_shape := t_shape (data param) in
    shape ←
      (if (status_splited !!! i : bool) then
         d ← py_index param_shape 0;
         q ← py_floordiv d shard_size;
         Ok (<[0%nat := q]> param_shape)
       else Ok param_shape);
    let moment :=
      {| name := prefix +:+ "." +:+ name param;
         data := {| t_dtype := float32; t_shape := shape;
                    t_data := rt_initializer init shape float32 |};
         hooks := [] |} in
    rest ← _init_momentum_loop status_splited shard_size prefix init (S i) ps';
    Ok (moment :: rest)
  end.

(** [__init__], for the fields that drive partitioning and communication.
    [params] stands for [self._parameters] as the base class sets it, and
    [zero3_params] for the names [_regist_hook_for_cells] collects from the
    cells of the network (read at level z3 only).  The learning rate, betas,
    eps, weight decay, offload and resident-parameter arguments do not reach
    these fields and are left out, with the checks made on them. *)
Definition __init__ (params : list MsParameter) (zero_level : string)
    (allreduce_after_grad_accumulation : bool) (grad_allreduce_op : string)
    (with_context_parallel : bool) (zero3_params : list string) : result AdamW :=
  if negb (String.eqb grad_allreduce_op "mean" || String.eqb grad_allreduce_op "sum")
  then Raise NotImplementedError
  else
    let n := length params in
    let shard_size := get_data_parallel_world_size with_context_parallel in
    let shard_id := get_data_parallel_rank with_context_parallel in
    let dp_cp_group := get_data_parallel_group with_context_parallel in
    let zero3_parameters := if String.eqb zero_level "z3" then zero3_params else [] in
    lists ← _parameter_status_split_loop zero_level zero3_parameters shard_size 0 params
              (replicate n false) (replicate n false);
    let params :=
      if negb allreduce_after_grad_accumulation
      then _regist_hook_for_params zero_level lists.1 lists.2 params
      else params in
    let all_gather_ops := _init_all_gather_ops lists.2 (replicate n false) in
    m1 ← _init_momentum_loop lists.2 shard_size "adam_m" "zeros" 0 params;
    m2 ← _init_momentum_loop lists.2 shard_size "adam_v" "zeros" 0 params;
    Ok {| zero_level := zero_level;
          allreduce_after_grad_accumulation := allreduce_after_grad_accumulation;
          with_context_parallel := with_context_parallel;
          grad_allreduce_sum := String.eqb grad_allreduce_op "sum";
          _parameters := params;
          _parameter_splited := lists.1;
          _status_splited := lists.2;
          all_gather_ops := all_gather_ops;
          shard_size := shard_size;
          shard_id := shard_id;
          dp_cp_group := dp_cp_group;
          zero3_parameters := zero3_parameters;
          moments1 := m1;
          moments2 := m2 |}.

(** A gradient hook called with [grad]. *)
Definition run_grad_hook (self : AdamW) (h : grad_hook) (grad_ : tensor)
  : tensor * list collective :=
  match h with
  | reduce_scatter_hook =>
    let res := reduce_scatter_tensor grad_ (dp_cp_group self) in
    (if negb (grad_allreduce_sum self) then div res (shard_size self) else res,
     [ReduceScatter (dp_cp_group self)])
  | reduce_hook =>
    let res := all_reduce grad_ (dp_cp_group self) in
    (if negb (grad_allreduce_sum self) then div res (shard_size self) else res,
     [AllReduce (dp_cp_group self)])
  end.

(** [HyperMap] over three tuples of equal length. *)
Definition hyper_map3 {A B C D} (f : A → B → C → D)
    (xs : list A) (ys : list B) (zs : list C) : list D :=
  zip_with (λ xy z, f xy.1 xy.2 z) (zip xs ys) zs.

(** [construct], the reduction of the gradients at its start: for every
    gradient the reduced gradient with the collectives called for it. *)
Definition construct_reduce (self : AdamW) (grads : list tensor)
  : list (tensor * list collective) :=
  if allreduce_after_grad_accumulation self && in_z2_z3 (zero_level self)
  then hyper_map3 (_inner_grad_reduce_scatter (dp_cp_group self)
                     (grad_allreduce_sum self) (shard_size self))
         grads (_status_splited self) (_parameter_splited self)
  else (λ g, (g, [])) <$> grads.

(** [construct], the operands [params] of the update:
    [hyper_map(partial(_split_params, shard_id, split), parameters, _status_splited)]
    with [split = P.Split(0, shard_size)]. *)
Definition construct_params (self : AdamW) : list tensor :=
  zip_with (λ param need_split,
              _split_params_to_fp32 (shard_id self) (shard_size self) (data param) need_split)
           (_parameters self) (_status_splited self).

(** [construct], its last statement:
    [hyper_map(partial(_update_params, dp_cp_group), parameters, optim_result, all_gather_ops)],
    every parameter with the collectives called for it. *)
Definition construct_update (self : AdamW) (optim_result : list tensor)
  : list (MsParameter * list collective) :=
  hyper_map3 (_update_params_opt_parallel (dp_cp_group self))
    (_parameters self) optim_result (all_gather_ops self).

(** ** What the partitioning is expected to be *)

(** The parameter itself is partitioned: level z3, on a parameter of a
    ZeRO-3 cell. *)
Definition parameter_partitioned (zero_level : string) (zero3_params : list string)
    (param : MsParameter) : bool :=
  String.eqb zero_level "z3" && bool_decide (name param ∈ zero3_params).

(** The optimizer state is partitioned: the parameter is not, and its first
    dimension is a multiple of the shard size. *)
Definition status_partitioned (zero_level : string) (zero3_params : list string)
    (shard_size : Z) (param : MsParameter) : bool :=
  negb (parameter_partitioned zero_level zero3_params param)
  && bool_decide (hd 0 (t_shape (data param)) mod shard_size = 0).

(** The shape of a moment: the first dimension divided when the state is
    partitioned. *)
Definition moment_shape (partitioned : bool) (shard_size : Z) (shape : list Z) : list Z :=
  if partitioned then scale_first_dim (λ d, d / shard_size) shape else shape.

(** The moment [_init_momentum] creates for a parameter. *)
Definition moment_of (prefix init : string) (shard_size : Z) (partitioned : bool)
    (param : MsParameter) : MsParameter :=
  let shape := moment_shape partitioned shard_size (t_shape (data param)) in
  {| name := prefix +:+ "." +:+ name param;
     data := {| t_dtype := float32; t_shape := shape;
                t_data := rt_initializer init shape float32 |};
     hooks := [] |}.

(** A gradient on its way out of the backward pass: the hooks registered on
    the parameter are applied to it in the order of their registration. *)
Definition run_hooks (self : AdamW) (param : MsParameter) (grad_ : tensor) : tensor :=
  foldl (λ g h, (run_grad_hook self h g).1) grad_ (hooks param).

(** [construct], the gradients it hands to the update: at level z1 they are
    split like the parameters,
    [hyper_map(partial(_split_params, shard_id, split), grads, _status_splited)],
    and with reduction after accumulation they are reduced
    ([construct_reduce]).  [flatten_gradients] belongs to the base class and
    keeps the tuple when gradients are not flattened. *)
Definition construct_grads (self : AdamW) (grads : list tensor) : list tensor :=
  let grads :=
    if String.eqb (zero_level self) "z1"
    then zip_with (λ grad_ need_split,
                     _split_params_to_fp32 (shard_id self) (shard_size self) grad_ need_split)
                  grads (_status_splited self)
    else grads in
  (construct_reduce self grads).*1.

(** [__init__] can index and divide the first dimension of a parameter, or
    does not look at it. *)
Definition first_dim_usable (zero_level : string) (zero3_params : list string)
    (shard_size : Z) (param : MsParameter) : Prop :=
  parameter_partitioned zero_level zero3_params param = true
  ∨ (t_shape (data param) ≠ [] ∧ shard_size ≠ 0).


End zero.

(** Tensors without content, groups given by their size: enough to follow
    shapes, dtypes and collectives on examples. *)
Definition unit_zero_ops (world_size rank : Z) : ZeroOps :=
  {| payload := (); group := Z; group_size := id;
     rt_all_gather := λ _ _, (); rt_reduce_scatter := λ _ _, ();
     rt_all_reduce := λ _ _, (); rt_cast := λ _ _, (); rt_div := λ _ _, ();
     rt_split := λ _ _ _, (); rt_initializer := λ _ _ _, ();
     get_data_parallel_world_size := λ _, world_size;
     get_data_parallel_rank := λ _, rank;
     get_data_parallel_group := λ _, world_size |}.

(** Two ranks; a [4 x 3] fp16 weight, whose rows split evenly, and a
    [3 x 3] fp32 weight, whose rows do not. *)
Definition zero_example_params : list (@MsParameter (unit_zero_ops 2 0)) :=
  [ @Build_MsParameter (unit_zero_ops 2 0) "w1"
      (@Build_tensor (unit_zero_ops 2 0) float16 [4; 3] ()) [];
    @Build_MsParameter (unit_zero_ops 2 0) "w2"
      (@Build_tensor (unit_zero_ops 2 0) float32 [3; 3] ()) [] ].

(** ** [AdamW._param_resident_flag]

    The rate is a Python float: the product [total_numel * param_resident_rate]
    and the comparison of an int with it are the runtime's. *)
Class ResidentOps := {
  pyfloat : Type;
  int_mul_float : Z → pyfloat → pyfloat;
  int_ge_float : Z → pyfloat → bool;
  float_lt_int : pyfloat → Z → bool;
}.

(** The order of [sorted(items, key=lambda kv: (kv[1], kv[0]), reverse=True)]
    on items [(cell id, numel)]: the larger [numel] first, and among equal
    ones the larger id. *)
Definition resident_order (x y : nat * Z) : Prop :=
  y.2 < x.2 ∨ (y.2 = x.2 ∧ (y.1 ≤ x.1)%nat).

Global Instance resident_order_dec x y : Decision (resident_order x y).
Proof. unfold resident_order. apply _. Defined.

Section resident.
Context `{ResidentOps}.

(** The loop over the sorted items, from [numel_count] and [resident_cell_id]. *)
Fixpoint resident_loop (threshold : pyfloat) (items : list (nat * Z))
    (numel_count : Z) (resident_cell_id : list nat) : list nat :=
  match items with
  | [] => resident_cell_id
  | param_numel :: items' =>
    let numel_count := numel_count + param_numel.2 in
    let resident_cell_id := resident_cell_id ++ [param_numel.1] in
    if int_ge_float numel_count threshold then resident_cell_id
    else resident_loop threshold items' numel_count resident_cell_id
  end.

(** The dict [zero3_param_numel] maps the position of a ZeRO-3 cell to the
    number of elements of its parameters.  Its keys are distinct, so every
    sorting algorithm orders its items the same way. *)
Definition _param_resident_flag (zero3_param_numel : gmap nat Z)
    (param_resident_rate : pyfloat) : list nat :=
  let total_numel := foldr Z.add 0 (map_to_list zero3_param_numel).*2 in
  let zero3_param_numel := sorting.merge_sort resident_order (map_to_list zero3_param_numel) in
  resident_loop (int_mul_float total_numel param_resident_rate) zero3_param_numel 0 [].

(** The number of elements of a list of cells. *)
Definition numel_of (zero3_param_numel : gmap nat Z) (cells : list nat) : Z :=
  foldr Z.add 0 ((λ i, default 0 (zero3_param_numel !! i)) <$> cells).

End resident.

(** Rates as exact rationals [n / 1000], to run the function on examples. *)
Definition permille_resident_ops : ResidentOps :=
  {| pyfloat := Z; int_mul_float := λ n r, n * r;
     int_ge_float := λ n x, 1000 * n >=? x;
     float_lt_int := λ x n, x <? 1000 * n |}.

(** ** [AdamW._regist_hook_for_cells] *)

(** The four hooks of the method. *)
Inductive cell_hook :=
| _pre_forward_cell_hook | _post_forward_cell_hook
| _pre_backward_cell_hook | _post_backward_cell_hook.

Global Instance cell_hook_eq_dec : EqDecision cell_hook.
Proof. solve_decision. Defined.

(** [list.remove(x)]: the first occurrence goes, and there has to be one. *)
Fixpoint py_remove (x : string) (l : list string) : result (list string) :=
  match l with
  | [] => Raise ValueError
  | y :: l' => if String.eqb y x then Ok l' else (λ r, y :: r) <$> py_remove x l'
  end.

Section cells.
Context `{ZeroOps} `{ResidentOps}.

(** A cell of the network, as far as the method reads it: the name of its
    class, the attributes of the two linear classes ([bias_name] for
    [bias.name]), what [get_parameters()] yields, and [cells()]. *)
#[warnings="-register-all"] Inductive Cell :=
  mkCell (class_name : string) (use_zero3 has_bias skip_bias_add : bool)
         (bias_name : string) (get_parameters : list MsParameter) (cells : list Cell).

Definition class_name (c : Cell) : string := let 'mkCell n _ _ _ _ _ _ := c in n.
Definition use_zero3 (c : Cell) : bool := let 'mkCell _ z _ _ _ _ _ := c in z.
Definition has_bias (c : Cell) : bool := let 'mkCell _ _ b _ _ _ _ := c in b.
Definition skip_bias_add (c : Cell) : bool := let 'mkCell _ _ _ s _ _ _ := c in s.
Definition bias_name (c : Cell) : string := let 'mkCell _ _ _ _ n _ _ := c in n.
Definition get_parameters (c : Cell) : list MsParameter :=
  let 'mkCell _ _ _ _ _ ps _ := c in ps.
Definition cells (c : Cell) : list Cell := let 'mkCell _ _ _ _ _ _ cs := c in cs.

(** A cell with the hooks this method registers on it. *)
Record hooked_cell := {
  the_cell : Cell;
  forward_pre_hooks : list cell_hook;
  forward_hooks : list cell_hook;
}.

Record cells_registered := {
  z3_optim_cells : list hooked_cell;
  skip_bias_add_list : list string;
  cells_zero3_parameters : list string;
}.

(** The condition under which [recursion_cells] takes a cell. *)
Definition is_zero3_linear (sub_cell : Cell) : bool :=
  (String.eqb (class_name sub_cell) "ColumnParallelLinear"
   || String.eqb (class_name sub_cell) "RowParallelLinear")
  && use_zero3 sub_cell.

(** [recursion_cells(cell)], on the lists [z3_optim_cells] and
    [skip_bias_add_list]. *)
Fixpoint recursion_cells (cell : Cell) (lists : list Cell * list string)
  : list Cell * list string :=
  let 'mkCell _ _ _ _ _ _ sub_cells_list := cell in
  foldl (λ lists sub_cell,
           if is_zero3_linear sub_cell then
             let skip :=
               if has_bias sub_cell && skip_bias_add sub_cell
               then lists.2 ++ [bias_name sub_cell] else lists.2 in
             (lists.1 ++ [sub_cell], skip)
           else recursion_cells sub_cell lists)
        lists sub_cells_list.

(** [Tensor.numel()] *)
Definition numel (t : tensor) : Z := foldr Z.mul 1 (t_shape t).

(** The dict [zero3_param_numel]. *)
Definition cells_param_numel (z3_optim_cells : list Cell) : gmap nat Z :=
  list_to_map
    (imap (λ i sub_cell,
             (i, foldl (λ sub_cell_param_numel sub_cell_param,
                          sub_cell_param_numel + numel (data sub_cell_param))
                       0 (get_parameters sub_cell)))
          z3_optim_cells).

(** The loop that registers the hooks, from the cell number [i] on. *)
Fixpoint register_cell_hooks (param_resident : bool) (rate_below_one : bool)
    (resident_cell_id : list nat) (i : nat) (sub_cells : list Cell)
    (skip_bias_add_list zero3_parameters : list string)
  : result (list hooked_cell * list string * list string) :=
  match sub_cells with
  | [] => Ok ([], skip_bias_add_list, zero3_parameters)
  | sub_cell :: rest =>
    let resident_condition :=
      param_resident && rate_below_one && bool_decide (i ∉ resident_cell_id) in
    registered ←
      (if negb param_resident || resident_condition then
         Ok ([_post_forward_cell_hook; _pre_backward_cell_hook], skip_bias_add_list)
       else if has_bias sub_cell && skip_bias_add sub_cell then
         skip_bias_add_list ← py_remove (bias_name sub_cell) skip_bias_add_list;
         Ok ([], skip_bias_add_list)
       else Ok ([], skip_bias_add_list));
    let zero3_parameters := zero3_parameters ++ (name <$> get_parameters sub_cell) in
    later ← register_cell_hooks param_resident rate_below_one resident_cell_id (S i) rest
              registered.2 zero3_parameters;
    Ok ({| the_cell := sub_cell;
           forward_pre_hooks := [_pre_forward_cell_hook; _post_backward_cell_hook];
           forward_hooks := registered.1 |} :: later.1.1,
        later.1.2, later.2)
  end.

Definition _regist_hook_for_cells (network : Cell) (param_resident : bool)
    (param_resident_rate : pyfloat) : result cells_registered :=
  let lists := recursion_cells network ([], []) in
  let rate_below_one := param_resident && float_lt_int param_resident_rate 1 in
  let resident_cell_id :=
    if rate_below_one
    then _param_resident_flag (cells_param_numel lists.1) param_resident_rate
    else [] in
  registered ← register_cell_hooks param_resident rate_below_one resident_cell_id 0
                  lists.1 lists.2 [];
  Ok {| z3_optim_cells := registered.1.1; skip_bias_add_list := registered.1.2;
        cells_zero3_parameters := registered.2 |}.

(** The cell keeps its parameters split between the forward and the backward
    pass: it is not resident. *)
Definition splits_after_forward (param_resident : bool) (param_resident_rate : pyfloat)
    (z3_optim_cells : list Cell) (i : nat) : bool :=
  negb param_resident
  || (float_lt_int param_resident_rate 1
      && bool_decide (i ∉ _param_resident_flag (cells_param_numel z3_optim_cells)
                            param_resident_rate)).

(** The bias names of the cells, numbered from [i] on, that have a bias added
    outside the cell and keep their parameters split after the forward. *)
Definition kept_bias_names (keeps : nat → bool) (i : nat) (z3_optim_cells : list Cell)
  : list string :=
  (λ kc, bias_name kc.2)
    <$> filter (λ kc : nat * Cell, keeps kc.1 && has_bias kc.2 && skip_bias_add kc.2)
               (zip (seq i (length z3_optim_cells)) z3_optim_cells).

(** What the hooks do to the parameters of their cell: [_pre_forward_cell_hook],
    [_post_forward_cell_hook], and the functions that the cells of
    [_pre_backward_cell_hook] and [_post_backward_cell_hook] run in the
    backward pass. *)
Definition assign_value (param : MsParameter) (t : tensor) : MsParameter :=
  {| name := name param; data := t; hooks := hooks param |}.

Definition pre_forward (self : AdamW) (cell_params : list MsParameter)
  : list MsParameter :=
  (λ cell_param,
     assign_value cell_param (all_gather_into_tensor (data cell_param) (dp_cp_group self)))
    <$> cell_params.

Definition post_forward (self : AdamW) (skip_bias_add_list : list string)
    (cell_params : list MsParameter) : list MsParameter :=
  (λ cell_param,
     if bool_decide (name cell_param ∈ skip_bias_add_list) then cell_param
     else assign_value cell_param
            (split_chunk (shard_size self) (Z.to_nat (shard_id self)) (data cell_param)))
    <$> cell_params.

Definition _run_before_backward_function (self : AdamW) (skip_bias_add_list : list string)
    (cell_params : list MsParameter) : list MsParameter :=
  (λ cell_param,
     if bool_decide (name cell_param ∈ skip_bias_add_list) then cell_param
     else assign_value cell_param
            (all_gather_into_tensor (data cell_param) (dp_cp_group self)))
    <$> cell_params.

Definition _run_after_backward_function (self : AdamW) (cell_params : list MsParameter)
  : list MsParameter :=
  (λ cell_param,
     assign_value cell_param
       (split_chunk (shard_size self) (Z.to_nat (shard_id self)) (data cell_param)))
    <$> cell_params.

(** One forward and backward pass through a cell, for the hooks registered
    on it: the forward pre-hook [_pre_forward_cell_hook], the forward, the
    forward hook [_post_forward_cell_hook], and in the backward pass the cell
    that [_pre_backward_cell_hook] has put behind the output, the backward of
    the cell, and the cell that [_post_backward_cell_hook] has put before the
    input. *)
Definition pass_through (self : AdamW) (skip_bias_add_list : list string)
    (c : hooked_cell) (cell_params : list MsParameter) : list MsParameter :=
  let cell_params :=
    if decide (_pre_forward_cell_hook ∈ forward_pre_hooks c)
    then pre_forward self cell_params else cell_params in
  let cell_params :=
    if decide (_post_forward_cell_hook ∈ forward_hooks c)
    then post_forward self skip_bias_add_list cell_params else cell_params in
  let cell_params :=
    if decide (_pre_backward_cell_hook ∈ forward_hooks c)
    then _run_before_backward_function self skip_bias_add_list cell_params
    else cell_params in
  if decide (_post_backward_cell_hook ∈ forward_pre_hooks c)
  then _run_after_backward_function self cell_params else cell_params.

End cells.

(** A network for examples: two ZeRO-3 linear cells, the first with a bias
    added outside the cell, and between them a block with a linear cell that
    does not use ZeRO-3 and a norm. *)
Definition zero_example_network : @Cell (unit_zero_ops 2 0) :=
  let p (n : string) (s : list Z) :=
    @Build_MsParameter (unit_zero_ops 2 0) n
      (@Build_tensor (unit_zero_ops 2 0) float16 s ()) [] in
  let leaf (c : string) (z3 bias skip : bool) (b : string) ps :=
    @mkCell (unit_zero_ops 2 0) c z3 bias skip b ps [] in
  @mkCell (unit_zero_ops 2 0) "Net" false false false "" []
    [ leaf "ColumnParallelLinear" true true true "fc1.bias"
        [p "fc1.weight" [4; 8]; p "fc1.bias" [4]];
      @mkCell (unit_zero_ops 2 0) "Block" false false false "" []
        [ leaf "RowParallelLinear" false true false "proj.bias" [p "proj.weight" [8; 8]];
          leaf "LayerNorm" false false false "" [p "norm.gamma" [8]] ];
      leaf "RowParallelLinear" true false false "" [p "fc2.weight" [8; 2]] ].

(** ** [AdamW.sharded_state_dict] *)

(** An entry of [model_sharded_state_dict], as far as the method reads it: the
    tuple under the key ['shard'], when the entry has that key. *)
Record model_entry := { entry_shard : option (list Z) }.

(** [opt_weight_shard_step]: [np.prod(shard)] of the shard tuple, or the int [0]. *)
Inductive shard_step :=
| np_prod (shard : list Z)
| int_0.

(** An entry of the returned dict. *)
Record state_entry := {
  st_shape : list Z;
  st_shard : list Z;
  opt_weight_shard_step : shard_step;
  opt_weight_shard_size : Z;
}.

(** The method returns the dict, raises [Exception(message)], or raises an
    error of the interpreter. *)
Inductive outcome (A : Type) :=
| Returned (a : A)
| RaisedException (message : string)
| RaisedError (e : exn).
Arguments Returned {A} a.
Arguments RaisedException {A} message.
Arguments RaisedError {A} e.

(** [get_data_parallel_world_size()], called without an argument. *)
Class ShardedStateOps := {
  get_data_parallel_world_size_default : Z;
}.

Section sharded.
Context `{ZeroOps} `{ShardedStateOps}.

(** The loop of [sharded_state_dict] from position [idx] on. *)
Fixpoint sharded_state_dict_loop (self : AdamW) (model_sharded_state_dict : gmap string model_entry)
    (idx : nat) (ps : list MsParameter) (state_dict : gmap string state_entry)
  : outcome (gmap string state_entry) :=
  match ps with
  | [] => Returned state_dict
  | param :: ps' =>
    match moments1 self !! idx, moments2 self !! idx with
    | Some moment1, Some moment2 =>
      let model_name := name param in
      match model_sharded_state_dict !! model_name ≫= entry_shard with
      | None =>
        RaisedException
          ("the input dict has no shard info for '" +:+ model_name +:+ "'.")
      | Some shard =>
        match _status_splited self !! idx with
        | None => RaisedError IndexError
        | Some status_splited =>
          match (if status_splited : bool then Some true
                 else _parameter_splited self !! idx) with
          | None => RaisedError IndexError
          | Some splited =>
            let opt_weight_shard_step := if splited : bool then np_prod shard else int_0 in
            let opt_weight_shard_size :=
              if splited then get_data_parallel_world_size_default else 0 in
            let state_dict :=
              <[name moment1 :=
                  {| st_shape := t_shape (data moment1); st_shard := shard;
                     opt_weight_shard_step := opt_weight_shard_step;
                     opt_weight_shard_size := opt_weight_shard_size |}]> state_dict in
            let state_dict :=
              <[name moment2 :=
                  {| st_shape := t_shape (data moment2); st_shard := shard;
                     opt_weight_shard_step := opt_weight_shard_step;
                     opt_weight_shard_size := opt_weight_shard_size |}]> state_dict in
            sharded_state_dict_loop self model_sharded_state_dict (S idx) ps' state_dict
          end
        end
      end
    | _, _ => RaisedError IndexError
    end
  end.

Definition sharded_state_dict (self : AdamW)
    (model_sharded_state_dict : gmap string model_entry)
  : outcome (gmap string state_entry) :=
  sharded_state_dict_loop self model_sharded_state_dict 0 (_parameters self) ∅.

(** The two entries the loop of [sharded_state_dict] makes for a parameter
    of an optimizer built by [__init__], from the shard tuple of the parameter. *)
Definition state_entries_of (zero_level : string) (zero3_params : list string)
    (shard_size : Z) (param : MsParameter) (shard : list Z)
  : list (string * state_entry) :=
  let status_splited := status_partitioned zero_level zero3_params shard_size param in
  let splited := status_splited || parameter_partitioned zero_level zero3_params param in
  let entry :=
    {| st_shape := moment_shape status_splited shard_size (t_shape (data param));
       st_shard := shard;
       opt_weight_shard_step := if splited then np_prod shard else int_0;
       opt_weight_shard_size :=
         if splited then get_data_parallel_world_size_default else 0 |} in
  [("adam_m" +:+ "." +:+ name param, entry); ("adam_v" +:+ "." +:+ name param, entry)].

End sharded.


(** Two ranks in the default data-parallel group. *)
Definition two_rank_state_ops : ShardedStateOps :=
  {| get_data_parallel_world_size_default := 2 |}.

(** Shard info for the parameters of the example. *)
Definition zero_example_model_dict : gmap string model_entry :=
  {[ "w1" := {| entry_shard := Some [1; 1] |};
     "w2" := {| entry_shard := Some [2; 1] |} ]}.

End AdamWZeRO.

(** * collective_primitives.py *)

Module CollectivePrimitives.

(** ** Tensors and the layout calls of the runtime

    A tensor is its shape and its element at every index (a list with one
    position per dimension).  The calls below are modelled from the
    documentation of the runtime, for the arguments this file passes. *)

Record tensor (A : Type) := {
  shape : list nat;
  elem : list nat → A;
}.
Arguments shape {A} t.
Arguments elem {A} t idx.

(** An index within the bounds of a shape. *)
Definition valid_index (s idx : list nat) : Prop := Forall2 (λ i d, (i < d)%nat) idx s.

(** Two tensors with the same shape and the same element at every index
    within it. *)
Definition same_tensor {A} (t t' : tensor A) : Prop :=
  shape t' = shape t ∧ ∀ idx, valid_index (shape t) idx → elem t' idx = elem t idx.

Definition numel (s : list nat) : nat := foldr Nat.mul 1%nat s.

(** The position of an index in row-major order, and back. *)
Fixpoint ravel (s idx : list nat) : nat :=
  match s, idx with
  | _ :: s', i :: idx' => (i * numel s' + ravel s' idx')%nat
  | _, _ => 0%nat
  end.

Fixpoint unravel (s : list nat) (k : nat) : list nat :=
  match s with
  | [] => []
  | _ :: s' => (k / numel s')%nat :: unravel s' (k mod numel s')%nat
  end.

(** [l[k]] for a Python int [k], negative from the end. *)
Definition py_getitem {B} (l : list B) (k : Z) : result B :=
  let n := Z.of_nat (length l) in
  if (k <? - n) || (n <=? k) then Raise IndexError
  else match l !! Z.to_nat (if k <? 0 then k + n else k) with
       | Some x => Ok x
       | None => Raise IndexError
       end.

(** An [axis] argument, negative from the end. *)
Definition canonicalize_axis (axis : Z) (ndim : nat) : result nat :=
  let n := Z.of_nat ndim in
  if (axis <? - n) || (n <=? axis) then Raise ValueError
  else Ok (Z.to_nat (if axis <? 0 then axis + n else axis)).

Fixpoint canonicalize_axes (axes : list Z) (ndim : nat) : result (list nat) :=
  match axes with
  | [] => Ok []
  | a :: axes' =>
    k ← canonicalize_axis a ndim;
    ks ← canonicalize_axes axes' ndim;
    Ok (k :: ks)
  end.

(** [range(a, b)] *)
Definition py_range (a b : Z) : list Z := Z.of_nat <$> seq (Z.to_nat a) (Z.to_nat (b - a)).

Section layout.
Context {A : Type}.

Definition ndim (t : tensor A) : Z := Z.of_nat (length (shape t)).

(** [ops.stop_gradient] and [Tensor.contiguous] do not change the value. *)
Definition stop_gradient (t : tensor A) : tensor A := t.
Definition contiguous (t : tensor A) : tensor A := t.

(** [t.reshape(-1, n)]: rows of [n] elements, in row-major order. *)
Definition reshape_rows (t : tensor A) (n : Z) : result (tensor A) :=
  let total := numel (shape t) in
  if n <=? 0 then Raise ValueError
  else if negb (Z.of_nat total mod n =? 0) then Raise ValueError
  else
    let s := [(total / Z.to_nat n)%nat; Z.to_nat n] in
    Ok {| shape := s; elem := λ idx, elem t (unravel (shape t) (ravel s idx)) |}.

(** [ops.split(t, size, axis)] with an int [size]: chunks of [size] along
    [axis], the last one shorter when [size] does not divide the dimension. *)
Definition split (t : tensor A) (size : Z) (axis : Z) : result (list (tensor A)) :=
  ax ← canonicalize_axis axis (length (shape t));
  if size <=? 0 then Raise ValueError
  else
    let sz := Z.to_nat size in
    let dim := nth ax (shape t) 0%nat in
    Ok ((λ c, {| shape := <[ax := Nat.min sz (dim - c * sz)]> (shape t);
                 elem := λ idx, elem t (alter (λ i, i + c * sz)%nat ax idx) |})
          <$> seq 0 ((dim + sz - 1) / sz)).

(** The chunk number [c] of [ops.split(t, sz, ax)], for a dimension [dim]. *)
Definition chunk (t : tensor A) (ax sz dim c : nat) : tensor A :=
  {| shape := <[ax := Nat.min sz (dim - c * sz)]> (shape t);
     elem := λ idx, elem t (alter (λ i, i + c * sz)%nat ax idx) |}.

(** The element of [ops.cat((t, *ts), axis)] at an index. *)
Fixpoint cat_elem (ax : nat) (t : tensor A) (ts : list (tensor A)) (idx : list nat) : A :=
  match ts with
  | [] => elem t idx
  | t' :: ts' =>
    let d := nth ax (shape t) 0%nat in
    if (nth ax idx 0 <? d)%nat then elem t idx
    else cat_elem ax t' ts' (alter (λ i, i - d)%nat ax idx)
  end.

(** [ops.cat(ts, axis)]; the runtime refuses tensors that differ in another
    dimension, which the model does not look at. *)
Definition cat (ts : list (tensor A)) (axis : Z) : result (tensor A) :=
  match ts with
  | [] => Raise ValueError
  | t :: ts' =>
    ax ← canonicalize_axis axis (length (shape t));
    Ok {| shape := <[ax := foldr (λ t' n, nth ax (shape t') 0 + n)%nat 0%nat ts]> (shape t);
          elem := cat_elem ax t ts' |}
  end.

(** The position of [k] in a permutation. *)
Fixpoint index_of (k : nat) (p : list nat) : nat :=
  match p with
  | [] => 0%nat
  | x :: p' => if decide (x = k) then 0%nat else S (index_of k p')
  end.

(** The index [src] with [src[p[d]] = idx[d]] for every dimension [d]. *)
Definition permute_index (p idx : list nat) : list nat :=
  (λ k, nth (index_of k p) idx 0%nat) <$> seq 0 (length p).

(** [ops.transpose(t, perm)]: dimension [d] of the result is dimension
    [perm[d]] of [t]. *)
Definition transpose (t : tensor A) (perm : list Z) : result (tensor A) :=
  p ← canonicalize_axes perm (length (shape t));
  if bool_decide (length p = length (shape t) ∧ NoDup p)
  then Ok {| shape := (λ k, nth k (shape t) 0%nat) <$> p;
             elem := λ idx, elem t (permute_index p idx) |}
  else Raise ValueError.

(** [t[a:b]] along the first dimension, for [0 ≤ a ≤ b]. *)
Definition slice0 (t : tensor A) (a b : Z) : tensor A :=
  match shape t with
  | [] => t
  | d :: rest =>
    let lo := Nat.min (Z.to_nat a) d in
    let hi := Nat.min (Z.to_nat b) d in
    {| shape := (hi - lo)%nat :: rest;
       elem := λ idx, elem t (alter (λ i, i + lo)%nat 0%nat idx) |}
  end.

(** The same shape and the same element at every index. *)
Definition equal_tensor (t t' : tensor A) : Prop :=
  shape t' = shape t ∧ ∀ idx, elem t' idx = elem t idx.

End layout.

(** Moving the last dimension to the front  and then the first to the
    back . *)
Definition last_to_front (m : nat) : list nat := m :: seq 0 m.
Definition first_to_back (m : nat) : list nat := seq 1 m ++ [0%nat].


(** ** The collectives and the process groups

    The collectives are the runtime's: [ops.AllReduce(group)],
    [ops.AllGather(group)], [ops.ReduceScatter(group)],
    [ops.AlltoAll(split_count, split_dim, concat_dim, group)], and the
    function a cell [AllToAll] keeps in [self.alltoall] (the runtime's
    [all_to_all_single_with_output_shape], or [all_to_all_self_defined] of this
    file, which is only ever called for a world size above one). *)
Class CommOps (A : Type) := {
  group : Type;
  get_tp_group : group;
  get_tp_world_size : Z;
  get_tp_rank : Z;
  get_tensor_and_expert_parallel_group : group;
  get_tensor_and_expert_parallel_world_size : Z;
  get_group_size : group → Z;
  AllReduce : group → tensor A → tensor A;
  AllGather : group → tensor A → tensor A;
  ReduceScatter : group → tensor A → tensor A;
  AlltoAll : Z → Z → Z → group → tensor A → tensor A;
  alltoall : bool → list Z → tensor A → list Z → list Z → group → tensor A;
}.

(** A primitive that [__init__] creates only when [world_size > 1]: the
    attribute is missing otherwise. *)
Definition created_if_parallel {B} (world_size : Z) (call : B) : result B :=
  if world_size >? 1 then Ok call else Raise AttributeError.

(** What a [bprop] returns: the 1-tuple [(dout,)], or the tensor itself. *)
Inductive bprop_result (A : Type) :=
| tuple1 (dout : tensor A)
| bare (dout : tensor A).
Arguments tuple1 {A} dout.
Arguments bare {A} dout.

(** [divide] of [distri_cores.utils], a module outside these sources. *)
Class UtilsOps := {
  divide : Z → Z → result Z;
}.

(** What [ops.AllGather] returns on a group of [world_size] ranks, the rank
    [k] holding [local k]: the tensors of the ranks one after the other along
    the first dimension. *)
Definition gathered_along_first_dim {A} (world_size : nat) (local : nat → tensor A)
    (gathered : tensor A) : Prop :=
  ∃ d0 rest, (∀ k, (k < world_size)%nat → shape (local k) = d0 :: rest) ∧
    shape gathered = (world_size * d0)%nat :: rest ∧
    ∀ k i idx, (k < world_size)%nat → (i < d0)%nat → valid_index rest idx →
      elem gathered ((k * d0 + i)%nat :: idx) = elem (local k) (i :: idx).

(** ** The cells *)

Module AllToAllEven.
Section cell.
Context {A : Type} `{CommOps A}.

Record t := {
  world_size : Z;
  comm_group : group;
  split_count : Z;
  split_dim : Z;
  concat_dim : Z;
}.

Definition __init__ (g : group) (split_count split_dim concat_dim : Z) : t :=
  {| world_size := get_group_size g; comm_group := g; split_count := split_count;
     split_dim := split_dim; concat_dim := concat_dim |}.

Definition construct (self : t) (input_ : tensor A) : result (tensor A) :=
  if world_size self =? 1 then Ok (stop_gradient input_)
  else
    all_to_all ← created_if_parallel (world_size self)
      (AlltoAll (split_count self) (split_dim self) (concat_dim self) (comm_group self));
    Ok (all_to_all input_).

Definition bprop (self : t) (x out dout : tensor A) : result (bprop_result A) :=
  if world_size self =? 1 then Ok (tuple1 dout)
  else
    all_to_all_grad ← created_if_parallel (world_size self)
      (AlltoAll (split_count self) (concat_dim self) (split_dim self) (comm_group self));
    let output := all_to_all_grad dout in
    Ok (tuple1 output).
End cell.
End AllToAllEven.

Module AllToAllSP2HP.
Section cell.
Context {A : Type} `{CommOps A}.

Record t := { world_size : Z }.

Definition __init__ : t := {| world_size := get_tp_world_size |}.

Definition construct (self : t) (input_ : tensor A) : result (tensor A) :=
  last ← py_getitem (shape input_) (-1);
  input_ ← reshape_rows input_ (Z.of_nat last);
  last ← py_getitem (shape input_) (-1);
  size ← py_floordiv (Z.of_nat last) (world_size self);
  split_tensors ← split input_ size 1;
  concat_tensor ← cat split_tensors 0;
  if world_size self =? 1 then Ok concat_tensor
  else
    all_to_all ← created_if_parallel (world_size self)
      (AllToAllEven.construct (AllToAllEven.__init__ get_tp_group (world_size self) 0 0));
    all_to_all concat_tensor.
End cell.
End AllToAllSP2HP.

Module CopyToModelParallelRegion.
Section cell.
Context {A : Type} `{CommOps A}.

Record t := { world_size : Z }.

Definition __init__ : t := {| world_size := get_tp_world_size |}.

Definition construct (self : t) (input_ : tensor A) : result (tensor A) :=
  Ok (stop_gradient input_).

Definition bprop (self : t) (x out dout : tensor A) : result (bprop_result A) :=
  if world_size self =? 1 then Ok (tuple1 dout)
  else
    all_reduce ← created_if_parallel (world_size self) (AllReduce get_tp_group);
    let output := all_reduce dout in
    Ok (tuple1 output).
End cell.
End CopyToModelParallelRegion.

Module ScatterToModelParallelRegion.
Section cell.
Context {A : Type} `{CommOps A}.

Record t := { world_size : Z; rank : Z }.

Definition __init__ : t := {| world_size := get_tp_world_size; rank := get_tp_rank |}.

Definition construct (self : t) (input_ : tensor A) : result (tensor A) :=
  if world_size self =? 1 then Ok (stop_gradient input_)
  else
    let last_dim := ndim input_ - 1 in
    d ← py_getitem (shape input_) last_dim;
    last_dim_size ← py_floordiv (Z.of_nat d) (world_size self);
    tensor_tuple ← split input_ last_dim_size last_dim;
    py_getitem tensor_tuple (rank self).

Definition bprop (self : t) (x out dout : tensor A) : result (bprop_result A) :=
  if world_size self =? 1 then Ok (tuple1 dout)
  else
    let last_dim := ndim dout - 1 in
    all_gather ← created_if_parallel (world_size self) (AllGather get_tp_group);
    let output := all_gather dout in
    d ← py_getitem (shape dout) 0;
    tensor_list ← split output (Z.of_nat d) 0;
    output ← cat tensor_list last_dim;
    Ok (tuple1 (contiguous output)).
End cell.
End ScatterToModelParallelRegion.

Module GatherFromTensorAndExpertParallelRegion.
Section cell.
Context {A : Type} `{CommOps A}.

Record t := { world_size : Z }.

Definition __init__ : t :=
  {| world_size := get_tensor_and_expert_parallel_world_size |}.

Definition construct (self : t) (input_ : tensor A) : result (tensor A) :=
  if world_size self =? 1 then Ok (stop_gradient input_)
  else
    all_gather ← created_if_parallel (world_size self)
      (AllGather get_tensor_and_expert_parallel_group);
    Ok (all_gather (contiguous input_)).

Definition bprop (self : t) (x out dout : tensor A) : result (bprop_result A) :=
  if world_size self =? 1 then Ok (tuple1 dout)
  else
    reduce_scatter ← created_if_parallel (world_size self)
      (ReduceScatter get_tensor_and_expert_parallel_group);
    let output := reduce_scatter (contiguous dout) in
    Ok (tuple1 output).
End cell.
End GatherFromTensorAndExpertParallelRegion.

Module GatherFromModelParallelRegion.
Section cell.
Context {A : Type} `{CommOps A}.

Record t := { world_size : Z; rank : Z }.

Definition __init__ : t := {| world_size := get_tp_world_size; rank := get_tp_rank |}.

Definition construct (self : t) (input_ : tensor A) : result (tensor A) :=
  let last_dim := ndim input_ - 1 in
  output ←
    (if world_size self =? 1 then Ok input_
     else
       all_gather ← created_if_parallel (world_size self) (AllGather get_tp_group);
       Ok (all_gather input_));
  d ← py_getitem (shape input_) 0;
  tensor_list ← split output (Z.of_nat d) 0;
  output ← cat tensor_list last_dim;
  Ok (contiguous output).

(** [bprop] asks for the rank again, and divides with [divide]. *)
Definition bprop `{UtilsOps} (self : t) (x out dout : tensor A)
  : result (bprop_result A) :=
  if world_size self =? 1 then Ok (tuple1 dout)
  else
    let last_dim := ndim dout - 1 in
    d ← py_getitem (shape dout) last_dim;
    last_dim_size ← divide (Z.of_nat d) (world_size self);
    tensor_tuple ← split dout last_dim_size last_dim;
    let rank := get_tp_rank in
    output ← contiguous <$> py_getitem tensor_tuple rank;
    Ok (tuple1 output).
End cell.
End GatherFromModelParallelRegion.

Module ReduceFromModelParallelRegion.
Section cell.
Context {A : Type} `{CommOps A}.

Record t := { world_size : Z }.

Definition __init__ : t := {| world_size := get_tp_world_size |}.

Definition construct (self : t) (input_ : tensor A) : result (tensor A) :=
  if world_size self =? 1 then Ok (stop_gradient input_)
  else
    all_reduce ← created_if_parallel (world_size self) (AllReduce get_tp_group);
    Ok (all_reduce input_).

Definition bprop (self : t) (x out dout : tensor A) : result (bprop_result A) :=
  Ok (tuple1 dout).
End cell.
End ReduceFromModelParallelRegion.

Module ReduceScatterToSequenceParallelRegion.
Section cell.
Context {A : Type} `{CommOps A}.

Record t := { world_size : Z }.

Definition __init__ : t := {| world_size := get_tp_world_size |}.

Definition construct (self : t) (input_ : tensor A) : result (tensor A) :=
  if world_size self =? 1 then Ok (stop_gradient input_)
  else
    reduce_scatter ← created_if_parallel (world_size self) (ReduceScatter get_tp_group);
    Ok (reduce_scatter (contiguous input_)).

(** With one rank the tensor is returned as it is, not in a tuple. *)
Definition bprop (self : t) (x out dout : tensor A) : result (bprop_result A) :=
  if world_size self =? 1 then Ok (bare dout)
  else
    all_gather ← created_if_parallel (world_size self) (AllGather get_tp_group);
    let output := all_gather (contiguous dout) in
    Ok (tuple1 output).
End cell.
End ReduceScatterToSequenceParallelRegion.

Module ReduceScatterToTensorParallelRegion.
Section cell.
Context {A : Type} `{CommOps A}.

Record t := { world_size : Z }.

Definition __init__ : t := {| world_size := get_tp_world_size |}.

Definition construct (self : t) (input_ : tensor A) : result (tensor A) :=
  let num_dims := ndim input_ in
  let permute_order := (num_dims - 1) :: py_range 0 (num_dims - 1) in
  input_ ← contiguous <$> transpose input_ permute_order;
  output ←
    (if world_size self =? 1 then Ok input_
     else
       reduce_scatter ← created_if_parallel (world_size self)
                          (ReduceScatter get_tp_group);
       Ok (reduce_scatter input_));
  let permute_order := py_range 1 num_dims ++ [0] in
  contiguous <$> transpose output permute_order.

Definition bprop (self : t) (x out dout : tensor A) : result (bprop_result A) :=
  if world_size self =? 1 then Ok (tuple1 dout)
  else
    let last_dim := ndim dout - 1 in
    all_gather ← created_if_parallel (world_size self) (AllGather get_tp_group);
    let output := all_gather dout in
    d ← py_getitem (shape dout) 0;
    tensor_list ← split output (Z.of_nat d) 0;
    output ← cat tensor_list last_dim;
    Ok (tuple1 (contiguous output)).
End cell.
End ReduceScatterToTensorParallelRegion.

Module ScatterToSequenceParallelRegion.
Section cell.
Context {A : Type} `{CommOps A}.

Record t := { world_size : Z; rank : Z }.

Definition __init__ : t := {| world_size := get_tp_world_size; rank := get_tp_rank |}.

Definition construct (self : t) (input_ : tensor A) : result (tensor A) :=
  if world_size self =? 1 then Ok (stop_gradient input_)
  else
    dim_size ← py_getitem (shape input_) 0;
    r ← py_mod (Z.of_nat dim_size) (world_size self);
    if negb (r =? 0) then Raise ValueError
    else
      local_dim_size ← py_floordiv (Z.of_nat dim_size) (world_size self);
      let dim_offset := rank self * local_dim_size in
      Ok (contiguous (slice0 input_ dim_offset (dim_offset + local_dim_size))).

Definition bprop (self : t) (x out dout : tensor A) : result (bprop_result A) :=
  if world_size self =? 1 then Ok (tuple1 dout)
  else
    all_gather ← created_if_parallel (world_size self) (AllGather get_tp_group);
    let output := all_gather (contiguous dout) in
    Ok (tuple1 output).
End cell.
End ScatterToSequenceParallelRegion.

Module GatherFromSequenceParallelRegion.
Section cell.
Context {A : Type} `{CommOps A}.

Record t := { world_size : Z; rank : Z; tensor_parallel_output_grad : bool }.

Definition __init__ (tensor_parallel_output_grad : bool) : t :=
  {| world_size := get_tp_world_size; rank := get_tp_rank;
     tensor_parallel_output_grad := tensor_parallel_output_grad |}.

Definition construct (self : t) (input_ : tensor A) : result (tensor A) :=
  if world_size self =? 1 then Ok (stop_gradient input_)
  else
    all_gather ← created_if_parallel (world_size self) (AllGather get_tp_group);
    Ok (all_gather (contiguous input_)).

(** With [tensor_parallel_output_grad] the reduced tensor is returned as it
    is, not in a tuple. *)
Definition bprop (self : t) (x out dout : tensor A) : result (bprop_result A) :=
  if world_size self =? 1 then Ok (tuple1 dout)
  else if tensor_parallel_output_grad self then
    reduce_scatter ← created_if_parallel (world_size self) (ReduceScatter get_tp_group);
    Ok (bare (reduce_scatter (contiguous dout)))
  else
    dim_size ← py_getitem (shape dout) 0;
    r ← py_mod (Z.of_nat dim_size) (world_size self);
    if negb (r =? 0) then Raise ValueError
    else
      local_dim_size ← py_floordiv (Z.of_nat dim_size) (world_size self);
      let dim_offset := rank self * local_dim_size in
      let output := contiguous (slice0 dout dim_offset (dim_offset + local_dim_size)) in
      Ok (tuple1 output).
End cell.
End GatherFromSequenceParallelRegion.

Module AllGatherFromTensorParallelRegion.
Section cell.
Context {A : Type} `{CommOps A}.

Record t := { world_size : Z }.

Definition __init__ : t := {| world_size := get_tp_world_size |}.

Definition construct (self : t) (input_ : tensor A) : result (tensor A) :=
  if world_size self =? 1 then Ok (stop_gradient input_)
  else
    let last_dim := ndim input_ - 1 in
    output ←
      (if world_size self =? 1 then Ok input_
       else
         all_gather ← created_if_parallel (world_size self) (AllGather get_tp_group);
         Ok (all_gather input_));
    d ← py_getitem (shape input_) 0;
    tensor_list ← split output (Z.of_nat d) 0;
    output ← cat tensor_list last_dim;
    Ok (contiguous output).

Definition bprop (self : t) (x out dout : tensor A) : result (bprop_result A) :=
  let num_dims := ndim dout in
  let permute_order := (num_dims - 1) :: py_range 0 (num_dims - 1) in
  dout ← contiguous <$> transpose dout permute_order;
  output ←
    (if world_size self =? 1 then Ok dout
     else
       reduce_scatter ← created_if_parallel (world_size self)
                          (ReduceScatter get_tp_group);
       Ok (reduce_scatter dout));
  let permute_order := py_range 1 num_dims ++ [0] in
  output ← contiguous <$> transpose output permute_order;
  Ok (tuple1 output).
End cell.
End AllGatherFromTensorParallelRegion.

Module AllToAll.
Section cell.
Context {A : Type} `{CommOps A}.

Record t := {
  comm_group : group;
  world_size : Z;
  output_splits : list Z;
  input_splits : list Z;
  output_shape : list Z;
  input_shape : list Z;
  use_self_defined_alltoall : bool;
}.

Definition __init__ (g : group) (output_shape input_shape output_splits input_splits : list Z)
    (use_self_defined_alltoall : bool) : t :=
  {| comm_group := g; world_size := get_group_size g;
     output_splits := output_splits; input_splits := input_splits;
     output_shape := output_shape; input_shape := input_shape;
     use_self_defined_alltoall := use_self_defined_alltoall |}.

Definition construct (self : t) (input_ : tensor A) : result (tensor A) :=
  if world_size self =? 1 then Ok (stop_gradient input_)
  else
    Ok (alltoall (use_self_defined_alltoall self) (output_shape self) input_
          (output_splits self) (input_splits self) (comm_group self)).

Definition bprop (self : t) (input_ output dout : tensor A) : result (bprop_result A) :=
  if world_size self =? 1 then Ok (tuple1 dout)
  else
    let dout2 := alltoall (use_self_defined_alltoall self) (input_shape self) dout
                   (input_splits self) (output_splits self) (comm_group self) in
    Ok (tuple1 dout2).
End cell.
End AllToAll.

(** The wrapper cells of the file. *)
Inductive cell :=
| cAllToAllSP2HP | cCopyToModelParallelRegion | cScatterToModelParallelRegion
| cGatherFromTensorAndExpertParallelRegion | cGatherFromModelParallelRegion
| cReduceFromModelParallelRegion | cReduceScatterToSequenceParallelRegion
| cReduceScatterToTensorParallelRegion | cScatterToSequenceParallelRegion
| cGatherFromSequenceParallelRegion (tensor_parallel_output_grad : bool)
| cAllGatherFromTensorParallelRegion
| cAllToAllEven (split_count split_dim concat_dim : Z)
| cAllToAll (output_shape input_shape output_splits input_splits : list Z)
            (use_self_defined_alltoall : bool).


(** [construct] of a cell with the given [world_size] (and [rank], and group
    where the class has one). *)
Definition construct_of {A} `{CommOps A} (c : cell) (world_size rank : Z) (g : group)
    (input_ : tensor A) : result (tensor A) :=
  match c with
  | cAllToAllSP2HP =>
    AllToAllSP2HP.construct {| AllToAllSP2HP.world_size := world_size |} input_
  | cCopyToModelParallelRegion =>
    CopyToModelParallelRegion.construct
      {| CopyToModelParallelRegion.world_size := world_size |} input_
  | cScatterToModelParallelRegion =>
    ScatterToModelParallelRegion.construct
      {| ScatterToModelParallelRegion.world_size := world_size;
         ScatterToModelParallelRegion.rank := rank |} input_
  | cGatherFromTensorAndExpertParallelRegion =>
    GatherFromTensorAndExpertParallelRegion.construct
      {| GatherFromTensorAndExpertParallelRegion.world_size := world_size |} input_
  | cGatherFromModelParallelRegion =>
    GatherFromModelParallelRegion.construct
      {| GatherFromModelParallelRegion.world_size := world_size;
         GatherFromModelParallelRegion.rank := rank |} input_
  | cReduceFromModelParallelRegion =>
    ReduceFromModelParallelRegion.construct
      {| ReduceFromModelParallelRegion.world_size := world_size |} input_
  | cReduceScatterToSequenceParallelRegion =>
    ReduceScatterToSequenceParallelRegion.construct
      {| ReduceScatterToSequenceParallelRegion.world_size := world_size |} input_
  | cReduceScatterToTensorParallelRegion =>
    ReduceScatterToTensorParallelRegion.construct
      {| ReduceScatterToTensorParallelRegion.world_size := world_size |} input_
  | cScatterToSequenceParallelRegion =>
    ScatterToSequenceParallelRegion.construct
      {| ScatterToSequenceParallelRegion.world_size := world_size;
         ScatterToSequenceParallelRegion.rank := rank |} input_
  | cGatherFromSequenceParallelRegion b =>
    GatherFromSequenceParallelRegion.construct
      {| GatherFromSequenceParallelRegion.world_size := world_size;
         GatherFromSequenceParallelRegion.rank := rank;
         GatherFromSequenceParallelRegion.tensor_parallel_output_grad := b |} input_
  | cAllGatherFromTensorParallelRegion =>
    AllGatherFromTensorParallelRegion.construct
      {| AllGatherFromTensorParallelRegion.world_size := world_size |} input_
  | cAllToAllEven split_count split_dim concat_dim =>
    AllToAllEven.construct
      {| AllToAllEven.world_size := world_size; AllToAllEven.comm_group := g;
         AllToAllEven.split_count := split_count; AllToAllEven.split_dim := split_dim;
         AllToAllEven.concat_dim := concat_dim |} input_
  | cAllToAll output_shape input_shape output_splits input_splits self_defined =>
    AllToAll.construct
      {| AllToAll.comm_group := g; AllToAll.world_size := world_size;
         AllToAll.output_splits := output_splits; AllToAll.input_splits := input_splits;
         AllToAll.output_shape := output_shape; AllToAll.input_shape := input_shape;
         AllToAll.use_self_defined_alltoall := self_defined |} input_
  end.

(** ** The functions [all_to_all_sp2hp] and [all_to_all_hp2sp], and the class
    [AllToAllHP2SP] *)

Section functions.
Context {A : Type} `{CommOps A}.

Definition all_to_all_sp2hp (input : tensor A) : result (tensor A) :=
  let world_size := get_tp_world_size in
  last ← py_getitem (shape input) (-1);
  input ← reshape_rows input (Z.of_nat last);
  last ← py_getitem (shape input) (-1);
  size ← py_floordiv (Z.of_nat last) world_size;
  split_tensors ← split input size 1;
  concat_tensor ← cat split_tensors 0;
  if world_size >? 1 then
    let tp_group := get_tp_group in
    let all_to_all := AllToAllEven.__init__ tp_group world_size 0 0 in
    AllToAllEven.construct all_to_all concat_tensor
  else Ok concat_tensor.

Definition all_to_all_hp2sp (input : tensor A) : result (tensor A) :=
  let world_size := get_tp_world_size in
  input_exchanged ←
    (if world_size >? 1 then
       let tp_group := get_tp_group in
       let all_to_all := AllToAllEven.__init__ tp_group world_size 0 0 in
       AllToAllEven.construct all_to_all input
     else Ok input);
  last ← py_getitem (shape input_exchanged) (-1);
  input_reshaped ← reshape_rows input_exchanged (Z.of_nat last);
  rows ← py_getitem (shape input_reshaped) 0;
  size ← py_floordiv (Z.of_nat rows) world_size;
  split_tensors ← split input_reshaped size 0;
  cat split_tensors (-1).

End functions.

Module AllToAllHP2SP.
Section cell.
Context {A : Type} `{CommOps A}.

Record t := { world_size : Z }.

Definition __init__ : t := {| world_size := get_tp_world_size |}.

Definition construct (self : t) (input_ : tensor A) : result (tensor A) :=
  input_exchanged ←
    (if world_size self =? 1 then Ok input_
     else
       all_to_all ← created_if_parallel (world_size self)
         (AllToAllEven.construct (AllToAllEven.__init__ get_tp_group (world_size self) 0 0));
       all_to_all input_);
  last ← py_getitem (shape input_exchanged) (-1);
  input_reshaped ← reshape_rows input_exchanged (Z.of_nat last);
  rows ← py_getitem (shape input_reshaped) 0;
  size ← py_floordiv (Z.of_nat rows) (world_size self);
  split_tensors ← split input_reshaped size 0;
  cat split_tensors (-1).
End cell.
End AllToAllHP2SP.

(** One process: every group has size one and a collective returns its
    operand. *)
Definition single_process (A : Type) : CommOps A :=
  {| group := (); get_tp_group := (); get_tp_world_size := 1; get_tp_rank := 0;
     get_tensor_and_expert_parallel_group := ();
     get_tensor_and_expert_parallel_world_size := 1;
     get_group_size := λ _, 1;
     AllReduce := λ _ t, t; AllGather := λ _ t, t; ReduceScatter := λ _ t, t;
     AlltoAll := λ _ _ _ _ t, t; alltoall := λ _ _ t _ _ _, t |}.

(** The tensor of a shape whose elements are their row-major positions. *)
Definition arange (s : list nat) : tensor nat := {| shape := s; elem := ravel s |}.

(** The elements of a tensor in row-major order. *)
Definition to_list {A} (t : tensor A) : list A :=
  (λ k, elem t (unravel (shape t) k)) <$> seq 0 (numel (shape t)).

(** The tensors [local 0], [local 1], ..., each with the first dimension [d0],
    one after the other along that dimension. *)
Definition stacked {A} (world_size d0 : nat) (rest : list nat) (local : nat → tensor A)
  : tensor A :=
  {| shape := (world_size * d0)%nat :: rest;
     elem := λ idx, match idx with
                    | [] => elem (local 0%nat) []
                    | j :: idx' => elem (local (j / d0)%nat) ((j mod d0)%nat :: idx')
                    end |}.

(** What one of [world_size] processes sees in a run in which the all-gather
    returns [gathered] and the other collectives return their operand. *)
Definition one_of (A : Type) (world_size rank : Z) (gathered : tensor A) : CommOps A :=
  {| group := (); get_tp_group := (); get_tp_world_size := world_size;
     get_tp_rank := rank;
     get_tensor_and_expert_parallel_group := ();
     get_tensor_and_expert_parallel_world_size := world_size;
     get_group_size := λ _, world_size;
     AllReduce := λ _ t, t; AllGather := λ _ _, gathered; ReduceScatter := λ _ t, t;
     AlltoAll := λ _ _ _ _ t, t; alltoall := λ _ _ t _ _ _, t |}.

End CollectivePrimitives.

(** * Facts about [GradAccumulator] *)

Module GradAccumulatorFacts.
Import GradAccumulator.

Section accumulator_facts.
Context `{AccumOps}.

Lemma calls_snoc self gs g :
  calls self (gs ++ [g]) =
  let '(s1, rs) := calls self gs in
  let '(s2, r) := __call__ s1 g in
  (s2, rs ++ [r]).
Proof.
  revert self. induction gs as [|g0 gs IH]; intros self; simpl.
  - destruct (__call__ self g); reflexivity.
  - destruct (__call__ self g0) as [s1 r0]. rewrite IH.
    destruct (calls s1 gs) as [s2 rs]. destruct (__call__ s2 g). reflexivity.
Qed.

Lemma mod_succ_cases (n mb : Z) :
  0 < mb → 0 ≤ n →
  ((n + 1) mod mb = 0 ∧ n mod mb = mb - 1) ∨
  ((n + 1) mod mb = n mod mb + 1 ∧ n mod mb + 1 < mb).
Proof.
  intros Hmb Hn.
  pose proof (Z.mod_pos_bound n mb Hmb) as Hr.
  pose proof (Z.div_mod n mb ltac:(lia)) as Hdm.
  destruct (decide (n mod mb = mb - 1)) as [Heq|Hne].
  - left. split; [|done].
    symmetry. apply (Z.mod_unique_pos _ _ (n / mb + 1)); lia.
  - right. split; [|lia].
    symmetry. apply (Z.mod_unique_pos _ _ (n / mb)); lia.
Qed.

Lemma accumulate_snoc zeros w g :
  accumulate zeros (w ++ [g]) = hyper_map2 assign_add (accumulate zeros w) g.
Proof. unfold accumulate. by rewrite fold_left_app. Qed.

Lemma length_accumulate (L : nat) zeros w :
  length zeros = L → Forall (λ g, length g = L) w → length (accumulate zeros w) = L.
Proof.
  intros Hz Hw. revert zeros Hz. induction Hw as [|g w Hg Hw IH]; intros zeros Hz; [done|].
  simpl. apply IH. unfold hyper_map2. rewrite length_zip_with. lia.
Qed.

Lemma length_finish mean step acc : length (finish mean step acc) = length acc.
Proof. unfold finish. destruct mean; [apply length_fmap | done]. Qed.

Lemma mean_finish (s : GradAccumulator) mb (mean : bool) (x : list tensor) :
  accumulate_step s = mb →
  (if mean then hyper_map (_mean_value s) x else x) = finish mean mb x.
Proof. intros <-. reflexivity. Qed.

Lemma call_step mb mean L gs s g :
  0 < mb → Forall (λ g, length g = L) gs → length g = L →
  acc_inv mb mean L gs s →
  acc_inv mb mean L (gs ++ [g]) (__call__ s g).1 ∧
  nth_call_returns L mean mb (gs ++ [g]) (S (length gs)) (__call__ s g).2.
Proof.
  intros Hmb Hgs Hg (Hc & Hstep & Hmean & Hrest).
  set (n := length gs) in *.
  pose proof (Z.mod_pos_bound (Z.of_nat n) mb Hmb) as Hr.
  pose proof (Z.mod_le (Z.of_nat n) mb ltac:(lia) Hmb) as Hle.
  (* the tensors the addition starts from *)
  assert (∃ inner1 y, length y = L ∧
      (if has_init s then inner_grads s else Some (hyper_map _init_inner_grads g))
        = Some inner1 ∧
      (if need_clear s then hyper_map _clear_value inner1 else inner1)
        = accumulate (zeroslike <$> y)
            (drop (n - Z.to_nat (Z.of_nat n mod mb)) gs)) as (inner1 & y & Hy & Hi1 & Hbase).
  { destruct (decide (n = 0%nat)) as [Hn0|Hn0].
    - destruct Hrest as [-> ->]. exists (hyper_map _init_inner_grads g), g.
      split; [done|]. split; [done|].
      destruct gs; [|done]. reflexivity.
    - destruct Hrest as (-> & inner & -> & Hlen & Hclear & Hpart).
      destruct (decide (Z.of_nat n mod mb = 0)) as [Hz|Hnz].
      + rewrite (Hclear Hz). exists inner, inner. split; [done|]. split; [done|].
        rewrite Hz. replace (n - Z.to_nat 0)%nat with (length gs) by (subst n; lia).
        by rewrite drop_all.
      + destruct (Hpart Hnz) as (-> & y & Hy & ->). eauto. }
  unfold __call__. rewrite Hi1. cbv zeta.
  rewrite Hbase, Hc, Hmean, (mean_finish s mb mean _ Hstep), Hstep.
  unfold py_mod. destruct (Z.eqb_spec mb 0) as [?|_]; [lia|].
  assert (Hdrop : hyper_map2 assign_add
                    (accumulate (zeroslike <$> y) (drop (n - Z.to_nat (Z.of_nat n mod mb)) gs)) g
                  = accumulate (zeroslike <$> y)
                      (drop (n - Z.to_nat (Z.of_nat n mod mb)) (gs ++ [g]))).
  { rewrite drop_app_le by (subst n; lia). by rewrite accumulate_snoc. }
  rewrite Hdrop.
  assert (Hlen2 : length (accumulate (zeroslike <$> y)
                    (drop (n - Z.to_nat (Z.of_nat n mod mb)) (gs ++ [g]))) = L).
  { apply length_accumulate; [by rewrite length_fmap|].
    apply Forall_drop, Forall_app. split; [done|]. by apply Forall_cons. }
  assert (Hn' : length (gs ++ [g]) = S n) by (rewrite length_app; simpl; subst n; lia).
  destruct (mod_succ_cases (Z.of_nat n) mb Hmb ltac:(lia)) as [[Hz Hrm]|[Hs Hlt]].
  - (* a window closes *)
    rewrite Hz. simpl. split.
    + unfold acc_inv; simpl. rewrite Hn'.
      split; [lia|]. split; [done|]. split; [done|].
      destruct (decide (S n = 0%nat)); [lia|]. split; [done|].
      eexists. split; [done|]. split; [by rewrite length_finish|].
      split; [done|]. intros Hne. exfalso. apply Hne.
      by replace (Z.of_nat (S n)) with (Z.of_nat n + 1) by lia.
    + split; intros Hm.
      * exfalso. apply Hm. by replace (Z.of_nat (S n)) with (Z.of_nat n + 1) by lia.
      * exists y. split; [done|].
        rewrite take_ge by lia.
        by replace (S n - Z.to_nat mb)%nat
          with (n - Z.to_nat (Z.of_nat n `mod` mb))%nat by lia.
  - (* inside a window *)
    rewrite Hs. destruct (Z.eqb_spec (Z.of_nat n mod mb + 1) 0) as [?|_]; [lia|].
    simpl. split.
    + unfold acc_inv; simpl. rewrite Hn'.
      split; [lia|]. split; [done|]. split; [done|].
      destruct (decide (S n = 0%nat)); [lia|]. split; [done|].
      eexists. split; [done|]. split; [done|].
      replace (Z.of_nat (S n)) with (Z.of_nat n + 1) by lia. rewrite Hs.
      split; [lia|]. intros _. split; [done|]. exists y. split; [done|].
      do 2 f_equal. lia.
    + split; intros Hm; [done|].
      exfalso. replace (Z.of_nat (S n)) with (Z.of_nat n + 1) in Hm by lia. lia.
Qed.

Lemma fresh_inv mb mean L : acc_inv mb mean L [] (fresh mb mean).
Proof. unfold acc_inv. simpl. done. Qed.

Lemma nth_call_returns_app L mean mb gs g n r :
  (n ≤ length gs)%nat →
  nth_call_returns L mean mb gs n r → nth_call_returns L mean mb (gs ++ [g]) n r.
Proof.
  intros Hn [Hnone Hsome]. split; [done|].
  intros Hm. destruct (Hsome Hm) as (y & Hy & ->). exists y. split; [done|].
  by rewrite take_app_le.
Qed.

Lemma calls_spec mb mean L gs :
  0 < mb → Forall (λ g, length g = L) gs →
  acc_inv mb mean L gs (calls (fresh mb mean) gs).1 ∧
  length (calls (fresh mb mean) gs).2 = length gs ∧
  ∀ n r, (calls (fresh mb mean) gs).2 !! n = Some r →
         nth_call_returns L mean mb gs (S n) r.
Proof.
  intros Hmb. induction gs as [|g gs IH] using rev_ind; intros Hall.
  - simpl. split; [apply fresh_inv|]. split; [done|]. intros n r Hl. done.
  - apply Forall_app in Hall as [Hgs Hg]. apply Forall_cons_1 in Hg as [Hg _].
    destruct (IH Hgs) as (Hinv & Hlen & Hrets).
    pose proof (call_step mb mean L gs _ g Hmb Hgs Hg Hinv) as [Hinv' Hret].
    rewrite calls_snoc.
    destruct (calls (fresh mb mean) gs) as [s1 rs]. simpl in *.
    destruct (__call__ s1 g) as [s2 r2]. simpl in *.
    split; [done|]. split; [rewrite !length_app; simpl; lia|].
    intros n r Hl. apply lookup_app_Some in Hl as [Hl|[Hge Hl]].
    + apply nth_call_returns_app; [|by apply Hrets].
      apply lookup_lt_Some in Hl. lia.
    + apply list_lookup_singleton_Some in Hl as [Hn ->].
      replace n with (length gs) by lia. done.
Qed.

Lemma calls_zero_step (s : GradAccumulator) gs :
  accumulate_step s = 0 → (has_init s = true → is_Some (inner_grads s)) →
  (calls s gs).2 = (λ _, Raise ZeroDivisionError) <$> gs.
Proof.
  revert s. induction gs as [|g gs IH]; intros s Hstep Hinit; [done|].
  simpl. unfold __call__.
  assert (∃ inner0, (if has_init s then inner_grads s
                     else Some (hyper_map _init_inner_grads g)) = Some inner0)
    as [inner0 ->].
  { destruct (has_init s); [|eauto]. destruct (Hinit eq_refl) as [i ->]. eauto. }
  cbv zeta. rewrite Hstep. unfold py_mod. simpl.
  match goal with |- context [calls ?s' gs] =>
    specialize (IH s' eq_refl (λ _, ltac:(simpl; eauto)));
    destruct (calls s' gs) as [s2 rs] end.
  simpl in *. by rewrite IH.
Qed.

End accumulator_facts.

(** C9: for [micro_batch_num ≥ 1] every call of [GradAccumulator.__call__]
    returns: [None] when the number of the call is no multiple of
    [micro_batch_num], and on a multiple the gradients of the last
    [micro_batch_num] calls added onto zero tensors, each divided by
    [micro_batch_num] in the [mean] mode.  The constructor also accepts
    [micro_batch_num = 0], and then every call raises ZeroDivisionError. *)
Theorem grad_accumulator_calls `{AccumOps} (op : string) (L : nat) :
  op = "mean" ∨ op = "sum" →
  (∀ mb gs, 1 ≤ mb → Forall (λ g, length g = L) gs →
     ∃ acc, __init__ mb op = Ok acc ∧
       length (calls acc gs).2 = length gs ∧
       ∀ n r, (calls acc gs).2 !! n = Some r →
              nth_call_returns L (String.eqb op "mean") mb gs (S n) r) ∧
  (∃ acc, __init__ 0 op = Ok acc ∧
     ∀ gs, (calls acc gs).2 = (λ _, Raise ZeroDivisionError) <$> gs).
Proof.
  intros Hop.
  assert (Hinit : ∀ mb, 0 ≤ mb →
            __init__ mb op = Ok (fresh mb (String.eqb op "mean"))).
  { intros mb Hmb. unfold __init__, check_non_negative_int.
    destruct (Z.ltb_spec mb 0) as [?|_]; [lia|]. simpl.
    destruct Hop as [-> | ->]; reflexivity. }
  split.
  - intros mb gs Hmb Hall. exists (fresh mb (String.eqb op "mean")).
    split; [apply Hinit; lia|].
    destruct (calls_spec mb (String.eqb op "mean") L gs ltac:(lia) Hall) as (_ & ? & ?).
    done.
  - exists (fresh 0 (String.eqb op "mean")). split; [by apply Hinit|].
    intros gs. by apply calls_zero_step.
Qed.

Lemma grad_accumulator_calls_witness :
  ("mean" = "mean" ∨ "mean" = "sum") ∧
  ((∀ mb gs, 1 ≤ mb → Forall (λ g, length g = 1%nat) gs →
     ∃ acc, @__init__ Z_accum_ops mb "mean" = Ok acc ∧
       length (calls acc gs).2 = length gs ∧
       ∀ n r, (calls acc gs).2 !! n = Some r →
              nth_call_returns 1 (String.eqb "mean" "mean") mb gs (S n) r) ∧
   (∃ acc, @__init__ Z_accum_ops 0 "mean" = Ok acc ∧
     ∀ gs, (calls acc gs).2 = (λ _, Raise ZeroDivisionError) <$> gs)).
Proof.
  split; [left; reflexivity|].
  apply (@grad_accumulator_calls Z_accum_ops "mean" 1). left; reflexivity.
Defined.

(** Two micro-batches, [mean]: calls 2 and 4 return the halved sums. *)
Example accumulate_mean_2 :
  (λ acc, (@calls Z_accum_ops acc [[1]; [5]; [10]; [20]]).2)
    <$> @__init__ Z_accum_ops 2 "mean"
  = Ok [Ok None; Ok (Some [3]); Ok None; Ok (Some [15])].
Proof. reflexivity. Qed.

Example accumulate_step_0 :
  (λ acc, (@calls Z_accum_ops acc [[1]; [5]]).2) <$> @__init__ Z_accum_ops 0 "sum"
  = Ok [Raise ZeroDivisionError; Raise ZeroDivisionError].
Proof. reflexivity. Qed.

(** X27: the state a [GradAccumulator] keeps.  After [n ≥ 1] calls with
    tuples of [L] gradients, for [accumulate_step ≥ 1]: [counter] is [n], the
    step and the mode are those of the constructor, the buffers exist and are
    [L] tensors, [need_clear] is set exactly when [n] is a multiple of the
    step, and off such a multiple the buffers hold the gradients of the calls
    since the last multiple, added onto zero tensors. *)
Theorem grad_accumulator_state `{AccumOps} (mb : Z) (mean : bool) (L : nat)
    (gs : list (list tensor)) :
  1 ≤ mb → Forall (λ g, length g = L) gs → gs ≠ [] →
  let s := (calls (fresh mb mean) gs).1 in
  let n := Z.of_nat (length gs) in
  counter s = n ∧ accumulate_step s = mb ∧ is_mean_op s = mean ∧ has_init s = true ∧
  need_clear s = bool_decide (n mod mb = 0) ∧
  ∃ inner, inner_grads s = Some inner ∧ length inner = L ∧
    (n mod mb ≠ 0 →
       ∃ y, length y = L ∧
         inner = accumulate (zeroslike <$> y)
                   (drop (length gs - Z.to_nat (n mod mb)) gs)).
Proof.
  intros Hmb Hall Hne. cbv zeta.
  destruct (calls_spec mb mean L gs ltac:(lia) Hall) as (Hinv & _).
  destruct Hinv as (Hc & Hstep & Hmean & Hrest).
  destruct (decide (length gs = 0%nat)) as [Hz|_].
  { by destruct gs. }
  destruct Hrest as (Hinit & inner & Hinner & Hlen & Hclear & Hpart).
  split; [done|]. split; [done|]. split; [done|]. split; [done|]. split.
  - case_bool_decide as Hm.
    + by apply Hclear.
    + by destruct (Hpart Hm).
  - exists inner. split; [done|]. split; [done|]. intros Hm. by destruct (Hpart Hm).
Qed.

Lemma grad_accumulator_state_witness :
  let s := (@calls Z_accum_ops (fresh 2 true) [[1]; [5]; [10]]).1 in
  counter s = 3 ∧ accumulate_step s = 2 ∧ is_mean_op s = true ∧ has_init s = true ∧
  need_clear s = bool_decide (3 mod 2 = 0) ∧
  ∃ inner, inner_grads s = Some inner ∧ length inner = 1%nat ∧
    (3 mod 2 ≠ 0 →
       ∃ y, length y = 1%nat ∧
         inner = @accumulate Z_accum_ops (@zeroslike Z_accum_ops <$> y)
                   (drop (3 - Z.to_nat (3 mod 2)) [[1]; [5]; [10]])).
Proof.
  apply (@grad_accumulator_state Z_accum_ops 2 true 1 [[1]; [5]; [10]]).
  - lia.
  - repeat constructor.
  - discriminate.
Defined.

End GradAccumulatorFacts.

(** * Facts about [ClipGlobalNorm] *)

Module ClipGlobalNormFacts.
Import ClipGlobalNorm.

Section clip_facts.
Context `{ClipOps}.

(** The index loop of [inplace_apply_to_tensor_list] is a map over the list. *)
Lemma inplace_apply_prefix (func : tensor → tensor → tensor) (l : list tensor) scale n :
  (n ≤ length l)%nat →
  foldl (λ l idx, match l !! idx with
                  | Some t => <[idx := func t scale]> l
                  | None => l
                  end) l (seq 0 n)
  = ((λ t, func t scale) <$> take n l) ++ drop n l.
Proof.
  induction n as [|n IH]; intros Hn.
  - simpl. by rewrite drop_0.
  - rewrite seq_S, foldl_app, IH by lia. simpl.
    destruct (lookup_lt_is_Some_2 l n ltac:(lia)) as [x Hx].
    assert (Hlen : length ((λ t, func t scale) <$> take n l) = n).
    { rewrite length_fmap, length_take. lia. }
    rewrite lookup_app_r by lia. rewrite Hlen, Nat.sub_diag.
    rewrite (drop_S _ _ _ Hx). simpl.
    rewrite insert_app_r_alt by lia. rewrite Hlen, Nat.sub_diag. simpl.
    rewrite (take_S_r _ _ _ Hx), fmap_app. simpl. by rewrite <- app_assoc.
Qed.

Lemma inplace_apply_func_map (func : tensor → tensor → tensor) l scale :
  inplace_apply_func func l scale = (λ t, func t scale) <$> l.
Proof.
  unfold inplace_apply_func. rewrite inplace_apply_prefix by done.
  by rewrite firstn_all, drop_all, app_nil_r.
Qed.

Lemma get_grads_loop_spec rank_id ps : ∀ i grads acc,
  rank_id = get_tp_rank → (i + length ps ≤ length grads)%nat →
  get_grads_loop rank_id i ps grads acc
  = Ok (acc ++ (List.filter enters_norm (zip ps (drop i grads))).*2).
Proof.
  induction ps as [|p ps IH]; intros i grads acc Hrank Hlen; simpl in *.
  - by rewrite app_nil_r.
  - destruct (lookup_lt_is_Some_2 grads i ltac:(lia)) as [g Hg].
    rewrite (drop_S _ _ _ Hg). simpl.
    unfold enters_norm at 1. simpl. rewrite <- Hrank.
    unfold py_index. rewrite Hg.
    destruct (is_duplicate_grad p); simpl.
    + destruct (rank_id =? 0); simpl.
      * rewrite IH by (done || lia). by rewrite <- app_assoc.
      * by rewrite IH by (done || lia).
    + rewrite IH by (done || lia). by rewrite <- app_assoc.
Qed.

(** The loop of [get_grads] when a gradient is missing, and when none is. *)
Lemma get_grads_loop_missing ps : ∀ i grads acc,
  (∃ k p, ps !! k = Some p ∧ negb (is_duplicate_grad p) || (get_tp_rank =? 0) = true ∧
          (length grads ≤ i + k)%nat) →
  get_grads_loop get_tp_rank i ps grads acc = Raise IndexError.
Proof.
  induction ps as [|p ps IH]; intros i grads acc (k & q & Hk & Hq & Hlen).
  - done.
  - cbn [get_grads_loop]. destruct k as [|k].
    + injection Hk as ->. unfold py_index.
      rewrite (lookup_ge_None_2 grads i) by lia.
      destruct (is_duplicate_grad q); [|done]. cbn in Hq. by rewrite Hq.
    + cbn in Hk.
      assert (Hrest : ∀ acc', get_grads_loop get_tp_rank (S i) ps grads acc'
                              = Raise IndexError).
      { intros acc'. apply IH. exists k, q. split; [done|]. split; [done|lia]. }
      destruct (is_duplicate_grad p); [destruct (get_tp_rank =? 0)|];
        cbn [mbind result_bind]; rewrite ?Hrest; try done;
        unfold py_index; destruct (grads !! i); cbn [mbind result_bind]; by rewrite ?Hrest.
Qed.

Lemma get_grads_loop_present ps : ∀ i grads acc,
  (∀ k p, ps !! k = Some p → negb (is_duplicate_grad p) || (get_tp_rank =? 0) = true →
          (i + k < length grads)%nat) →
  get_grads_loop get_tp_rank i ps grads acc
  = Ok (acc ++ (List.filter enters_norm (zip ps (drop i grads))).*2).
Proof.
  induction ps as [|p ps IH]; intros i grads acc Hall.
  - cbn. by rewrite app_nil_r.
  - cbn [get_grads_loop].
    assert (Hall' : ∀ k q, ps !! k = Some q →
              negb (is_duplicate_grad q) || (get_tp_rank =? 0) = true →
              (S i + k < length grads)%nat).
    { intros k q Hk Hq. pose proof (Hall (S k) q Hk Hq). lia. }
    destruct (negb (is_duplicate_grad p) || (get_tp_rank =? 0)) eqn:Hp.
    + pose proof (Hall 0%nat p eq_refl Hp) as Hlt.
      destruct (lookup_lt_is_Some_2 grads i ltac:(lia)) as [g Hg].
      rewrite (drop_S _ _ _ Hg). cbn [zip zip_with List.filter].
      unfold enters_norm at 1. cbn [fst]. rewrite Hp. cbn [fmap list_fmap snd].
      unfold py_index. rewrite Hg.
      assert (Hgo : (if is_duplicate_grad p
                     then if get_tp_rank =? 0 then Ok (acc ++ [g]) else Ok acc
                     else Ok (acc ++ [g])) = Ok (acc ++ [g])).
      { destruct (is_duplicate_grad p); [|done]. cbn in Hp. by rewrite Hp. }
      destruct (is_duplicate_grad p); [destruct (get_tp_rank =? 0)|];
        try discriminate; cbn [mbind result_bind];
        rewrite IH by done; by rewrite <- app_assoc.
    + assert (Hdup : is_duplicate_grad p = true ∧ (get_tp_rank =? 0) = false).
      { destruct (is_duplicate_grad p), (get_tp_rank =? 0); done. }
      destruct Hdup as [-> ->]. cbn [mbind result_bind]. rewrite IH by done.
      destruct (grads !! i) as [g|] eqn:Hg.
      * rewrite (drop_S _ _ _ Hg). cbn [zip zip_with List.filter].
        unfold enters_norm at 2. cbn [fst]. by rewrite Hp.
      * apply lookup_ge_None_1 in Hg.
        rewrite !drop_ge by lia. by destruct ps.
Qed.

Lemma get_grads_missing_dec (ps : list MsParameter) : ∀ i (grads : list tensor),
  (∃ k p, ps !! k = Some p ∧ negb (is_duplicate_grad p) || (get_tp_rank =? 0) = true ∧
          (length grads ≤ i + k)%nat)
  ∨ (∀ k p, ps !! k = Some p → negb (is_duplicate_grad p) || (get_tp_rank =? 0) = true →
            (i + k < length grads)%nat).
Proof.
  induction ps as [|p ps IH]; intros i grads; [by right|].
  destruct (IH (S i) grads) as [(k & q & Hk & Hq & Hlen)|Hall].
  { left. exists (S k), q. split; [done|]. split; [done|lia]. }
  destruct (negb (is_duplicate_grad p) || (get_tp_rank =? 0)) eqn:Hp.
  - destruct (decide (i < length grads)%nat) as [Hlt|Hge].
    + right. intros [|k] q Hk Hq.
      * lia.
      * pose proof (Hall k q Hk Hq). lia.
    + left. exists 0%nat, p. split; [done|]. split; [done|lia].
  - right. intros [|k] q Hk Hq.
    + injection Hk as <-. by rewrite Hp in Hq.
    + pose proof (Hall k q Hk Hq). lia.
Qed.

End clip_facts.

(** C10: on a list with a gradient for every parameter, and for the l2
    norm, [ClipGlobalNorm.construct] returns the norm of the gradients as they
    were passed in, and leaves the list with every gradient multiplied by
    [clip_value / (total_norm + 1e-6)] when that coefficient is below [1.0],
    untouched otherwise. *)
Theorem clip_global_norm_construct `{ClipOps} (self : ClipGlobalNorm) (grads : list tensor) :
  norm_type self = "l2" → (length (params self) ≤ length grads)%nat →
  let norm_grads := (List.filter enters_norm (zip (params self) grads)).*2 in
  let total_norm := l2_norm self norm_grads in
  let clip_coeff := float_div (clip_value self) (add_float total_norm float_1em6) in
  construct self grads
  = Ok (total_norm,
        if lt_float clip_coeff float_1 then (λ g, mul g clip_coeff) <$> grads
        else grads).
Proof.
  intros Hl2 Hlen. cbv zeta. unfold construct, get_grads.
  rewrite get_grads_loop_spec by (done || simpl; lia).
  rewrite drop_0. simpl. unfold get_grad_norm_fp32. rewrite Hl2. simpl.
  fold (l2_norm self (List.filter enters_norm (zip (params self) grads)).*2).
  destruct (lt_float _ _); [|done].
  by rewrite inplace_apply_func_map.
Qed.

Lemma clip_global_norm_construct_witness :
  @construct (Z_clip_ops 1) clip_example [3000; 4000]
  = Ok (3000, [999; 1332]).
Proof.
  apply (@clip_global_norm_construct (Z_clip_ops 1) clip_example [3000; 4000]).
  - reflexivity.
  - simpl. lia.
Defined.

(** A coefficient of at least one leaves the gradients alone. *)
Example clip_not_needed :
  @construct (Z_clip_ops 0)
    (@Build_ClipGlobalNorm (Z_clip_ops 0) [ {| name := "w" |} ] 1 5 "l2") [3]
  = Ok (3, [3]).
Proof. reflexivity. Qed.

(** Another norm than l2 is refused. *)
Example clip_l1_refused :
  @construct (Z_clip_ops 0)
    (@Build_ClipGlobalNorm (Z_clip_ops 0) [ {| name := "w" |} ] 1 5 "l1") [3]
  = Raise NotImplementedError.
Proof. reflexivity. Qed.

(** X23: the outcomes of [ClipGlobalNorm.construct].  It raises IndexError
    exactly when a parameter whose gradient enters the norm (one that is not
    duplicated, or any on tensor-parallel rank 0) has no gradient at its
    position, whatever the norm type.  Otherwise it raises
    NotImplementedError for a norm type other than "l2", and for "l2" it
    returns the norm and scales the gradients as in C10: parameters beyond the
    end of [grads] whose gradients do not enter the norm do no harm. *)
Theorem clip_global_norm_outcome `{ClipOps} (self : ClipGlobalNorm) (grads : list tensor) :
  let missing :=
    ∃ i p, params self !! i = Some p ∧
      negb (is_duplicate_grad p) || (get_tp_rank =? 0) = true ∧
      (length grads ≤ i)%nat in
  let norm_grads := (List.filter enters_norm (zip (params self) grads)).*2 in
  let total_norm := l2_norm self norm_grads in
  let clip_coeff := float_div (clip_value self) (add_float total_norm float_1em6) in
  (missing ↔ construct self grads = Raise IndexError) ∧
  (¬ missing ∧ norm_type self ≠ "l2" ↔ construct self grads = Raise NotImplementedError) ∧
  (¬ missing → norm_type self = "l2" →
     construct self grads
     = Ok (total_norm,
           if lt_float clip_coeff float_1 then (λ g, mul g clip_coeff) <$> grads
           else grads)).
Proof.
  cbv zeta.
  set (missing := ∃ i p, params self !! i = Some p ∧
      negb (is_duplicate_grad p) || (get_tp_rank =? 0) = true ∧ (length grads ≤ i)%nat).
  assert (Hmiss : missing → construct self grads = Raise IndexError).
  { intros (i & p & Hp & Hen & Hlen). unfold construct, get_grads.
    rewrite (get_grads_loop_missing (params self) 0 grads []); [done|].
    by exists i, p. }
  assert (Hpres : ¬ missing →
    construct self grads
    = (total_norm ← get_grad_norm_fp32 self
                      (List.filter enters_norm (zip (params self) grads)).*2;
       let clip_coeff := float_div (clip_value self) (add_float total_norm float_1em6) in
       if lt_float clip_coeff float_1
       then Ok (total_norm, inplace_apply_func grad_scale_func grads clip_coeff)
       else Ok (total_norm, grads))).
  { intros Hno. unfold construct, get_grads.
    rewrite (get_grads_loop_present (params self) 0 grads []).
    - by rewrite drop_0.
    - intros k p Hk Hp. destruct (decide (k < length grads)%nat) as [?|Hge]; [done|].
      exfalso. apply Hno. exists k, p. split; [done|]. split; [done|lia]. }
  assert (Hl2 : ¬ missing → norm_type self = "l2" →
    construct self grads
    = Ok (l2_norm self (List.filter enters_norm (zip (params self) grads)).*2,
          if lt_float
               (float_div (clip_value self)
                  (add_float
                     (l2_norm self (List.filter enters_norm (zip (params self) grads)).*2)
                     float_1em6)) float_1
          then (λ g, mul g
                  (float_div (clip_value self)
                     (add_float
                        (l2_norm self
                           (List.filter enters_norm (zip (params self) grads)).*2)
                        float_1em6))) <$> grads
          else grads)).
  { intros Hno Hn. rewrite (Hpres Hno). unfold get_grad_norm_fp32. rewrite Hn. cbn.
    fold (l2_norm self (List.filter enters_norm (zip (params self) grads)).*2).
    destruct (lt_float _ _); [|done]. by rewrite inplace_apply_func_map. }
  assert (Hother : ¬ missing → norm_type self ≠ "l2" →
            construct self grads = Raise NotImplementedError).
  { intros Hno Hn. rewrite (Hpres Hno). unfold get_grad_norm_fp32.
    by destruct (String.eqb_spec (norm_type self) "l2"). }
  assert (Hdec : missing ∨ ¬ missing).
  { destruct (get_grads_missing_dec (params self) 0 grads) as [Hm|Hall]; [by left|].
    right. intros (i & p & Hp & Hen & Hlen). pose proof (Hall i p Hp Hen). lia. }
  split; [|split].
  - split; [done|]. intros Hr. destruct Hdec as [?|Hno]; [done|].
    destruct (String.eqb_spec (norm_type self) "l2") as [Hn|Hn].
    + by rewrite (Hl2 Hno Hn) in Hr.
    + by rewrite (Hother Hno Hn) in Hr.
  - split; [by intros [? ?]; apply Hother|]. intros Hr.
    destruct Hdec as [Hm|Hno]; [by rewrite (Hmiss Hm) in Hr|]. split; [done|].
    intros Hn. by rewrite (Hl2 Hno Hn) in Hr.
  - done.
Qed.

End ClipGlobalNormFacts.

(** * Facts about [GradClipByValue] *)

Module GradClipByValueFacts.
Import GradClipByValue.

Section clip_by_value_facts.
Context `{ClipValueOps}.

Lemma inplace_apply_two_prefix (func : tensor → pyfloat → pyfloat → tensor)
    (l : list tensor) a b n :
  (n ≤ length l)%nat →
  foldl (λ l idx, match l !! idx with
                  | Some t => <[idx := func t a b]> l
                  | None => l
                  end) l (seq 0 n)
  = ((λ t, func t a b) <$> take n l) ++ drop n l.
Proof.
  induction n as [|n IH]; intros Hn.
  - simpl. by rewrite drop_0.
  - rewrite seq_S, foldl_app, IH by lia. simpl.
    destruct (lookup_lt_is_Some_2 l n ltac:(lia)) as [x Hx].
    assert (Hlen : length ((λ t, func t a b) <$> take n l) = n).
    { rewrite length_fmap, length_take. lia. }
    rewrite lookup_app_r by lia. rewrite Hlen, Nat.sub_diag.
    rewrite (drop_S _ _ _ Hx). simpl.
    rewrite insert_app_r_alt by lia. rewrite Hlen, Nat.sub_diag. simpl.
    rewrite (take_S_r _ _ _ Hx), fmap_app. simpl. by rewrite <- app_assoc.
Qed.

End clip_by_value_facts.

(** X24: [GradClipByValue.construct] leaves the list with as many
    gradients as before, each replaced, at its position, by
    [clip_by_value(grad, -clip_value, clip_value)] of the gradient that was
    there; an empty list stays empty. *)
Theorem grad_clip_by_value_construct `{ClipValueOps} (self : GradClipByValue)
    (grads : list tensor) :
  construct self grads
  = (λ g, clip_by_value g (neg (clip_value self)) (clip_value self)) <$> grads ∧
  length (construct self grads) = length grads ∧
  ∀ i g, grads !! i = Some g →
    construct self grads !! i
    = Some (clip_by_value g (neg (clip_value self)) (clip_value self)).
Proof.
  assert (Hmap : construct self grads
            = (λ g, clip_by_value g (neg (clip_value self)) (clip_value self)) <$> grads).
  { unfold construct, inplace_apply_func. rewrite inplace_apply_two_prefix by done.
    by rewrite firstn_all, drop_all, app_nil_r. }
  rewrite Hmap. split; [done|]. split; [by rewrite length_fmap|].
  intros i g Hg. by rewrite list_lookup_fmap, Hg.
Qed.

Example clip_by_value_5 :
  @construct Z_clip_value_ops (@Build_GradClipByValue Z_clip_value_ops 5) [-7; 3; 9]
  = [-5; 3; 5].
Proof. reflexivity. Qed.

End GradClipByValueFacts.

(** * Facts about [DistributedDataParallel] *)

Module DistributedDataParallelFacts.
Import DistributedDataParallel.

Section ddp_facts.
Context `{DdpOps}.



Lemma enable_sync_ok (self : DistributedDataParallel) enable :
  enable_sync self enable
  = (set_heap self
       (foldl (λ h buffer, alter (set_sync_enabled enable) buffer h) (heap self)
              (buffers self ++ expert_parallel_buffers self)),
     Ok ()).
Proof. reflexivity. Qed.

Lemma lookup_foldl_alter enable (bufs : list nat) : ∀ (h : list ParamAndGradBuffer) b,
  foldl (λ h buffer, alter (set_sync_enabled enable) buffer h) h bufs !! b
  = if decide (b ∈ bufs) then set_sync_enabled enable <$> h !! b else h !! b.
Proof.
  induction bufs as [|a bufs IH]; intros h b; simpl.
  - destruct (decide (b ∈ [])) as [Hin|_]; [by apply elem_of_nil in Hin|done].
  - rewrite IH. destruct (decide (a = b)) as [->|Hne].
    + rewrite list_lookup_alter_eq.
      rewrite (decide_True (P := b ∈ b :: bufs)) by set_solver.
      case_decide; [|done]. by destruct (h !! b).
    + rewrite list_lookup_alter_ne by done.
      destruct (decide (b ∈ bufs)) as [Hin|Hin].
      * rewrite decide_True by set_solver. done.
      * rewrite decide_False; [done|]. intros [->|?]%elem_of_cons; done.
Qed.

(** What the hook does when it finds its buffer and has a tensor to add into. *)
Lemma run_param_hook_ok (self : DistributedDataParallel) param grad_ buffer buf :
  param_to_buffer self !! param = Some buffer →
  heap self !! buffer = Some buf →
  (param < length (module self))%nat →
  let p := module self !!! param in
  ∀ mg, main_grad p = Some mg →
  run_param_hook self param grad_
  = (let m' := if grad_accumulated p then module self
               else <[param := set_main_grad p
                        (Some (copy_ mg (add mg (astype grad_ (grad_dtype buf)))))]>
                      (module self) in
     let s1 := set_module self m' in
     if overlap_grad_reduce (ddp_config self)
     then log_call s1 (register_grad_ready_call buffer param) else s1,
     Ok (match grad p with Some g => g | None => Tensor0 (p_dtype p) end)).
Proof.
  intros Hb Hbuf Hlt p mg Hmg. unfold run_param_hook. rewrite Hb. fold p.
  destruct (grad_accumulated p); simpl.
  - destruct self as [? ? m ? ? ? ? ? ?]; simpl in *.
    destruct (overlap_grad_reduce _); reflexivity.
  - rewrite Hmg, Hbuf.
    assert (Hp' : ∀ q, (<[param := q]> (module self)) !!! param = q).
    { intros q. apply list_lookup_total_insert_eq. done. }
    destruct (overlap_grad_reduce (ddp_config self)) eqn:Hov; simpl; rewrite Hov; simpl;
      rewrite Hp'; reflexivity.
Qed.

(** *** What [__init__] keeps of the parameters *)

Lemma static_lookup (m m' : list MsParameter) i :
  static_of <$> m' = static_of <$> m →
  static_of <$> (m' !! i) = static_of <$> (m !! i).
Proof. intros E. by rewrite <- !list_lookup_fmap, E. Qed.

Lemma static_lookup_total (m m' : list MsParameter) i :
  static_of <$> m' = static_of <$> m → static_of (m' !!! i) = static_of (m !!! i).
Proof.
  intros E. pose proof (static_lookup m m' i E) as Hl.
  rewrite !list_lookup_total_alt.
  destruct (m' !! i), (m !! i); simpl in *; congruence.
Qed.

Lemma static_alter_main_grad (m : list MsParameter) f (ps : list nat) :
  static_of <$> foldl (λ m param, alter (λ p, set_main_grad p (f param)) param m) m ps
  = static_of <$> m.
Proof.
  revert m. induction ps as [|a ps IH]; intros m; [done|]. simpl. rewrite IH.
  rewrite (list_fmap_alter _ _ id); [by rewrite list_alter_id|].
  by apply Forall_forall.
Qed.

Lemma collect_params_static (ps : list MsParameter) : ∀ i,
  static_of <$> (collect_params i ps).1.1 = static_of <$> ps.
Proof.
  induction ps as [|p ps IH]; intros i; [done|]. simpl.
  specialize (IH (S i)). destruct (collect_params (S i) ps) as [[ps' d] e].
  cbn [fst snd] in *.
  destruct (requires_grad p), (default true (allreduce p));
    cbn [negb fst snd]; rewrite !fmap_cons, IH; reflexivity.
Qed.

(** Every parameter that requires a gradient is in one of the two lists. *)
Lemma collect_params_lists (ps : list MsParameter) : ∀ i k p,
  ps !! k = Some p → requires_grad p = true →
  (i + k)%nat ∈ (collect_params i ps).1.2 ∨ (i + k)%nat ∈ (collect_params i ps).2.
Proof.
  induction ps as [|q ps IH]; intros i k p Hk Hreq; [done|]. simpl.
  specialize (IH (S i)). destruct (collect_params (S i) ps) as [[ps' d] e].
  simpl in *. destruct k as [|k]; simpl in *.
  - injection Hk as ->. rewrite Hreq. simpl. rewrite Nat.add_0_r.
    destruct (default true (allreduce p)); simpl; [left|right];
      apply elem_of_cons; by left.
  - specialize (IH k p Hk Hreq). replace (i + S k)%nat with (S i + k)%nat by lia.
    destruct (requires_grad q); simpl; [|done].
    destruct (default true (allreduce q)), IH as [IH|IH]; simpl;
      [left|right|left|right]; try done; apply elem_of_cons; by right.
Qed.

(** *** The dict of dtype groups *)

Lemma covered_dict_append_new {K} `{EqDecision K} (key : K) v d :
  covered (dict_append key v d) v key.
Proof.
  induction d as [|[k vs] d IH]; simpl.
  - exists [v]. set_solver.
  - destruct (decide (key = k)) as [->|Hne].
    + exists (vs ++ [v]). set_solver.
    + destruct IH as (ps & Hin & Hv). exists ps. set_solver.
Qed.

Lemma covered_dict_append_old {K} `{EqDecision K} (key : K) v d i k :
  covered d i k → covered (dict_append key v d) i k.
Proof.
  induction d as [|[k' vs] d IH]; intros (ps & Hin & Hi); simpl.
  - by apply elem_of_nil in Hin.
  - apply elem_of_cons in Hin as [[= <- <-]|Hin].
    + destruct (decide (key = k)) as [->|Hne].
      * exists (ps ++ [v]). set_solver.
      * exists ps. set_solver.
    + destruct IH as (ps' & Hin' & Hi'); [by exists ps|].
      destruct (decide (key = k')) as [->|Hne].
      * exists ps. set_solver.
      * exists ps'. set_solver.
Qed.

Lemma covered_dict_append_inv {K} `{EqDecision K} (key : K) v d i k :
  covered (dict_append key v d) i k → covered d i k ∨ (i = v ∧ k = key).
Proof.
  induction d as [|[k' vs] d IH]; simpl; intros (ps & Hin & Hi).
  - apply list_elem_of_singleton in Hin as [= -> ->].
    apply list_elem_of_singleton in Hi as ->. by right.
  - destruct (decide (key = k')) as [->|Hne].
    + apply elem_of_cons in Hin as [[= -> ->]|Hin].
      * apply elem_of_app in Hi as [Hi|Hi].
        -- left. exists vs. set_solver.
        -- apply list_elem_of_singleton in Hi as ->. by right.
      * left. exists ps. set_solver.
    + apply elem_of_cons in Hin as [[= -> ->]|Hin].
      * left. exists vs. set_solver.
      * destruct IH as [(ps' & Hin' & Hi')|?]; [by exists ps| |by right].
        left. exists ps'. set_solver.
Qed.

Lemma group_by_dtype_spec (self : DistributedDataParallel) (l : list nat) :
  (∀ i, i ∈ l → covered (group_by_dtype self l) i (param_and_grad_dtype self i)) ∧
  (∀ i k, covered (group_by_dtype self l) i k → k = param_and_grad_dtype self i).
Proof.
  unfold group_by_dtype. induction l as [|a l IH] using rev_ind.
  - split; [set_solver|]. intros i k (ps & Hin & _). by apply elem_of_nil in Hin.
  - rewrite foldl_snoc. destruct IH as [IH1 IH2]. split.
    + intros i [Hi|Hi]%elem_of_app.
      * by apply covered_dict_append_old, IH1.
      * apply list_elem_of_singleton in Hi as ->. apply covered_dict_append_new.
    + intros i k [Hc|[-> ->]]%covered_dict_append_inv; [by apply IH2|done].
Qed.

(** *** Buffer allocation *)

Lemma alloc_frame_refl s : alloc_frame s s.
Proof. split; try done. exists []. by rewrite app_nil_r. Qed.

Lemma alloc_frame_trans s0 s1 s2 : alloc_frame s0 s1 → alloc_frame s1 s2 → alloc_frame s0 s2.
Proof.
  intros [] []. split; try congruence; [|by auto].
  destruct fr_heap0 as [h0 E0], fr_heap1 as [h1 E1]. exists (h0 ++ h1).
  by rewrite E1, E0, app_assoc.
Qed.

Lemma pagd_frame s0 s i :
  alloc_frame s0 s → param_and_grad_dtype s i = param_and_grad_dtype s0 i.
Proof.
  intros []. unfold param_and_grad_dtype. rewrite fr_ddp_config0.
  pose proof (static_lookup_total _ _ i fr_module0) as E.
  unfold static_of in E. by injection E as _ -> _ _ _.
Qed.

Lemma foldl_insert_lookup (ps : list nat) (b : nat) : ∀ (d : gmap nat nat) i,
  foldl (λ d param, <[param := b]> d) d ps !! i
  = if decide (i ∈ ps) then Some b else d !! i.
Proof.
  induction ps as [|a ps IH]; intros d i; cbn [foldl].
  - case_decide as Hin; [by apply elem_of_nil in Hin|done].
  - rewrite IH. destruct (decide (i ∈ ps)) as [Hin|Hin].
    + case_decide as Hin'; [done|]. exfalso. apply Hin', elem_of_cons. by right.
    + destruct (decide (a = i)) as [->|Hne].
      * rewrite lookup_insert_eq. case_decide as Hin'; [done|].
        exfalso. apply Hin', elem_of_cons. by left.
      * rewrite lookup_insert_ne by done. case_decide as Hin'; [|done].
        apply elem_of_cons in Hin' as [->|?]; done.
Qed.

Lemma allocate_buffer_step g sc (s : DistributedDataParallel) bufs k ps :
  let r := allocate_buffer g sc (s, bufs) (k, ps) in
  alloc_frame s r.1 ∧ r.2 = bufs ++ [length (heap s)] ∧
  (ptb_ok s → (∀ i, i ∈ ps → k = param_and_grad_dtype s i) → ptb_ok r.1) ∧
  (∀ i, i ∈ ps → is_Some (param_to_buffer r.1 !! i)).
Proof.
  cbv zeta. unfold allocate_buffer, new_buffer. cbn [fst snd].
  match goal with |- alloc_frame s ?s' ∧ _ => set (s1 := s') end.
  assert (Hfr : alloc_frame s s1).
  { split; try done.
    - apply static_alter_main_grad.
    - by eexists.
    - intros i Hi. subst s1. cbn. rewrite foldl_insert_lookup.
      by destruct (decide _). }
  split; [done|]. split; [done|]. split.
  - intros Hok Hkey i b. subst s1. cbn [param_to_buffer heap].
    rewrite foldl_insert_lookup. destruct (decide (i ∈ ps)) as [Hin|Hin].
    + intros [= <-]. eexists. split; [by apply list_lookup_middle|].
      cbn. split; [done|]. rewrite (pagd_frame s _ i Hfr), <- (Hkey i Hin).
      by destruct k.
    + intros Hb. destruct (Hok i b Hb) as (buf & Hbuf & Hi & Hty).
      exists buf. split; [by apply lookup_app_l_Some|]. split; [done|].
      by rewrite (pagd_frame s _ i Hfr).
  - intros i Hin. subst s1. cbn. rewrite foldl_insert_lookup.
    rewrite decide_True by done. eauto.
Qed.

Lemma allocate_fold g sc gs : ∀ (s : DistributedDataParallel) bufs,
  let r := foldl (allocate_buffer g sc) (s, bufs) gs in
  alloc_frame s r.1 ∧
  (ptb_ok s → (∀ i k, covered gs i k → k = param_and_grad_dtype s i) → ptb_ok r.1) ∧
  (∀ i k, covered gs i k → is_Some (param_to_buffer r.1 !! i)).
Proof.
  induction gs as [|[k ps] gs IH]; intros s bufs; cbv zeta.
  - simpl. split; [apply alloc_frame_refl|]. split; [done|].
    intros i k (? & Hin & _). by apply elem_of_nil in Hin.
  - cbn [foldl]. pose proof (allocate_buffer_step g sc s bufs k ps) as Hstep.
    cbv zeta in Hstep. destruct (allocate_buffer g sc (s, bufs) (k, ps)) as [s1 bufs1].
    cbn [fst snd] in Hstep. destruct Hstep as (Hfr1 & _ & Hok1 & Hdom1).
    specialize (IH s1 bufs1). cbv zeta in IH. destruct IH as (Hfr & Hok & Hdom).
    split; [by eapply alloc_frame_trans|]. split.
    + intros Hs Hkey. apply Hok.
      * apply Hok1; [done|]. intros i Hi. apply Hkey. exists ps. split; [|done].
        apply elem_of_cons. by left.
      * intros i k' (ps' & Hin & Hi). rewrite (pagd_frame s s1 i Hfr1).
        apply Hkey. exists ps'. split; [|done]. apply elem_of_cons. by right.
    + intros i k' (ps' & [[= -> ->]|Hin]%elem_of_cons & Hi).
      * apply (fr_dom _ _ Hfr), Hdom1, Hi.
      * apply (Hdom i k'). by exists ps'.
Qed.

Lemma allocate_buffers_spec (s : DistributedDataParallel) l g sc :
  let r := allocate_buffers_for_parameters s l g sc in
  alloc_frame s r.1 ∧ (ptb_ok s → ptb_ok r.1) ∧
  (∀ i, i ∈ l → is_Some (param_to_buffer r.1 !! i)).
Proof.
  cbv zeta. unfold allocate_buffers_for_parameters.
  destruct (group_by_dtype_spec s l) as [Hcov Hkey].
  pose proof (allocate_fold g sc (group_by_dtype s l) s []) as Hf.
  cbv zeta in Hf. destruct Hf as (Hfr & Hok & Hdom).
  split; [done|]. split; [by auto|].
  intros i Hi. eapply Hdom, Hcov, Hi.
Qed.

(** *** The wrapper as [__init__] leaves it *)

Lemma ddp_init_spec cfg dcfg (m : list MsParameter) db :
  let s := __init__ cfg dcfg m db in
  (∀ i p, m !! i = Some p →
     ∃ p', module s !! i = Some p' ∧
       name p' = name p ∧ p_dtype p' = p_dtype p ∧
       requires_grad p' = requires_grad p ∧
       hooks p' = hooks p ++ (if requires_grad p then [param_hook i] else [])) ∧
  (∀ i p, m !! i = Some p → requires_grad p = true →
     ∃ b buf, param_to_buffer s !! i = Some b ∧ heap s !! b = Some buf ∧
       i ∈ params buf ∧
       grad_dtype buf = if grad_reduce_in_fp32 dcfg then float32 else p_dtype p) ∧
  overlap_grad_reduce (ddp_config s) = overlap_grad_reduce dcfg ∧
  (overlap_grad_reduce dcfg = false → bucket_size s = None) ∧
  calls s = [].
Proof.
  cbv zeta. unfold __init__.
  set (dcfg' := match cfg_bucket_size dcfg with
                | Some _ => dcfg
                | None => set_cfg_bucket_size dcfg _
                end).
  assert (Hov : overlap_grad_reduce dcfg' = overlap_grad_reduce dcfg)
    by (subst dcfg'; by destruct (cfg_bucket_size dcfg)).
  assert (Hfp : grad_reduce_in_fp32 dcfg' = grad_reduce_in_fp32 dcfg)
    by (subst dcfg'; by destruct (cfg_bucket_size dcfg)).
  pose proof (collect_params_static m 0) as Hst.
  pose proof (collect_params_lists m 0) as Hlists.
  destruct (collect_params 0 m) as [[m1 dense] expert]. cbn [fst snd] in Hst, Hlists.
  match goal with |- context [let '(a, b) := ?e in _] => destruct e as [g1 g2] end.
  match goal with |- context [allocate_buffers_for_parameters ?s _ _ _] => set (s0 := s) end.
  pose proof (allocate_buffers_spec s0 dense (get_data_parallel_group true) g1) as H1.
  cbv zeta in H1.
  destruct (allocate_buffers_for_parameters s0 dense _ g1) as [s1 bufs1].
  cbn [fst snd] in H1. destruct H1 as (Hfr1 & Hok1 & Hdom1).
  pose proof (allocate_buffers_spec (set_buffers s1 bufs1) expert
                get_data_modulo_expert_parallel_group g2) as H2.
  cbv zeta in H2.
  destruct (allocate_buffers_for_parameters (set_buffers s1 bufs1) expert _ g2)
    as [s2 bufs2].
  cbn [fst snd] in H2. destruct H2 as (Hfr2 & Hok2 & Hdom2).
  assert (Hok : ptb_ok s2).
  { apply Hok2. apply Hok1. intros i b Hb. subst s0. cbn in Hb. done. }
  assert (Hmod : static_of <$> module s2 = static_of <$> m).
  { rewrite (fr_module _ _ Hfr2). cbn. rewrite (fr_module _ _ Hfr1). subst s0. done. }
  assert (Hcfg : ddp_config s2 = dcfg').
  { rewrite (fr_ddp_config _ _ Hfr2). cbn. by rewrite (fr_ddp_config _ _ Hfr1). }
  split; [|split; [|split; [|split]]].
  - intros i p Hi. cbn. rewrite list_lookup_imap.
    pose proof (static_lookup _ _ i Hmod) as Hl. rewrite Hi in Hl.
    destruct (module s2 !! i) as [p2|]; [|done]. cbn in Hl.
    unfold static_of in Hl. injection Hl as Hn Hd Hr Ha Hh.
    eexists. split; [done|]. rewrite <- Hr.
    destruct (requires_grad p2) eqn:E; repeat split; cbn; rewrite ?app_nil_r; congruence.
  - intros i p Hi Hreq. cbn.
    assert (Hsome : is_Some (param_to_buffer s2 !! i)).
    { destruct (Hlists i p Hi Hreq) as [Hd|He].
      - apply (fr_dom _ _ Hfr2). cbn. by apply Hdom1.
      - by apply Hdom2. }
    destruct Hsome as [b Hb]. destruct (Hok i b Hb) as (buf & Hbuf & Hin & Hty).
    exists b, buf. split; [done|]. split; [done|]. split; [done|].
    unfold param_and_grad_dtype in Hty. rewrite Hcfg, Hfp in Hty.
    pose proof (static_lookup_total _ _ i Hmod) as Hp.
    rewrite (list_lookup_total_correct m i p Hi) in Hp.
    unfold static_of in Hp. injection Hp as _ Hd _ _ _. rewrite Hd in Hty.
    by injection Hty as _ ->.
  - cbn. by rewrite Hcfg.
  - intros Hoff. cbn. rewrite (fr_bucket_size _ _ Hfr2). cbn.
    rewrite (fr_bucket_size _ _ Hfr1). subst s0. cbn. rewrite Hov, Hoff.
    by rewrite orb_true_r.
  - cbn. rewrite (fr_calls _ _ Hfr2). cbn. by rewrite (fr_calls _ _ Hfr1).
Qed.

End ddp_facts.

(** C1 (the code as it is): [issue_grad_reduce] reads the attribute
    [expert_paralle_buffers], which no instance has; it raises AttributeError
    and calls [issue_grad_reduce] on no buffer. *)
Theorem issue_grad_reduce_raises `{DdpOps} (self : DistributedDataParallel) :
  issue_grad_reduce self = (self, Raise AttributeError).
Proof. reflexivity. Qed.

(** C8: when [no_sync] is left, by a body that returned or by one that raised,
    every buffer of [buffers] and of [expert_parallel_buffers] has
    [sync_enabled = True], whatever it was before; the outcome of the body
    stands, and [sync_enabled] was [False] on all of them when the body started. *)
Theorem no_sync_leaves_sync_enabled `{DdpOps}
    (body : DistributedDataParallel → DistributedDataParallel * result ())
    (self : DistributedDataParallel) :
  let entered := (enable_sync self false).1 in
  let left := (no_sync body self).1 in
  (no_sync body self).2 = (body entered).2 ∧
  buffers left = buffers (body entered).1 ∧
  expert_parallel_buffers left = expert_parallel_buffers (body entered).1 ∧
  length (heap left) = length (heap (body entered).1) ∧
  (∀ b buf, b ∈ buffers self ++ expert_parallel_buffers self →
            heap entered !! b = Some buf → sync_enabled buf = false) ∧
  (∀ b buf, b ∈ buffers left ++ expert_parallel_buffers left →
            heap left !! b = Some buf → sync_enabled buf = true).
Proof.
  cbv zeta. unfold no_sync. rewrite !enable_sync_ok.
  destruct (body _) as [s2 outcome] eqn:Hbody. rewrite enable_sync_ok. simpl.
  split; [done|]. split; [done|]. split; [done|]. split.
  { clear. generalize (heap s2).
    induction (buffers s2 ++ expert_parallel_buffers s2) as [|a l IH]; intros h; [done|].
    simpl. by rewrite IH, length_alter. }
  split.
  - intros b buf Hin. rewrite lookup_foldl_alter.
    destruct (decide _) as [_|?]; [|done].
    destruct (heap self !! b); intros [= <-]. done.
  - intros b buf Hin. rewrite lookup_foldl_alter.
    destruct (decide _) as [_|?]; [|done].
    destruct (heap s2 !! b); intros [= <-]. done.
Qed.

(** The buffer calls of one run of the hook. *)
Lemma param_hook_calls `{DdpOps}
    (self : DistributedDataParallel) (param : nat) (grad_ : tensor) :
  let overlap := overlap_grad_reduce (ddp_config self) in
  let after := (run_param_hook self param grad_).1 in
  let outcome := (run_param_hook self param grad_).2 in
  ∃ new, calls after = calls self ++ new ∧
    (overlap = false → new = []) ∧
    (∀ ret, outcome = Ok ret →
       ∃ buffer, param_to_buffer self !! param = Some buffer ∧
         new = (if overlap then [register_grad_ready_call buffer param] else []) ∧
         (register_grad_ready_call buffer param ∈ new ↔ overlap = true)) ∧
    (∀ buffer, param_to_buffer self !! param = Some buffer →
       is_Some (heap self !! buffer) →
       grad_accumulated (module self !!! param) = true
       ∨ is_Some (main_grad (module self !!! param)) →
       ∃ ret, outcome = Ok ret).
Proof.
  cbv zeta. unfold run_param_hook.
  destruct (param_to_buffer self !! param) as [buffer|] eqn:Hb; simpl.
  2:{ exists []. rewrite app_nil_r. repeat split; done. }
  set (p := module self !!! param).
  assert (Hon : ∀ s1 : DistributedDataParallel, calls s1 = calls self →
            overlap_grad_reduce (ddp_config self) = true → ∀ t : tensor,
            ∃ new, calls (log_call s1 (register_grad_ready_call buffer param))
                   = calls self ++ new ∧
              (true = false → new = []) ∧
              (∀ ret, Ok t = Ok ret →
                 ∃ buffer0, Some buffer = Some buffer0 ∧
                   new = [register_grad_ready_call buffer0 param] ∧
                   (register_grad_ready_call buffer0 param ∈ new ↔ true = true)) ∧
              (∀ buffer0, Some buffer = Some buffer0 → is_Some (heap self !! buffer0) →
                 grad_accumulated p = true ∨ is_Some (main_grad p) →
                 ∃ ret, Ok t = Ok ret)).
  { intros s1 Hs1 Hov t. exists [register_grad_ready_call buffer param]. simpl.
    rewrite Hs1. repeat split; try done.
    - intros ret _. exists buffer. repeat split; try done. intros _. set_solver.
    - intros; eauto. }
  assert (Hoff : ∀ s1 : DistributedDataParallel, calls s1 = calls self →
            overlap_grad_reduce (ddp_config self) = false → ∀ t : tensor,
            ∃ new, calls s1 = calls self ++ new ∧
              (false = false → new = []) ∧
              (∀ ret, Ok t = Ok ret →
                 ∃ buffer0, Some buffer = Some buffer0 ∧
                   new = [] ∧
                   (register_grad_ready_call buffer0 param ∈ new ↔ false = true)) ∧
              (∀ buffer0, Some buffer = Some buffer0 → is_Some (heap self !! buffer0) →
                 grad_accumulated p = true ∨ is_Some (main_grad p) →
                 ∃ ret, Ok t = Ok ret)).
  { intros s1 Hs1 Hov t. exists []. rewrite app_nil_r. repeat split; try done.
    - intros ret _. exists buffer. repeat split; try done. intros ?%elem_of_nil. done.
    - intros; eauto. }
  destruct (grad_accumulated p) eqn:Hacc; simpl.
  - destruct (overlap_grad_reduce (ddp_config self)) eqn:Hov; simpl.
    + by apply Hon.
    + by apply Hoff.
  - destruct (main_grad p) as [mg|] eqn:Hmg; simpl.
    2:{ exists []. rewrite app_nil_r. repeat split; try done.
        intros b _ _ [?|[x Hx]]; done. }
    destruct (heap self !! buffer) as [buf|] eqn:Hbuf; simpl.
    2:{ exists []. rewrite app_nil_r. repeat split; try done.
        intros b [= <-] [x Hx]. congruence. }
    destruct (overlap_grad_reduce (ddp_config self)) eqn:Hov; simpl.
    + by apply Hon.
    + by apply Hoff.
Qed.

(** C3: the hook calls [buffer.register_grad_ready(param)] exactly when
    [ddp_config.overlap_grad_reduce] is true.  With the flag off the hook makes
    no buffer call at all, however it ends; when the hook returns, the buffer
    calls it made are that one call if the flag is on and none if it is off;
    and it returns whenever the parameter has its buffer and either its
    gradient is already accumulated or [main_grad] is bound.  The flag the
    hook reads is the one of the config given to [__init__], which with the
    flag off also leaves [bucket_size] at [None]. *)
Theorem param_hook_register_grad_ready `{DdpOps} :
  (∀ (self : DistributedDataParallel) (param : nat) (grad_ : tensor),
     let overlap := overlap_grad_reduce (ddp_config self) in
     let after := (run_param_hook self param grad_).1 in
     let outcome := (run_param_hook self param grad_).2 in
     ∃ new, calls after = calls self ++ new ∧
       (overlap = false → new = []) ∧
       (∀ ret, outcome = Ok ret →
          ∃ buffer, param_to_buffer self !! param = Some buffer ∧
            new = (if overlap then [register_grad_ready_call buffer param] else []) ∧
            (register_grad_ready_call buffer param ∈ new ↔ overlap = true)) ∧
       (∀ buffer, param_to_buffer self !! param = Some buffer →
          is_Some (heap self !! buffer) →
          grad_accumulated (module self !!! param) = true
          ∨ is_Some (main_grad (module self !!! param)) →
          ∃ ret, outcome = Ok ret)) ∧
  (∀ cfg dcfg (m : list MsParameter) db,
     overlap_grad_reduce (ddp_config (__init__ cfg dcfg m db))
       = overlap_grad_reduce dcfg ∧
     (overlap_grad_reduce dcfg = false → bucket_size (__init__ cfg dcfg m db) = None)).
Proof.
  split.
  - apply param_hook_calls.
  - intros cfg dcfg m db.
    destruct (ddp_init_spec cfg dcfg m db) as (_ & _ & Hov & Hb & _). done.
Qed.

(** C2: [__init__] registers the hook of a parameter on that parameter when
    it has [requires_grad] and on no other, and enters such a parameter in
    [param_to_buffer] under a buffer that holds it and has the grad dtype of
    its group.  A run of the hook on a parameter with [grad_accumulated]
    false and a bound [main_grad] puts [main_grad + grad.astype(grad_dtype)]
    into [main_grad], touches no other parameter, and returns [param.grad], or
    a zero tensor of the parameter's dtype when [param.grad] is [None]. *)
Theorem param_hooks_registered_and_run `{DdpOps} :
  (∀ cfg dcfg (m : list MsParameter) db i p,
     m !! i = Some p →
     let self := __init__ cfg dcfg m db in
     ∃ p', module self !! i = Some p' ∧
       requires_grad p' = requires_grad p ∧ p_dtype p' = p_dtype p ∧
       hooks p' = hooks p ++ (if requires_grad p then [param_hook i] else []) ∧
       (requires_grad p = true →
          ∃ buffer buf, param_to_buffer self !! i = Some buffer ∧
            heap self !! buffer = Some buf ∧ i ∈ params buf ∧
            grad_dtype buf = if grad_reduce_in_fp32 dcfg then float32 else p_dtype p)) ∧
  (∀ (self : DistributedDataParallel) param grad_ buffer buf p mg,
     module self !! param = Some p →
     param_to_buffer self !! param = Some buffer →
     heap self !! buffer = Some buf →
     grad_accumulated p = false → main_grad p = Some mg →
     let after := (run_param_hook self param grad_).1 in
     (run_param_hook self param grad_).2
       = Ok (match grad p with Some g => g | None => Tensor0 (p_dtype p) end) ∧
     module after !! param
       = Some (set_main_grad p
                 (Some (copy_ mg (add mg (astype grad_ (grad_dtype buf)))))) ∧
     (∀ j, j ≠ param → module after !! j = module self !! j)).
Proof.
  split.
  - intros cfg dcfg m db i p Hi. cbv zeta.
    destruct (ddp_init_spec cfg dcfg m db) as (Hreg & Hptb & _).
    destruct (Hreg i p Hi) as (p' & Hp' & _ & Hd & Hr & Hh).
    exists p'. repeat split; try done. intros Hreq. by apply Hptb.
  - intros self param grad_ buffer buf p mg Hp Hb Hbuf Hacc Hmg. cbv zeta.
    pose proof (lookup_lt_Some _ _ _ Hp) as Hlt.
    pose proof (list_lookup_total_correct _ _ _ Hp) as Htot.
    rewrite (run_param_hook_ok self param grad_ buffer buf Hb Hbuf Hlt mg)
      by (by rewrite Htot).
    rewrite Htot, Hacc.
    split; [done|].
    destruct (overlap_grad_reduce (ddp_config self)); cbn; split.
    + by apply list_lookup_insert_eq.
    + intros j Hj. by apply list_lookup_insert_ne.
    + by apply list_lookup_insert_eq.
    + intros j Hj. by apply list_lookup_insert_ne.
Qed.

Example ddp_example_hooks :
  @hooks (Z_ddp_ops 2 0) <$> module ddp_example = [[param_hook 0]; []; [param_hook 2]].
Proof. reflexivity. Qed.

Example ddp_example_buffers :
  buffers ddp_example = [0%nat] ∧ expert_parallel_buffers ddp_example = [1%nat] ∧
  (@grad_dtype (Z_ddp_ops 2 0) <$> heap ddp_example) = [float32; float32] ∧
  (@params (Z_ddp_ops 2 0) <$> heap ddp_example) = [[0%nat]; [2%nat]] ∧
  bucket_size ddp_example = Some 40000000.
Proof. repeat split; vm_compute; reflexivity. Qed.

Example ddp_example_hook_run :
  let r := @run_param_hook (Z_ddp_ops 2 0) ddp_example 0 7 in
  r.2 = Ok 0 ∧
  @main_grad (Z_ddp_ops 2 0) <$> (@module (Z_ddp_ops 2 0) r.1 !! 0%nat) = Some (Some 7) ∧
  calls r.1 = [register_grad_ready_call 0 0].
Proof. repeat split; vm_compute; reflexivity. Qed.

Lemma param_hooks_registered_and_run_witness :
  (@run_param_hook (Z_ddp_ops 2 0) ddp_example 0 7).2
    = Ok (match grad ddp_example_w with
          | Some g => g
          | None => @Tensor0 (Z_ddp_ops 2 0) (p_dtype ddp_example_w)
          end) ∧
  module (@run_param_hook (Z_ddp_ops 2 0) ddp_example 0 7).1 !! 0%nat
    = Some (set_main_grad ddp_example_w
              (Some (@copy_ (Z_ddp_ops 2 0) 0
                       (@add (Z_ddp_ops 2 0) 0
                          (@astype (Z_ddp_ops 2 0) 7 (grad_dtype ddp_example_buffer)))))) ∧
  (∀ j, j ≠ 0%nat →
        module (@run_param_hook (Z_ddp_ops 2 0) ddp_example 0 7).1 !! j
        = module ddp_example !! j).
Proof.
  apply (proj2 (@param_hooks_registered_and_run (Z_ddp_ops 2 0))
           ddp_example 0%nat 7 0%nat ddp_example_buffer ddp_example_w 0);
    reflexivity.
Defined.

Lemma param_hook_register_grad_ready_witness :
  ∃ new, calls (@run_param_hook (Z_ddp_ops 2 0) ddp_example 0 7).1
         = calls ddp_example ++ new ∧
    (overlap_grad_reduce (ddp_config ddp_example) = false → new = []) ∧
    (∀ ret, (@run_param_hook (Z_ddp_ops 2 0) ddp_example 0 7).2 = Ok ret →
       ∃ buffer, param_to_buffer ddp_example !! 0%nat = Some buffer ∧
         new = (if overlap_grad_reduce (ddp_config ddp_example)
                then [register_grad_ready_call buffer 0] else []) ∧
         (register_grad_ready_call buffer 0 ∈ new
          ↔ overlap_grad_reduce (ddp_config ddp_example) = true)) ∧
    (∀ buffer, param_to_buffer ddp_example !! 0%nat = Some buffer →
       is_Some (heap ddp_example !! buffer) →
       grad_accumulated (module ddp_example !!! 0%nat) = true
       ∨ is_Some (main_grad (module ddp_example !!! 0%nat)) →
       ∃ ret, (@run_param_hook (Z_ddp_ops 2 0) ddp_example 0 7).2 = Ok ret).
Proof.
  exact (proj1 (@param_hook_register_grad_ready (Z_ddp_ops 2 0)) ddp_example 0%nat 7).
Defined.

Example ddp_example_issue_grad_reduce :
  (@issue_grad_reduce (Z_ddp_ops 2 0) ddp_example).2 = Raise AttributeError ∧
  calls (@final_grad_reduce (Z_ddp_ops 2 0) ddp_example).1
  = [final_grad_reduce_call 0; final_grad_reduce_call 1].
Proof. split; vm_compute; reflexivity. Qed.

(** A body that raises inside [no_sync]: the exception stands and the buffers
    are synchronised again. *)
Example ddp_example_no_sync :
  let r := @no_sync (Z_ddp_ops 2 0) (λ s, (s, Raise ValueError)) ddp_example in
  r.2 = Raise ValueError ∧
  (@sync_enabled (Z_ddp_ops 2 0) <$> heap r.1) = [true; true].
Proof. split; vm_compute; reflexivity. Qed.

Section dict_facts.
Context {K : Type} `{EqDecision K}.

Lemma dict_append_keys (key : K) (v : nat) d :
  (dict_append key v d).*1 = if decide (key ∈ d.*1) then d.*1 else d.*1 ++ [key].
Proof.
  induction d as [|[k vs] d IH]; [done|]. cbn [dict_append]. rewrite fmap_cons.
  cbn [fst]. destruct (decide (key = k)) as [->|Hne]; rewrite fmap_cons; cbn [fst].
  - destruct (decide (k ∈ k :: d.*1)) as [|Hin]; [done|].
    exfalso. apply Hin, elem_of_cons. by left.
  - rewrite IH. destruct (decide (key ∈ d.*1)) as [Hin|Hin].
    + destruct (decide (key ∈ k :: d.*1)) as [|Hin']; [done|].
      exfalso. apply Hin', elem_of_cons. by right.
    + destruct (decide (key ∈ k :: d.*1)) as [Hin'|]; [|done].
      apply elem_of_cons in Hin' as [?|?]; done.
Qed.

Lemma dict_append_elem (key : K) (v : nat) d k ps :
  NoDup d.*1 →
  (k, ps) ∈ dict_append key v d ↔
    (k ≠ key ∧ (k, ps) ∈ d) ∨
    (k = key ∧ ((∃ ps0, (key, ps0) ∈ d ∧ ps = ps0 ++ [v]) ∨ ((key ∉ d.*1) ∧ ps = [v]))).
Proof.
  induction d as [|[k0 vs] d IH]; cbn [dict_append]; intros Hnd.
  - rewrite list_elem_of_singleton. split.
    + intros [= -> ->]. right. split; [done|]. right. split; [|done].
      by intros ?%elem_of_nil.
    + intros [[_ Hin]|[-> [(ps0 & Hin & _)|[_ ->]]]]; try by apply elem_of_nil in Hin.
      done.
  - rewrite fmap_cons in Hnd. cbn [fst] in Hnd.
    apply list.NoDup_cons in Hnd as [Hk0 Hnd]. specialize (IH Hnd).
    destruct (decide (key = k0)) as [->|Hne].
    + rewrite !elem_of_cons. split.
      * intros [[= -> ->]|Hin].
        -- right. split; [done|]. left. exists vs. split; [|done]. apply elem_of_cons. by left.
        -- left. split; [|by right]. intros ->. apply Hk0.
           apply list_elem_of_fmap. by exists (k0, ps).
      * intros [[Hk [[= -> ->]|Hin]]|[-> [(ps0 & Hin & ->)|[Hnin ->]]]]; try done.
        -- by right.
        -- apply elem_of_cons in Hin as [[= ->]|Hin]; [by left|].
           exfalso. apply Hk0. apply list_elem_of_fmap. by exists (k0, ps0).
        -- exfalso. apply Hnin. apply elem_of_cons. by left.
    + rewrite elem_of_cons, IH. split.
      * intros [[= -> ->]|[[Hk Hin]|[-> [(ps0 & Hin & ->)|[Hnin ->]]]]].
        -- left. split; [done|]. apply elem_of_cons. by left.
        -- left. split; [done|]. apply elem_of_cons. by right.
        -- right. split; [done|]. left. exists ps0. split; [|done]. apply elem_of_cons. by right.
        -- right. split; [done|]. right. split; [|done].
           intros [?|?]%elem_of_cons; done.
      * intros [[Hk [[= -> ->]|Hin]%elem_of_cons]|[-> [(ps0 & Hin & ->)|[Hnin ->]]]].
        -- by left.
        -- right. left. done.
        -- apply elem_of_cons in Hin as [[= ? ?]|Hin]; [done|].
           right. right. split; [done|]. left. by exists ps0.
        -- right. right. split; [done|]. right. split; [|done].
           intros Hin. apply Hnin. apply elem_of_cons. by right.
Qed.

(** The dict built by the grouping loop: its keys are distinct, and the list
    under a key holds the elements with that key, in their order. *)
Lemma grouped_spec (f : nat → K) (l : list nat) :
  let d := foldl (λ d i, dict_append (f i) i d) [] l in
  NoDup d.*1 ∧ (∀ i, i ∈ l → f i ∈ d.*1) ∧
  ∀ k ps, (k, ps) ∈ d → ps = filter (λ i, f i = k) l ∧ ps ≠ [].
Proof.
  cbv zeta. induction l as [|a l IH] using rev_ind.
  - simpl. split; [constructor|]. split; [by intros i ?%elem_of_nil|].
    by intros k ps ?%elem_of_nil.
  - rewrite foldl_snoc. destruct IH as (Hnd & Hkeys & Hgroups).
    set (d := foldl (λ d i, dict_append (f i) i d) [] l) in *.
    split; [|split].
    + rewrite dict_append_keys. destruct (decide _) as [|Hnin]; [done|].
      apply list.NoDup_app. split; [done|]. split; [|apply NoDup_singleton].
      intros x Hx ->%list_elem_of_singleton. done.
    + intros i Hi. rewrite dict_append_keys.
      apply elem_of_app in Hi as [Hi| ->%list_elem_of_singleton].
      * destruct (decide _); [by apply Hkeys|]. apply elem_of_app. left. by apply Hkeys.
      * destruct (decide _) as [|Hnin]; [done|]. apply elem_of_app. right.
        by apply list_elem_of_singleton.
    + intros k ps Hin. apply dict_append_elem in Hin; [|done].
      rewrite list.filter_app, filter_cons, filter_nil.
      destruct Hin as [[Hk Hin]|[-> [(ps0 & Hin & ->)|[Hnin ->]]]].
      * destruct (Hgroups _ _ Hin) as [-> Hne]. rewrite decide_False by done.
        by rewrite app_nil_r.
      * destruct (Hgroups _ _ Hin) as [-> Hne]. rewrite decide_True by done.
        split; [done|]. by destruct (filter _ l).
      * rewrite decide_True by done. split; [|done].
        destruct (filter (λ i, f i = f a) l) as [|i rest] eqn:E; [done|].
        exfalso. assert (Hi : i ∈ filter (λ i, f i = f a) l)
          by (rewrite E; apply elem_of_cons; by left).
        apply list_elem_of_filter in Hi as [Hfi Hi].
        apply Hnin. rewrite <- Hfi. by apply Hkeys.
Qed.

(** Where the dict keeps an element: under its key, and nowhere else. *)
Lemma grouped_lookup (f : nat → K) (l : list nat) :
  let d := foldl (λ d i, dict_append (f i) i d) [] l in
  (∀ i, i ∈ l → ∃ k it, d !! k = Some it ∧ it.1 = f i ∧ i ∈ it.2) ∧
  (∀ i k it, d !! k = Some it → i ∈ it.2 → i ∈ l ∧ f i = it.1) ∧
  (∀ k k' it it', d !! k = Some it → d !! k' = Some it' → it.1 = it'.1 → k = k') ∧
  (∀ k it, d !! k = Some it → it.2 ≠ []).
Proof.
  cbv zeta. destruct (grouped_spec f l) as (Hnd & Hkeys & Hgroups).
  set (d := foldl _ [] l) in *.
  split; [|split; [|split]].
  - intros i Hi. pose proof (Hkeys i Hi) as Hk.
    apply list_elem_of_fmap in Hk as ([key ps] & Hkey & Hin). cbn in Hkey. subst key.
    pose proof Hin as Hin'. apply list_elem_of_lookup in Hin' as [k Hk].
    exists k, (f i, ps). split; [done|]. split; [done|]. cbn.
    destruct (Hgroups _ _ Hin) as [-> _]. by apply list_elem_of_filter.
  - intros i k [key ps] Hk Hi. cbn in *.
    destruct (Hgroups key ps) as [-> _]; [by eapply list_elem_of_lookup_2|].
    by apply list_elem_of_filter in Hi as [? ?].
  - intros k k' it it' Hk Hk' E.
    apply (NoDup_lookup _ _ _ it.1 Hnd); rewrite list_lookup_fmap.
    + by rewrite Hk.
    + rewrite Hk'. cbn. congruence.
  - intros k [key ps] Hk. cbn.
    by destruct (Hgroups key ps) as [_ ?]; [by eapply list_elem_of_lookup_2|].
Qed.

End dict_facts.

Section alloc_facts.
Context `{DdpOps}.

Lemma group_by_dtype_ext (s : DistributedDataParallel) (f : nat → dtype * dtype) l :
  (∀ i, param_and_grad_dtype s i = f i) →
  group_by_dtype s l = foldl (λ d i, dict_append (f i) i d) [] l.
Proof.
  intros Hf. unfold group_by_dtype. generalize (@nil ((dtype * dtype) * list nat)).
  induction l as [|a l IH]; intros d; [done|]. cbn [foldl]. by rewrite Hf, IH.
Qed.

(** The allocation loop over items whose parameter lists are pairwise
    disjoint: the buffer objects it appends, the names it returns, and the
    entries it makes in [param_to_buffer]. *)
Lemma allocate_fold_exact g sc gs : ∀ (s : DistributedDataParallel) bufs,
  (∀ i k k' it it', gs !! k = Some it → gs !! k' = Some it' →
                    i ∈ it.2 → i ∈ it'.2 → k = k') →
  let r := foldl (allocate_buffer g sc) (s, bufs) gs in
  heap r.1 = heap s ++ (buffer_of (bucket_size s) g sc <$> gs) ∧
  r.2 = bufs ++ seq (length (heap s)) (length gs) ∧
  (∀ i k it, gs !! k = Some it → i ∈ it.2 →
     param_to_buffer r.1 !! i = Some (length (heap s) + k)%nat) ∧
  (∀ i, (∀ it, it ∈ gs → i ∉ it.2) → param_to_buffer r.1 !! i = param_to_buffer s !! i).
Proof.
  induction gs as [|[dtypes ps] gs IH]; intros s bufs Hdisj; cbv zeta.
  - cbn. rewrite !app_nil_r. repeat split; done.
  - cbn [foldl].
    destruct (allocate_buffer g sc (s, bufs) (dtypes, ps)) as [s1 b1] eqn:Hstep.
    unfold allocate_buffer in Hstep. cbn [new_buffer fst snd] in Hstep.
    injection Hstep as Hs1 Hb1.
    assert (Hh1 : heap s1 = heap s ++ [buffer_of (bucket_size s) g sc (dtypes, ps)])
      by (by subst s1).
    assert (Hbs1 : bucket_size s1 = bucket_size s) by (by subst s1).
    assert (Hptb1 : ∀ i, param_to_buffer s1 !! i
                         = if decide (i ∈ ps) then Some (length (heap s))
                           else param_to_buffer s !! i).
    { intros i. subst s1. cbn. apply foldl_insert_lookup. }
    clear Hs1. subst b1.
    assert (Hdisj' : ∀ i k k' it it', gs !! k = Some it → gs !! k' = Some it' →
                       i ∈ it.2 → i ∈ it'.2 → k = k').
    { intros i k k' it it' Hk Hk' Hi Hi'.
      specialize (Hdisj i (S k) (S k') it it' Hk Hk' Hi Hi'). lia. }
    specialize (IH s1 (bufs ++ [length (heap s)]) Hdisj'). cbv zeta in IH.
    destruct IH as (Hheap & Hbufs & Hin & Hout).
    split; [|split; [|split]].
    + rewrite Hheap, Hh1, Hbs1. by rewrite <- app_assoc.
    + rewrite Hbufs, Hh1. rewrite length_app. cbn.
      rewrite <- app_assoc. cbn. by rewrite Nat.add_1_r.
    + intros i [|k] it Hk Hi.
      * injection Hk as <-. cbn in Hi. rewrite Hout, Hptb1.
        -- rewrite decide_True by done. by rewrite Nat.add_0_r.
        -- intros it' Hit' Hi'. apply list_elem_of_lookup in Hit' as [k' Hk'].
           specialize (Hdisj i 0%nat (S k') (dtypes, ps) it' eq_refl Hk' Hi Hi'). lia.
      * cbn in Hk. rewrite (Hin i k it Hk Hi), Hh1. rewrite length_app. cbn.
        f_equal. lia.
    + intros i Hnot. rewrite Hout, Hptb1.
      * rewrite decide_False; [done|]. apply (Hnot (dtypes, ps)). apply elem_of_cons. by left.
      * intros it Hit. apply Hnot. apply elem_of_cons. by right.
Qed.

(** [allocate_buffers_for_parameters]: one buffer for every key of the dict of
    dtype groups, in the order of the keys. *)
Lemma allocate_buffers_exact (s : DistributedDataParallel) l g sc :
  let gs := group_by_dtype s l in
  let r := allocate_buffers_for_parameters s l g sc in
  heap r.1 = heap s ++ (buffer_of (bucket_size s) g sc <$> gs) ∧
  r.2 = seq (length (heap s)) (length gs) ∧
  (∀ i k it, gs !! k = Some it → i ∈ it.2 →
     param_to_buffer r.1 !! i = Some (length (heap s) + k)%nat) ∧
  (∀ i, i ∉ l → param_to_buffer r.1 !! i = param_to_buffer s !! i).
Proof.
  cbv zeta. unfold allocate_buffers_for_parameters.
  rewrite (group_by_dtype_ext s (param_and_grad_dtype s) l) by done.
  destruct (grouped_spec (param_and_grad_dtype s) l) as (Hnd & Hkeys & Hgroups).
  set (gs := foldl _ [] l) in *.
  assert (Hmem : ∀ i it, it ∈ gs → i ∈ it.2 → i ∈ l ∧ param_and_grad_dtype s i = it.1).
  { intros i [k ps] Hit Hi. destruct (Hgroups k ps Hit) as [-> _].
    apply list_elem_of_filter in Hi as [? ?]. done. }
  destruct (allocate_fold_exact g sc gs s []) as (Hheap & Hbufs & Hin & Hout).
  { intros i k k' it it' Hk Hk' Hi Hi'.
    destruct (Hmem i it) as [_ E]; [by eapply list_elem_of_lookup_2|done|].
    destruct (Hmem i it') as [_ E']; [by eapply list_elem_of_lookup_2|done|].
    apply (NoDup_lookup _ _ _ it.1 Hnd); rewrite list_lookup_fmap.
    - by rewrite Hk.
    - rewrite Hk'. cbn. congruence. }
  split; [done|]. split; [done|]. split; [done|].
  intros i Hi. apply Hout. intros it Hit Hin'. by destruct (Hmem i it Hit Hin').
Qed.

(** The two lists of the loop over the parameters. *)
Lemma collect_params_mem (ps : list MsParameter) : ∀ i0 j,
  (j ∈ (collect_params i0 ps).1.2 ↔
     ∃ k p, j = (i0 + k)%nat ∧ ps !! k = Some p ∧ requires_grad p = true ∧
            default true (allreduce p) = true) ∧
  (j ∈ (collect_params i0 ps).2 ↔
     ∃ k p, j = (i0 + k)%nat ∧ ps !! k = Some p ∧ requires_grad p = true ∧
            default true (allreduce p) = false).
Proof.
  induction ps as [|q ps IH]; intros i0 j.
  - cbn. split; (split; [by intros ?%elem_of_nil|by intros (k & p & _ & ? & _)]).
  - cbn [collect_params]. specialize (IH (S i0) j).
    destruct (collect_params (S i0) ps) as [[ps' d] e]. cbn [fst snd] in IH.
    destruct IH as [IHd IHe].
    assert (Hshift : ∀ b : bool,
              (∃ k p, j = (S i0 + k)%nat ∧ ps !! k = Some p ∧ requires_grad p = true ∧
                      default true (allreduce p) = b) ↔
              (∃ k p, j = (i0 + S k)%nat ∧ (q :: ps) !! S k = Some p ∧
                      requires_grad p = true ∧ default true (allreduce p) = b)).
    { intros b. split; intros (k & p & -> & Hk & ?); exists k, p;
        (split; [lia|done]). }
    assert (Hcases : ∀ b : bool,
              (∃ k p, j = (i0 + k)%nat ∧ (q :: ps) !! k = Some p ∧
                      requires_grad p = true ∧ default true (allreduce p) = b) ↔
              (j = i0 ∧ requires_grad q = true ∧ default true (allreduce q) = b) ∨
              (∃ k p, j = (i0 + S k)%nat ∧ (q :: ps) !! S k = Some p ∧
                      requires_grad p = true ∧ default true (allreduce p) = b)).
    { intros b. split.
      - intros ([|k] & p & -> & Hk & Hr & Ha).
        + injection Hk as ->. left. split; [lia|done].
        + right. by exists k, p.
      - intros [(-> & Hr & Ha)|(k & p & ? & ? & ?)].
        + exists 0%nat, q. split; [lia|done].
        + by exists (S k), p. }
    rewrite !Hcases, <- !Hshift, <- IHd, <- IHe.
    destruct (requires_grad q) eqn:Hq; cbn [negb fst snd].
    + destruct (default true (allreduce q)) eqn:Ha; cbn [fst snd];
        rewrite elem_of_cons; split; split; intros Hx;
        repeat match goal with
               | H : _ ∨ _ |- _ => destruct H
               | H : _ ∧ _ |- _ => destruct H
               end; try done; auto.
    + split; split; intros Hx;
        repeat match goal with
               | H : _ ∨ _ |- _ => destruct H
               | H : _ ∧ _ |- _ => destruct H
               end; try done; auto.
Qed.

(** The buffers, their two lists and [param_to_buffer] as [__init__] leaves
    them: a buffer for every dtype group of the dense parameters, then one for
    every dtype group of the expert-parallel parameters. *)
Lemma ddp_init_layout cfg dcfg (m : list MsParameter) db :
  let s := __init__ cfg dcfg m db in
  let key i := (p_dtype (m !!! i),
                if grad_reduce_in_fp32 dcfg then float32 else p_dtype (m !!! i)) in
  let cbs := default (Z.max 40000000 (1000000 * get_data_parallel_world_size))
               (cfg_bucket_size dcfg) in
  let bs := if (get_pipeline_model_parallel_rank >? 0) || db
               || negb (overlap_grad_reduce dcfg)
            then None else Some cbs in
  let sc := if calculate_per_token_loss cfg || average_in_collective dcfg
            then float_1 else float_div_int float_1 get_data_parallel_world_size in
  ∃ dense expert,
    (∀ i, i ∈ dense ↔ ∃ p, m !! i = Some p ∧ requires_grad p = true ∧
                           default true (allreduce p) = true) ∧
    (∀ i, i ∈ expert ↔ ∃ p, m !! i = Some p ∧ requires_grad p = true ∧
                            default true (allreduce p) = false) ∧
    let gd := foldl (λ d i, dict_append (key i) i d) [] dense in
    let ge := foldl (λ d i, dict_append (key i) i d) [] expert in
    heap s = (buffer_of bs (get_data_parallel_group true) sc <$> gd)
             ++ (buffer_of bs get_data_modulo_expert_parallel_group sc <$> ge) ∧
    buffers s = seq 0 (length gd) ∧
    expert_parallel_buffers s = seq (length gd) (length ge) ∧
    bucket_size s = bs ∧
    cfg_bucket_size (ddp_config s) = Some cbs ∧
    (∀ i k it, gd !! k = Some it → i ∈ it.2 → param_to_buffer s !! i = Some k) ∧
    (∀ i k it, ge !! k = Some it → i ∈ it.2 →
       param_to_buffer s !! i = Some (length gd + k)%nat) ∧
    (∀ i, i ∉ dense → i ∉ expert → param_to_buffer s !! i = None).
Proof.
  cbv zeta. unfold __init__.
  set (dcfg' := match cfg_bucket_size dcfg with
                | Some _ => dcfg
                | None => set_cfg_bucket_size dcfg _
                end).
  assert (Hov : overlap_grad_reduce dcfg' = overlap_grad_reduce dcfg)
    by (subst dcfg'; by destruct (cfg_bucket_size dcfg)).
  assert (Hfp : grad_reduce_in_fp32 dcfg' = grad_reduce_in_fp32 dcfg)
    by (subst dcfg'; by destruct (cfg_bucket_size dcfg)).
  assert (Hav : average_in_collective dcfg' = average_in_collective dcfg)
    by (subst dcfg'; by destruct (cfg_bucket_size dcfg)).
  assert (Hcbs : cfg_bucket_size dcfg'
                 = Some (default (Z.max 40000000 (1000000 * get_data_parallel_world_size))
                           (cfg_bucket_size dcfg)))
    by (subst dcfg'; by destruct (cfg_bucket_size dcfg) eqn:E).
  pose proof (collect_params_static m 0) as Hst.
  pose proof (collect_params_mem m 0) as Hmem.
  destruct (collect_params 0 m) as [[m1 dense] expert]. cbn [fst snd] in Hst, Hmem.
  exists dense, expert.
  assert (Hd : ∀ i, i ∈ dense ↔ ∃ p, m !! i = Some p ∧ requires_grad p = true ∧
                                     default true (allreduce p) = true).
  { intros i. rewrite (proj1 (Hmem i)). split.
    - intros (k & p & -> & ?). by exists p.
    - intros (p & ?). by exists i, p. }
  assert (He : ∀ i, i ∈ expert ↔ ∃ p, m !! i = Some p ∧ requires_grad p = true ∧
                                      default true (allreduce p) = false).
  { intros i. rewrite (proj2 (Hmem i)). split.
    - intros (k & p & -> & ?). by exists p.
    - intros (p & ?). by exists i, p. }
  split; [done|]. split; [done|].
  match goal with |- context [let '(a, b) := ?e in _] =>
    replace e with
      (if calculate_per_token_loss cfg || average_in_collective dcfg
       then (float_1, float_1)
       else (float_div_int float_1 get_data_parallel_world_size,
             float_div_int float_1 get_data_parallel_world_size))
      by (rewrite Hav; by destruct (calculate_per_token_loss cfg),
                                   (average_in_collective dcfg))
  end.
  set (sc := if calculate_per_token_loss cfg || average_in_collective dcfg
             then float_1 else float_div_int float_1 get_data_parallel_world_size).
  replace (if calculate_per_token_loss cfg || average_in_collective dcfg
           then (float_1, float_1)
           else (float_div_int float_1 get_data_parallel_world_size,
                 float_div_int float_1 get_data_parallel_world_size))
    with (sc, sc) by (subst sc; by destruct (_ || _)).
  match goal with |- context [allocate_buffers_for_parameters ?s _ _ _] => set (s0 := s) end.
  set (key := λ i : nat, (p_dtype (m !!! i),
                if grad_reduce_in_fp32 dcfg then float32 else p_dtype (m !!! i))).
  assert (Hkey0 : ∀ i, param_and_grad_dtype s0 i = key i).
  { intros i. unfold param_and_grad_dtype. subst s0 key. cbn. rewrite Hfp.
    pose proof (static_lookup_total _ _ i Hst) as E. unfold static_of in E.
    by injection E as _ -> _ _ _. }
  pose proof (allocate_buffers_exact s0 dense (get_data_parallel_group true) sc) as H1.
  pose proof (allocate_buffers_spec s0 dense (get_data_parallel_group true) sc) as F1.
  cbv zeta in H1, F1. rewrite (group_by_dtype_ext s0 key dense Hkey0) in H1.
  destruct (allocate_buffers_for_parameters s0 dense _ sc) as [s1 bufs1].
  cbn [fst snd] in H1, F1. destruct H1 as (Hheap1 & Hbufs1 & Hin1 & Hout1).
  destruct F1 as (Hfr1 & _ & _).
  assert (Hkey1 : ∀ i, param_and_grad_dtype (set_buffers s1 bufs1) i = key i).
  { intros i. rewrite <- Hkey0, <- (pagd_frame s0 s1 i Hfr1). done. }
  pose proof (allocate_buffers_exact (set_buffers s1 bufs1) expert
                get_data_modulo_expert_parallel_group sc) as H2.
  pose proof (allocate_buffers_spec (set_buffers s1 bufs1) expert
                get_data_modulo_expert_parallel_group sc) as F2.
  cbv zeta in H2, F2. rewrite (group_by_dtype_ext _ key expert Hkey1) in H2.
  destruct (allocate_buffers_for_parameters (set_buffers s1 bufs1) expert _ sc)
    as [s2 bufs2].
  cbn [fst snd] in H2, F2. destruct H2 as (Hheap2 & Hbufs2 & Hin2 & Hout2).
  destruct F2 as (Hfr2 & _ & _).
  set (gd := foldl (λ d i, dict_append (key i) i d) [] dense) in *.
  set (ge := foldl (λ d i, dict_append (key i) i d) [] expert) in *.
  assert (Hbs1 : bucket_size s1 = bucket_size s0) by apply (fr_bucket_size _ _ Hfr1).
  assert (Hlen1 : length (heap s1) = length gd).
  { rewrite Hheap1. subst s0. cbn. by rewrite length_fmap. }
  cbn [set_buffers heap bucket_size param_to_buffer] in Hheap2, Hbufs2, Hin2, Hout2.
  assert (Hdisjoint : ∀ i, i ∈ dense → i ∉ expert).
  { intros i [p (Hp & _ & Ha)]%Hd [p' (Hp' & _ & Ha')]%He. congruence. }
  assert (Hgd : ∀ i it, it ∈ gd → i ∈ it.2 → i ∈ dense).
  { intros i [k ps] Hit Hi.
    destruct (grouped_spec key dense) as (_ & _ & Hg).
    destruct (Hg k ps Hit) as [-> _].
    by apply list_elem_of_filter in Hi as [_ ?]. }
  cbn [register_hook_for_params set_module set_expert_parallel_buffers heap buffers
       expert_parallel_buffers bucket_size ddp_config param_to_buffer].
  split; [|split; [|split; [|split; [|split; [|split; [|split]]]]]].
  - rewrite Hheap2, Hheap1, Hbs1. subst s0. cbn. rewrite Hov, Hcbs. reflexivity.
  - rewrite (fr_buffers _ _ Hfr2). cbn. rewrite Hbufs1. by subst s0.
  - by rewrite Hbufs2, Hlen1.
  - rewrite (fr_bucket_size _ _ Hfr2). cbn. rewrite Hbs1. subst s0. cbn.
    rewrite Hov, Hcbs. done.
  - rewrite (fr_ddp_config _ _ Hfr2). cbn. rewrite (fr_ddp_config _ _ Hfr1).
    subst s0. cbn. done.
  - intros i k it Hk Hi. rewrite Hout2.
    + rewrite (Hin1 i k it Hk Hi). by subst s0.
    + apply Hdisjoint. eapply Hgd; [|done]. by eapply list_elem_of_lookup_2.
  - intros i k it Hk Hi. rewrite (Hin2 i k it Hk Hi). by rewrite Hlen1.
  - intros i Hnd Hne. rewrite Hout2 by done. rewrite Hout1 by done. by subst s0.
Qed.

End alloc_facts.


(** X1: [__init__] leaves a bucket size in the config in every case, the
    given one or [max(40000000, 1000000 * dp_size)] when none was given.  The
    wrapper's own [bucket_size] is that value, and [None] on a pipeline rank
    above zero, with [disable_bucketing], or without [overlap_grad_reduce];
    every buffer is created with the wrapper's value. *)
Theorem ddp_bucket_size `{DdpOps} cfg dcfg (m : list MsParameter) db :
  let s := __init__ cfg dcfg m db in
  let configured :=
    default (Z.max 40000000 (1000000 * get_data_parallel_world_size))
      (cfg_bucket_size dcfg) in
  cfg_bucket_size (ddp_config s) = Some configured ∧
  bucket_size s
    = (if (get_pipeline_model_parallel_rank >? 0) || db || negb (overlap_grad_reduce dcfg)
       then None else Some configured) ∧
  ∀ b buf, heap s !! b = Some buf → buf_bucket_size buf = bucket_size s.
Proof.
  cbv zeta.
  destruct (ddp_init_layout cfg dcfg m db)
    as (dense & expert & _ & _ & Hheap & _ & _ & Hbs & Hcbs & _).
  cbv zeta in *. split; [done|]. split; [done|].
  intros b buf Hb. rewrite Hbs. rewrite Hheap in Hb.
  apply lookup_app_Some in Hb as [Hb|[_ Hb]];
    rewrite list_lookup_fmap in Hb;
    destruct (_ !! _) as [it|]; try done; by injection Hb as <-.
Qed.


(** X2: after [__init__] the dense buffers and then the expert-parallel
    buffers are all the buffers, in the order of their creation.  The dense
    ones are created on the data-parallel group with context parallel, the
    others on the data-modulo-expert-parallel group, and all of them with the
    scaling factor [1.0] under [calculate_per_token_loss] or
    [average_in_collective], and [1.0 / dp_size] otherwise. *)
Theorem ddp_buffer_group_and_scaling `{DdpOps} cfg dcfg (m : list MsParameter) db :
  let s := __init__ cfg dcfg m db in
  let factor :=
    if calculate_per_token_loss cfg then float_1
    else if average_in_collective dcfg then float_1
         else float_div_int float_1 get_data_parallel_world_size in
  buffers s ++ expert_parallel_buffers s = seq 0 (length (heap s)) ∧
  (∀ b, b ∈ buffers s →
     ∃ buf, heap s !! b = Some buf ∧
       data_parallel_group buf = get_data_parallel_group true ∧
       gradient_scaling_factor buf = factor) ∧
  (∀ b, b ∈ expert_parallel_buffers s →
     ∃ buf, heap s !! b = Some buf ∧
       data_parallel_group buf = get_data_modulo_expert_parallel_group ∧
       gradient_scaling_factor buf = factor).
Proof.
  cbv zeta.
  destruct (ddp_init_layout cfg dcfg m db)
    as (dense & expert & _ & _ & Hheap & Hbufs & Hexp & _).
  cbv zeta in *. rewrite Hheap, Hbufs, Hexp.
  set (gd := foldl _ [] dense) in *. set (ge := foldl _ [] expert) in *.
  assert (Hsc : (if calculate_per_token_loss cfg || average_in_collective dcfg
                 then float_1 else float_div_int float_1 get_data_parallel_world_size)
                = (if calculate_per_token_loss cfg then float_1
                   else if average_in_collective dcfg then float_1
                        else float_div_int float_1 get_data_parallel_world_size))
    by (by destruct (calculate_per_token_loss cfg)).
  split; [|split].
  - rewrite length_app, !length_fmap. by rewrite seq_app.
  - intros b Hb. apply elem_of_seq in Hb as [_ Hb].
    destruct (lookup_lt_is_Some_2 gd b ltac:(lia)) as [it Hit].
    eexists. split.
    + rewrite lookup_app_l by (rewrite length_fmap; lia).
      rewrite list_lookup_fmap, Hit. reflexivity.
    + cbn. by rewrite Hsc.
  - intros b Hb. apply elem_of_seq in Hb as [Hge Hb].
    destruct (lookup_lt_is_Some_2 ge (b - length gd) ltac:(lia)) as [it Hit].
    eexists. split.
    + rewrite lookup_app_r by (rewrite length_fmap; lia).
      rewrite length_fmap, list_lookup_fmap, Hit. reflexivity.
    + cbn. by rewrite Hsc.
Qed.

(** X3: [__init__] gives every trainable parameter exactly one buffer,
    the one [param_to_buffer] names; it has the dtype of the parameter, and is
    a dense buffer when the parameter has no attribute [allreduce] or a true
    one, an expert-parallel buffer otherwise.  A frozen parameter is in no
    buffer and has no entry in [param_to_buffer], and no buffer is empty. *)
Theorem ddp_buffers_partition_parameters `{DdpOps} cfg dcfg (m : list MsParameter) db :
  let s := __init__ cfg dcfg m db in
  (∀ i p, m !! i = Some p → requires_grad p = true →
     ∃ b buf, param_to_buffer s !! i = Some b ∧ heap s !! b = Some buf ∧
       i ∈ params buf ∧ param_dtype buf = p_dtype p ∧
       (∀ b' buf', heap s !! b' = Some buf' → i ∈ params buf' → b' = b) ∧
       (b ∈ buffers s ↔ default true (allreduce p) = true) ∧
       (b ∈ expert_parallel_buffers s ↔ default true (allreduce p) = false)) ∧
  (∀ i p, m !! i = Some p → requires_grad p = false →
     param_to_buffer s !! i = None ∧
     ∀ b' buf', heap s !! b' = Some buf' → i ∉ params buf') ∧
  (∀ b buf, heap s !! b = Some buf → params buf ≠ []).
Proof.
  cbv zeta.
  destruct (ddp_init_layout cfg dcfg m db)
    as (dense & expert & Hd & He & Hheap & Hbufs & Hexp & _ & _ & Hpd & Hpe & Hnone).
  cbv zeta in *. rewrite Hheap, Hbufs, Hexp.
  set (key := λ i : nat, (p_dtype (m !!! i),
                if grad_reduce_in_fp32 dcfg then float32 else p_dtype (m !!! i))) in *.
  destruct (grouped_lookup key dense) as (Hd1 & Hd2 & Hd3 & Hd4).
  destruct (grouped_lookup key expert) as (He1 & He2 & He3 & He4).
  set (gd := foldl _ [] dense) in *. set (ge := foldl _ [] expert) in *.
  set (bs := if _ : bool then None else Some _) in *.
  set (sc := if _ : bool then float_1 else _) in *.
  assert (Hin_heap : ∀ b' buf' i,
            ((buffer_of bs (get_data_parallel_group true) sc <$> gd)
             ++ (buffer_of bs get_data_modulo_expert_parallel_group sc <$> ge)) !! b'
              = Some buf' →
            i ∈ params buf' →
            (∃ it, (b' < length gd)%nat ∧ gd !! b' = Some it ∧ i ∈ it.2) ∨
            (∃ it, (length gd ≤ b')%nat ∧ ge !! (b' - length gd)%nat = Some it ∧ i ∈ it.2)).
  { intros b' buf' i Hb' Hi. apply lookup_app_Some in Hb' as [Hb'|[Hge Hb']].
    - left. rewrite list_lookup_fmap in Hb'.
      destruct (gd !! b') as [it|] eqn:Hit; [|done]. injection Hb' as <-.
      exists it. split; [by eapply lookup_lt_Some|done].
    - right. rewrite length_fmap in *. rewrite list_lookup_fmap in Hb'.
      destruct (ge !! (b' - length gd)%nat) as [it|] eqn:Hit; [|done]. injection Hb' as <-.
      exists it. done. }
  split; [|split].
  - intros i p Hi Hreq. pose proof (list_lookup_total_correct _ _ _ Hi) as Htot.
    destruct (default true (allreduce p)) eqn:Ha.
    + assert (Hdi : i ∈ dense) by (apply Hd; by exists p).
      destruct (Hd1 i Hdi) as (k & it & Hk & Hkey & Hin).
      pose proof (lookup_lt_Some _ _ _ Hk) as Hlt.
      exists k, (buffer_of bs (get_data_parallel_group true) sc it).
      split; [by eapply Hpd|]. split.
      { rewrite lookup_app_l by (rewrite length_fmap; lia).
        by rewrite list_lookup_fmap, Hk. }
      split; [done|]. split; [cbn; rewrite Hkey; subst key; cbn; by rewrite Htot|].
      split.
      { intros b' buf' Hb' Hi'.
        destruct (Hin_heap b' buf' i Hb' Hi') as [(it' & _ & Hit' & Hi2)|(it' & _ & Hit' & Hi2)].
        - apply (Hd3 b' k it' it Hit' Hk).
          destruct (Hd2 i b' it' Hit' Hi2) as [_ <-]. done.
        - exfalso. destruct (He2 i _ it' Hit' Hi2) as [Hie _].
          apply He in Hie as (p' & Hp' & _ & Ha'). congruence. }
      split.
      { split; [done|]. intros _. apply elem_of_seq. lia. }
      { split; [|done]. intros Hx. apply elem_of_seq in Hx. lia. }
    + assert (Hei : i ∈ expert) by (apply He; by exists p).
      destruct (He1 i Hei) as (k & it & Hk & Hkey & Hin).
      pose proof (lookup_lt_Some _ _ _ Hk) as Hlt.
      exists (length gd + k)%nat, (buffer_of bs get_data_modulo_expert_parallel_group sc it).
      split; [by eapply Hpe|]. split.
      { rewrite lookup_app_r by (rewrite length_fmap; lia).
        rewrite length_fmap, list_lookup_fmap.
        replace (length gd + k - length gd)%nat with k by lia. by rewrite Hk. }
      split; [done|]. split; [cbn; rewrite Hkey; subst key; cbn; by rewrite Htot|].
      split.
      { intros b' buf' Hb' Hi'.
        destruct (Hin_heap b' buf' i Hb' Hi') as [(it' & _ & Hit' & Hi2)|(it' & Hge & Hit' & Hi2)].
        - exfalso. destruct (Hd2 i _ it' Hit' Hi2) as [Hid _].
          apply Hd in Hid as (p' & Hp' & _ & Ha'). congruence.
        - assert (b' - length gd = k)%nat; [|lia].
          apply (He3 _ k it' it Hit' Hk).
          destruct (He2 i _ it' Hit' Hi2) as [_ <-]. done. }
      split.
      { split; [|done]. intros Hx. apply elem_of_seq in Hx. lia. }
      { split; [done|]. intros _. apply elem_of_seq. lia. }
  - intros i p Hi Hreq.
    assert (Hnd : i ∉ dense) by (intros (p' & ? & ? & _)%Hd; congruence).
    assert (Hne : i ∉ expert) by (intros (p' & ? & ? & _)%He; congruence).
    split; [by apply Hnone|]. intros b' buf' Hb' Hi'.
    destruct (Hin_heap b' buf' i Hb' Hi') as [(it' & _ & Hit' & Hi2)|(it' & _ & Hit' & Hi2)].
    + by destruct (Hd2 i _ it' Hit' Hi2) as [? _].
    + by destruct (He2 i _ it' Hit' Hi2) as [? _].
  - intros b buf Hb. apply lookup_app_Some in Hb as [Hb|[_ Hb]];
      rewrite list_lookup_fmap in Hb;
      destruct (_ !! _) as [it|] eqn:Hit; try done; injection Hb as <-; cbn.
    + by eapply Hd4.
    + by eapply He4.
Qed.


(** X4: after [__init__] two trainable parameters share a buffer exactly
    when they have the same dtype and are on the same side, dense or
    expert-parallel. *)
Theorem ddp_same_buffer_iff_same_dtype `{DdpOps} cfg dcfg (m : list MsParameter) db
    i j p q :
  m !! i = Some p → m !! j = Some q →
  requires_grad p = true → requires_grad q = true →
  let s := __init__ cfg dcfg m db in
  param_to_buffer s !! i = param_to_buffer s !! j
  ↔ default true (allreduce p) = default true (allreduce q) ∧ p_dtype p = p_dtype q.
Proof.
  intros Hi Hj Hp Hq. cbv zeta.
  destruct (ddp_init_layout cfg dcfg m db)
    as (dense & expert & Hd & He & _ & _ & _ & _ & _ & Hpd & Hpe & _).
  cbv zeta in *.
  set (key := λ i : nat, (p_dtype (m !!! i),
                if grad_reduce_in_fp32 dcfg then float32 else p_dtype (m !!! i))) in *.
  destruct (grouped_lookup key dense) as (Hd1 & Hd2 & Hd3 & _).
  destruct (grouped_lookup key expert) as (He1 & He2 & He3 & _).
  set (gd := foldl _ [] dense) in *. set (ge := foldl _ [] expert) in *.
  pose proof (list_lookup_total_correct _ _ _ Hi) as Hti.
  pose proof (list_lookup_total_correct _ _ _ Hj) as Htj.
  assert (Hkey : key i = key j ↔ p_dtype p = p_dtype q).
  { subst key. cbn. rewrite Hti, Htj. split; [by intros [= ->]|by intros ->]. }
  destruct (default true (allreduce p)) eqn:Hap, (default true (allreduce q)) eqn:Haq.
  - assert (Hdi : i ∈ dense) by (apply Hd; by exists p).
    assert (Hdj : j ∈ dense) by (apply Hd; by exists q).
    destruct (Hd1 i Hdi) as (k & it & Hk & Hit & Hin).
    destruct (Hd1 j Hdj) as (k' & it' & Hk' & Hit' & Hin').
    rewrite (Hpd i k it Hk Hin), (Hpd j k' it' Hk' Hin'), <- Hkey. split.
    + intros [= <-]. split; [done|]. rewrite Hk in Hk'. injection Hk' as <-. congruence.
    + intros [_ E]. f_equal. apply (Hd3 k k' it it' Hk Hk'). congruence.
  - assert (Hdi : i ∈ dense) by (apply Hd; by exists p).
    assert (Hej : j ∈ expert) by (apply He; by exists q).
    destruct (Hd1 i Hdi) as (k & it & Hk & Hit & Hin).
    destruct (He1 j Hej) as (k' & it' & Hk' & Hit' & Hin').
    rewrite (Hpd i k it Hk Hin), (Hpe j k' it' Hk' Hin').
    pose proof (lookup_lt_Some _ _ _ Hk). split; [intros [= ?]; lia|by intros [? _]].
  - assert (Hei : i ∈ expert) by (apply He; by exists p).
    assert (Hdj : j ∈ dense) by (apply Hd; by exists q).
    destruct (He1 i Hei) as (k & it & Hk & Hit & Hin).
    destruct (Hd1 j Hdj) as (k' & it' & Hk' & Hit' & Hin').
    rewrite (Hpe i k it Hk Hin), (Hpd j k' it' Hk' Hin').
    pose proof (lookup_lt_Some _ _ _ Hk'). split; [intros [= ?]; lia|by intros [? _]].
  - assert (Hei : i ∈ expert) by (apply He; by exists p).
    assert (Hej : j ∈ expert) by (apply He; by exists q).
    destruct (He1 i Hei) as (k & it & Hk & Hit & Hin).
    destruct (He1 j Hej) as (k' & it' & Hk' & Hit' & Hin').
    rewrite (Hpe i k it Hk Hin), (Hpe j k' it' Hk' Hin'), <- Hkey. split.
    + intros [= E]. assert (k = k') as <- by lia. split; [done|].
      rewrite Hk in Hk'. injection Hk' as <-. congruence.
    + intros [_ E]. do 2 f_equal. apply (He3 k k' it it' Hk Hk'). congruence.
Qed.

Lemma ddp_same_buffer_iff_same_dtype_witness :
  param_to_buffer
    (@__init__ (Z_ddp_ops 2 0) {| calculate_per_token_loss := false |}
       ddp_example_config ddp_example_params false) !! 0%nat
  = param_to_buffer
      (@__init__ (Z_ddp_ops 2 0) {| calculate_per_token_loss := false |}
         ddp_example_config ddp_example_params false) !! 2%nat
  ↔ default true (@allreduce (Z_ddp_ops 2 0)
        (@Build_MsParameter (Z_ddp_ops 2 0) "w1" float16 true None None None false []))
    = default true (@allreduce (Z_ddp_ops 2 0)
        (@Build_MsParameter (Z_ddp_ops 2 0) "w2" float16 true (Some true) None None
           false []))
    ∧ @p_dtype (Z_ddp_ops 2 0)
        (@Build_MsParameter (Z_ddp_ops 2 0) "w1" float16 true None None None false [])
      = @p_dtype (Z_ddp_ops 2 0)
          (@Build_MsParameter (Z_ddp_ops 2 0) "w2" float16 true (Some true) None None
             false []).
Proof.
  apply (@ddp_same_buffer_iff_same_dtype (Z_ddp_ops 2 0)
           {| calculate_per_token_loss := false |} ddp_example_config
           ddp_example_params false 0%nat 2%nat); reflexivity.
Defined.

Example ddp_example_grouping :
  let s := @__init__ (Z_ddp_ops 2 0) {| calculate_per_token_loss := false |}
             ddp_example_config ddp_example_params false in
  (@params (Z_ddp_ops 2 0) <$> heap s) = [[0; 2]; [1]; [4]]%nat ∧
  buffers s = [0; 1]%nat ∧ expert_parallel_buffers s = [2%nat] ∧
  (λ i, param_to_buffer s !! i) <$> [0; 1; 2; 3; 4]%nat
  = [Some 0; Some 1; Some 0; None; Some 2]%nat.
Proof. repeat split; vm_compute; reflexivity. Qed.

Section method_facts.
Context `{DdpOps}.


End method_facts.







End DistributedDataParallelFacts.

(** * Facts about the ZeRO optimizer *)

Module AdamWZeROFacts.
Import AdamWZeRO.

Section zero_facts.
Context `{ZeroOps}.

Lemma insert_true_middle (done : list bool) (k : nat) :
  <[length done := true]> (done ++ false :: replicate k false)
  = (done ++ [true]) ++ replicate k false.
Proof.
  rewrite insert_app_r_alt by lia. rewrite Nat.sub_diag. simpl.
  by rewrite <- app_assoc.
Qed.

Lemma keep_false_middle (done : list bool) (k : nat) :
  done ++ false :: replicate k false = (done ++ [false]) ++ replicate k false.
Proof. by rewrite <- app_assoc. Qed.

Lemma parameter_status_split_loop_spec zl z3 shard (ps : list MsParameter) :
  shard ≠ 0 → Forall (λ p, t_shape (data p) ≠ []) ps →
  ∀ i pdone sdone, length pdone = i → length sdone = i →
  _parameter_status_split_loop zl (if String.eqb zl "z3" then z3 else []) shard i ps
    (pdone ++ replicate (length ps) false) (sdone ++ replicate (length ps) false)
  = Ok (pdone ++ (parameter_partitioned zl z3 <$> ps),
        sdone ++ (status_partitioned zl z3 shard <$> ps)).
Proof.
  intros Hshard Hall. induction Hall as [|p ps Hp Hall IH];
    intros i pdone sdone Hpl Hsl.
  - simpl. by rewrite !app_nil_r.
  - cbn [_parameter_status_split_loop length replicate].
    destruct (t_shape (data p)) as [|d rest] eqn:Hshape; [done|].
    assert (Hmod : py_mod d shard = Ok (d mod shard)).
    { unfold py_mod. by destruct (Z.eqb_spec shard 0). }
    assert (Hstep :
      (if String.eqb zl "z3" then
         if bool_decide (name p ∈ (if String.eqb zl "z3" then z3 else []))
         then Ok (<[i := true]> (pdone ++ false :: replicate (length ps) false),
                  sdone ++ false :: replicate (length ps) false)
         else
           d ← py_index (d :: rest) 0;
           r ← py_mod d shard;
           Ok (pdone ++ false :: replicate (length ps) false,
               if r =? 0 then <[i := true]> (sdone ++ false :: replicate (length ps) false)
               else sdone ++ false :: replicate (length ps) false)
       else
         d ← py_index (d :: rest) 0;
         r ← py_mod d shard;
         Ok (pdone ++ false :: replicate (length ps) false,
             if r =? 0 then <[i := true]> (sdone ++ false :: replicate (length ps) false)
             else sdone ++ false :: replicate (length ps) false))
      = Ok ((pdone ++ [parameter_partitioned zl z3 p]) ++ replicate (length ps) false,
            (sdone ++ [status_partitioned zl z3 shard p]) ++ replicate (length ps) false)).
    { unfold parameter_partitioned, status_partitioned, parameter_partitioned.
      rewrite Hshape. cbn [hd py_index lookup list_lookup mbind result_bind].
      rewrite Hmod. cbn [mbind result_bind].
      destruct (String.eqb zl "z3"); cbn [andb negb].
      - destruct (bool_decide (name p ∈ z3)); cbn [andb negb].
        + by rewrite <- Hpl, insert_true_middle, keep_false_middle.
        + rewrite keep_false_middle. destruct (Z.eqb_spec (d mod shard) 0) as [E|E].
          * rewrite bool_decide_eq_true_2 by done.
            by rewrite <- Hsl, insert_true_middle.
          * rewrite bool_decide_eq_false_2 by done. by rewrite keep_false_middle.
      - rewrite keep_false_middle. destruct (Z.eqb_spec (d mod shard) 0) as [E|E].
        + rewrite bool_decide_eq_true_2 by done.
          by rewrite <- Hsl, insert_true_middle.
        + rewrite bool_decide_eq_false_2 by done. by rewrite keep_false_middle. }
    rewrite Hstep. cbn [mbind result_bind fst snd].
    rewrite IH by (rewrite length_app; simpl; lia).
    by rewrite !fmap_cons, <- !app_assoc.
Qed.

Lemma init_all_gather_ops_loop (st : list bool) : ∀ i (done : list bool),
  length done = i →
  foldl (λ ops '(i, param_splited), if param_splited : bool then <[i := true]> ops else ops)
        (done ++ replicate (length st) false) (zip (seq i (length st)) st)
  = done ++ st.
Proof.
  induction st as [|b st IH]; intros i done Hlen.
  - done.
  - cbn [length seq zip zip_with foldl replicate]. destruct b.
    + rewrite <- Hlen, insert_true_middle, IH by (rewrite length_app; simpl; lia).
      by rewrite <- app_assoc.
    + rewrite keep_false_middle, IH by (rewrite length_app; simpl; lia).
      by rewrite <- app_assoc.
Qed.

Lemma init_all_gather_ops_eq (st : list bool) :
  _init_all_gather_ops st (replicate (length st) false) = st.
Proof. apply (init_all_gather_ops_loop st 0 []). done. Qed.

Lemma init_momentum_loop_spec (st : list bool) shard prefix init (ps : list MsParameter) :
  shard ≠ 0 → Forall (λ p, t_shape (data p) ≠ []) ps →
  ∀ i, (i + length ps ≤ length st)%nat →
  _init_momentum_loop st shard prefix init i ps
  = Ok (zip_with (moment_of prefix init shard) (drop i st) ps).
Proof.
  intros Hshard Hall. induction Hall as [|p ps Hp Hall IH]; intros i Hlen.
  - simpl. by destruct (drop i st).
  - cbn [_init_momentum_loop]. simpl in Hlen.
    destruct (lookup_lt_is_Some_2 st i ltac:(lia)) as [b Hb].
    rewrite (drop_S _ _ _ Hb), (list_lookup_total_correct _ _ _ Hb).
    rewrite IH by lia. cbn [zip_with].
    destruct (t_shape (data p)) as [|d rest] eqn:Hshape; [done|].
    unfold moment_of, moment_shape. rewrite Hshape.
    destruct b; cbn; [|done].
    unfold py_floordiv. destruct (Z.eqb_spec shard 0); [done|]. done.
Qed.

Lemma regist_hook_static zl pspl sspl (ps : list MsParameter) :
  data <$> _regist_hook_for_params zl pspl sspl ps = data <$> ps ∧
  name <$> _regist_hook_for_params zl pspl sspl ps = name <$> ps.
Proof.
  unfold _regist_hook_for_params. split.
  - apply list_eq. intros i. rewrite !list_lookup_fmap, list_lookup_imap.
    by destruct (ps !! i).
  - apply list_eq. intros i. rewrite !list_lookup_fmap, list_lookup_imap.
    by destruct (ps !! i).
Qed.

Lemma moments_static prefix init shard (st : list bool) (ps ps' : list MsParameter) :
  data <$> ps' = data <$> ps → name <$> ps' = name <$> ps →
  zip_with (moment_of prefix init shard) st ps'
  = zip_with (moment_of prefix init shard) st ps.
Proof.
  intros Hd Hn. apply list_eq. intros i. rewrite !lookup_zip_with.
  assert (Hdi : data <$> (ps' !! i) = data <$> (ps !! i))
    by (by rewrite <- !list_lookup_fmap, Hd).
  assert (Hni : name <$> (ps' !! i) = name <$> (ps !! i))
    by (by rewrite <- !list_lookup_fmap, Hn).
  destruct (st !! i) as [b|]; [|done]. cbn.
  destruct (ps' !! i) as [p'|], (ps !! i) as [p|]; try done. cbn in *.
  injection Hdi as Hdi. injection Hni as Hni.
  unfold moment_of. by rewrite Hdi, Hni.
Qed.

(** The optimizer [__init__] builds. *)
Lemma adamw_init_spec (params : list MsParameter) zl after op cp z3 :
  op = "mean" ∨ op = "sum" →
  get_data_parallel_world_size cp ≠ 0 →
  Forall (λ p, t_shape (data p) ≠ []) params →
  let shard := get_data_parallel_world_size cp in
  let pspl := parameter_partitioned zl z3 <$> params in
  let sspl := status_partitioned zl z3 shard <$> params in
  __init__ params zl after op cp z3
  = Ok {| zero_level := zl;
          allreduce_after_grad_accumulation := after;
          with_context_parallel := cp;
          grad_allreduce_sum := String.eqb op "sum";
          _parameters := if after then params
                         else _regist_hook_for_params zl pspl sspl params;
          _parameter_splited := pspl;
          _status_splited := sspl;
          all_gather_ops := sspl;
          shard_size := shard;
          shard_id := get_data_parallel_rank cp;
          dp_cp_group := get_data_parallel_group cp;
          zero3_parameters := if String.eqb zl "z3" then z3 else [];
          moments1 := zip_with (moment_of "adam_m" "zeros" shard) sspl params;
          moments2 := zip_with (moment_of "adam_v" "zeros" shard) sspl params |}.
Proof.
  intros Hop Hshard Hall. cbv zeta. unfold __init__.
  assert (Hopb : negb (String.eqb op "mean" || String.eqb op "sum") = false)
    by (by destruct Hop as [-> | ->]).
  rewrite Hopb.
  pose proof (parameter_status_split_loop_spec zl z3 _ params Hshard Hall 0 [] []
                eq_refl eq_refl) as Hloop.
  cbn [app] in Hloop. rewrite Hloop. cbn [mbind result_bind fst snd].
  set (pspl := parameter_partitioned zl z3 <$> params).
  set (sspl := status_partitioned zl z3 _ <$> params).
  assert (Hlen : length sspl = length params) by (subst sspl; by rewrite length_fmap).
  rewrite <- Hlen, init_all_gather_ops_eq.
  assert (Hall' : Forall (λ p, t_shape (data p) ≠ [])
                    (if negb after then _regist_hook_for_params zl pspl sspl params
                     else params)).
  { destruct after; [done|]. cbn. unfold _regist_hook_for_params.
    apply Forall_lookup. intros i p' Hi. rewrite list_lookup_imap in Hi.
    destruct (params !! i) as [p|] eqn:Hp; [|done]. injection Hi as <-. cbn.
    by eapply (Forall_lookup_1 _ _ _ _ Hall). }
  rewrite !init_momentum_loop_spec; try done.
  2,3: destruct after; cbn; unfold _regist_hook_for_params; rewrite ?length_imap; lia.
  rewrite drop_0. cbn [mbind result_bind].
  destruct after; cbn [negb]; [done|].
  destruct (regist_hook_static zl pspl sspl params) as [Hd Hn].
  by rewrite !(moments_static _ _ _ _ params _ Hd Hn).
Qed.

Lemma status_partitioned_z1_z2 zl z3 shard (p : MsParameter) :
  zl = "z1" ∨ zl = "z2" →
  status_partitioned zl z3 shard p
  = bool_decide (hd 0 (t_shape (data p)) mod shard = 0).
Proof. by intros [-> | ->]. Qed.

Lemma status_partitioned_divides zl z3 shard (p : MsParameter) :
  status_partitioned zl z3 shard p = true →
  hd 0 (t_shape (data p)) mod shard = 0.
Proof.
  unfold status_partitioned. intros [_ Hd]%andb_true_iff.
  by apply bool_decide_eq_true in Hd.
Qed.

Lemma split_params_shape sid shard (t : tensor) need :
  t_shape (_split_params_to_fp32 sid shard t need)
  = if need then scale_first_dim (λ d, d / shard) (t_shape t) else t_shape t.
Proof. unfold _split_params_to_fp32. destruct need; by case_decide. Qed.

(** The parameters of the optimizer are those it was given, hooks apart. *)
Lemma init_parameters_lookup zl pspl sspl (after : bool) (params : list MsParameter) i p :
  (if after then params else _regist_hook_for_params zl pspl sspl params) !! i = Some p →
  ∃ p0, params !! i = Some p0 ∧ data p = data p0 ∧ name p = name p0 ∧
    hooks p = hooks p0 ++
      (if after then []
       else [if (pspl !!! i || sspl !!! i) && in_z2_z3 zl
             then reduce_scatter_hook else reduce_hook]).
Proof.
  destruct after.
  - intros Hp. exists p. by rewrite app_nil_r.
  - unfold _regist_hook_for_params. rewrite list_lookup_imap.
    destruct (params !! i) as [p0|]; [|done]. intros [= <-]. by exists p0.
Qed.

Lemma update_params_dtype_shape g (param : MsParameter) (update : tensor) (b : bool) :
  let r := _update_params_opt_parallel g param update b in
  let gathered := if b then all_gather_into_tensor update g else update in
  r.2 = (if b then [AllGather g] else []) ∧
  data r.1 = (if decide (t_dtype gathered ≠ t_dtype (data param))
              then cast gathered (t_dtype (data param)) else gathered) ∧
  name r.1 = name param ∧ hooks r.1 = hooks param ∧
  t_dtype (data r.1) = t_dtype (data param) ∧
  t_shape (data r.1) = t_shape gathered.
Proof.
  cbv zeta. unfold _update_params_opt_parallel.
  destruct b; cbn; repeat split; try done; case_decide as Hd; cbn; try done.
Qed.

End zero_facts.

(** C4: at level z1 or z2 the state of a parameter is partitioned exactly
    when the first dimension of the parameter is a multiple of the shard size;
    both moments then have that dimension divided by the shard size (the other
    dimensions kept), and have the full shape of the parameter otherwise. *)
Theorem adamw_state_partition `{ZeroOps} (params : list MsParameter)
    (zl : string) (after : bool) (op : string) (cp : bool) (z3 : list string) :
  zl = "z1" ∨ zl = "z2" → op = "mean" ∨ op = "sum" →
  0 < get_data_parallel_world_size cp →
  Forall (λ p, t_shape (data p) ≠ []) params →
  let shard := get_data_parallel_world_size cp in
  ∃ opt, __init__ params zl after op cp z3 = Ok opt ∧
    ∀ i p, params !! i = Some p →
      ∃ d rest partitioned m1 m2,
        t_shape (data p) = d :: rest ∧
        _status_splited opt !! i = Some partitioned ∧
        (partitioned = true ↔ d mod shard = 0) ∧
        moments1 opt !! i = Some m1 ∧ moments2 opt !! i = Some m2 ∧
        t_shape (data m1) = (if partitioned then d / shard :: rest else d :: rest) ∧
        t_shape (data m2) = (if partitioned then d / shard :: rest else d :: rest).
Proof.
  intros Hzl Hop Hws Hall. cbv zeta.
  rewrite adamw_init_spec by (done || lia). eexists. split; [reflexivity|].
  intros i p Hp. cbn.
  pose proof (Forall_lookup_1 _ _ _ _ Hall Hp) as Hne.
  destruct (t_shape (data p)) as [|d rest] eqn:Hshape; [done|].
  exists d, rest, (bool_decide (d mod get_data_parallel_world_size cp = 0)).
  do 2 eexists. split; [done|].
  rewrite !lookup_zip_with, list_lookup_fmap, Hp. cbn.
  rewrite (status_partitioned_z1_z2 _ _ _ _ Hzl), Hshape. cbn.
  split; [done|]. split; [apply bool_decide_eq_true|].
  split; [done|]. split; [done|].
  unfold moment_of, moment_shape. cbn. rewrite Hshape. by destruct (bool_decide _).
Qed.

(** C5: the last statement of [construct] gives every parameter whose state
    is partitioned the all-gather, over the data-parallel group, of its update,
    cast to the dtype of the parameter when the dtypes differ; as the update
    has the shape of the parameter's shard, the parameter keeps its full shape.
    A parameter whose state is not partitioned is given its update (cast when
    the dtypes differ) and no all-gather is called for it. *)
Theorem adamw_update_gathers `{ZeroOps} (params : list MsParameter)
    (zl : string) (after : bool) (op : string) (cp : bool) (z3 : list string) :
  op = "mean" ∨ op = "sum" →
  0 < get_data_parallel_world_size cp →
  group_size (get_data_parallel_group cp) = get_data_parallel_world_size cp →
  Forall (λ p, t_shape (data p) ≠ []) params →
  ∃ opt, __init__ params zl after op cp z3 = Ok opt ∧
    all_gather_ops opt = _status_splited opt ∧
    ∀ optim_result : list tensor,
      Forall2 (λ u s : tensor, t_shape u = t_shape s)
        optim_result (construct_params opt) →
      ∀ i p, _parameters opt !! i = Some p →
        ∃ u (partitioned : bool) p' called,
          optim_result !! i = Some u ∧
          _status_splited opt !! i = Some partitioned ∧
          construct_update opt optim_result !! i = Some (p', called) ∧
          let gathered :=
            if partitioned then all_gather_into_tensor u (dp_cp_group opt) else u in
          called = (if partitioned then [AllGather (dp_cp_group opt)] else []) ∧
          data p' = (if decide (t_dtype gathered ≠ t_dtype (data p))
                     then cast gathered (t_dtype (data p)) else gathered) ∧
          name p' = name p ∧
          t_dtype (data p') = t_dtype (data p) ∧
          t_shape (data p') = t_shape (data p).
Proof.
  intros Hop Hws Hgrp Hall.
  rewrite adamw_init_spec by (done || lia). eexists. split; [reflexivity|].
  split; [done|]. intros optim_result Hres i p Hp. cbn in Hp.
  unfold construct_params, construct_update, hyper_map3 in *. cbn in *.
  set (shard := get_data_parallel_world_size cp) in *.
  set (pspl := parameter_partitioned zl z3 <$> params) in *.
  set (sspl := status_partitioned zl z3 shard <$> params) in *.
  destruct (init_parameters_lookup _ _ _ _ _ _ _ Hp) as (p0 & Hp0 & Hdata & Hname & _).
  assert (Hst : sspl !! i = Some (status_partitioned zl z3 shard p0))
    by (subst sspl; by rewrite list_lookup_fmap, Hp0).
  assert (Hcp : zip_with (λ param need_split,
                   _split_params_to_fp32 (get_data_parallel_rank cp) shard (data param)
                     need_split)
                  (if after then params else _regist_hook_for_params zl pspl sspl params)
                  sspl !! i
                = Some (_split_params_to_fp32 (get_data_parallel_rank cp) shard (data p)
                          (status_partitioned zl z3 shard p0)))
    by (by rewrite lookup_zip_with, Hp, Hst).
  destruct (Forall2_lookup_r _ _ _ _ _ Hres Hcp) as (u & Hu & Hshape).
  rewrite split_params_shape in Hshape.
  exists u, (status_partitioned zl z3 shard p0).
  pose proof (update_params_dtype_shape (get_data_parallel_group cp) p u
                (status_partitioned zl z3 shard p0)) as Hupd.
  cbv zeta in Hupd. destruct (_update_params_opt_parallel _ p u _) as [p' called] eqn:E.
  cbn [fst snd] in Hupd. destruct Hupd as (Hcalled & Hd & Hn & _ & Hdt & Hsh).
  exists p', called. split; [done|]. split; [done|]. split.
  { rewrite lookup_zip_with, lookup_zip_with, Hp. cbn. rewrite Hu. cbn.
    rewrite Hst. cbn. by rewrite E. }
  split; [done|]. split; [done|]. split; [done|]. split; [done|].
  rewrite Hsh. destruct (status_partitioned zl z3 shard p0) eqn:Hpart; [|done].
  cbn. rewrite Hshape, Hdata.
  pose proof (Forall_lookup_1 _ _ _ _ Hall Hp0) as Hne.
  apply status_partitioned_divides in Hpart.
  destruct (t_shape (data p0)) as [|d rest]; [done|]. cbn in *.
  f_equal. rewrite Hgrp. fold shard.
  pose proof (Z.div_mod d shard ltac:(lia)). lia.
Qed.

(** C6: a gradient is reduced with reduce-scatter over the data-parallel
    group when the parameter or its state is partitioned and the level is z2
    or z3, and with all-reduce otherwise; this holds for the hook registered on
    the parameter (when gradients are reduced as they arrive) and for the
    reduction inside [construct] (when they are reduced after accumulation, at
    level z2 or z3).  The reduced gradient is divided by the shard size when
    [grad_allreduce_op] is [mean] and is not when it is [sum]. *)
Theorem adamw_grad_reduction `{ZeroOps} (params : list MsParameter)
    (zl : string) (after : bool) (op : string) (cp : bool) (z3 : list string) :
  op = "mean" ∨ op = "sum" →
  0 < get_data_parallel_world_size cp →
  Forall (λ p, t_shape (data p) ≠ []) params →
  let shard := get_data_parallel_world_size cp in
  let g := get_data_parallel_group cp in
  let partitioned p :=
    parameter_partitioned zl z3 p || status_partitioned zl z3 shard p in
  let reduced (scatter : bool) (grad_ : tensor) :=
    let res := if scatter then reduce_scatter_tensor grad_ g else all_reduce grad_ g in
    (if String.eqb op "mean" then div res shard else res,
     [if scatter then ReduceScatter g else AllReduce g]) in
  ∃ opt, __init__ params zl after op cp z3 = Ok opt ∧
    (after = false →
       ∀ i p, params !! i = Some p →
         ∃ p' h, _parameters opt !! i = Some p' ∧ hooks p' = hooks p ++ [h] ∧
           h = (if partitioned p && in_z2_z3 zl
                then reduce_scatter_hook else reduce_hook) ∧
           ∀ grad_, run_grad_hook opt h grad_
                    = reduced (partitioned p && in_z2_z3 zl) grad_) ∧
    (after = true → in_z2_z3 zl = true →
       _parameters opt = params ∧
       ∀ grads i p grad_, params !! i = Some p → grads !! i = Some grad_ →
         construct_reduce opt grads !! i = Some (reduced (partitioned p) grad_)).
Proof.
  intros Hop Hws Hall. cbv zeta.
  rewrite adamw_init_spec by (done || lia). eexists. split; [reflexivity|].
  assert (Hmean : negb (String.eqb op "sum") = String.eqb op "mean")
    by (by destruct Hop as [-> | ->]).
  split.
  - intros -> i p Hp. cbn. unfold _regist_hook_for_params.
    rewrite list_lookup_imap, Hp. cbn. do 2 eexists. split; [done|]. cbn.
    split; [done|].
    rewrite (list_lookup_total_correct (parameter_partitioned zl z3 <$> params) i
               (parameter_partitioned zl z3 p))
      by (by rewrite list_lookup_fmap, Hp).
    rewrite (list_lookup_total_correct (status_partitioned zl z3 _ <$> params) i
               (status_partitioned zl z3 (get_data_parallel_world_size cp) p))
      by (by rewrite list_lookup_fmap, Hp).
    split; [done|]. intros grad_. unfold run_grad_hook. cbn. rewrite Hmean.
    by destruct (_ && _).
  - intros -> Hz. cbn. split; [done|]. intros grads i p grad_ Hp Hg.
    unfold construct_reduce. cbn. rewrite Hz. cbn. unfold hyper_map3.
    rewrite !lookup_zip_with, Hg. cbn. rewrite !list_lookup_fmap, Hp. cbn.
    unfold _inner_grad_reduce_scatter. rewrite Hmean, orb_comm.
    by destruct (_ || _).
Qed.

(** Outside these two settings, with reduction after accumulation asked for
    at a level other than z2 and z3 (the setting [__init__] warns about), the
    optimizer registers no hook and [construct] calls no collective on the
    gradients. *)
Lemma adamw_no_reduction `{ZeroOps} (params : list MsParameter)
    (zl : string) (op : string) (cp : bool) (z3 : list string) :
  op = "mean" ∨ op = "sum" →
  0 < get_data_parallel_world_size cp →
  Forall (λ p, t_shape (data p) ≠ []) params →
  in_z2_z3 zl = false →
  ∃ opt, __init__ params zl true op cp z3 = Ok opt ∧
    _parameters opt = params ∧
    ∀ grads, construct_reduce opt grads = (λ grad_, (grad_, [])) <$> grads.
Proof.
  intros Hop Hws Hall Hz.
  rewrite adamw_init_spec by (done || lia). eexists. split; [reflexivity|].
  split; [done|]. intros grads. unfold construct_reduce. cbn. by rewrite Hz.
Qed.

Lemma zero_example_shapes :
  Forall (λ p : @MsParameter (unit_zero_ops 2 0), t_shape (data p) ≠ [])
    zero_example_params.
Proof. repeat constructor; discriminate. Defined.

Lemma adamw_state_partition_witness :
  ∃ opt, @__init__ (unit_zero_ops 2 0) zero_example_params "z1" false "sum" false []
         = Ok opt ∧
    ∀ i p, zero_example_params !! i = Some p →
      ∃ d rest partitioned m1 m2,
        t_shape (data p) = d :: rest ∧
        _status_splited opt !! i = Some partitioned ∧
        (partitioned = true ↔ d mod 2 = 0) ∧
        moments1 opt !! i = Some m1 ∧ moments2 opt !! i = Some m2 ∧
        t_shape (data m1) = (if partitioned then d / 2 :: rest else d :: rest) ∧
        t_shape (data m2) = (if partitioned then d / 2 :: rest else d :: rest).
Proof.
  apply (@adamw_state_partition (unit_zero_ops 2 0) zero_example_params
           "z1" false "sum" false []).
  - left; reflexivity.
  - right; reflexivity.
  - reflexivity.
  - exact zero_example_shapes.
Defined.

Example zero_example_state :
  (λ opt, (_status_splited opt, (t_shape ∘ data) <$> moments1 opt,
           (name <$> moments2 opt)))
    <$> @__init__ (unit_zero_ops 2 0) zero_example_params "z2" false "mean" false []
  = Ok ([true; false], [[2; 3]; [3; 3]], ["adam_v.w1"; "adam_v.w2"]).
Proof. reflexivity. Qed.

Lemma adamw_update_gathers_witness :
  ∃ opt, @__init__ (unit_zero_ops 2 0) zero_example_params "z1" false "sum" false []
         = Ok opt ∧
    all_gather_ops opt = _status_splited opt ∧
    ∀ optim_result : list tensor,
      Forall2 (λ u s : tensor, t_shape u = t_shape s)
        optim_result (construct_params opt) →
      ∀ i p, _parameters opt !! i = Some p →
        ∃ u (partitioned : bool) p' called,
          optim_result !! i = Some u ∧
          _status_splited opt !! i = Some partitioned ∧
          construct_update opt optim_result !! i = Some (p', called) ∧
          let gathered :=
            if partitioned then all_gather_into_tensor u (dp_cp_group opt) else u in
          called = (if partitioned then [AllGather (dp_cp_group opt)] else []) ∧
          data p' = (if decide (t_dtype gathered ≠ t_dtype (data p))
                     then cast gathered (t_dtype (data p)) else gathered) ∧
          name p' = name p ∧
          t_dtype (data p') = t_dtype (data p) ∧
          t_shape (data p') = t_shape (data p).
Proof.
  apply (@adamw_update_gathers (unit_zero_ops 2 0) zero_example_params
           "z1" false "sum" false []).
  - right; reflexivity.
  - reflexivity.
  - reflexivity.
  - exact zero_example_shapes.
Defined.

(** The update of the example at level z1: the fp32 shard [2 x 3] of [w1] is
    gathered and cast back to fp16, the fp32 update of [w2] is stored as it is. *)
Example zero_example_update :
  (λ opt, (λ r, (t_dtype (data r.1), t_shape (data r.1), r.2))
            <$> construct_update opt (construct_params opt))
    <$> @__init__ (unit_zero_ops 2 0) zero_example_params "z1" false "sum" false []
  = Ok [ (float16, [4; 3], [@AllGather (unit_zero_ops 2 0) 2]);
         (float32, [3; 3], []) ].
Proof. reflexivity. Qed.

Lemma adamw_grad_reduction_witness :
  let g : @group (unit_zero_ops 2 0) := 2 in
  let partitioned (p : @MsParameter (unit_zero_ops 2 0)) :=
    parameter_partitioned "z2" [] p || status_partitioned "z2" [] 2 p in
  let reduced (scatter : bool) (grad_ : @tensor (unit_zero_ops 2 0)) :=
    let res := if scatter then reduce_scatter_tensor grad_ g else all_reduce grad_ g in
    (if String.eqb "mean" "mean" then div res 2 else res,
     [if scatter then ReduceScatter g else AllReduce g]) in
  ∃ opt, @__init__ (unit_zero_ops 2 0) zero_example_params "z2" false "mean" false []
         = Ok opt ∧
    (false = false →
       ∀ i (p : @MsParameter (unit_zero_ops 2 0)), zero_example_params !! i = Some p →
         ∃ p' h, _parameters opt !! i = Some p' ∧ hooks p' = hooks p ++ [h] ∧
           h = (if partitioned p && in_z2_z3 "z2"
                then reduce_scatter_hook else reduce_hook) ∧
           ∀ grad_, run_grad_hook opt h grad_
                    = reduced (partitioned p && in_z2_z3 "z2") grad_) ∧
    (false = true → in_z2_z3 "z2" = true →
       _parameters opt = zero_example_params ∧
       ∀ (grads : list (@tensor (unit_zero_ops 2 0))) i
         (p : @MsParameter (unit_zero_ops 2 0)) grad_,
         zero_example_params !! i = Some p → grads !! i = Some grad_ →
         construct_reduce opt grads !! i = Some (reduced (partitioned p) grad_)).
Proof.
  apply (@adamw_grad_reduction (unit_zero_ops 2 0) zero_example_params
           "z2" false "mean" false []).
  - left; reflexivity.
  - reflexivity.
  - exact zero_example_shapes.
Defined.

(** The hooks of the example at the three levels. *)
Example zero_example_hooks :
  (λ zl, (λ opt, hooks <$> _parameters opt)
           <$> @__init__ (unit_zero_ops 2 0) zero_example_params zl false "sum" false [])
    <$> ["z1"; "z2"; "z3"]
  = [ Ok [[reduce_hook]; [reduce_hook]];
      Ok [[reduce_scatter_hook]; [reduce_hook]];
      Ok [[reduce_scatter_hook]; [reduce_hook]] ].
Proof. reflexivity. Qed.

(** Reduction after accumulation at level z2, [mean]. *)
Example zero_example_reduce :
  (λ opt, (λ r, (t_shape r.1, r.2))
            <$> construct_reduce opt (data <$> zero_example_params))
    <$> @__init__ (unit_zero_ops 2 0) zero_example_params "z2" true "mean" false []
  = Ok [ ([2; 3], [@ReduceScatter (unit_zero_ops 2 0) 2]);
         ([3; 3], [@AllReduce (unit_zero_ops 2 0) 2]) ].
Proof. reflexivity. Qed.

Section init_facts.
Context `{ZeroOps}.

(** The loop of [_parameter_status_split], whatever the parameters are. *)
Lemma parameter_status_split_loop_outcome zl z3 shard (ps : list MsParameter) :
  ∀ i pdone sdone, length pdone = i → length sdone = i →
  match _parameter_status_split_loop zl (if String.eqb zl "z3" then z3 else []) shard i ps
          (pdone ++ replicate (length ps) false) (sdone ++ replicate (length ps) false)
  with
  | Ok lists =>
    lists = (pdone ++ (parameter_partitioned zl z3 <$> ps),
             sdone ++ (status_partitioned zl z3 shard <$> ps)) ∧
    Forall (first_dim_usable zl z3 shard) ps
  | Raise e =>
    ∃ p, p ∈ ps ∧ parameter_partitioned zl z3 p = false ∧
      ((t_shape (data p) = [] ∧ e = IndexError)
       ∨ (t_shape (data p) ≠ [] ∧ shard = 0 ∧ e = ZeroDivisionError))
  end.
Proof.
  induction ps as [|p ps IH]; intros i pdone sdone Hpl Hsl.
  - simpl. by rewrite !app_nil_r.
  - cbn [_parameter_status_split_loop length replicate].
    assert (Hz3 : (if String.eqb zl "z3"
                   then bool_decide (name p ∈ (if String.eqb zl "z3" then z3 else []))
                   else false) = parameter_partitioned zl z3 p).
    { unfold parameter_partitioned. by destruct (String.eqb zl "z3"). }
    set (step :=
      if String.eqb zl "z3" then
        if bool_decide (name p ∈ (if String.eqb zl "z3" then z3 else []))
        then Ok (<[i := true]> (pdone ++ false :: replicate (length ps) false),
                 sdone ++ false :: replicate (length ps) false)
        else
          d ← py_index (t_shape (data p)) 0;
          r ← py_mod d shard;
          Ok (pdone ++ false :: replicate (length ps) false,
              if r =? 0 then <[i := true]> (sdone ++ false :: replicate (length ps) false)
              else sdone ++ false :: replicate (length ps) false)
      else
        d ← py_index (t_shape (data p)) 0;
        r ← py_mod d shard;
        Ok (pdone ++ false :: replicate (length ps) false,
            if r =? 0 then <[i := true]> (sdone ++ false :: replicate (length ps) false)
            else sdone ++ false :: replicate (length ps) false)).
    assert (Hstep :
      match step with
      | Ok lists =>
        lists = ((pdone ++ [parameter_partitioned zl z3 p]) ++ replicate (length ps) false,
                 (sdone ++ [status_partitioned zl z3 shard p]) ++ replicate (length ps) false)
        ∧ first_dim_usable zl z3 shard p
      | Raise e =>
        parameter_partitioned zl z3 p = false ∧
        ((t_shape (data p) = [] ∧ e = IndexError)
         ∨ (t_shape (data p) ≠ [] ∧ shard = 0 ∧ e = ZeroDivisionError))
      end).
    { subst step. unfold first_dim_usable, status_partitioned. rewrite <- Hz3.
      destruct (String.eqb zl "z3") eqn:Ez.
      - destruct (bool_decide (name p ∈ z3)) eqn:Ein; cbn [andb negb].
        + rewrite <- Hpl, insert_true_middle, keep_false_middle. split; [done|]. by left.
        + destruct (t_shape (data p)) as [|d rest] eqn:Hshape; cbn; [by auto|].
          unfold py_mod. destruct (Z.eqb_spec shard 0) as [E|E]; cbn.
          { split; [done|]. right. done. }
          rewrite keep_false_middle. split; [|by right].
          destruct (Z.eqb_spec (d mod shard) 0) as [E'|E'].
          * rewrite bool_decide_eq_true_2 by done. by rewrite <- Hsl, insert_true_middle.
          * rewrite bool_decide_eq_false_2 by done. by rewrite keep_false_middle.
      - cbn [andb negb].
        destruct (t_shape (data p)) as [|d rest] eqn:Hshape; cbn; [by auto|].
        unfold py_mod. destruct (Z.eqb_spec shard 0) as [E|E]; cbn.
        { split; [done|]. right. done. }
        rewrite keep_false_middle. split; [|by right].
        destruct (Z.eqb_spec (d mod shard) 0) as [E'|E'].
        * rewrite bool_decide_eq_true_2 by done. by rewrite <- Hsl, insert_true_middle.
        * rewrite bool_decide_eq_false_2 by done. by rewrite keep_false_middle. }
    fold step. destruct step as [lists|e].
    + destruct Hstep as [-> Hfit]. cbn [mbind result_bind fst snd].
      specialize (IH (S i) (pdone ++ [parameter_partitioned zl z3 p])
                    (sdone ++ [status_partitioned zl z3 shard p])).
      rewrite !length_app in IH. cbn [length] in IH.
      specialize (IH ltac:(lia) ltac:(lia)).
      destruct (_parameter_status_split_loop _ _ _ _ _ _ _) as [lists|e].
      * destruct IH as [-> Hall]. split; [|by constructor].
        by rewrite !fmap_cons, <- !app_assoc.
      * destruct IH as (q & Hq & Hrest). exists q. split; [|done].
        apply elem_of_cons. by right.
    + cbn [mbind result_bind]. exists p. split; [apply elem_of_cons; by left|done].
Qed.

Lemma init_momentum_loop_general zl z3 shard prefix init (ps : list MsParameter) :
  Forall (first_dim_usable zl z3 shard) ps →
  _init_momentum_loop (status_partitioned zl z3 shard <$> ps) shard prefix init 0 ps
  = Ok (zip_with (moment_of prefix init shard) (status_partitioned zl z3 shard <$> ps) ps).
Proof.
  intros Hall.
  assert (Hgen : ∀ (st : list bool) i,
            (∀ k p, ps !! k = Some p → st !! (i + k)%nat = Some (status_partitioned zl z3 shard p)) →
            _init_momentum_loop st shard prefix init i ps
            = Ok (zip_with (moment_of prefix init shard)
                    (status_partitioned zl z3 shard <$> ps) ps)).
  { induction Hall as [|p ps Hp Hall IH]; intros st i Hst; [done|].
    cbn [_init_momentum_loop].
    pose proof (Hst 0%nat p eq_refl) as Hb. rewrite Nat.add_0_r in Hb.
    rewrite (list_lookup_total_correct _ _ _ Hb).
    rewrite IH.
    2:{ intros k q Hk. replace (S i + k)%nat with (i + S k)%nat by lia. by apply Hst. }
    rewrite fmap_cons. cbn [zip_with].
    unfold moment_of at 2, moment_shape.
    destruct (status_partitioned zl z3 shard p) eqn:Hs; [|done].
    destruct Hp as [Hpp|[Hshape Hshard]].
    { unfold status_partitioned in Hs. by rewrite Hpp in Hs. }
    destruct (t_shape (data p)) as [|d rest]; [done|]. cbn.
    unfold py_floordiv. by destruct (Z.eqb_spec shard 0). }
  apply Hgen. intros k p Hk. cbn [Nat.add]. by rewrite list_lookup_fmap, Hk.
Qed.

(** The optimizer [__init__] builds, for every list of parameters it accepts. *)
Lemma adamw_init_general (params : list MsParameter) zl after op cp z3 :
  op = "mean" ∨ op = "sum" →
  let shard := get_data_parallel_world_size cp in
  Forall (first_dim_usable zl z3 shard) params →
  let pspl := parameter_partitioned zl z3 <$> params in
  let sspl := status_partitioned zl z3 shard <$> params in
  __init__ params zl after op cp z3
  = Ok {| zero_level := zl;
          allreduce_after_grad_accumulation := after;
          with_context_parallel := cp;
          grad_allreduce_sum := String.eqb op "sum";
          _parameters := if after then params
                         else _regist_hook_for_params zl pspl sspl params;
          _parameter_splited := pspl;
          _status_splited := sspl;
          all_gather_ops := sspl;
          shard_size := shard;
          shard_id := get_data_parallel_rank cp;
          dp_cp_group := get_data_parallel_group cp;
          zero3_parameters := if String.eqb zl "z3" then z3 else [];
          moments1 := zip_with (moment_of "adam_m" "zeros" shard) sspl params;
          moments2 := zip_with (moment_of "adam_v" "zeros" shard) sspl params |}.
Proof.
  intros Hop shard Hall. cbv zeta. unfold __init__.
  assert (Hopb : negb (String.eqb op "mean" || String.eqb op "sum") = false)
    by (by destruct Hop as [-> | ->]).
  rewrite Hopb.
  pose proof (parameter_status_split_loop_outcome zl z3 shard params 0 [] []
                eq_refl eq_refl) as Hloop.
  cbn [app] in Hloop. fold shard.
  destruct (_parameter_status_split_loop _ _ _ _ _ _ _) as [lists|e].
  2:{ exfalso. destruct Hloop as (p & Hp & Hpart & Hbad).
      pose proof (proj1 (list.Forall_forall _ _) Hall p Hp) as [Hpp|[Hshape Hshard]].
      - congruence.
      - destruct Hbad as [[? _]|(_ & ? & _)]; done. }
  destruct Hloop as [-> _]. cbn [mbind result_bind fst snd].
  set (pspl := parameter_partitioned zl z3 <$> params).
  set (sspl := status_partitioned zl z3 shard <$> params).
  assert (Hlen : length sspl = length params) by (subst sspl; by rewrite length_fmap).
  rewrite <- Hlen, init_all_gather_ops_eq.
  destruct (regist_hook_static zl pspl sspl params) as [Hd Hn].
  assert (Hmom : ∀ prefix init,
            _init_momentum_loop sspl shard prefix init 0
              (if negb after then _regist_hook_for_params zl pspl sspl params else params)
            = Ok (zip_with (moment_of prefix init shard) sspl params)).
  { intros prefix init. destruct after; cbn [negb].
    - by apply init_momentum_loop_general.
    - set (ps' := _regist_hook_for_params zl pspl sspl params).
      assert (Hst : status_partitioned zl z3 shard <$> ps' = sspl).
      { subst sspl. apply list_eq. intros i. rewrite !list_lookup_fmap.
        subst ps'. unfold _regist_hook_for_params. rewrite list_lookup_imap.
        by destruct (params !! i). }
      rewrite <- Hst at 1. rewrite init_momentum_loop_general.
      + rewrite Hst. f_equal. by apply moments_static.
      + apply list.Forall_forall. intros p' Hp'.
        apply list_elem_of_lookup in Hp' as [i Hi]. subst ps'.
        unfold _regist_hook_for_params in Hi. rewrite list_lookup_imap in Hi.
        destruct (params !! i) as [p|] eqn:Hp; [|done]. injection Hi as <-.
        pose proof (Forall_lookup_1 _ _ _ _ Hall Hp) as Hfit.
        unfold first_dim_usable, parameter_partitioned in *. by cbn. }
  rewrite !Hmom. cbn [mbind result_bind].
  by destruct after.
Qed.

End init_facts.

(** The outcomes of [AdamW.__init__]. *)
Lemma adamw_init_cases `{ZeroOps} (params : list MsParameter)
    (zl : string) (after : bool) (op : string) (cp : bool) (z3 : list string) :
  let shard := get_data_parallel_world_size cp in
  let supported := op = "mean" ∨ op = "sum" in
  ((∃ opt, __init__ params zl after op cp z3 = Ok opt)
   ↔ supported ∧ Forall (first_dim_usable zl z3 shard) params) ∧
  (__init__ params zl after op cp z3 = Raise NotImplementedError ↔ ¬ supported) ∧
  (__init__ params zl after op cp z3 = Raise IndexError
   ∨ __init__ params zl after op cp z3 = Raise ZeroDivisionError
   ↔ supported ∧ ¬ Forall (first_dim_usable zl z3 shard) params) ∧
  (__init__ params zl after op cp z3 = Raise ZeroDivisionError → shard = 0).
Proof.
  cbv zeta. set (shard := get_data_parallel_world_size cp).
  destruct (decide (op = "mean" ∨ op = "sum")) as [Hop|Hop].
  - destruct (decide (Forall (first_dim_usable zl z3 shard) params)) as [Hall|Hall].
    + rewrite (adamw_init_general params zl after op cp z3 Hop Hall).
      split; [split; [done|eauto]|]. split; [split; [done|tauto]|].
      split; [|done]. split; [by intros [?|?]|tauto].
    + assert (Hopb : negb (String.eqb op "mean" || String.eqb op "sum") = false)
        by (by destruct Hop as [-> | ->]).
      unfold __init__. rewrite Hopb. fold shard.
      pose proof (parameter_status_split_loop_outcome zl z3 shard params 0 [] []
                    eq_refl eq_refl) as Hloop.
      cbn [app] in Hloop.
      destruct (_parameter_status_split_loop _ _ _ _ _ _ _) as [lists|e].
      { by destruct Hloop as [_ ?]. }
      cbn [mbind result_bind]. destruct Hloop as (p & _ & _ & [[_ ->]|(_ & Hs & ->)]).
      * split; [split; [by intros [? ?]|tauto]|]. split; [split; [done|tauto]|].
        split; [|done]. split; [done|]. intros _. by left.
      * split; [split; [by intros [? ?]|tauto]|]. split; [split; [done|tauto]|].
        split; [|done]. split; [done|]. intros _. by right.
  - assert (Hopb : negb (String.eqb op "mean" || String.eqb op "sum") = true).
    { destruct (String.eqb_spec op "mean") as [->|_]; [exfalso; apply Hop; by left|].
      destruct (String.eqb_spec op "sum") as [->|_]; [exfalso; apply Hop; by right|].
      done. }
    unfold __init__. rewrite Hopb.
    split; [split; [by intros [? ?]|tauto]|]. split; [done|].
    split; [|done]. split; [by intros [?|?]|tauto].
Qed.


(** X8: the outcomes of [AdamW.__init__], past the checks on its scalar
    arguments and with [param_resident] off.  It returns an optimizer
    exactly when [grad_allreduce_op] is "mean" or "sum" and, for every
    parameter that is not a partitioned ZeRO-3 parameter, the shape is not
    empty and the shard size is not zero.  It raises NotImplementedError
    exactly for another [grad_allreduce_op], before it looks at a parameter.
    Otherwise it raises IndexError (a parameter without dimensions) or
    ZeroDivisionError, the latter only with a shard size of zero. *)
Theorem adamw_init_outcome `{ZeroOps} (params : list MsParameter)
    (zl : string) (after : bool) (op : string) (cp : bool) (z3 : list string) :
  let shard := get_data_parallel_world_size cp in
  let supported := op = "mean" ∨ op = "sum" in
  ((∃ opt, __init__ params zl after op cp z3 = Ok opt)
   ↔ supported ∧ Forall (first_dim_usable zl z3 shard) params) ∧
  (__init__ params zl after op cp z3 = Raise NotImplementedError ↔ ¬ supported) ∧
  (__init__ params zl after op cp z3 = Raise IndexError
   ∨ __init__ params zl after op cp z3 = Raise ZeroDivisionError
   ↔ supported ∧ ¬ Forall (first_dim_usable zl z3 shard) params) ∧
  (__init__ params zl after op cp z3 = Raise ZeroDivisionError → shard = 0).
Proof. apply adamw_init_cases. Qed.

(** X9: an optimizer that [AdamW.__init__] returns keeps one flag and
    one moment of each kind per parameter, and [all_gather_ops] are the flags
    [_status_splited].  A parameter is never split both ways, and below level
    z3 no parameter is split.  A split parameter has moments of its own
    (already split) shape, and its update is not all-gathered. *)
Theorem adamw_partition_flags `{ZeroOps} (params : list MsParameter)
    (zl : string) (after : bool) (op : string) (cp : bool) (z3 : list string) opt :
  __init__ params zl after op cp z3 = Ok opt →
  length (_parameters opt) = length params ∧
  length (_parameter_splited opt) = length params ∧
  length (_status_splited opt) = length params ∧
  length (moments1 opt) = length params ∧ length (moments2 opt) = length params ∧
  all_gather_ops opt = _status_splited opt ∧
  (∀ i, _parameter_splited opt !! i = Some true → _status_splited opt !! i = Some false) ∧
  (zl ≠ "z3" → ∀ i, _parameter_splited opt !! i = Some true → False) ∧
  (∀ i p, params !! i = Some p → _parameter_splited opt !! i = Some true →
     ∃ m1 m2, moments1 opt !! i = Some m1 ∧ moments2 opt !! i = Some m2 ∧
       t_shape (data m1) = t_shape (data p) ∧ t_shape (data m2) = t_shape (data p) ∧
       ∀ u ui, u !! i = Some ui → ∃ p', construct_update opt u !! i = Some (p', [])).
Proof.
  intros Hinit.
  destruct (proj1 (adamw_init_cases params zl after op cp z3)) as [[Hop Hall] _];
    [by exists opt|].
  rewrite (adamw_init_general params zl after op cp z3 Hop Hall) in Hinit.
  injection Hinit as <-. cbn.
  split; [destruct after; unfold _regist_hook_for_params;
          rewrite ?length_imap; done|].
  rewrite !length_fmap, !length_zip_with, !length_fmap.
  split; [done|]. split; [done|]. split; [lia|]. split; [lia|]. split; [done|].
  assert (Hexcl : ∀ i, (parameter_partitioned zl z3 <$> params) !! i = Some true →
                       (status_partitioned zl z3 (get_data_parallel_world_size cp)
                          <$> params) !! i = Some false).
  { intros i. rewrite !list_lookup_fmap. destruct (params !! i) as [p|]; [|done]. cbn.
    intros [= Hp]. unfold status_partitioned. by rewrite Hp. }
  split; [done|]. split.
  - intros Hzl i. rewrite list_lookup_fmap. destruct (params !! i) as [p|]; [|done]. cbn.
    unfold parameter_partitioned. destruct (String.eqb_spec zl "z3"); done.
  - intros i p Hp Hpart. pose proof (Hexcl i Hpart) as Hst.
    rewrite !lookup_zip_with, Hst, Hp. cbn. do 2 eexists.
    split; [done|]. split; [done|]. split; [done|]. split; [done|].
    intros u ui Hu. unfold construct_update, hyper_map3. cbn.
    rewrite !lookup_zip_with, Hst, Hu.
    destruct ((if after then params else _) !! i) as [p'|] eqn:Hp'.
    + cbn. eexists. reflexivity.
    + exfalso. apply lookup_ge_None in Hp'. apply lookup_lt_Some in Hp.
      destruct after; unfold _regist_hook_for_params in Hp';
        rewrite ?length_imap in Hp'; lia.
Qed.

Lemma adamw_partition_flags_witness :
  ∃ opt, @__init__ (unit_zero_ops 2 0) zero_example_params "z3" false "sum" false ["w1"]
         = Ok opt ∧
  length (_parameters opt) = length zero_example_params ∧
  length (_parameter_splited opt) = length zero_example_params ∧
  length (_status_splited opt) = length zero_example_params ∧
  length (moments1 opt) = length zero_example_params ∧
  length (moments2 opt) = length zero_example_params ∧
  all_gather_ops opt = _status_splited opt ∧
  (∀ i, _parameter_splited opt !! i = Some true → _status_splited opt !! i = Some false) ∧
  ("z3" ≠ "z3" → ∀ i, _parameter_splited opt !! i = Some true → False) ∧
  (∀ i p, zero_example_params !! i = Some p → _parameter_splited opt !! i = Some true →
     ∃ m1 m2, moments1 opt !! i = Some m1 ∧ moments2 opt !! i = Some m2 ∧
       t_shape (data m1) = t_shape (data p) ∧ t_shape (data m2) = t_shape (data p) ∧
       ∀ u ui, u !! i = Some ui → ∃ p', construct_update opt u !! i = Some (p', [])).
Proof.
  eexists. split; [reflexivity|].
  apply (@adamw_partition_flags (unit_zero_ops 2 0) zero_example_params
           "z3" false "sum" false ["w1"]).
  reflexivity.
Defined.

Section shape_facts.
Context `{ZeroOps}.

Lemma run_grad_hook_shape (self : AdamW) h (g : tensor) :
  t_shape (run_grad_hook self h g).1
  = match h with
    | reduce_scatter_hook =>
      scale_first_dim (λ d, d / group_size (dp_cp_group self)) (t_shape g)
    | reduce_hook => t_shape g
    end.
Proof. destruct h; cbn; by destruct (grad_allreduce_sum self). Qed.

Lemma inner_grad_reduce_scatter_shape g sum shard (t : tensor) (a b : bool) :
  t_shape (_inner_grad_reduce_scatter g sum shard t a b).1
  = if a || b then scale_first_dim (λ d, d / group_size g) (t_shape t) else t_shape t.
Proof. unfold _inner_grad_reduce_scatter. by destruct (a || b), sum. Qed.

Lemma split_params_dtype sid shard (t : tensor) need :
  t_dtype (_split_params_to_fp32 sid shard t need) = float32.
Proof.
  unfold _split_params_to_fp32. case_decide as Hd; [done|].
  destruct (decide (t_dtype (if need then split_chunk shard (Z.to_nat sid) t else t)
                    = float32)); done.
Qed.

End shape_facts.

(** X10: at the levels z1 and z2, on a group whose size is the shard
    size, the four operands of the update of a parameter agree in shape: the
    gradient as [construct] hands it on (after the hooks of the backward pass,
    the split of z1 and the reduction), the fp32 copy of the parameter, and
    the two moments.  The copy and the moments are float32.  The parameters
    have a first dimension and no hooks of their own, and the gradients
    arrive with the shapes of the parameters. *)
Theorem adamw_operands_agree_in_shape `{ZeroOps} (params : list MsParameter)
    (zl : string) (after : bool) (op : string) (cp : bool) (z3 : list string) :
  zl = "z1" ∨ zl = "z2" → op = "mean" ∨ op = "sum" →
  0 < get_data_parallel_world_size cp →
  group_size (get_data_parallel_group cp) = get_data_parallel_world_size cp →
  Forall (λ p, t_shape (data p) ≠ [] ∧ hooks p = []) params →
  ∃ opt, __init__ params zl after op cp z3 = Ok opt ∧
    ∀ raw : list tensor,
      Forall2 (λ (g : tensor) p, t_shape g = t_shape (data p)) raw params →
      let arriving := zip_with (run_hooks opt) (_parameters opt) raw in
      ∀ i p, params !! i = Some p →
        ∃ g q m1 m2,
          construct_grads opt arriving !! i = Some g ∧
          construct_params opt !! i = Some q ∧
          moments1 opt !! i = Some m1 ∧ moments2 opt !! i = Some m2 ∧
          t_shape g = t_shape q ∧
          t_shape (data m1) = t_shape q ∧ t_shape (data m2) = t_shape q ∧
          t_dtype q = float32 ∧
          t_dtype (data m1) = float32 ∧ t_dtype (data m2) = float32.
Proof.
  intros Hzl Hop Hws Hgrp Hall.
  assert (Hshapes : Forall (λ p, t_shape (data p) ≠ []) params)
    by (apply Forall_lookup; intros k q Hk;
        by destruct (Forall_lookup_1 _ _ _ _ Hall Hk)).
  rewrite adamw_init_spec by (done || lia). eexists. split; [reflexivity|].
  intros raw Hraw. cbv zeta. intros i p Hp.
  set (shard := get_data_parallel_world_size cp) in *.
  set (pspl := parameter_partitioned zl z3 <$> params).
  set (sspl := status_partitioned zl z3 shard <$> params).
  destruct (Forall2_lookup_r _ _ _ _ _ Hraw Hp) as (g0 & Hg0 & Hshape0).
  pose proof (Forall_lookup_1 _ _ _ _ Hall Hp) as [Hne Hhooks].
  assert (Hpp : parameter_partitioned zl z3 p = false)
    by (unfold parameter_partitioned; by destruct Hzl as [-> | ->]).
  set (st := status_partitioned zl z3 shard p).
  assert (Hst : sspl !! i = Some st) by (subst sspl; by rewrite list_lookup_fmap, Hp).
  assert (Hps : pspl !! i = Some false)
    by (subst pspl; rewrite list_lookup_fmap, Hp; cbn; by rewrite Hpp).
  set (ps' := if after then params
              else _regist_hook_for_params zl pspl sspl params).
  assert (Hp' : ∃ p', ps' !! i = Some p' ∧ data p' = data p ∧
                  hooks p' = if after then []
                             else [if st && in_z2_z3 zl
                                   then reduce_scatter_hook else reduce_hook]).
  { subst ps'. destruct after.
    - exists p. by rewrite Hhooks.
    - unfold _regist_hook_for_params. rewrite list_lookup_imap, Hp. cbn.
      eexists. split; [done|]. cbn. split; [done|]. rewrite Hhooks. cbn.
      rewrite (list_lookup_total_correct _ _ _ Hst),
              (list_lookup_total_correct _ _ _ Hps). done. }
  destruct Hp' as (p' & Hp' & Hdata & Hhk).
  set (target := if st then scale_first_dim (λ d, d / shard) (t_shape (data p))
                 else t_shape (data p)).
  match goal with |- context [run_hooks ?o] => set (opt := o) end.
  set (arr := run_hooks opt p' g0).
  assert (Harr : zip_with (run_hooks opt) ps' raw !! i = Some arr)
    by (by rewrite lookup_zip_with, Hp', Hg0).
  assert (Harr_shape : t_shape arr
            = if negb after && st && in_z2_z3 zl
              then scale_first_dim (λ d, d / shard) (t_shape (data p))
              else t_shape (data p)).
  { subst arr. unfold run_hooks. rewrite Hhk. destruct after; cbn [negb andb foldl].
    - by rewrite Hshape0.
    - rewrite run_grad_hook_shape. cbn. rewrite Hgrp, Hshape0.
      by destruct (st && in_z2_z3 zl). }
  assert (Hq : t_shape (_split_params_to_fp32 (get_data_parallel_rank cp) shard (data p') st)
               = target).
  { rewrite split_params_shape, Hdata. done. }
  assert (Hmom : ∀ prefix, t_shape (data (moment_of prefix "zeros" shard st p)) = target).
  { intros prefix. unfold moment_of, moment_shape. done. }
  assert (Hgrad : ∃ g, construct_grads opt (zip_with (run_hooks opt) ps' raw) !! i = Some g
                       ∧ t_shape g = target).
  { unfold construct_grads, construct_reduce. subst opt. cbn.
    fold (run_hooks
            {| zero_level := zl; allreduce_after_grad_accumulation := after;
               with_context_parallel := cp; grad_allreduce_sum := String.eqb op "sum";
               _parameters := ps'; _parameter_splited := pspl; _status_splited := sspl;
               all_gather_ops := sspl; shard_size := shard;
               shard_id := get_data_parallel_rank cp;
               dp_cp_group := get_data_parallel_group cp;
               zero3_parameters := if String.eqb zl "z3" then z3 else [];
               moments1 := zip_with (moment_of "adam_m" "zeros" shard) sspl params;
               moments2 := zip_with (moment_of "adam_v" "zeros" shard) sspl params |}).
    subst target.
    destruct Hzl as [-> | ->]; cbn [String.eqb Ascii.eqb Bool.eqb in_z2_z3 orb andb] in *.
    - rewrite andb_false_r in *. cbn.
      rewrite list_lookup_fmap, list_lookup_fmap, lookup_zip_with, Harr. cbn.
      rewrite Hst. cbn. eexists. split; [done|].
      rewrite split_params_shape, Harr_shape. done.
    - rewrite !andb_true_r in *. destruct after; cbn [negb andb] in *.
      + unfold hyper_map3. rewrite list_lookup_fmap. do 2 rewrite lookup_zip_with.
        rewrite Harr. cbn.
        rewrite Hst. cbn. rewrite Hps. cbn. eexists. split; [done|].
        rewrite inner_grad_reduce_scatter_shape, Harr_shape, Hgrp, orb_false_r. done.
      + rewrite list_lookup_fmap, list_lookup_fmap, Harr. cbn.
        eexists. split; [done|]. by rewrite Harr_shape. }
  destruct Hgrad as (g & Hg & Hgshape).
  exists g, (_split_params_to_fp32 (get_data_parallel_rank cp) shard (data p') st),
    (moment_of "adam_m" "zeros" shard st p), (moment_of "adam_v" "zeros" shard st p).
  split; [done|]. split.
  { unfold construct_params. subst opt. cbn. by rewrite lookup_zip_with, Hp', Hst. }
  split; [subst opt; cbn; by rewrite lookup_zip_with, Hst, Hp|].
  split; [subst opt; cbn; by rewrite lookup_zip_with, Hst, Hp|].
  rewrite Hq, !Hmom. split; [done|]. split; [done|]. split; [done|].
  split; [apply split_params_dtype|]. done.
Qed.

Lemma adamw_operands_agree_in_shape_witness :
  ∃ opt, @__init__ (unit_zero_ops 2 0) zero_example_params "z2" false "sum" false [] = Ok opt ∧
    ∀ raw : list (@tensor (unit_zero_ops 2 0)),
      Forall2 (λ (g : tensor) p, t_shape g = t_shape (data p)) raw zero_example_params →
      let arriving := zip_with (run_hooks opt) (_parameters opt) raw in
      ∀ i p, zero_example_params !! i = Some p →
        ∃ g q m1 m2,
          construct_grads opt arriving !! i = Some g ∧
          construct_params opt !! i = Some q ∧
          moments1 opt !! i = Some m1 ∧ moments2 opt !! i = Some m2 ∧
          t_shape g = t_shape q ∧
          t_shape (data m1) = t_shape q ∧ t_shape (data m2) = t_shape q ∧
          t_dtype q = float32 ∧
          t_dtype (data m1) = float32 ∧ t_dtype (data m2) = float32.
Proof.
  apply (@adamw_operands_agree_in_shape (unit_zero_ops 2 0) zero_example_params
           "z2" false "sum" false []).
  - right. reflexivity.
  - right. reflexivity.
  - reflexivity.
  - reflexivity.
  - repeat constructor; discriminate.
Defined.


Section resident_facts.
Context `{ResidentOps}.

Global Instance resident_order_trans : Transitive resident_order.
Proof. intros x y z. unfold resident_order. lia. Qed.

Global Instance resident_order_total : Total resident_order.
Proof. intros x y. unfold resident_order. lia. Qed.

(** The loop stops after the first item with which the count reaches the
    threshold, or at the end of the items. *)
Lemma resident_loop_spec (th : pyfloat) (items : list (nat * Z)) : ∀ c acc,
  ∃ k, (k ≤ length items)%nat ∧ (items ≠ [] → (1 ≤ k)%nat) ∧
    resident_loop th items c acc = acc ++ take k items.*1 ∧
    ((k < length items)%nat →
       int_ge_float (c + foldr Z.add 0 (take k items).*2) th = true) ∧
    (∀ j, (1 ≤ j < k)%nat →
       int_ge_float (c + foldr Z.add 0 (take j items).*2) th = false).
Proof.
  induction items as [|[i n] items IH]; intros c acc.
  - exists 0%nat. cbn. rewrite app_nil_r. repeat split; try done; lia.
  - cbn [resident_loop fst snd].
    destruct (int_ge_float (c + n) th) eqn:Hge.
    + exists 1%nat. cbn [length]. split; [lia|]. split; [done|]. split; [done|].
      split.
      * intros _. cbn. by rewrite Z.add_0_r.
      * intros j Hj. lia.
    + destruct (IH (c + n) (acc ++ [i])) as (k & Hk & Hne & Hloop & Hstop & Hmin).
      exists (S k). cbn [length]. split; [lia|]. split; [lia|]. split.
      { rewrite Hloop. cbn. by rewrite <- app_assoc. }
      split.
      * intros Hlt. cbn. rewrite Z.add_assoc. apply Hstop. lia.
      * intros [|[|j]] Hj; [lia| |].
        -- cbn. by rewrite Z.add_0_r.
        -- cbn. rewrite Z.add_assoc. apply Hmin. lia.
Qed.

End resident_facts.

(** X11: [_param_resident_flag] returns cell ids of the dict without
    repetition, at least one when the dict is not empty, and the cells with
    the most elements first: no cell left out has more elements than a chosen
    one.  It stops at the first cell with which the chosen cells hold at least
    [total_numel * param_resident_rate] elements, or takes all cells when that
    is never the case. *)
Theorem param_resident_flag_spec `{ResidentOps}
    (zero3_param_numel : gmap nat Z) (param_resident_rate : pyfloat) :
  let resident := _param_resident_flag zero3_param_numel param_resident_rate in
  let threshold :=
    int_mul_float (foldr Z.add 0 (map_to_list zero3_param_numel).*2) param_resident_rate in
  NoDup resident ∧
  (∀ i, i ∈ resident → is_Some (zero3_param_numel !! i)) ∧
  (zero3_param_numel ≠ ∅ → resident ≠ []) ∧
  (∀ i j ni nj, i ∈ resident → j ∉ resident →
     zero3_param_numel !! i = Some ni → zero3_param_numel !! j = Some nj → nj ≤ ni) ∧
  ((∀ i, is_Some (zero3_param_numel !! i) → i ∈ resident)
   ∨ int_ge_float (numel_of zero3_param_numel resident) threshold = true) ∧
  (∀ shorter, shorter `prefix_of` resident → shorter ≠ [] → shorter ≠ resident →
     int_ge_float (numel_of zero3_param_numel shorter) threshold = false).
Proof.
  cbv zeta. unfold _param_resident_flag.
  set (d := zero3_param_numel).
  set (th := int_mul_float _ _).
  set (items := sorting.merge_sort resident_order (map_to_list d)).
  assert (Hperm : items ≡ₚ map_to_list d) by apply sorting.merge_sort_Permutation.
  assert (Hsorted : Sorted.StronglySorted resident_order items)
    by (apply sorting.StronglySorted_merge_sort; apply _).
  assert (Hin : ∀ i n, (i, n) ∈ items ↔ d !! i = Some n).
  { intros i n. rewrite Hperm. apply elem_of_map_to_list. }
  assert (Hnd : NoDup items.*1).
  { rewrite Hperm. apply NoDup_fst_map_to_list. }
  destruct (resident_loop_spec th items 0 []) as (k & Hk & Hne & -> & Hstop & Hmin).
  cbn [app].
  assert (Hnumel : ∀ j, numel_of d (take j items.*1) = foldr Z.add 0 (take j items).*2).
  { intros j. unfold numel_of. f_equal. rewrite <- fmap_take, <- list_fmap_compose.
    apply list_eq. intros x. rewrite !list_lookup_fmap.
    destruct (take j items !! x) as [[i n]|] eqn:Hx; [|done]. cbn.
    apply lookup_take_Some in Hx as [Hx _].
    apply list_elem_of_lookup_2 in Hx. apply Hin in Hx. by rewrite Hx. }
  split; [|split; [|split; [|split; [|split]]]].
  - rewrite <- (take_drop k items.*1) in Hnd. by apply list.NoDup_app in Hnd as [? _].
  - intros i Hi. apply elem_of_take in Hi as (x & Hx & _).
    apply list_elem_of_lookup_2 in Hx.
    apply list_elem_of_fmap in Hx as ([i' n] & -> & Hx). apply Hin in Hx. by eexists.
  - intros Hd. assert (Hitems : items ≠ []).
    { intros E. apply Hd. apply map_to_list_empty_iff.
      rewrite E in Hperm. by apply Permutation_nil_l in Hperm. }
    specialize (Hne Hitems). destruct items as [|x items']; [done|].
    destruct k; [lia|]. done.
  - intros i j ni nj Hi Hj Hdi Hdj.
    apply Hin in Hdi, Hdj.
    rewrite <- fmap_take in Hi, Hj.
    apply list_elem_of_fmap in Hi as ([i' n'] & Hi' & Hi). cbn in Hi'. subst i'.
    assert (n' = ni) as ->.
    { apply elem_of_take in Hi as (x & Hx & _). apply list_elem_of_lookup_2 in Hx.
      apply Hin in Hx, Hdi. congruence. }
    assert (Hjd : (j, nj) ∈ drop k items).
    { rewrite <- (take_drop k items) in Hdj. apply elem_of_app in Hdj as [Hdj|?]; [|done].
      exfalso. apply Hj. apply list_elem_of_fmap. by exists (j, nj). }
    rewrite <- (take_drop k items) in Hsorted.
    pose proof (sorting.StronglySorted_app_1_elem_of _ _ _ _ _ Hsorted Hi Hjd) as Hord.
    unfold resident_order in Hord. cbn in Hord. lia.
  - destruct (decide (k < length items)%nat) as [Hlt|Hge].
    + right. rewrite Hnumel. by apply Hstop.
    + left. intros i [n Hi]. apply Hin in Hi.
      rewrite take_ge by (rewrite length_fmap; lia).
      apply list_elem_of_fmap. by exists (i, n).
  - intros shorter [rest Hrest] Hne' Hneq.
    assert (Hlen : (length shorter + length rest = length (take k items.*1))%nat)
      by (by rewrite Hrest, length_app).
    assert (Hshorter : shorter = take (length shorter) items.*1).
    { rewrite <- (take_app_length shorter rest) at 1. rewrite <- Hrest, take_take.
      f_equal. rewrite length_take in Hlen. lia. }
    rewrite Hshorter, Hnumel. apply Hmin.
    rewrite length_take, length_fmap in Hlen.
    destruct shorter as [|x shorter]; [done|]. cbn [length] in *.
    split; [lia|].
    destruct rest as [|y rest]; [by rewrite app_nil_r in Hrest|]. cbn [length] in Hlen. lia.
Qed.

Example resident_half :
  @_param_resident_flag permille_resident_ops
    (list_to_map [(0%nat, 10); (1%nat, 40); (2%nat, 30); (3%nat, 40)]) 500
  = [3; 1]%nat.
Proof. vm_compute. reflexivity. Qed.


Section sharded_facts.
Context `{ZeroOps} `{ShardedStateOps}.

Lemma foldl_insert_other (ins : list (string * state_entry)) key :
  key ∉ ins.*1 → ∀ sd : gmap string state_entry,
  foldl (λ d kv, <[kv.1 := kv.2]> d) sd ins !! key = sd !! key.
Proof.
  induction ins as [|[k e] ins IH]; intros Hkey sd; [done|].
  rewrite fmap_cons in Hkey. apply not_elem_of_cons in Hkey as [Hne Hkey].
  cbn [foldl fst snd]. rewrite IH by done. by rewrite lookup_insert_ne.
Qed.

Lemma foldl_insert_elem (ins : list (string * state_entry)) key e :
  NoDup ins.*1 → (key, e) ∈ ins → ∀ sd : gmap string state_entry,
  foldl (λ d kv, <[kv.1 := kv.2]> d) sd ins !! key = Some e.
Proof.
  induction ins as [|[k0 e0] ins IH]; intros Hnd Hin sd; [by apply elem_of_nil in Hin|].
  rewrite fmap_cons in Hnd. apply list.NoDup_cons in Hnd as [Hk Hnd].
  cbn [foldl fst snd]. apply elem_of_cons in Hin as [[= -> ->]|Hin].
  - rewrite foldl_insert_other by done. by rewrite lookup_insert_eq.
  - by apply IH.
Qed.

Lemma foldl_insert_dom (ins : list (string * state_entry)) key :
  ∀ sd : gmap string state_entry,
  is_Some (foldl (λ d kv, <[kv.1 := kv.2]> d) sd ins !! key) →
  key ∈ ins.*1 ∨ is_Some (sd !! key).
Proof.
  induction ins as [|[k e] ins IH]; intros sd Hsome; [by right|].
  cbn [foldl fst snd] in Hsome. destruct (IH _ Hsome) as [Hin|Hin].
  - left. rewrite fmap_cons. apply elem_of_cons. by right.
  - destruct (decide (k = key)) as [->|Hne].
    + left. rewrite fmap_cons. apply elem_of_cons. by left.
    + right. by rewrite lookup_insert_ne in Hin.
Qed.

(** The names of the moments of parameters with distinct names are distinct. *)
Lemma moment_names_NoDup (names : list string) :
  NoDup names →
  NoDup (names ≫= λ n, ["adam_m" +:+ "." +:+ n; "adam_v" +:+ "." +:+ n]).
Proof.
  induction 1 as [|n names Hn Hnd IH]; [constructor|].
  cbn [mbind list_bind app]. rewrite !list.NoDup_cons. split; [|split; [|done]].
  - intros [Heq|Hin]%elem_of_cons; [vm_compute in Heq; by injection Heq|].
    apply list_elem_of_bind in Hin as (n' & Hin & Hn').
    apply elem_of_cons in Hin as [Heq|[Heq|Hin%elem_of_nil]%elem_of_cons];
      [|done..]. vm_compute in Heq. by injection Heq as ->.
  - intros Hin. apply list_elem_of_bind in Hin as (n' & Hin & Hn').
    apply elem_of_cons in Hin as [Heq|[Heq|Hin%elem_of_nil]%elem_of_cons];
      [done| |done]. vm_compute in Heq. by injection Heq as ->.
Qed.

(** The loop of [sharded_state_dict] on an optimizer whose lists are those of
    [__init__]: it stops at the first parameter without shard info, and
    otherwise makes the entries of the parameters in their order. *)
Lemma sharded_state_dict_loop_spec (self : AdamW) msd zl z3 sz (ps : list MsParameter) :
  ∀ idx sd,
  (∀ k p, ps !! k = Some p →
     moments1 self !! (idx + k)%nat
       = Some (moment_of "adam_m" "zeros" sz (status_partitioned zl z3 sz p) p) ∧
     moments2 self !! (idx + k)%nat
       = Some (moment_of "adam_v" "zeros" sz (status_partitioned zl z3 sz p) p) ∧
     _status_splited self !! (idx + k)%nat = Some (status_partitioned zl z3 sz p) ∧
     _parameter_splited self !! (idx + k)%nat = Some (parameter_partitioned zl z3 p)) →
  (∀ before p rest, ps = before ++ p :: rest →
     Forall (λ q, is_Some (msd !! name q ≫= entry_shard)) before →
     msd !! name p ≫= entry_shard = None →
     sharded_state_dict_loop self msd idx ps sd
     = RaisedException ("the input dict has no shard info for '" +:+ name p +:+ "'.")) ∧
  (∀ shards, Forall2 (λ p s, msd !! name p ≫= entry_shard = Some s) ps shards →
     sharded_state_dict_loop self msd idx ps sd
     = Returned (foldl (λ d kv, <[kv.1 := kv.2]> d) sd
                   (mjoin (zip_with (state_entries_of zl z3 sz) ps shards)))).
Proof.
  induction ps as [|p ps IH]; intros idx sd Hlists.
  - split.
    + intros before q rest E. by destruct before.
    + intros shards Hs. apply Forall2_nil_inv_l in Hs as ->. done.
  - pose proof (Hlists 0%nat p eq_refl) as (Hm1 & Hm2 & Hst & Hpp).
    rewrite Nat.add_0_r in Hm1, Hm2, Hst, Hpp.
    assert (Hlists' : ∀ k q, ps !! k = Some q →
       moments1 self !! (S idx + k)%nat
         = Some (moment_of "adam_m" "zeros" sz (status_partitioned zl z3 sz q) q) ∧
       moments2 self !! (S idx + k)%nat
         = Some (moment_of "adam_v" "zeros" sz (status_partitioned zl z3 sz q) q) ∧
       _status_splited self !! (S idx + k)%nat = Some (status_partitioned zl z3 sz q) ∧
       _parameter_splited self !! (S idx + k)%nat = Some (parameter_partitioned zl z3 q)).
    { intros k q Hk. replace (S idx + k)%nat with (idx + S k)%nat by lia. by apply Hlists. }
    cbn [sharded_state_dict_loop]. rewrite Hm1, Hm2, Hst.
    assert (Hsplit : (if status_partitioned zl z3 sz p then Some true
                      else _parameter_splited self !! idx)
                     = Some (status_partitioned zl z3 sz p
                             || parameter_partitioned zl z3 p)).
    { rewrite Hpp. by destruct (status_partitioned zl z3 sz p). }
    rewrite Hsplit. split.
    + intros [|q before] r rest E Hbefore Hnone.
      * injection E as <- <-. by rewrite Hnone.
      * injection E as <- ->. apply list.Forall_cons in Hbefore as [[s Hs] Hbefore].
        rewrite Hs.
        apply (proj1 (IH (S idx) _ Hlists') before r rest eq_refl Hbefore Hnone).
    + intros shards Hs. apply Forall2_cons_inv_l in Hs as (s & shards' & Hs & Hrest & ->).
      rewrite Hs. rewrite (proj2 (IH (S idx) _ Hlists') shards' Hrest).
      cbn [zip_with mjoin list_join]. rewrite foldl_app. done.
Qed.

End sharded_facts.

(** X12: on an optimizer built by [__init__], [sharded_state_dict]
    raises [Exception] with the message that names the first parameter for
    which the model's dict has no entry with a key ['shard']. *)
Theorem sharded_state_dict_missing_shard `{ZeroOps} `{ShardedStateOps}
    (params : list MsParameter) (zl : string) (after : bool) (op : string) (cp : bool)
    (z3 : list string) opt (msd : gmap string model_entry) before p rest :
  __init__ params zl after op cp z3 = Ok opt →
  params = before ++ p :: rest →
  Forall (λ q, is_Some (msd !! name q ≫= entry_shard)) before →
  msd !! name p ≫= entry_shard = None →
  sharded_state_dict opt msd
  = RaisedException ("the input dict has no shard info for '" +:+ name p +:+ "'.").
Proof.
  intros Hinit Hparams Hbefore Hnone.
  destruct (proj1 (adamw_init_cases params zl after op cp z3)) as [[Hop Hall] _];
    [by exists opt|].
  rewrite (adamw_init_general params zl after op cp z3 Hop Hall) in Hinit.
  injection Hinit as <-. unfold sharded_state_dict. cbn [_parameters].
  set (sz := get_data_parallel_world_size cp) in *.
  set (pspl := parameter_partitioned zl z3 <$> params).
  set (sspl := status_partitioned zl z3 sz <$> params).
  set (ps' := if after then params else _regist_hook_for_params zl pspl sspl params).
  assert (Hps' : ∀ k q', ps' !! k = Some q' →
            ∃ q, params !! k = Some q ∧ name q' = name q ∧ data q' = data q).
  { intros k q' Hk. destruct (init_parameters_lookup _ _ _ _ _ _ _ Hk) as (q & ? & ? & ? & _).
    by exists q. }
  assert (Hlen : length ps' = length params).
  { subst ps'. destruct after; [done|]. unfold _regist_hook_for_params.
    by rewrite length_imap. }
  match goal with |- sharded_state_dict_loop ?o _ _ _ _ = _ => set (self := o) end.
  assert (Hsplit' : ∃ before' p' rest', ps' = before' ++ p' :: rest' ∧
            name p' = name p ∧
            Forall (λ q, is_Some (msd !! name q ≫= entry_shard)) before').
  { assert (Hk : params !! length before = Some p)
      by (rewrite Hparams; apply list_lookup_middle; done).
    destruct (lookup_lt_is_Some_2 ps' (length before)) as [p' Hp'];
      [rewrite Hlen; by eapply lookup_lt_Some|].
    exists (take (length before) ps'), p', (drop (S (length before)) ps').
    split; [symmetry; by apply take_drop_middle|].
    destruct (Hps' _ _ Hp') as (q & Hq & Hn & _). rewrite Hk in Hq. injection Hq as <-.
    split; [done|]. apply Forall_lookup. intros k q' Hq'.
    apply lookup_take_Some in Hq' as [Hq' Hlt].
    destruct (Hps' _ _ Hq') as (q & Hq & -> & _).
    rewrite Hparams, lookup_app_l in Hq by done.
    by apply (Forall_lookup_1 _ _ _ _ Hbefore Hq). }
  destruct Hsplit' as (before' & p' & rest' & Hsplit & Hname & Hbefore').
  assert (Hlists : ∀ k q', ps' !! k = Some q' →
     moments1 self !! (0 + k)%nat
       = Some (moment_of "adam_m" "zeros" sz (status_partitioned zl z3 sz q') q') ∧
     moments2 self !! (0 + k)%nat
       = Some (moment_of "adam_v" "zeros" sz (status_partitioned zl z3 sz q') q') ∧
     _status_splited self !! (0 + k)%nat = Some (status_partitioned zl z3 sz q') ∧
     _parameter_splited self !! (0 + k)%nat = Some (parameter_partitioned zl z3 q')).
  { intros k q' Hk. cbn [Nat.add]. destruct (Hps' _ _ Hk) as (q & Hq & Hn & Hd).
    subst self. cbn. rewrite !lookup_zip_with. subst sspl pspl.
    rewrite !list_lookup_fmap, Hq. cbn.
    unfold status_partitioned, parameter_partitioned, moment_of. rewrite Hn, Hd. done. }
  rewrite <- Hname.
  apply (proj1 (sharded_state_dict_loop_spec self msd zl z3 sz ps' 0 ∅ Hlists)
           before' p' rest' Hsplit Hbefore').
  by rewrite Hname.
Qed.

Lemma sharded_state_dict_missing_shard_witness :
  ∃ opt, @__init__ (unit_zero_ops 2 0) zero_example_params "z1" false "sum" false [] = Ok opt ∧
    @sharded_state_dict (unit_zero_ops 2 0) two_rank_state_ops opt
      (delete "w2" zero_example_model_dict)
    = RaisedException "the input dict has no shard info for 'w2'.".
Proof.
  eexists. split; [reflexivity|].
  apply (@sharded_state_dict_missing_shard (unit_zero_ops 2 0) two_rank_state_ops
           zero_example_params "z1" false "sum" false [] _
           (delete "w2" zero_example_model_dict)
           [@Build_MsParameter (unit_zero_ops 2 0) "w1"
              (@Build_tensor (unit_zero_ops 2 0) float16 [4; 3] ()) []]
           (@Build_MsParameter (unit_zero_ops 2 0) "w2"
              (@Build_tensor (unit_zero_ops 2 0) float32 [3; 3] ()) [])
           []).
  - reflexivity.
  - reflexivity.
  - repeat constructor. by eexists.
  - reflexivity.
Defined.


(** X13: on an optimizer built by [__init__] for parameters with distinct
    names, each with shard info in the model's dict, [sharded_state_dict]
    returns a dict with exactly the keys [adam_m.<name>] and [adam_v.<name>].
    An entry holds the shape of the moment, the shard of the parameter, and
    [np.prod(shard)] with the data-parallel world size when the state or the
    parameter is split, [0] and [0] otherwise. *)
Theorem sharded_state_dict_entries `{ZeroOps} `{ShardedStateOps}
    (params : list MsParameter) (zl : string) (after : bool) (op : string) (cp : bool)
    (z3 : list string) opt (msd : gmap string model_entry) :
  __init__ params zl after op cp z3 = Ok opt →
  NoDup (name <$> params) →
  Forall (λ p, is_Some (msd !! name p ≫= entry_shard)) params →
  ∃ d, sharded_state_dict opt msd = Returned d ∧
    (∀ i p, params !! i = Some p →
       ∃ s m1 m2, msd !! name p ≫= entry_shard = Some s ∧
         moments1 opt !! i = Some m1 ∧ moments2 opt !! i = Some m2 ∧
         name m1 = "adam_m." +:+ name p ∧ name m2 = "adam_v." +:+ name p ∧
         let splited :=
           status_partitioned zl z3 (get_data_parallel_world_size cp) p
           || parameter_partitioned zl z3 p in
         let entry (m : MsParameter) :=
           {| st_shape := t_shape (data m); st_shard := s;
              opt_weight_shard_step := if splited then np_prod s else int_0;
              opt_weight_shard_size :=
                if splited then get_data_parallel_world_size_default else 0 |} in
         d !! name m1 = Some (entry m1) ∧ d !! name m2 = Some (entry m2)) ∧
    (∀ key, is_Some (d !! key) →
       ∃ p, p ∈ params ∧ (key = "adam_m." +:+ name p ∨ key = "adam_v." +:+ name p)).
Proof.
  intros Hinit Hnd Hshards.
  destruct (proj1 (adamw_init_cases params zl after op cp z3)) as [[Hop Hall] _];
    [by exists opt|].
  rewrite (adamw_init_general params zl after op cp z3 Hop Hall) in Hinit.
  injection Hinit as <-. unfold sharded_state_dict. cbn [_parameters moments1 moments2].
  set (sz := get_data_parallel_world_size cp) in *.
  set (pspl := parameter_partitioned zl z3 <$> params).
  set (sspl := status_partitioned zl z3 sz <$> params).
  set (ps' := if after then params else _regist_hook_for_params zl pspl sspl params).
  assert (Hnames : name <$> ps' = name <$> params).
  { subst ps'. destruct after; [done|]. apply regist_hook_static. }
  assert (Hdatas : data <$> ps' = data <$> params).
  { subst ps'. destruct after; [done|]. apply regist_hook_static. }
  assert (Hps' : ∀ k q', ps' !! k = Some q' →
            ∃ q, params !! k = Some q ∧ name q' = name q ∧ data q' = data q).
  { intros k q' Hk. destruct (init_parameters_lookup _ _ _ _ _ _ _ Hk) as (q & ? & ? & ? & _).
    by exists q. }
  match goal with |- context [sharded_state_dict_loop ?o _ _ _ _] => set (self := o) end.
  assert (Hlists : ∀ k q', ps' !! k = Some q' →
     moments1 self !! (0 + k)%nat
       = Some (moment_of "adam_m" "zeros" sz (status_partitioned zl z3 sz q') q') ∧
     moments2 self !! (0 + k)%nat
       = Some (moment_of "adam_v" "zeros" sz (status_partitioned zl z3 sz q') q') ∧
     _status_splited self !! (0 + k)%nat = Some (status_partitioned zl z3 sz q') ∧
     _parameter_splited self !! (0 + k)%nat = Some (parameter_partitioned zl z3 q')).
  { intros k q' Hk. cbn [Nat.add]. destruct (Hps' _ _ Hk) as (q & Hq & Hn & Hd).
    subst self. cbn. rewrite !lookup_zip_with. subst sspl pspl.
    rewrite !list_lookup_fmap, Hq. cbn.
    unfold status_partitioned, parameter_partitioned, moment_of. rewrite Hn, Hd. done. }
  assert (Hex : ∃ shards, Forall2 (λ p s, msd !! name p ≫= entry_shard = Some s) ps' shards).
  { assert (Hall' : Forall (λ p, is_Some (msd !! name p ≫= entry_shard)) ps').
    { apply Forall_lookup. intros k q' Hk. destruct (Hps' _ _ Hk) as (q & Hq & -> & _).
      by apply (Forall_lookup_1 _ _ _ _ Hshards Hq). }
    clear -Hall'. induction Hall' as [|q l [s Hs] _ [shards IH]].
    - exists []. constructor.
    - exists (s :: shards). by constructor. }
  destruct Hex as [shards Hsh].
  rewrite (proj2 (sharded_state_dict_loop_spec self msd zl z3 sz ps' 0 ∅ Hlists) shards Hsh).
  set (ins := mjoin (zip_with (state_entries_of zl z3 sz) ps' shards)).
  assert (Hkeys : ins.*1 = (name <$> params)
                             ≫= λ n, ["adam_m" +:+ "." +:+ n; "adam_v" +:+ "." +:+ n]).
  { rewrite <- Hnames. subst ins. clear -Hsh. induction Hsh as [|q s l shards _ _ IH]; [done|].
    cbn [zip_with mjoin list_join fmap list_fmap mbind list_bind app].
    rewrite fmap_app.
    match goal with |- _ = ?a :: ?b :: ?r => change (a :: b :: r) with ([a; b] ++ r) end.
    f_equal. exact IH. }
  assert (Hndi : NoDup ins.*1) by (rewrite Hkeys; by apply moment_names_NoDup).
  eexists. split; [reflexivity|]. split.
  - intros i p Hp.
    assert (Hp' : ∃ p', ps' !! i = Some p' ∧ name p' = name p ∧ data p' = data p).
    { destruct (lookup_lt_is_Some_2 ps' i) as [p' Hp'].
      { rewrite <- (length_fmap name), Hnames, length_fmap. by eapply lookup_lt_Some. }
      destruct (Hps' _ _ Hp') as (q & Hq & ? & ?). rewrite Hp in Hq. injection Hq as <-.
      by exists p'. }
    destruct Hp' as (p' & Hp' & Hn & Hd).
    destruct (Forall2_lookup_l _ _ _ _ _ Hsh Hp') as (s & Hs & Hms).
    exists s, (moment_of "adam_m" "zeros" sz (status_partitioned zl z3 sz p) p),
      (moment_of "adam_v" "zeros" sz (status_partitioned zl z3 sz p) p).
    split; [by rewrite <- Hn|].
    split; [subst sspl; by rewrite lookup_zip_with, list_lookup_fmap, Hp|].
    split; [subst sspl; by rewrite lookup_zip_with, list_lookup_fmap, Hp|].
    split; [done|]. split; [done|]. cbv zeta.
    assert (Hin : ∀ kv, kv ∈ state_entries_of zl z3 sz p' s → kv ∈ ins).
    { intros kv Hkv. subst ins. apply list_elem_of_join.
      exists (state_entries_of zl z3 sz p' s). split; [done|].
      apply (list_elem_of_lookup_2 _ i). by rewrite lookup_zip_with, Hp', Hs. }
    unfold state_entries_of in Hin. cbv zeta in Hin.
    unfold status_partitioned, parameter_partitioned in Hin.
    rewrite Hn, Hd in Hin.
    fold (parameter_partitioned zl z3 p) in Hin. fold (status_partitioned zl z3 sz p) in Hin.
    split; apply foldl_insert_elem; try done; apply Hin.
    + apply elem_of_cons. by left.
    + apply elem_of_cons. right. apply elem_of_cons. by left.
  - intros key Hkey. apply foldl_insert_dom in Hkey as [Hkey|[? Hkey]]; [|done].
    rewrite Hkeys in Hkey. apply list_elem_of_bind in Hkey as (n & Hkey & Hn).
    apply list_elem_of_fmap in Hn as (p & -> & Hp). exists p. split; [done|].
    apply elem_of_cons in Hkey as [->|[->|Hkey%elem_of_nil]%elem_of_cons]; [by left|by right|done].
Qed.

Lemma sharded_state_dict_entries_witness :
  ∃ opt, @__init__ (unit_zero_ops 2 0) zero_example_params "z1" false "sum" false [] = Ok opt ∧
  ∃ d, @sharded_state_dict (unit_zero_ops 2 0) two_rank_state_ops opt zero_example_model_dict
       = Returned d ∧
    (∀ i p, zero_example_params !! i = Some p →
       ∃ s m1 m2, zero_example_model_dict !! name p ≫= entry_shard = Some s ∧
         moments1 opt !! i = Some m1 ∧ moments2 opt !! i = Some m2 ∧
         name m1 = "adam_m." +:+ name p ∧ name m2 = "adam_v." +:+ name p ∧
         let splited :=
           status_partitioned "z1" [] (@get_data_parallel_world_size (unit_zero_ops 2 0) false) p
           || parameter_partitioned "z1" [] p in
         let entry (m : MsParameter) :=
           {| st_shape := t_shape (data m); st_shard := s;
              opt_weight_shard_step := if splited then np_prod s else int_0;
              opt_weight_shard_size :=
                if splited then @get_data_parallel_world_size_default two_rank_state_ops
                else 0 |} in
         d !! name m1 = Some (entry m1) ∧ d !! name m2 = Some (entry m2)) ∧
    (∀ key, is_Some (d !! key) →
       ∃ p, p ∈ zero_example_params ∧
            (key = "adam_m." +:+ name p ∨ key = "adam_v." +:+ name p)).
Proof.
  eexists. split; [reflexivity|].
  apply (@sharded_state_dict_entries (unit_zero_ops 2 0) two_rank_state_ops
           zero_example_params "z1" false "sum" false [] _ zero_example_model_dict).
  - reflexivity.
  - apply (bool_decide_unpack _). vm_compute. reflexivity.
  - repeat constructor; by eexists.
Defined.

(** The state dict of the example: the rows of [w1] split over the two ranks,
    those of [w2] do not. *)
Example zero_example_state_dict :
  (λ opt, @sharded_state_dict (unit_zero_ops 2 0) two_rank_state_ops opt
            zero_example_model_dict)
    <$> @__init__ (unit_zero_ops 2 0) zero_example_params "z1" false "sum" false []
  = Ok (Returned
      {[ "adam_m.w1" := {| st_shape := [2; 3]; st_shard := [1; 1];
                           opt_weight_shard_step := np_prod [1; 1];
                           opt_weight_shard_size := 2 |};
         "adam_v.w1" := {| st_shape := [2; 3]; st_shard := [1; 1];
                           opt_weight_shard_step := np_prod [1; 1];
                           opt_weight_shard_size := 2 |};
         "adam_m.w2" := {| st_shape := [3; 3]; st_shard := [2; 1];
                           opt_weight_shard_step := int_0; opt_weight_shard_size := 0 |};
         "adam_v.w2" := {| st_shape := [3; 3]; st_shard := [2; 1];
                           opt_weight_shard_step := int_0; opt_weight_shard_size := 0 |} ]}).
Proof. vm_compute. reflexivity. Qed.


Section cells_facts.
Context `{ZeroOps} `{ResidentOps}.

Lemma Cell_nested_ind (P : Cell → Prop) :
  (∀ n z b s bn ps cs, Forall P cs → P (mkCell n z b s bn ps cs)) → ∀ c, P c.
Proof.
  intros Hstep. fix IH 1. intros [n z b s bn ps cs]. apply Hstep.
  induction cs as [|c cs IHcs]; constructor; [apply IH|exact IHcs].
Qed.

Lemma kept_bias_names_cons (keeps : nat → bool) i (c : Cell) l :
  kept_bias_names keeps i (c :: l)
  = (if keeps i && has_bias c && skip_bias_add c then [bias_name c] else [])
    ++ kept_bias_names keeps (S i) l.
Proof.
  unfold kept_bias_names. cbn [length seq zip zip_with]. rewrite filter_cons.
  cbn [fst snd]. destruct (keeps i && has_bias c && skip_bias_add c) eqn:Hb.
  - reflexivity.
  - reflexivity.
Qed.

Lemma kept_bias_names_app (keeps : nat → bool) (l1 l2 : list Cell) : ∀ i,
  kept_bias_names keeps i (l1 ++ l2)
  = kept_bias_names keeps i l1 ++ kept_bias_names keeps (i + length l1) l2.
Proof.
  induction l1 as [|c l1 IH]; intros i.
  - cbn [app length]. by rewrite Nat.add_0_r.
  - cbn [app length]. rewrite !kept_bias_names_cons, IH, <- app_assoc.
    by replace (i + S (length l1))%nat with (S i + length l1)%nat by lia.
Qed.

Lemma kept_bias_names_ext (f g : nat → bool) (l : list Cell) : ∀ i,
  (∀ j, f j = g j) → kept_bias_names f i l = kept_bias_names g i l.
Proof.
  induction l as [|c l IH]; intros i Hfg; [done|].
  rewrite !kept_bias_names_cons, Hfg. f_equal. by apply IH.
Qed.

Lemma kept_bias_names_all (l : list Cell) : ∀ i j,
  kept_bias_names (λ _, true) i l = kept_bias_names (λ _, true) j l.
Proof.
  induction l as [|c l IH]; intros i j; [done|].
  rewrite !kept_bias_names_cons. f_equal. apply IH.
Qed.

(** The bias names [recursion_cells] notes for the cells it takes. *)
Lemma recursion_cells_acc (cell : Cell) :
  ∃ new, Forall (λ c, is_zero3_linear c = true) new ∧
    ∀ lists, recursion_cells cell lists
             = (lists.1 ++ new,
                lists.2 ++ kept_bias_names (λ _, true) 0 new).
Proof.
  induction cell as [n z b s bn ps cs IH] using Cell_nested_ind.
  cbn [recursion_cells].
  induction cs as [|c cs IHcs].
  - exists []. split; [constructor|]. intros [zs sk]. cbn. by rewrite !app_nil_r.
  - apply list.Forall_cons in IH as [(nc & Hnc & Hc) IH].
    destruct (IHcs IH) as (R & HR & Hfold). cbn [foldl].
    assert (Hkept : ∀ l1 l2 : list Cell,
              kept_bias_names (λ _, true) 0 (l1 ++ l2)
              = kept_bias_names (λ _, true) 0 l1 ++ kept_bias_names (λ _, true) 0 l2).
    { intros l1 l2. rewrite kept_bias_names_app. f_equal. apply kept_bias_names_all. }
    destruct (is_zero3_linear c) eqn:Hz.
    + exists (c :: R). split; [by constructor|]. intros [zs sk]. cbn [fst snd].
      rewrite Hfold. cbn [fst snd]. rewrite <- !app_assoc. cbn [app]. f_equal.
      change (c :: R) with ([c] ++ R). rewrite Hkept, app_assoc. f_equal.
      rewrite kept_bias_names_cons. cbn [andb].
      destruct (has_bias c && skip_bias_add c); by rewrite ?app_nil_r.
    + exists (nc ++ R). split; [by apply Forall_app|]. intros [zs sk].
      rewrite Hc, Hfold. cbn [fst snd]. by rewrite Hkept, !app_assoc.
Qed.

Lemma py_remove_elem (x : string) (l : list string) :
  x ∈ l → ∃ l', py_remove x l = Ok l' ∧ l ≡ₚ x :: l'.
Proof.
  induction l as [|y l IH]; intros Hin; [by apply elem_of_nil in Hin|].
  cbn [py_remove]. destruct (String.eqb_spec y x) as [->|Hne].
  - by exists l.
  - apply elem_of_cons in Hin as [->|Hin]; [done|].
    destruct (IH Hin) as (l' & -> & Hperm). exists (y :: l'). split; [done|].
    rewrite Hperm. apply Permutation_swap.
Qed.

(** The loop that registers the hooks: it never fails to remove a bias name,
    and leaves the names of the cells that split again after the forward. *)
Lemma register_cell_hooks_spec (pr rb : bool) (res : list nat) (cs : list Cell) :
  let keeps := λ i, negb pr || pr && rb && bool_decide (i ∉ res) in
  ∀ i skip zp kept,
  skip ≡ₚ kept ++ kept_bias_names (λ _, true) i cs →
  ∃ hcs skip',
    register_cell_hooks pr rb res i cs skip zp
    = Ok (hcs, skip', zp ++ (cs ≫= λ c, name <$> get_parameters c)) ∧
    the_cell <$> hcs = cs ∧
    skip' ≡ₚ kept ++ kept_bias_names keeps i cs ∧
    ∀ k hc, hcs !! k = Some hc →
      forward_pre_hooks hc = [_pre_forward_cell_hook; _post_backward_cell_hook] ∧
      forward_hooks hc = if keeps (i + k)%nat
                         then [_post_forward_cell_hook; _pre_backward_cell_hook] else [].
Proof.
  intros keeps. induction cs as [|c cs IH]; intros i skip zp kept Hskip.
  - exists [], skip. cbn. rewrite app_nil_r. split; [done|]. split; [done|].
    split; [by rewrite Hskip|]. intros k hc Hk. done.
  - cbn [register_cell_hooks]. rewrite kept_bias_names_cons in Hskip.
    cbn [andb] in Hskip.
    rewrite kept_bias_names_cons. fold (keeps i).
    destruct (keeps i) eqn:Hkeep.
    + cbn [mbind result_bind fst snd andb].
      destruct (IH (S i) skip (zp ++ (name <$> get_parameters c))
                  (kept ++ (if has_bias c && skip_bias_add c then [bias_name c] else [])))
        as (hcs & skip' & -> & Hcells & Hskip' & Hhooks).
      { by rewrite Hskip, <- !app_assoc. }
      cbn [mbind result_bind fst snd]. eexists _, skip'.
      split; [by rewrite <- app_assoc|]. split; [cbn; by rewrite Hcells|].
      split; [by rewrite Hskip', <- !app_assoc|].
      intros [|k] hc Hk.
      * injection Hk as <-. cbn. by rewrite Nat.add_0_r, Hkeep.
      * replace (i + S k)%nat with (S i + k)%nat by lia. by apply Hhooks.
    + destruct (has_bias c && skip_bias_add c) eqn:Hb.
      * destruct (py_remove_elem (bias_name c) skip) as (skip1 & -> & Hperm).
        { rewrite Hskip. apply elem_of_app. right. apply elem_of_cons. by left. }
        cbn [mbind result_bind fst snd].
        destruct (IH (S i) skip1 (zp ++ (name <$> get_parameters c)) kept)
          as (hcs & skip' & -> & Hcells & Hskip' & Hhooks).
        { apply (Permutation_cons_inv (a := bias_name c)).
          rewrite <- Hperm, Hskip. cbn [app].
          by rewrite <- Permutation_middle. }
        cbn [mbind result_bind fst snd]. eexists _, skip'.
        split; [by rewrite <- app_assoc|]. split; [cbn; by rewrite Hcells|].
        split; [done|].
        intros [|k] hc Hk.
        -- injection Hk as <-. cbn. by rewrite Nat.add_0_r, Hkeep.
        -- replace (i + S k)%nat with (S i + k)%nat by lia. by apply Hhooks.
      * cbn [mbind result_bind fst snd].
        destruct (IH (S i) skip (zp ++ (name <$> get_parameters c)) kept)
          as (hcs & skip' & -> & Hcells & Hskip' & Hhooks).
        { by rewrite Hskip. }
        cbn [mbind result_bind fst snd]. eexists _, skip'.
        split; [by rewrite <- app_assoc|]. split; [cbn; by rewrite Hcells|].
        split; [done|].
        intros [|k] hc Hk.
        -- injection Hk as <-. cbn. by rewrite Nat.add_0_r, Hkeep.
        -- replace (i + S k)%nat with (S i + k)%nat by lia. by apply Hhooks.
Qed.

(** [_regist_hook_for_cells] as a whole. *)
Lemma regist_hook_for_cells_spec (network : Cell) (param_resident : bool)
    (param_resident_rate : pyfloat) :
  let sub_cells := (recursion_cells network ([], [])).1 in
  let keeps := splits_after_forward param_resident param_resident_rate sub_cells in
  ∃ r, _regist_hook_for_cells network param_resident param_resident_rate = Ok r ∧
    the_cell <$> z3_optim_cells r = sub_cells ∧
    Forall (λ c, is_zero3_linear c = true) sub_cells ∧
    (∀ i hc, z3_optim_cells r !! i = Some hc →
       forward_pre_hooks hc = [_pre_forward_cell_hook; _post_backward_cell_hook] ∧
       forward_hooks hc = if keeps i
                          then [_post_forward_cell_hook; _pre_backward_cell_hook]
                          else []) ∧
    cells_zero3_parameters r = (sub_cells ≫= λ c, name <$> get_parameters c) ∧
    skip_bias_add_list r ≡ₚ kept_bias_names keeps 0 sub_cells.
Proof.
  cbv zeta. unfold _regist_hook_for_cells.
  destruct (recursion_cells_acc network) as (new & Hnew & Hrec).
  rewrite (Hrec ([], [])). cbn [fst snd app].
  set (rb := param_resident && float_lt_int param_resident_rate 1).
  set (res := if rb then _ else []).
  destruct (register_cell_hooks_spec param_resident rb res new 0
              (kept_bias_names (λ _, true) 0 new) [] [])
    as (hcs & skip' & -> & Hcells & Hskip & Hhooks); [done|].
  cbn [mbind result_bind fst snd app]. eexists. split; [reflexivity|].
  cbn [z3_optim_cells skip_bias_add_list cells_zero3_parameters].
  assert (Hkeeps : ∀ i, negb param_resident || param_resident && rb && bool_decide (i ∉ res)
                        = splits_after_forward param_resident param_resident_rate new i).
  { intros i. unfold splits_after_forward. subst rb res.
    destruct param_resident; [|done]. cbn [negb orb andb].
    by destruct (float_lt_int param_resident_rate 1). }
  split; [done|]. split; [done|]. split.
  { intros i hc Hi. destruct (Hhooks i hc Hi) as [? Hf]. split; [done|].
    by rewrite Hf, Hkeeps. }
  split; [done|]. rewrite Hskip. cbn [app].
  by rewrite (kept_bias_names_ext _ _ new 0 Hkeeps).
Qed.

(** The shapes after the hooks of one pass. *)
Lemma pass_through_restores (self : AdamW) (skip : list string) (hc : hooked_cell)
    (cell_params : list MsParameter) :
  group_size (dp_cp_group self) = shard_size self → shard_size self ≠ 0 →
  forward_pre_hooks hc = [_pre_forward_cell_hook; _post_backward_cell_hook] →
  forward_hooks hc = [_post_forward_cell_hook; _pre_backward_cell_hook]
  ∨ forward_hooks hc = [] →
  Forall2 (λ p p', name p' = name p ∧ hooks p' = hooks p ∧
                   t_dtype (data p') = t_dtype (data p) ∧
                   t_shape (data p') = t_shape (data p))
          cell_params (pass_through self skip hc cell_params).
Proof.
  intros Hg Hn Hpre Hfwd.
  assert (Hround : ∀ s, scale_first_dim (λ d, d / shard_size self)
                          (scale_first_dim (λ d, group_size (dp_cp_group self) * d) s) = s).
  { intros [|d s]; [done|]. cbn. f_equal. rewrite Hg.
    rewrite Z.mul_comm. by apply Z.div_mul. }
  unfold pass_through. rewrite Hpre. cbv zeta.
  unfold pre_forward, post_forward, _run_before_backward_function,
    _run_after_backward_function.
  rewrite (decide_True (P := _pre_forward_cell_hook ∈ _))
    by (apply elem_of_cons; by left).
  rewrite (decide_True (P := _post_backward_cell_hook ∈ _))
    by (apply elem_of_cons; right; apply elem_of_cons; by left).
  destruct Hfwd as [-> | ->].
  - rewrite (decide_True (P := _post_forward_cell_hook ∈ _))
      by (apply elem_of_cons; by left).
    rewrite (decide_True (P := _pre_backward_cell_hook ∈ _))
      by (apply elem_of_cons; right; apply elem_of_cons; by left).
    rewrite <- !list_fmap_compose. apply Forall2_fmap_r, Forall_Forall2_diag.
    apply list.Forall_forall. intros p _. cbn.
    destruct (bool_decide (name p ∈ skip)) eqn:Hb; cbn; rewrite ?Hb; cbn;
      rewrite ?Hb; cbn; rewrite ?Hround; done.
  - rewrite (decide_False (P := _post_forward_cell_hook ∈ _)) by apply not_elem_of_nil.
    rewrite (decide_False (P := _pre_backward_cell_hook ∈ _)) by apply not_elem_of_nil.
    rewrite <- !list_fmap_compose. apply Forall2_fmap_r, Forall_Forall2_diag.
    apply list.Forall_forall. intros p _. cbn. by rewrite Hround.
Qed.

End cells_facts.

(** X25: [_regist_hook_for_cells] never raises: every bias name it removes
    from [skip_bias_add_list] is there.  The cells it collects are the
    ZeRO-3 linear cells that [recursion_cells] reaches, each with the forward
    pre-hooks [_pre_forward_cell_hook] and [_post_backward_cell_hook], and with
    the forward hooks [_post_forward_cell_hook] and [_pre_backward_cell_hook]
    exactly when the cell is not resident ([param_resident] is off, or the rate
    is below one and the cell is not among those [_param_resident_flag]
    chooses).  [zero3_parameters] are the names of the parameters of these
    cells in order, and [skip_bias_add_list] ends up with the bias names of
    the non-resident cells whose bias is added outside the cell. *)
Theorem regist_hook_for_cells_outcome `{ZeroOps} `{ResidentOps} (network : Cell)
    (param_resident : bool) (param_resident_rate : pyfloat) :
  let sub_cells := (recursion_cells network ([], [])).1 in
  let keeps := splits_after_forward param_resident param_resident_rate sub_cells in
  ∃ r, _regist_hook_for_cells network param_resident param_resident_rate = Ok r ∧
    the_cell <$> z3_optim_cells r = sub_cells ∧
    Forall (λ c, is_zero3_linear c = true) sub_cells ∧
    (∀ i hc, z3_optim_cells r !! i = Some hc →
       forward_pre_hooks hc = [_pre_forward_cell_hook; _post_backward_cell_hook] ∧
       forward_hooks hc = if keeps i
                          then [_post_forward_cell_hook; _pre_backward_cell_hook]
                          else []) ∧
    cells_zero3_parameters r = (sub_cells ≫= λ c, name <$> get_parameters c) ∧
    skip_bias_add_list r ≡ₚ kept_bias_names keeps 0 sub_cells.
Proof. apply regist_hook_for_cells_spec. Qed.

(** The example network without resident parameters, and with all of them
    resident. *)
Example zero_example_cells :
  (λ r, ((λ hc, (class_name (the_cell hc), forward_hooks hc)) <$> z3_optim_cells r,
         skip_bias_add_list r, cells_zero3_parameters r))
    <$> @_regist_hook_for_cells (unit_zero_ops 2 0) permille_resident_ops
          zero_example_network false 1000
  = Ok ([("ColumnParallelLinear", [_post_forward_cell_hook; _pre_backward_cell_hook]);
         ("RowParallelLinear", [_post_forward_cell_hook; _pre_backward_cell_hook])],
        ["fc1.bias"], ["fc1.weight"; "fc1.bias"; "fc2.weight"]).
Proof. reflexivity. Qed.

Example zero_example_cells_resident :
  (λ r, ((λ hc, (class_name (the_cell hc), forward_hooks hc)) <$> z3_optim_cells r,
         skip_bias_add_list r, cells_zero3_parameters r))
    <$> @_regist_hook_for_cells (unit_zero_ops 2 0) permille_resident_ops
          zero_example_network true 1000
  = Ok ([("ColumnParallelLinear", []); ("RowParallelLinear", [])],
        [], ["fc1.weight"; "fc1.bias"; "fc2.weight"]).
Proof. reflexivity. Qed.

(** X26: the hooks that [_regist_hook_for_cells] puts on a cell leave its
    parameters as they found them.  On a group whose size is the shard size,
    after the hooks of one forward and backward pass through the cell (gather
    before the forward, for a non-resident cell split after it and gather
    again before the backward, split after the backward) every parameter has
    its name, hooks, dtype and shape again, also a bias that is in
    [skip_bias_add_list] and stays gathered in between. *)
Theorem zero3_cell_pass_restores_parameters `{ZeroOps} `{ResidentOps}
    (self : AdamW) (network : Cell) (param_resident : bool) (param_resident_rate : pyfloat)
    (r : cells_registered) (hc : hooked_cell) (cell_params : list MsParameter) :
  _regist_hook_for_cells network param_resident param_resident_rate = Ok r →
  hc ∈ z3_optim_cells r →
  group_size (dp_cp_group self) = shard_size self → shard_size self ≠ 0 →
  Forall2 (λ p p', name p' = name p ∧ hooks p' = hooks p ∧
                   t_dtype (data p') = t_dtype (data p) ∧
                   t_shape (data p') = t_shape (data p))
          cell_params (pass_through self (skip_bias_add_list r) hc cell_params).
Proof.
  intros Hr Hhc Hg Hn.
  destruct (regist_hook_for_cells_spec network param_resident param_resident_rate)
    as (r' & Hr' & _ & _ & Hhooks & _).
  cbv zeta in Hhooks. rewrite Hr in Hr'. injection Hr' as <-.
  apply list_elem_of_lookup in Hhc as [i Hi].
  destruct (Hhooks i hc Hi) as [Hpre Hfwd].
  apply pass_through_restores; [done|done|done|].
  destruct (splits_after_forward _ _ _ _); [by left|by right].
Qed.

Lemma zero3_cell_pass_restores_parameters_witness :
  ∃ opt r hc,
    @__init__ (unit_zero_ops 2 0) zero_example_params "z3" false "sum" false [] = Ok opt ∧
    @_regist_hook_for_cells (unit_zero_ops 2 0) permille_resident_ops
      zero_example_network false 1000 = Ok r ∧
    z3_optim_cells r !! 0%nat = Some hc ∧
    Forall2 (λ p p', name p' = name p ∧ hooks p' = hooks p ∧
                     t_dtype (data p') = t_dtype (data p) ∧
                     t_shape (data p') = t_shape (data p))
            (get_parameters (the_cell hc))
            (pass_through opt (skip_bias_add_list r) hc (get_parameters (the_cell hc))).
Proof.
  eexists _, _, _. split; [reflexivity|]. split; [reflexivity|]. split; [reflexivity|].
  apply (@zero3_cell_pass_restores_parameters (unit_zero_ops 2 0) permille_resident_ops
           _ zero_example_network false 1000).
  - reflexivity.
  - apply elem_of_cons. by left.
  - reflexivity.
  - discriminate.
Defined.

End AdamWZeROFacts.

(** * Facts about the collective wrappers *)

Module CollectivePrimitivesFacts.
Import CollectivePrimitives.

(** [AllToAllSP2HP] on one process flattens a [2 x 3 x 4] input to [6 x 4]. *)
Example sp2hp_flattens :
  (λ y, (shape y, to_list y))
    <$> @construct_of nat (single_process nat) cAllToAllSP2HP 1 0 () (arange [2; 3; 4]%nat)
  = Ok ([6; 4]%nat, seq 0 24).
Proof. vm_compute. reflexivity. Qed.

Example gather_keeps :
  (λ y, (shape y, to_list y))
    <$> @construct_of nat (single_process nat) cGatherFromModelParallelRegion 1 0 ()
          (arange [2; 3; 4]%nat)
  = Ok ([2; 3; 4]%nat, seq 0 24).
Proof. vm_compute. reflexivity. Qed.

Example reduce_scatter_tp_keeps :
  (λ y, (shape y, to_list y))
    <$> @construct_of nat (single_process nat) cReduceScatterToTensorParallelRegion 1 0 ()
          (arange [2; 3; 4]%nat)
  = Ok ([2; 3; 4]%nat, seq 0 24).
Proof. vm_compute. reflexivity. Qed.

Example transpose_2x3 :
  (λ y, (shape y, to_list y)) <$> transpose (arange [2; 3]%nat) [1; 0]
  = Ok ([3; 2]%nat, [0; 3; 1; 4; 2; 5]%nat).
Proof. vm_compute. reflexivity. Qed.

Section layout_facts.
Context {A : Type}.

Lemma equal_same (t t' : tensor A) : equal_tensor t t' → same_tensor t t'.
Proof. intros [Hs He]. split; [done|]. intros idx _. apply He. Qed.

Lemma same_tensor_trans (t1 t2 t3 : tensor A) :
  same_tensor t1 t2 → same_tensor t2 t3 → same_tensor t1 t3.
Proof.
  intros [Hs1 He1] [Hs2 He2]. split; [congruence|].
  intros idx Hidx. rewrite He2, He1; [done..|]. by rewrite Hs1.
Qed.

Lemma canonicalize_axis_nat (ax n : nat) :
  (ax < n)%nat → canonicalize_axis (Z.of_nat ax) n = Ok ax.
Proof.
  intros Hlt. unfold canonicalize_axis.
  destruct (Z.ltb_spec (Z.of_nat ax) (- Z.of_nat n)); [lia|].
  destruct (Z.leb_spec (Z.of_nat n) (Z.of_nat ax)); [lia|]. cbn.
  destruct (Z.ltb_spec (Z.of_nat ax) 0); [lia|]. by rewrite Nat2Z.id.
Qed.

Lemma py_getitem_nat {B} (l : list B) (i : nat) x :
  l !! i = Some x → py_getitem l (Z.of_nat i) = Ok x.
Proof.
  intros Hl. pose proof (lookup_lt_Some _ _ _ Hl). unfold py_getitem.
  destruct (Z.ltb_spec (Z.of_nat i) (- Z.of_nat (length l))); [lia|].
  destruct (Z.leb_spec (Z.of_nat (length l)) (Z.of_nat i)); [lia|]. cbn.
  destruct (Z.ltb_spec (Z.of_nat i) 0); [lia|]. by rewrite Nat2Z.id, Hl.
Qed.

Lemma py_getitem_last {B} (l : list B) x : py_getitem (l ++ [x]) (-1) = Ok x.
Proof.
  unfold py_getitem. rewrite length_app. cbn [length].
  destruct (Z.ltb_spec (-1) (- Z.of_nat (length l + 1))); [lia|].
  destruct (Z.leb_spec (Z.of_nat (length l + 1)) (-1)); [lia|]. cbn.
  replace (Z.to_nat (-1 + Z.of_nat (length l + 1))) with (length l) by lia.
  by rewrite list_lookup_middle.
Qed.

(** Splitting a dimension into chunks of its own size gives the tensor back. *)
Lemma split_whole (t : tensor A) (ax dim : nat) :
  shape t !! ax = Some dim → (0 < dim)%nat →
  ∃ c, split t (Z.of_nat dim) (Z.of_nat ax) = Ok [c] ∧ equal_tensor t c.
Proof.
  intros Hdim Hpos. pose proof (lookup_lt_Some _ _ _ Hdim) as Hlt.
  unfold split. rewrite canonicalize_axis_nat by done. cbn [mbind result_bind].
  destruct (Z.leb_spec (Z.of_nat dim) 0); [lia|].
  rewrite Nat2Z.id, (nth_lookup_Some _ _ _ _ Hdim).
  replace ((dim + dim - 1) / dim)%nat with 1%nat.
  2:{ apply (Nat.div_unique _ _ _ (dim - 1)); lia. }
  eexists. split; [reflexivity|]. split; cbn.
  - rewrite Nat.sub_0_r, Nat.min_id. by apply list_insert_id.
  - intros idx. f_equal. apply list_alter_id. intros; lia.
Qed.

(** Concatenating a single tensor gives it back. *)
Lemma cat_single (t : tensor A) (ax : nat) :
  (ax < length (shape t))%nat →
  ∃ c, cat [t] (Z.of_nat ax) = Ok c ∧ equal_tensor t c.
Proof.
  intros Hlt. unfold cat. rewrite canonicalize_axis_nat by done.
  cbn [mbind result_bind]. eexists. split; [reflexivity|]. split; cbn.
  - destruct (lookup_lt_is_Some_2 _ _ Hlt) as [d Hd].
    rewrite (nth_lookup_Some _ _ _ _ Hd), Nat.add_0_r. by apply list_insert_id.
  - done.
Qed.

(** *** Permutations of the dimensions *)

Lemma canonicalize_axes_seq (k : nat) : ∀ a n,
  (a + k ≤ n)%nat → canonicalize_axes (Z.of_nat <$> seq a k) n = Ok (seq a k).
Proof.
  induction k as [|k IH]; intros a n Hle; [done|].
  cbn [seq fmap list_fmap canonicalize_axes].
  rewrite canonicalize_axis_nat by lia. cbn [mbind result_bind].
  change (list_fmap nat Z Z.of_nat (seq (S a) k)) with (Z.of_nat <$> seq (S a) k).
  rewrite IH by lia. done.
Qed.

Lemma canonicalize_axes_app (l1 l2 : list Z) n p1 p2 :
  canonicalize_axes l1 n = Ok p1 → canonicalize_axes l2 n = Ok p2 →
  canonicalize_axes (l1 ++ l2) n = Ok (p1 ++ p2).
Proof.
  revert p1. induction l1 as [|a l1 IH]; intros p1 H1 H2; cbn in *.
  - by injection H1 as <-.
  - destruct (canonicalize_axis a n) as [k|]; [|done]. cbn in *.
    destruct (canonicalize_axes l1 n) as [ks|] eqn:E; [|done]. cbn in *.
    injection H1 as <-. by rewrite (IH ks eq_refl H2).
Qed.

Lemma py_range_nat (a b : nat) :
  py_range (Z.of_nat a) (Z.of_nat b) = Z.of_nat <$> seq a (b - a).
Proof. unfold py_range. do 2 f_equal; lia. Qed.

Lemma index_of_seq (k : nat) : ∀ a j, (j < k)%nat → index_of (a + j) (seq a k) = j.
Proof.
  induction k as [|k IH]; intros a j Hj; [lia|]. cbn [seq index_of].
  destruct j as [|j].
  - rewrite decide_True by lia. done.
  - rewrite decide_False by lia. f_equal.
    replace (a + S j)%nat with (S a + j)%nat by lia. apply IH. lia.
Qed.

Lemma index_of_app_l (k : nat) (l1 l2 : list nat) :
  k ∈ l1 → index_of k (l1 ++ l2) = index_of k l1.
Proof.
  induction l1 as [|x l1 IH]; intros Hin; [by apply elem_of_nil in Hin|].
  cbn. destruct (decide (x = k)); [done|]. f_equal. apply IH.
  apply elem_of_cons in Hin as [->|?]; done.
Qed.

Lemma index_of_app_r (k : nat) (l1 l2 : list nat) :
  k ∉ l1 → index_of k (l1 ++ l2) = (length l1 + index_of k l2)%nat.
Proof.
  induction l1 as [|x l1 IH]; intros Hin; [done|].
  cbn. rewrite decide_False by (intros ->; apply Hin, elem_of_cons; by left).
  f_equal. apply IH. intros ?. apply Hin, elem_of_cons. by right.
Qed.

Lemma nth_permute_index (p l : list nat) j :
  (j < length p)%nat → nth j (permute_index p l) 0%nat = nth (index_of j p) l 0%nat.
Proof.
  intros Hj. unfold permute_index. rewrite nth_lookup, list_lookup_fmap.
  by rewrite lookup_seq_lt.
Qed.

Lemma length_permute_index (p l : list nat) : length (permute_index p l) = length p.
Proof. unfold permute_index. by rewrite length_fmap, length_seq. Qed.

Lemma index_of_last_to_front m i :
  (i ≤ m)%nat →
  index_of i (last_to_front m) = if decide (i = m) then 0%nat else S i.
Proof.
  intros Hi. unfold last_to_front. cbn. destruct (decide (m = i)) as [->|Hne].
  - by rewrite decide_True.
  - rewrite decide_False by done. f_equal. apply (index_of_seq m 0 i). lia.
Qed.

Lemma index_of_first_to_back m i :
  (i ≤ m)%nat →
  index_of i (first_to_back m) = if decide (i = 0%nat) then m else (i - 1)%nat.
Proof.
  intros Hi. unfold first_to_back. destruct (decide (i = 0%nat)) as [->|Hne].
  - rewrite index_of_app_r.
    + rewrite length_seq. cbn [index_of]. rewrite decide_True by done. lia.
    + intros Hin%elem_of_seq. lia.
  - rewrite index_of_app_l by (apply elem_of_seq; lia).
    replace i with (1 + (i - 1))%nat at 1 by lia. apply index_of_seq. lia.
Qed.

Lemma rotate_index m (l : list nat) :
  length l = S m →
  permute_index (last_to_front m) (permute_index (first_to_back m) l) = l.
Proof.
  intros Hl.
  assert (Hl1 : length (last_to_front m) = S m)
    by (unfold last_to_front; cbn; by rewrite length_seq).
  assert (Hl2 : length (first_to_back m) = S m)
    by (unfold first_to_back; rewrite length_app, length_seq; cbn; lia).
  apply (list_eq_same_length _ _ (S m)); [done|by rewrite length_permute_index|].
  intros i x y Hi Hx Hy.
  pose proof (nth_lookup_Some _ _ 0%nat _ Hx) as Hnx.
  pose proof (nth_lookup_Some _ _ 0%nat _ Hy) as Hny.
  rewrite <- Hnx, <- Hny.
  rewrite nth_permute_index by lia.
  rewrite index_of_last_to_front by lia.
  destruct (decide (i = m)) as [->|Hne].
  - rewrite nth_permute_index by lia. rewrite index_of_first_to_back by lia. done.
  - rewrite nth_permute_index by lia. rewrite index_of_first_to_back by lia.
    rewrite decide_False by lia. f_equal. lia.
Qed.

Lemma rotate_shape m (s : list nat) :
  length s = S m →
  (λ k, nth k ((λ j, nth j s 0%nat) <$> last_to_front m) 0%nat) <$> first_to_back m = s.
Proof.
  intros Hs.
  assert (Hl2 : length (first_to_back m) = S m)
    by (unfold first_to_back; rewrite length_app, length_seq; cbn; lia).
  apply (list_eq_same_length _ _ (S m)); [done|by rewrite length_fmap|].
  intros i x y Hi Hx Hy.
  rewrite list_lookup_fmap in Hx.
  destruct (first_to_back m !! i) as [k|] eqn:Hk; [|done]. injection Hx as <-.
  rewrite <- (nth_lookup_Some _ _ 0%nat _ Hy).
  unfold first_to_back in Hk. unfold last_to_front.
  apply lookup_app_Some in Hk as [Hk|[Hge Hk]].
  - apply lookup_seq in Hk as [-> Hlt]. cbn.
    rewrite nth_lookup, list_lookup_fmap, lookup_seq_lt by lia. done.
  - rewrite length_seq in Hge, Hk. apply list_lookup_singleton_Some in Hk as [Hz <-].
    cbn. f_equal. lia.
Qed.

Lemma NoDup_last_to_front m : NoDup (last_to_front m).
Proof.
  unfold last_to_front. apply NoDup_cons_2; [|apply NoDup_seq].
  intros Hin%elem_of_seq. lia.
Qed.

Lemma NoDup_first_to_back m : NoDup (first_to_back m).
Proof.
  unfold first_to_back. apply list.NoDup_app. split; [apply NoDup_seq|]. split.
  - intros x Hx%elem_of_seq Hx'%list_elem_of_singleton. lia.
  - apply NoDup_singleton.
Qed.

(** The two transpositions of [ReduceScatterToTensorParallelRegion] undo each
    other. *)
Lemma rotate_transposes (t : tensor A) m :
  length (shape t) = S m →
  let num_dims := ndim t in
  ∃ t1 t2,
    transpose t ((num_dims - 1) :: py_range 0 (num_dims - 1)) = Ok t1 ∧
    transpose t1 (py_range 1 num_dims ++ [0]) = Ok t2 ∧
    same_tensor t t2.
Proof.
  intros Hlen. cbv zeta. unfold ndim. rewrite Hlen.
  replace (Z.of_nat (S m) - 1) with (Z.of_nat m) by lia.
  change 0 with (Z.of_nat 0). change 1 with (Z.of_nat 1).
  rewrite !py_range_nat.
  replace (m - 0)%nat with m by lia. replace (S m - 1)%nat with m by lia.
  assert (Hl1 : length (last_to_front m) = S m)
    by (unfold last_to_front; cbn; by rewrite length_seq).
  assert (Hl2 : length (first_to_back m) = S m)
    by (unfold first_to_back; rewrite length_app, length_seq; cbn; lia).
  assert (H1 : canonicalize_axes (Z.of_nat m :: (Z.of_nat <$> seq 0 m)) (S m)
               = Ok (last_to_front m)).
  { cbn [canonicalize_axes]. rewrite canonicalize_axis_nat by lia.
    cbn [mbind result_bind]. by rewrite canonicalize_axes_seq by lia. }
  assert (H2 : canonicalize_axes ((Z.of_nat <$> seq 1 m) ++ [Z.of_nat 0]) (S m)
               = Ok (first_to_back m)).
  { apply canonicalize_axes_app; [apply canonicalize_axes_seq; lia|].
    cbn [canonicalize_axes]. by rewrite canonicalize_axis_nat by lia. }
  unfold transpose at 1. rewrite Hlen, H1. cbn [mbind result_bind].
  rewrite bool_decide_eq_true_2 by (split; [done|apply NoDup_last_to_front]).
  do 2 eexists. split; [reflexivity|].
  unfold transpose. cbn [shape]. rewrite length_fmap, Hl1, H2.
  cbn [mbind result_bind].
  rewrite bool_decide_eq_true_2 by (split; [done|apply NoDup_first_to_back]).
  split; [reflexivity|]. split; cbn.
  - by apply rotate_shape.
  - intros idx Hidx. f_equal. apply rotate_index.
    apply Forall2_length in Hidx. congruence.
Qed.

Lemma numel_app (a b : list nat) : numel (a ++ b) = (numel a * numel b)%nat.
Proof.
  unfold numel. induction a as [|x a IH]; cbn [app foldr]; [lia|].
  rewrite IH. lia.
Qed.

(** *** The three cells that go through layout calls *)

Context `{CommOps A}.

Lemma gather_from_model_parallel_one rank (x : tensor A) d rest :
  shape x = d :: rest → (0 < d)%nat →
  ∃ y, GatherFromModelParallelRegion.construct
         {| GatherFromModelParallelRegion.world_size := 1;
            GatherFromModelParallelRegion.rank := rank |} x = Ok y ∧
       same_tensor x y.
Proof.
  intros Hshape Hd. unfold GatherFromModelParallelRegion.construct.
  cbn [GatherFromModelParallelRegion.world_size Z.eqb Pos.eqb mbind result_bind].
  change 0 with (Z.of_nat 0).
  rewrite (py_getitem_nat (shape x) 0 d) by (by rewrite Hshape).
  cbn [mbind result_bind].
  destruct (split_whole x 0 d) as (c & -> & Hc); [by rewrite Hshape|done|].
  cbn [mbind result_bind].
  destruct (cat_single c (length rest)) as (y & Hy & Hyc).
  { rewrite (proj1 Hc), Hshape. cbn. lia. }
  unfold ndim. rewrite Hshape. cbn [length].
  replace (Z.of_nat (S (length rest)) - 1) with (Z.of_nat (length rest)) by lia.
  rewrite Hy. cbn [mbind result_bind]. exists y. split; [done|].
  eapply same_tensor_trans; by apply equal_same.
Qed.

Lemma reduce_scatter_to_tensor_parallel_one (x : tensor A) :
  shape x ≠ [] →
  ∃ y, ReduceScatterToTensorParallelRegion.construct
         {| ReduceScatterToTensorParallelRegion.world_size := 1 |} x = Ok y ∧
       same_tensor x y.
Proof.
  intros Hne. destruct (shape x) as [|d rest] eqn:Hshape; [done|].
  destruct (rotate_transposes x (length rest)) as (t1 & t2 & H1 & H2 & Hsame).
  { by rewrite Hshape. }
  unfold ReduceScatterToTensorParallelRegion.construct.
  cbn [ReduceScatterToTensorParallelRegion.world_size Z.eqb Pos.eqb].
  cbv zeta. rewrite H1. cbn [fmap result_fmap mbind result_bind].
  unfold contiguous. rewrite H2. cbn [fmap result_fmap]. by exists t2.
Qed.

Lemma all_to_all_sp2hp_one (x : tensor A) init last :
  shape x = init ++ [last] → (0 < last)%nat →
  ∃ y, AllToAllSP2HP.construct {| AllToAllSP2HP.world_size := 1 |} x = Ok y ∧
       shape y = [(numel (shape x) / last)%nat; last] ∧
       ∀ idx, elem y idx = elem x (unravel (shape x) (ravel (shape y) idx)).
Proof.
  intros Hshape Hlast. unfold AllToAllSP2HP.construct.
  cbn [AllToAllSP2HP.world_size].
  rewrite Hshape, py_getitem_last. cbn [mbind result_bind].
  unfold reshape_rows. rewrite Hshape.
  destruct (Z.leb_spec (Z.of_nat last) 0); [lia|].
  rewrite numel_app. cbn [numel foldr]. rewrite Nat.mul_1_r.
  rewrite Nat2Z.inj_mul, Z.mod_mul by lia. cbn [Z.eqb negb].
  rewrite Nat2Z.id. cbn [mbind result_bind shape].
  pose proof (py_getitem_last [(numel init * last / last)%nat] last) as Hg.
  cbn [app] in Hg. rewrite Hg.
  cbn [mbind result_bind]. unfold py_floordiv. cbn [Z.eqb mbind result_bind].
  rewrite Z.div_1_r.
  match goal with |- context [split ?r0 _ 1] => set (r := r0) end.
  destruct (split_whole r 1 last) as (c & Hc & Hrc); [done|done|].
  change (split r (Z.of_nat last) 1) with (split r (Z.of_nat last) (Z.of_nat 1)).
  rewrite Hc. cbn [mbind result_bind].
  destruct (cat_single c 0) as (y & Hy & Hcy).
  { rewrite (proj1 Hrc). cbn. lia. }
  change (cat [c] 0) with (cat [c] (Z.of_nat 0)). rewrite Hy.
  cbn [mbind result_bind Z.eqb Pos.eqb].
  exists y. split; [done|].
  destruct Hrc as [Hs1 He1], Hcy as [Hs2 He2]. split.
  - by rewrite Hs2, Hs1.
  - intros idx. rewrite He2, He1, Hs2, Hs1. done.
Qed.

(** On a 2-D input the flattening of [AllToAllSP2HP] changes nothing. *)
Lemma unravel_ravel_2d (r c i j : nat) :
  (j < c)%nat → unravel [r; c] (ravel [(r * c / c)%nat; c] [i; j]) = [i; j].
Proof.
  intros Hj. cbn [unravel ravel numel foldr].
  rewrite !Nat.mul_1_r, !Nat.add_0_r, Nat.div_1_r.
  rewrite Nat.div_add_l by lia. rewrite (Nat.div_small j c) by lia.
  rewrite Nat.add_0_r. do 2 f_equal.
  rewrite Nat.add_comm, Nat.Div0.mod_add. by apply Nat.mod_small.
Qed.

Lemma all_to_all_sp2hp_one_2d (x : tensor A) r c :
  shape x = [r; c] → (0 < c)%nat →
  ∃ y, AllToAllSP2HP.construct {| AllToAllSP2HP.world_size := 1 |} x = Ok y ∧
       same_tensor x y.
Proof.
  intros Hshape Hc.
  destruct (all_to_all_sp2hp_one x [r] c Hshape Hc) as (y & Hy & Hsy & Hey).
  exists y. split; [done|].
  assert (Hrows : (numel (shape x) / c)%nat = r).
  { rewrite Hshape. cbn. rewrite Nat.mul_1_r. by apply Nat.div_mul; lia. }
  split.
  - by rewrite Hsy, Hrows, Hshape.
  - intros idx Hidx. rewrite Hey, Hsy, Hshape. rewrite Hshape in Hidx.
    apply Forall2_cons_inv_r in Hidx as (i & idx' & Hi & Hidx & ->).
    apply Forall2_cons_inv_r in Hidx as (j & idx'' & Hj & Hidx & ->).
    apply Forall2_nil_inv_r in Hidx as ->.
    cbn [numel foldr]. rewrite Nat.mul_1_r. by rewrite unravel_ravel_2d.
Qed.

(** ** Chunks and concatenations *)

Local Open Scope nat_scope.

Lemma split_chunks (t : tensor A) (ax dim sz : nat) :
  shape t !! ax = Some dim → (0 < sz)%nat →
  split t (Z.of_nat sz) (Z.of_nat ax)
  = Ok (chunk t ax sz dim <$> seq 0 ((dim + sz - 1) / sz)).
Proof.
  intros Hdim Hsz. pose proof (lookup_lt_Some _ _ _ Hdim) as Hlt.
  unfold split. rewrite canonicalize_axis_nat by done. cbn [mbind result_bind].
  destruct (Z.leb_spec (Z.of_nat sz) 0%Z); [lia|].
  by rewrite Nat2Z.id, (nth_lookup_Some _ _ _ _ Hdim).
Qed.

Lemma ceil_div_exact (n q : nat) : (0 < q)%nat → ((n * q + q - 1) / q = n)%nat.
Proof.
  intros Hq. symmetry. apply (Nat.div_unique _ _ _ (q - 1)); lia.
Qed.

Lemma alter_alter_same {B} (f g : B → B) (l : list B) i :
  alter f i (alter g i l) = alter (f ∘ g) i l.
Proof.
  apply list_eq. intros j. destruct (decide (i = j)) as [->|Hne].
  - rewrite !list_lookup_alter_eq. by destruct (l !! j).
  - by rewrite !list_lookup_alter_ne.
Qed.

Lemma alter_ext_at {B} (f g : B → B) (l : list B) i :
  (∀ x, l !! i = Some x → f x = g x) → alter f i l = alter g i l.
Proof.
  intros Hfg. apply list_eq. intros j. destruct (decide (i = j)) as [->|Hne].
  - rewrite !list_lookup_alter_eq. destruct (l !! j) eqn:E; [|done]. cbn. f_equal. by apply Hfg.
  - by rewrite !list_lookup_alter_ne.
Qed.

Lemma alter_id_at {B} (f : B → B) (l : list B) i :
  (∀ x, l !! i = Some x → f x = x) → alter f i l = l.
Proof.
  intros Hf. rewrite (alter_ext_at f id) by done. apply list_alter_id. done.
Qed.

Lemma nth_alter_nat (f : nat → nat) (l : list nat) i :
  (i < length l)%nat → nth i (alter f i l) 0%nat = f (nth i l 0%nat).
Proof.
  intros Hlt. destruct (lookup_lt_is_Some_2 l i Hlt) as [x Hx].
  rewrite (nth_lookup_Some _ _ _ _ Hx).
  apply nth_lookup_Some. by rewrite list_lookup_alter_eq, Hx.
Qed.

(** The element of a concatenation of tensors with the same size [d] along
    the axis: that of the tensor number [j / d], at [j mod d]. *)
Lemma cat_elem_uniform (ax d : nat) (ts : list (tensor A)) : ∀ t0 idx,
  (0 < d)%nat → Forall (λ t, nth ax (shape t) 0%nat = d) (t0 :: ts) →
  let k := (nth ax idx 0 / d)%nat in
  (k ≤ length ts)%nat →
  cat_elem ax t0 ts idx = elem (nth k (t0 :: ts) t0) (alter (λ i, i - k * d)%nat ax idx).
Proof.
  induction ts as [|t' ts IH]; intros t0 idx Hd Hall; cbv zeta; intros Hk.
  - cbn [cat_elem length] in *. assert ((nth ax idx 0 / d)%nat = 0%nat) as -> by lia.
    cbn. f_equal. symmetry. apply alter_id_at. intros; lia.
  - cbn [cat_elem]. apply list.Forall_cons in Hall as [Ht0 Hall]. rewrite Ht0.
    destruct (Nat.ltb_spec (nth ax idx 0) d) as [Hlt|Hge].
    + rewrite (Nat.div_small _ _ Hlt). cbn. f_equal. symmetry.
      apply alter_id_at. intros; lia.
    + assert (Hax : (ax < length idx)%nat).
      { destruct (decide (ax < length idx)%nat); [done|].
        rewrite nth_overflow in Hge by lia. lia. }
      set (idx' := alter (λ i, i - d)%nat ax idx).
      assert (Hj' : nth ax idx' 0%nat = (nth ax idx 0 - d)%nat)
        by (subst idx'; by apply nth_alter_nat).
      assert (Hk' : (nth ax idx' 0 / d = nth ax idx 0 / d - 1)%nat).
      { rewrite Hj'. symmetry. apply (Nat.div_unique _ _ _ ((nth ax idx 0 - d) mod d)).
        - apply Nat.mod_upper_bound. lia.
        - pose proof (Nat.div_mod (nth ax idx 0 - d) d ltac:(lia)) as E.
          assert (((nth ax idx 0 - d) / d)%nat = (nth ax idx 0 / d - 1)%nat) as <-; [|lia].
          replace (nth ax idx 0) with ((nth ax idx 0 - d) + 1 * d)%nat at 2 by lia.
          rewrite Nat.div_add by lia. lia. }
      assert (Hkpos : (1 ≤ nth ax idx 0 / d)%nat).
      { apply Nat.div_le_lower_bound; lia. }
      cbn [length] in Hk.
      rewrite (IH t' idx' Hd Hall) by (rewrite Hk'; lia).
      rewrite Hk'. subst idx'. rewrite alter_alter_same.
      destruct (nth ax idx 0 / d)%nat as [|k] eqn:Ek; [lia|].
      replace (S k - 1)%nat with k by lia.
      change (nth (S k) (t0 :: t' :: ts) t0) with (nth k (t' :: ts) t0).
      rewrite (nth_indep (t' :: ts) t' t0) by (cbn; lia).
      f_equal. apply alter_ext_at. intros x _. cbn. lia.
Qed.

Lemma cat_uniform (ax d : nat) (t0 : tensor A) (ts : list (tensor A)) :
  (ax < length (shape t0))%nat → (0 < d)%nat →
  Forall (λ t, nth ax (shape t) 0%nat = d) (t0 :: ts) →
  ∃ c, cat (t0 :: ts) (Z.of_nat ax) = Ok c ∧
    shape c = <[ax := (S (length ts) * d)%nat]> (shape t0) ∧
    ∀ idx, (nth ax idx 0 < S (length ts) * d)%nat →
      elem c idx = elem (nth (nth ax idx 0 / d) (t0 :: ts) t0)
                     (alter (λ i, i - nth ax idx 0 / d * d)%nat ax idx).
Proof.
  intros Hax Hd Hall. unfold cat. rewrite canonicalize_axis_nat by done.
  cbn [mbind result_bind]. eexists. split; [reflexivity|]. cbn [shape elem]. split.
  - f_equal. change (S (length ts)) with (length (t0 :: ts)).
    clear Hax. induction Hall as [|t l Ht _ IH]; [done|].
    cbn [foldr length]. rewrite IH, Ht. lia.
  - intros idx Hidx. apply cat_elem_uniform; [done..|].
    apply Nat.lt_succ_r. apply Nat.Div0.div_lt_upper_bound; lia.
Qed.

Lemma py_floordiv_nat (a b : nat) :
  0 < b → py_floordiv (Z.of_nat a) (Z.of_nat b) = Ok (Z.of_nat (a / b)).
Proof.
  intros Hb. unfold py_floordiv. destruct (Z.eqb_spec (Z.of_nat b) 0%Z); [lia|].
  by rewrite Nat2Z.inj_div.
Qed.

Lemma py_mod_nat (a b : nat) :
  0 < b → py_mod (Z.of_nat a) (Z.of_nat b) = Ok (Z.of_nat (a mod b)).
Proof.
  intros Hb. unfold py_mod. destruct (Z.eqb_spec (Z.of_nat b) 0%Z); [lia|].
  by rewrite Nat2Z.inj_mod.
Qed.

Lemma scatter_to_model_parallel_spec (ws r : nat) (x : tensor A) pre D :
  1 < ws → r < ws → shape x = pre ++ [D] →
  let out := ScatterToModelParallelRegion.construct
               {| ScatterToModelParallelRegion.world_size := Z.of_nat ws;
                  ScatterToModelParallelRegion.rank := Z.of_nat r |} x in
  if decide (D < ws) then out = Raise ValueError
  else ∃ y, out = Ok y ∧ shape y = pre ++ [D / ws] ∧
         ∀ idx, elem y idx = elem x (alter (λ j, j + r * (D / ws)) (length pre) idx).
Proof.
  intros Hws Hr Hshape. cbv zeta. unfold ScatterToModelParallelRegion.construct.
  cbn [ScatterToModelParallelRegion.world_size ScatterToModelParallelRegion.rank].
  destruct (Z.eqb_spec (Z.of_nat ws) 1%Z) as [?|_]; [lia|].
  unfold ndim. rewrite Hshape, length_app. cbn [length].
  replace (Z.of_nat (length pre + 1) - 1)%Z with (Z.of_nat (length pre)) by lia.
  assert (HD : (pre ++ [D]) !! length pre = Some D) by (by apply list_lookup_middle).
  rewrite (py_getitem_nat _ _ _ HD). cbn [mbind result_bind].
  rewrite py_floordiv_nat by lia. cbn [mbind result_bind].
  destruct (decide (D < ws)) as [Hlt|Hge].
  - rewrite Nat.div_small by done. unfold split.
    rewrite canonicalize_axis_nat by (rewrite Hshape, length_app; cbn; lia). done.
  - assert (Hq : 0 < D / ws) by (apply Nat.div_str_pos; lia).
    rewrite (split_chunks x (length pre) D (D / ws)) by (by rewrite ?Hshape).
    cbn [mbind result_bind].
    assert (Hmul : ws * (D / ws) ≤ D) by (apply Nat.Div0.mul_div_le).
    assert (Hn : ws ≤ (D + D / ws - 1) / (D / ws)).
    { apply Nat.div_le_lower_bound; [lia|]. nia. }
    rewrite (py_getitem_nat _ r (chunk x (length pre) (D / ws) D r)).
    2:{ rewrite list_lookup_fmap, lookup_seq_lt by lia. done. }
    eexists. split; [reflexivity|]. split; [|done].
    cbn [chunk shape]. rewrite Hshape.
    rewrite insert_app_r_alt by lia. rewrite Nat.sub_diag. cbn. do 2 f_equal. nia.
Qed.

Lemma scatter_to_sequence_parallel_spec (ws r : nat) (x : tensor A) d0 rest :
  1 < ws → r < ws → shape x = d0 :: rest →
  let out := ScatterToSequenceParallelRegion.construct
               {| ScatterToSequenceParallelRegion.world_size := Z.of_nat ws;
                  ScatterToSequenceParallelRegion.rank := Z.of_nat r |} x in
  if decide (d0 mod ws = 0) then
    ∃ y, out = Ok y ∧ shape y = d0 / ws :: rest ∧
      ∀ idx, elem y idx = elem x (alter (λ i, i + r * (d0 / ws)) 0 idx)
  else out = Raise ValueError.
Proof.
  intros Hws Hr Hshape. cbv zeta. unfold ScatterToSequenceParallelRegion.construct.
  cbn [ScatterToSequenceParallelRegion.world_size ScatterToSequenceParallelRegion.rank].
  destruct (Z.eqb_spec (Z.of_nat ws) 1%Z) as [?|_]; [lia|].
  rewrite Hshape. change 0%Z with (Z.of_nat 0).
  rewrite (py_getitem_nat (d0 :: rest) 0 d0 eq_refl). cbn [mbind result_bind].
  rewrite py_mod_nat by lia. cbn [mbind result_bind].
  destruct (decide (d0 mod ws = 0)) as [Hdiv|Hndiv].
  - rewrite Hdiv. cbn [Z.of_nat Z.eqb negb]. rewrite py_floordiv_nat by lia.
    cbn [mbind result_bind]. eexists. split; [reflexivity|].
    unfold contiguous, slice0. rewrite Hshape.
    assert (Hd0 : d0 = ws * (d0 / ws)).
    { pose proof (Nat.div_mod d0 ws ltac:(lia)). lia. }
    assert (Hlo : Nat.min (Z.to_nat (Z.of_nat r * Z.of_nat (d0 / ws))) d0 = r * (d0 / ws)) by nia.
    assert (Hhi : Nat.min (Z.to_nat (Z.of_nat r * Z.of_nat (d0 / ws) + Z.of_nat (d0 / ws))) d0
                  = r * (d0 / ws) + d0 / ws) by nia.
    cbn [shape elem]. rewrite Hlo, Hhi. split; [f_equal; lia|done].
  - destruct (Z.eqb_spec (Z.of_nat (d0 mod ws)) (Z.of_nat 0)) as [?|_]; [lia|]. done.
Qed.

Lemma valid_index_alter (f : nat → nat) (n a d : nat) (s idx : list nat) :
  s !! n = Some d → valid_index (<[n := a]> s) idx →
  (∀ x, idx !! n = Some x → x < a → f x < d) →
  valid_index s (alter f n idx).
Proof.
  unfold valid_index. intros Hd Hidx Hf.
  apply Forall2_same_length_lookup in Hidx as [Hlen Hidx].
  rewrite length_insert in Hlen.
  apply Forall2_same_length_lookup. split; [by rewrite length_alter|].
  intros i x y Hx Hy. destruct (decide (n = i)) as [->|Hne].
  - rewrite list_lookup_alter_eq in Hx.
    destruct (idx !! i) as [x0|] eqn:Hx0; [|done]. injection Hx as <-.
    rewrite Hd in Hy. injection Hy as <-. apply Hf; [done|].
    apply (Hidx i x0 a Hx0). apply list_lookup_insert_eq. by eapply lookup_lt_Some.
  - rewrite list_lookup_alter_ne in Hx by done.
    apply (Hidx i x y Hx). by rewrite list_lookup_insert_ne.
Qed.

(** The chunks of a tensor gathered from [ws] ranks are the tensors of the
    ranks. *)
Lemma split_gathered (ws : nat) (local : nat → tensor A) (gathered : tensor A) d0 rest :
  0 < ws → 0 < d0 →
  shape gathered = ws * d0 :: rest →
  split gathered (Z.of_nat d0) (Z.of_nat 0)
  = Ok (chunk gathered 0 d0 (ws * d0) <$> seq 0 ws).
Proof.
  intros Hws Hd0 Hshape.
  rewrite (split_chunks gathered 0 (ws * d0) d0) by (by rewrite ?Hshape).
  by rewrite ceil_div_exact.
Qed.

(** What the cells that gather along the last dimension do after the
    all-gather: the tensors of the ranks end up side by side along the last
    dimension. *)
Lemma gather_rearrange (ws : nat) (local : nat → tensor A) (input_ gathered : tensor A)
    d0 rest :
  let n := length rest in
  let Dl := nth n (d0 :: rest) 0 in
  0 < ws → 0 < d0 → 0 < Dl →
  shape input_ = d0 :: rest →
  (∀ k, k < ws → shape (local k) = d0 :: rest) →
  gathered_along_first_dim ws local gathered →
  ∃ tensor_list y,
    py_getitem (shape input_) 0%Z = Ok d0 ∧
    split gathered (Z.of_nat d0) 0%Z = Ok tensor_list ∧
    cat tensor_list (ndim input_ - 1)%Z = Ok y ∧
    shape y = <[n := ws * Dl]> (d0 :: rest) ∧
    ∀ idx, valid_index (shape y) idx →
      elem y idx = elem (local (nth n idx 0 / Dl)) (alter (λ j, j mod Dl) n idx).
Proof.
  intros n Dl Hws Hd0 HDl Hin Hshapes (d0' & rest' & Hshapes' & Hgs & Hge).
  assert (d0' = d0 ∧ rest' = rest) as [-> ->].
  { pose proof (Hshapes 0 Hws) as E. rewrite (Hshapes' 0 Hws) in E. by injection E. }
  rewrite Hin. change 0%Z with (Z.of_nat 0).
  rewrite (py_getitem_nat (d0 :: rest) 0 d0 eq_refl).
  rewrite (split_gathered ws local gathered d0 rest) by done.
  destruct ws as [|ws']; [lia|]. cbn [seq fmap list_fmap].
  rewrite <- fmap_S_seq.
  set (t0 := chunk gathered 0 d0 (S ws' * d0) 0).
  set (ts := chunk gathered 0 d0 (S ws' * d0) <$> (S <$> seq 0 ws')).
  assert (Hchunk_shape : ∀ c, c < S ws' → shape (chunk gathered 0 d0 (S ws' * d0) c) = d0 :: rest).
  { intros c Hc. cbn [chunk shape]. rewrite Hgs. cbn [insert list_insert].
    f_equal. nia. }
  assert (Hlen : length ts = ws').
  { subst ts. by rewrite !length_fmap, length_seq. }
  assert (Hnth : ∀ k, k < S ws' → nth k (t0 :: ts) t0 = chunk gathered 0 d0 (S ws' * d0) k).
  { intros [|k] Hk; [done|]. cbn [nth]. subst ts.
    apply nth_lookup_Some. rewrite !list_lookup_fmap, lookup_seq_lt by lia. done. }
  destruct (cat_uniform n Dl t0 ts) as (c & Hc & Hcs & Hce).
  { subst t0. rewrite Hchunk_shape by lia. cbn [length]. lia. }
  { done. }
  { apply Forall_lookup. intros k t Hk.
    assert (Hk' : k < S ws').
    { apply lookup_lt_Some in Hk. cbn [length] in Hk. lia. }
    pose proof (Hnth k Hk') as E.
    rewrite (nth_lookup_Some _ _ _ _ Hk) in E. subst t.
    by rewrite Hchunk_shape. }
  exists (t0 :: ts), c. do 2 (split; [reflexivity|]).
  unfold ndim. rewrite Hin. cbn [length].
  replace (Z.of_nat (S (length rest)) - 1)%Z with (Z.of_nat n) by (subst n; lia).
  split; [done|].
  rewrite Hlen in Hcs, Hce. subst t0. rewrite Hchunk_shape in Hcs by lia.
  split; [done|].
  intros idx Hidx. rewrite Hcs in Hidx.
  assert (Hj : nth n idx 0 < S ws' * Dl).
  { assert (Hl : (<[n := S ws' * Dl]> (d0 :: rest)) !! n = Some (S ws' * Dl)).
    { apply list_lookup_insert_eq. cbn [length]. subst n. lia. }
    destruct (Forall2_lookup_r _ _ _ _ _ Hidx Hl) as (j & Hj & Hlt).
    by rewrite (nth_lookup_Some _ _ _ _ Hj). }
  rewrite (Hce idx Hj).
  set (k := nth n idx 0 / Dl) in *.
  assert (Hk : k < S ws').
  { subst k. apply Nat.Div0.div_lt_upper_bound. lia. }
  rewrite (Hnth k Hk). cbn [chunk elem].
  unfold valid_index in Hidx. destruct rest as [|d1 rest1].
  - (* one dimension *)
    subst n Dl. cbn [length nth insert list_insert] in *.
    apply Forall2_cons_inv_r in Hidx as (i & idx' & Hi & Hidx' & ->).
    apply Forall2_nil_inv_r in Hidx' as ->.
    cbn [alter list_alter]. cbn [nth] in k.
    replace (i - k * d0 + k * d0) with (k * d0 + i mod d0).
    2:{ subst k. pose proof (Nat.div_mod i d0 ltac:(lia)). lia. }
    apply Hge; [done| |constructor]. apply Nat.mod_upper_bound. lia.
  - subst n. cbn [length insert list_insert] in *.
    apply Forall2_cons_inv_r in Hidx as (i & idx' & Hi & Hidx' & ->).
    cbn [alter list_alter].
    replace (i + k * d0) with (k * d0 + i) by lia.
    rewrite Hge; [|done|done|].
    2:{ apply (valid_index_alter _ _ (S ws' * Dl) Dl); [|done|].
        - destruct (lookup_lt_is_Some_2 (d1 :: rest1) (length rest1)) as [d Hd];
            [cbn [length]; lia|].
          change Dl with (nth (length rest1) (d1 :: rest1) 0).
          by rewrite (nth_lookup_Some _ _ _ _ Hd).
        - intros x Hx _. subst k. cbn [nth]. rewrite (nth_lookup_Some _ _ _ _ Hx).
          pose proof (Nat.div_mod x Dl ltac:(lia)).
          pose proof (Nat.mod_upper_bound x Dl ltac:(lia)). lia. }
    f_equal. f_equal.
    apply alter_ext_at. intros x Hx.
    assert (Hnx : nth (S (length rest1)) (i :: idx') 0 = x).
    { cbn [nth]. by apply nth_lookup_Some. }
    subst k. rewrite Hnx.
    pose proof (Nat.div_mod x Dl ltac:(lia)). lia.
Qed.

(** The four places with the same rearrangement after an all-gather. *)
Lemma gather_paths (ws : nat) (rank : Z) (x out input_ : tensor A) d0 tensor_list y :
  1 < ws →
  py_getitem (shape input_) 0%Z = Ok d0 →
  split (AllGather get_tp_group input_) (Z.of_nat d0) 0%Z = Ok tensor_list →
  cat tensor_list (ndim input_ - 1)%Z = Ok y →
  GatherFromModelParallelRegion.construct
    {| GatherFromModelParallelRegion.world_size := Z.of_nat ws;
       GatherFromModelParallelRegion.rank := rank |} input_ = Ok y ∧
  AllGatherFromTensorParallelRegion.construct
    {| AllGatherFromTensorParallelRegion.world_size := Z.of_nat ws |} input_ = Ok y ∧
  ScatterToModelParallelRegion.bprop
    {| ScatterToModelParallelRegion.world_size := Z.of_nat ws;
       ScatterToModelParallelRegion.rank := rank |} x out input_ = Ok (tuple1 y) ∧
  ReduceScatterToTensorParallelRegion.bprop
    {| ReduceScatterToTensorParallelRegion.world_size := Z.of_nat ws |} x out input_
  = Ok (tuple1 y).
Proof.
  intros Hws Hd Hsplit Hcat.
  unfold GatherFromModelParallelRegion.construct,
    AllGatherFromTensorParallelRegion.construct,
    ScatterToModelParallelRegion.bprop, ReduceScatterToTensorParallelRegion.bprop.
  cbn [GatherFromModelParallelRegion.world_size
       AllGatherFromTensorParallelRegion.world_size
       ScatterToModelParallelRegion.world_size
       ReduceScatterToTensorParallelRegion.world_size].
  unfold created_if_parallel.
  destruct (Z.eqb_spec (Z.of_nat ws) 1%Z) as [?|_]; [lia|].
  destruct (Z.gtb_spec (Z.of_nat ws) 1%Z) as [_|?]; [|lia].
  cbn [mbind result_bind]. rewrite Hd. cbn [mbind result_bind].
  rewrite Hsplit. cbn [mbind result_bind]. rewrite Hcat. done.
Qed.

(** Gathering, along the last dimension, the chunks that
    [ScatterToModelParallelRegion] gives the ranks. *)
Lemma gather_of_scatter (ws r : nat) (x : tensor A) (pre : list nat) (D : nat)
    (local : nat → tensor A) :
  1 < ws → r < ws → shape x = pre ++ [D] → 0 < nth 0 (shape x) 0 →
  0 < D → D mod ws = 0 →
  (∀ k, k < ws →
     ScatterToModelParallelRegion.construct
       {| ScatterToModelParallelRegion.world_size := Z.of_nat ws;
          ScatterToModelParallelRegion.rank := Z.of_nat k |} x = Ok (local k)) →
  gathered_along_first_dim ws local (AllGather get_tp_group (local r)) →
  ∃ y, GatherFromModelParallelRegion.construct
         {| GatherFromModelParallelRegion.world_size := Z.of_nat ws;
            GatherFromModelParallelRegion.rank := Z.of_nat r |} (local r) = Ok y ∧
       same_tensor x y.
Proof.
  intros Hws Hr Hshape Hfirst HD Hdiv Hlocal Hgathered.
  assert (HDq : D = ws * (D / ws)).
  { pose proof (Nat.div_mod D ws ltac:(lia)). lia. }
  assert (Hq : 0 < D / ws) by nia.
  set (q := D / ws) in *.
  assert (Hloc : ∀ k, k < ws → shape (local k) = pre ++ [q] ∧
            ∀ idx, elem (local k) idx = elem x (alter (λ j, j + k * q) (length pre) idx)).
  { intros k Hk. pose proof (scatter_to_model_parallel_spec ws k x pre D Hws Hk Hshape) as Hs.
    cbv zeta in Hs. destruct (decide (D < ws)) as [?|_]; [nia|].
    destruct Hs as (y & Hy & Hys & Hye). rewrite (Hlocal k Hk) in Hy.
    injection Hy as <-. done. }
  (* the shape of the local tensors, first dimension apart *)
  assert (∃ d0 rest, pre ++ [q] = d0 :: rest ∧ length rest = length pre ∧ 0 < d0 ∧
            nth (length rest) (d0 :: rest) 0 = q) as (d0 & rest & Hs & Hlen & Hd0 & Hnth).
  { rewrite Hshape in Hfirst. destruct pre as [|p pre'].
    - exists q, []. done.
    - exists p, (pre' ++ [q]). cbn [app nth] in *. rewrite length_app. cbn [length].
      split; [done|]. split; [lia|]. split; [done|].
      replace (length pre' + 1) with (S (length pre')) by lia. cbn [nth].
      apply nth_lookup_Some. by apply list_lookup_middle. }
  destruct (gather_rearrange ws local (local r) (AllGather get_tp_group (local r)) d0 rest)
    as (tl & y & Hg1 & Hg2 & Hg3 & Hys & Hye); [lia|done| | | |done|].
  { by rewrite Hnth. }
  { rewrite <- Hs. by apply Hloc. }
  { intros k Hk. rewrite <- Hs. by apply Hloc. }
  exists y. split.
  { by apply (gather_paths ws (Z.of_nat r) x x (local r) d0 tl y). }
  rewrite Hnth, Hlen in Hys, Hye.
  assert (Hys' : shape y = shape x).
  { rewrite Hys, <- Hs, Hshape, <- HDq. rewrite insert_app_r_alt by lia.
    by rewrite Nat.sub_diag. }
  split; [done|]. intros idx Hidx.
  rewrite Hye by (by rewrite Hys').
  assert (Hk : nth (length pre) idx 0 / q < ws).
  { assert (Hl : shape x !! length pre = Some D).
    { rewrite Hshape. by apply list_lookup_middle. }
    destruct (Forall2_lookup_r _ _ _ _ _ Hidx Hl) as (j & Hj & Hlt).
    rewrite (nth_lookup_Some _ _ _ _ Hj).
    apply Nat.Div0.div_lt_upper_bound. lia. }
  rewrite (proj2 (Hloc _ Hk)). f_equal. rewrite alter_alter_same.
  apply alter_id_at. intros j Hj. cbn. rewrite (nth_lookup_Some _ _ _ _ Hj).
  pose proof (Nat.div_mod j q ltac:(lia)). lia.
Qed.

(** The stacked tensor is what the all-gather of the definition returns. *)
Lemma stacked_gathered (ws d0 : nat) (rest : list nat) (local : nat → tensor A) :
  0 < d0 → (∀ k, k < ws → shape (local k) = d0 :: rest) →
  gathered_along_first_dim ws local (stacked ws d0 rest local).
Proof.
  intros Hd0 Hshapes. exists d0, rest. split; [done|]. split; [done|].
  intros k i idx Hk Hi _. cbn [stacked elem].
  replace ((k * d0 + i) / d0) with k.
  2:{ apply (Nat.div_unique _ _ _ i); lia. }
  replace ((k * d0 + i) mod d0) with i; [done|].
  apply (Nat.mod_unique _ _ k); lia.
Qed.

(** Gathering, along the first dimension, the slices that
    [ScatterToSequenceParallelRegion] gives the ranks. *)
Lemma gather_of_sequence_scatter (ws r : nat) (x : tensor A) d0 rest
    (local : nat → tensor A) :
  1 < ws → r < ws → shape x = d0 :: rest → d0 mod ws = 0 →
  (∀ k, k < ws →
     ScatterToSequenceParallelRegion.construct
       {| ScatterToSequenceParallelRegion.world_size := Z.of_nat ws;
          ScatterToSequenceParallelRegion.rank := Z.of_nat k |} x = Ok (local k)) →
  gathered_along_first_dim ws local (AllGather get_tp_group (local r)) →
  same_tensor x (AllGather get_tp_group (local r)).
Proof.
  intros Hws Hr Hshape Hdiv Hlocal (q & rest' & Hshapes & Hgs & Hge).
  assert (Hloc : ∀ k, k < ws → shape (local k) = d0 / ws :: rest ∧
            ∀ idx, elem (local k) idx = elem x (alter (λ i, i + k * (d0 / ws)) 0 idx)).
  { intros k Hk.
    pose proof (scatter_to_sequence_parallel_spec ws k x d0 rest Hws Hk Hshape) as Hs.
    cbv zeta in Hs. destruct (decide (d0 mod ws = 0)) as [_|?]; [|done].
    destruct Hs as (y & Hy & Hys & Hye). rewrite (Hlocal k Hk) in Hy.
    injection Hy as <-. done. }
  assert (q = d0 / ws ∧ rest' = rest) as [-> ->].
  { pose proof (Hshapes 0 ltac:(lia)) as E. rewrite (proj1 (Hloc 0 ltac:(lia))) in E.
    by injection E. }
  assert (Hd0 : d0 = ws * (d0 / ws)).
  { pose proof (Nat.div_mod d0 ws ltac:(lia)). lia. }
  split; [by rewrite Hgs, Hshape, <- Hd0|].
  intros idx Hidx. rewrite Hshape in Hidx.
  apply Forall2_cons_inv_r in Hidx as (j & idx' & Hj & Hidx' & ->).
  assert (Hq : 0 < d0 / ws) by nia.
  pose proof (Nat.div_mod j (d0 / ws) ltac:(lia)) as Ej.
  pose proof (Nat.mod_upper_bound j (d0 / ws) ltac:(lia)) as Hm.
  assert (Hk : j / (d0 / ws) < ws) by (apply Nat.Div0.div_lt_upper_bound; lia).
  replace j with (j / (d0 / ws) * (d0 / ws) + j mod (d0 / ws)) at 1 by lia.
  rewrite Hge by done. rewrite (proj2 (Hloc _ Hk)). cbn [alter list_alter].
  do 2 f_equal. lia.
Qed.

(** *** The flattening, the split and the concatenation of the all-to-all
    wrappers *)

Lemma split_exact (t : tensor A) (ax n sz : nat) :
  shape t !! ax = Some (n * sz) → 0 < sz →
  split t (Z.of_nat sz) (Z.of_nat ax) = Ok (chunk t ax sz (n * sz) <$> seq 0 n).
Proof.
  intros Hdim Hsz. rewrite (split_chunks t ax (n * sz) sz) by done.
  by rewrite ceil_div_exact.
Qed.

Lemma cat_fmap_seq (f : nat → tensor A) (n ax d : nat) :
  0 < n → 0 < d →
  (∀ k, k < n → ax < length (shape (f k)) ∧ nth ax (shape (f k)) 0 = d) →
  ∃ c, cat (f <$> seq 0 n) (Z.of_nat ax) = Ok c ∧
    shape c = <[ax := n * d]> (shape (f 0)) ∧
    ∀ idx, nth ax idx 0 < n * d →
      elem c idx = elem (f (nth ax idx 0 / d))
                     (alter (λ i, i - nth ax idx 0 / d * d) ax idx).
Proof.
  intros Hn Hd Hf. destruct n as [|n']; [lia|].
  cbn [seq fmap list_fmap]. rewrite <- fmap_S_seq.
  set (ts := f <$> (S <$> seq 0 n')).
  assert (Hlen : length ts = n') by (subst ts; by rewrite !length_fmap, length_seq).
  assert (Hnth : ∀ k, k < S n' → nth k (f 0 :: ts) (f 0) = f k).
  { intros [|k] Hk; [done|]. cbn [nth]. subst ts.
    apply nth_lookup_Some. rewrite !list_lookup_fmap, lookup_seq_lt by lia. done. }
  destruct (cat_uniform ax d (f 0) ts) as (c & Hc & Hcs & Hce).
  { apply Hf. lia. }
  { done. }
  { apply Forall_lookup. intros k t Hk.
    assert (Hk' : k < S n').
    { apply lookup_lt_Some in Hk. cbn [length] in Hk. lia. }
    pose proof (Hnth k Hk') as E. rewrite (nth_lookup_Some _ _ _ _ Hk) in E. subst t.
    by apply Hf. }
  exists c. split; [done|]. rewrite Hlen in Hcs, Hce. split; [done|].
  intros idx Hidx. rewrite (Hce idx Hidx). rewrite Hnth; [done|].
  apply Nat.Div0.div_lt_upper_bound. lia.
Qed.

Lemma cat_last_2d (t : tensor A) (ts : list (tensor A)) :
  length (shape t) = 2 → cat (t :: ts) (-1)%Z = cat (t :: ts) (Z.of_nat 1).
Proof. intros Hlen. unfold cat. by rewrite Hlen. Qed.

(** Rows of the last dimension of a 2-D tensor are the tensor. *)
Lemma reshape_rows_2d (t : tensor A) (r c : nat) :
  shape t = [r; c] → 0 < c →
  ∃ y, reshape_rows t (Z.of_nat c) = Ok y ∧ shape y = [r; c] ∧
    ∀ i j, j < c → elem y [i; j] = elem t [i; j].
Proof.
  intros Hshape Hc. unfold reshape_rows. rewrite Hshape.
  destruct (Z.leb_spec (Z.of_nat c) 0%Z); [lia|].
  cbn [numel foldr]. rewrite Nat.mul_1_r.
  rewrite Nat2Z.inj_mul, Z.mod_mul by lia. cbn [Z.eqb negb]. rewrite Nat2Z.id.
  eexists. split; [reflexivity|]. cbn [shape elem]. split.
  - by rewrite Nat.div_mul by lia.
  - intros i j Hj. by rewrite unravel_ravel_2d.
Qed.

(** The local part of [AllToAllSP2HP]: the [n] column blocks of a 2-D tensor,
    one below the other. *)
Lemma sp2hp_local (x : tensor A) (n R q : nat) :
  0 < n → 0 < R → 0 < q → shape x = [R; n * q] →
  ∃ c,
    (last ← py_getitem (shape x) (-1)%Z;
     input_ ← reshape_rows x (Z.of_nat last);
     last ← py_getitem (shape input_) (-1)%Z;
     size ← py_floordiv (Z.of_nat last) (Z.of_nat n);
     split_tensors ← split input_ size 1%Z;
     cat split_tensors 0%Z) = Ok c ∧
    shape c = [n * R; q] ∧
    ∀ i j k, i < R → j < q → k < n →
      elem c [k * R + i; j] = elem x [i; k * q + j].
Proof.
  intros Hn HR Hq Hshape.
  assert (Hnq : 0 < n * q) by nia.
  pose proof (py_getitem_last [R] (n * q)) as Hg. cbn [app] in Hg.
  rewrite Hshape, Hg. cbn [mbind result_bind].
  destruct (reshape_rows_2d x R (n * q) Hshape Hnq) as (x1 & -> & Hs1 & He1).
  cbn [mbind result_bind]. rewrite Hs1, Hg. cbn [mbind result_bind].
  rewrite py_floordiv_nat by done. rewrite (Nat.mul_comm n), Nat.div_mul by lia.
  cbn [mbind result_bind]. change 1%Z with (Z.of_nat 1).
  rewrite (split_exact x1 1 n q) by (by rewrite ?Hs1).
  cbn [mbind result_bind]. change 0%Z with (Z.of_nat 0).
  assert (Hcs : ∀ k, k < n → shape (chunk x1 1 q (n * q) k) = [R; q]).
  { intros k Hk. cbn [chunk shape]. rewrite Hs1. cbn [insert list_insert].
    do 2 f_equal. nia. }
  destruct (cat_fmap_seq (chunk x1 1 q (n * q)) n 0 R) as (c & -> & Hc & Hce);
    [done|done| |].
  { intros k Hk. rewrite Hcs by done. cbn. lia. }
  exists c. split; [done|]. rewrite Hcs in Hc by done. split; [done|].
  intros i j k Hi Hj Hk.
  assert (Hdiv : (k * R + i) / R = k) by (symmetry; apply (Nat.div_unique _ _ _ i); lia).
  rewrite Hce by (cbn [nth]; nia). cbn [nth]. rewrite Hdiv.
  cbn [chunk elem alter list_alter].
  replace (k * R + i - k * R) with i by lia.
  assert (Hb : j + k * q < n * q).
  { assert ((k + 1) * q ≤ n * q) by (apply Nat.mul_le_mono_r; lia). lia. }
  rewrite He1 by done. by rewrite (Nat.add_comm j).
Qed.

(** The local part of [AllToAllHP2SP]: the [n] row blocks of a 2-D tensor,
    side by side. *)
Lemma hp2sp_local (c : tensor A) (n R q : nat) :
  0 < n → 0 < R → 0 < q → shape c = [n * R; q] →
  ∃ y,
    (last ← py_getitem (shape c) (-1)%Z;
     input_reshaped ← reshape_rows c (Z.of_nat last);
     rows ← py_getitem (shape input_reshaped) 0%Z;
     size ← py_floordiv (Z.of_nat rows) (Z.of_nat n);
     split_tensors ← split input_reshaped size 0%Z;
     cat split_tensors (-1)%Z) = Ok y ∧
    shape y = [R; n * q] ∧
    ∀ i j k, i < R → j < q → k < n →
      elem y [i; k * q + j] = elem c [k * R + i; j].
Proof.
  intros Hn HR Hq Hshape.
  pose proof (py_getitem_last [n * R] q) as Hg. cbn [app] in Hg.
  rewrite Hshape, Hg. cbn [mbind result_bind].
  destruct (reshape_rows_2d c (n * R) q Hshape Hq) as (c1 & -> & Hs1 & He1).
  cbn [mbind result_bind]. rewrite Hs1. change 0%Z with (Z.of_nat 0).
  rewrite (py_getitem_nat [n * R; q] 0 (n * R) eq_refl). cbn [mbind result_bind].
  rewrite py_floordiv_nat by done. rewrite (Nat.mul_comm n), Nat.div_mul by lia.
  cbn [mbind result_bind].
  rewrite (split_exact c1 0 n R) by (by rewrite ?Hs1).
  cbn [mbind result_bind].
  assert (Hcs : ∀ k, k < n → shape (chunk c1 0 R (n * R) k) = [R; q]).
  { intros k Hk. cbn [chunk shape]. rewrite Hs1. cbn [insert list_insert].
    f_equal. nia. }
  destruct (cat_fmap_seq (chunk c1 0 R (n * R)) n 1 q) as (y & Hy & Hys & Hye);
    [done|done| |].
  { intros k Hk. rewrite Hcs by done. cbn. lia. }
  assert (Hcat : cat (chunk c1 0 R (n * R) <$> seq 0 n) (-1)%Z = Ok y).
  { destruct n as [|n']; [lia|]. cbn [seq fmap list_fmap] in *.
    rewrite cat_last_2d; [done|]. rewrite Hcs by lia. done. }
  exists y. split; [done|]. rewrite Hcs in Hys by done. split; [done|].
  intros i j k Hi Hj Hk.
  assert (Hdiv : (k * q + j) / q = k) by (symmetry; apply (Nat.div_unique _ _ _ j); lia).
  rewrite Hye by (cbn [nth]; nia). cbn [nth]. rewrite Hdiv.
  cbn [chunk elem alter list_alter].
  replace (k * q + j - k * q) with j by lia.
  rewrite He1 by done. do 2 f_equal. lia.
Qed.

(** [AllToAllHP2SP] after [AllToAllSP2HP], for an all-to-all that undoes
    itself. *)
Lemma hp2sp_of_sp2hp (x : tensor A) (n R q : nat) :
  0 < n → 0 < R → 0 < q → shape x = [R; n * q] →
  get_group_size get_tp_group = Z.of_nat n →
  (∀ t, AlltoAll (Z.of_nat n) 0 0 get_tp_group
          (AlltoAll (Z.of_nat n) 0 0 get_tp_group t) = t) →
  ∃ h y, AllToAllSP2HP.construct {| AllToAllSP2HP.world_size := Z.of_nat n |} x = Ok h ∧
         AllToAllHP2SP.construct {| AllToAllHP2SP.world_size := Z.of_nat n |} h = Ok y ∧
         same_tensor x y.
Proof.
  intros Hn HR Hq Hshape Hgs Hinv.
  destruct (sp2hp_local x n R q Hn HR Hq Hshape) as (c & Hc & Hcs & Hce).
  destruct (hp2sp_local c n R q Hn HR Hq Hcs) as (y & Hy & Hys & Hye).
  assert (Hsame : same_tensor x y).
  { split; [by rewrite Hys, Hshape|]. intros idx Hidx. rewrite Hshape in Hidx.
    apply Forall2_cons_inv_r in Hidx as (i & idx1 & Hi & Hidx & ->).
    apply Forall2_cons_inv_r in Hidx as (j & idx2 & Hj & Hidx & ->).
    apply Forall2_nil_inv_r in Hidx as ->.
    pose proof (Nat.div_mod j q ltac:(lia)) as Ej.
    pose proof (Nat.mod_upper_bound j q ltac:(lia)) as Hm.
    assert (Hk : j / q < n) by (apply Nat.Div0.div_lt_upper_bound; lia).
    replace j with (j / q * q + j mod q) by lia.
    rewrite Hye by done. by rewrite Hce. }
  unfold AllToAllSP2HP.construct, AllToAllHP2SP.construct, created_if_parallel,
    AllToAllEven.construct, AllToAllEven.__init__.
  cbn [AllToAllSP2HP.world_size AllToAllHP2SP.world_size AllToAllEven.world_size
       AllToAllEven.split_count AllToAllEven.split_dim AllToAllEven.concat_dim
       AllToAllEven.comm_group].
  rewrite Hgs. unfold created_if_parallel.
  destruct (Z.eqb_spec (Z.of_nat n) 1%Z) as [Hone|Hmany].
  - exists c, y. split; [|done].
    revert Hc. repeat (match goal with
      |- context [mbind _ ?r] => destruct r; cbn [mbind result_bind]; try done end).
  - destruct (Z.gtb_spec (Z.of_nat n) 1%Z) as [_|?]; [|lia].
    exists (AlltoAll (Z.of_nat n) 0 0 get_tp_group c), y. split.
    + revert Hc. repeat (match goal with
        |- context [mbind _ ?r] => destruct r; cbn [mbind result_bind]; try done end).
      by intros [= ->].
    + cbn [mbind result_bind]. by rewrite Hinv.
Qed.

End layout_facts.

(** C7, as the code has it: with a world size of one, [construct] of every
    wrapper cell returns its input, with these three provisos.
    [AllToAllSP2HP] returns the input flattened to two dimensions, rows of
    the last dimension in row-major order.  [GatherFromModelParallelRegion]
    and [ReduceScatterToTensorParallelRegion] go through split, concatenation
    and transposition and return a tensor with the shape and the elements of
    the input, the first for an input with a non-empty first dimension, the
    second for an input with at least one dimension.  The collectives
    themselves are operations of the runtime interface. *)
Theorem wrappers_at_world_size_one {A} `{CommOps A}
    (c : cell) (rank : Z) (g : group) (x : tensor A) :
  match c with
  | cAllToAllSP2HP =>
    ∀ init last, shape x = init ++ [last] → (0 < last)%nat →
      ∃ y, construct_of c 1 rank g x = Ok y ∧
        shape y = [(numel (shape x) / last)%nat; last] ∧
        (∀ idx, elem y idx = elem x (unravel (shape x) (ravel (shape y) idx))) ∧
        (length (shape x) = 2%nat → same_tensor x y)
  | cGatherFromModelParallelRegion =>
    ∀ d rest, shape x = d :: rest → (0 < d)%nat →
      ∃ y, construct_of c 1 rank g x = Ok y ∧ same_tensor x y
  | cReduceScatterToTensorParallelRegion =>
    shape x ≠ [] → ∃ y, construct_of c 1 rank g x = Ok y ∧ same_tensor x y
  | _ => construct_of c 1 rank g x = Ok x
  end.
Proof.
  destruct c; try reflexivity.
  - intros init last Hshape Hlast.
    destruct (all_to_all_sp2hp_one x init last Hshape Hlast) as (y & Hy & Hs & He).
    exists y. split; [done|]. split; [done|]. split; [done|].
    intros Hlen. destruct init as [|r [|? ?]]; rewrite Hshape in Hlen; cbn in Hlen;
      try discriminate.
    2:{ rewrite length_app in Hlen. cbn in Hlen. lia. }
    destruct (all_to_all_sp2hp_one_2d x r last Hshape Hlast) as (y' & Hy' & Hsame).
    cbn in Hy. rewrite Hy in Hy'. by injection Hy' as <-.
  - intros d rest Hshape Hd. by apply (gather_from_model_parallel_one rank x d rest).
  - intros Hne. by apply reduce_scatter_to_tensor_parallel_one.
Qed.

Lemma wrappers_at_world_size_one_witness :
  ∃ y, @construct_of nat (single_process nat) cGatherFromModelParallelRegion 1 0 ()
         (arange [2; 3; 4]%nat) = Ok y ∧
       same_tensor (arange [2; 3; 4]%nat) y.
Proof.
  apply (@wrappers_at_world_size_one nat (single_process nat)
           cGatherFromModelParallelRegion 0 () (arange [2; 3; 4]%nat) 2%nat [3; 4]%nat).
  - reflexivity.
  - lia.
Defined.

(** A tensor without dimensions has no [shape[0]]. *)
Example gather_scalar :
  @construct_of nat (single_process nat) cGatherFromModelParallelRegion 1 0 () (arange [])
  = Raise IndexError.
Proof. reflexivity. Qed.

(** The claim of C7 fails for [AllToAllSP2HP]: on one process a [2 x 3 x 4]
    input comes back with the shape [6 x 4]. *)
Lemma all_to_all_sp2hp_changes_shape :
  ∃ y, @construct_of nat (single_process nat) cAllToAllSP2HP 1 0 ()
         (arange [2; 3; 4]%nat) = Ok y ∧
       shape y = [6; 4]%nat ∧ shape y ≠ shape (arange [2; 3; 4]%nat).
Proof.
  destruct (@all_to_all_sp2hp_one nat (single_process nat)
              (arange [2; 3; 4]%nat) [2; 3]%nat 4%nat eq_refl) as (y & Hy & Hs & _);
    [lia|].
  exists y. split; [exact Hy|]. rewrite Hs. split; [reflexivity|]. cbn. discriminate.
Qed.

(** X14: on more than one rank [ScatterToModelParallelRegion.construct]
    cuts the last dimension of size [D] into chunks of [D // world_size]
    and returns the chunk of its rank: element [j] of the chunk along the last
    dimension is element [j + rank * (D // world_size)] of the input.  When
    [world_size] does not divide [D] the elements after the last full chunk
    reach no rank, and a last dimension smaller than [world_size] raises
    ValueError. *)
Theorem scatter_to_model_parallel_chunk {A} (ws r : nat) (x : tensor A)
    (pre : list nat) (D : nat) :
  (1 < ws)%nat → (r < ws)%nat → shape x = pre ++ [D] →
  let out := ScatterToModelParallelRegion.construct
               {| ScatterToModelParallelRegion.world_size := Z.of_nat ws;
                  ScatterToModelParallelRegion.rank := Z.of_nat r |} x in
  if decide (D < ws)%nat then out = Raise ValueError
  else ∃ y, out = Ok y ∧ shape y = pre ++ [(D / ws)%nat] ∧
         ∀ idx, elem y idx
                = elem x (alter (λ j, j + r * (D / ws))%nat (length pre) idx).
Proof. apply scatter_to_model_parallel_spec. Qed.

Lemma scatter_to_model_parallel_chunk_witness :
  ∃ y, @ScatterToModelParallelRegion.construct nat
         {| ScatterToModelParallelRegion.world_size := 2;
            ScatterToModelParallelRegion.rank := 1 |} (arange [2; 5]%nat) = Ok y ∧
       shape y = [2; 2]%nat ∧
       ∀ idx, elem y idx = elem (arange [2; 5]%nat) (alter (λ j, j + 1 * 2)%nat 1%nat idx).
Proof.
  apply (@scatter_to_model_parallel_chunk nat 2 1
           (arange [2; 5]%nat) [2%nat] 5%nat).
  - lia.
  - lia.
  - reflexivity.
Defined.

(** X15: on more than one rank [ScatterToSequenceParallelRegion.construct]
    raises ValueError unless [world_size] divides the first dimension [d0],
    and otherwise returns the rows [rank * (d0 // world_size)] up to
    [(rank + 1) * (d0 // world_size)] of the input. *)
Theorem scatter_to_sequence_parallel_slice {A} (ws r : nat) (x : tensor A)
    (d0 : nat) (rest : list nat) :
  (1 < ws)%nat → (r < ws)%nat → shape x = d0 :: rest →
  let out := ScatterToSequenceParallelRegion.construct
               {| ScatterToSequenceParallelRegion.world_size := Z.of_nat ws;
                  ScatterToSequenceParallelRegion.rank := Z.of_nat r |} x in
  if decide (d0 mod ws = 0)%nat then
    ∃ y, out = Ok y ∧ shape y = (d0 / ws)%nat :: rest ∧
      ∀ idx, elem y idx = elem x (alter (λ i, i + r * (d0 / ws))%nat 0%nat idx)
  else out = Raise ValueError.
Proof. apply scatter_to_sequence_parallel_spec. Qed.

Lemma scatter_to_sequence_parallel_slice_witness :
  ∃ y, @ScatterToSequenceParallelRegion.construct nat
         {| ScatterToSequenceParallelRegion.world_size := 2;
            ScatterToSequenceParallelRegion.rank := 1 |} (arange [4; 3]%nat) = Ok y ∧
       shape y = [2; 3]%nat ∧
       ∀ idx, elem y idx = elem (arange [4; 3]%nat) (alter (λ i, i + 1 * 2)%nat 0%nat idx).
Proof.
  apply (@scatter_to_sequence_parallel_slice nat 2 1
           (arange [4; 3]%nat) 4%nat [3%nat]).
  - lia.
  - lia.
  - reflexivity.
Defined.

(** X16: on more than one rank, when the all-gather returns the tensors of
    the ranks one after the other along the first dimension,
    [GatherFromModelParallelRegion.construct] returns them side by side along
    the last dimension: the result has the last dimension [world_size] times as
    large, and its element [j] along that dimension is element [j mod Dl] of
    the tensor of rank [j // Dl], for the local size [Dl].
    [AllGatherFromTensorParallelRegion.construct] returns the same tensor, and
    [ScatterToModelParallelRegion.bprop] and
    [ReduceScatterToTensorParallelRegion.bprop] return it in a 1-tuple. *)
Theorem gather_along_last_dim {A} `{CommOps A} (ws r : nat) (rank : Z)
    (local : nat → tensor A) (x out : tensor A) (d0 : nat) (rest : list nat) :
  let n := length rest in
  let Dl := nth n (d0 :: rest) 0%nat in
  (1 < ws)%nat → (r < ws)%nat → (0 < d0)%nat → (0 < Dl)%nat →
  (∀ k, (k < ws)%nat → shape (local k) = d0 :: rest) →
  gathered_along_first_dim ws local (AllGather get_tp_group (local r)) →
  ∃ y,
    GatherFromModelParallelRegion.construct
      {| GatherFromModelParallelRegion.world_size := Z.of_nat ws;
         GatherFromModelParallelRegion.rank := rank |} (local r) = Ok y ∧
    AllGatherFromTensorParallelRegion.construct
      {| AllGatherFromTensorParallelRegion.world_size := Z.of_nat ws |} (local r) = Ok y ∧
    ScatterToModelParallelRegion.bprop
      {| ScatterToModelParallelRegion.world_size := Z.of_nat ws;
         ScatterToModelParallelRegion.rank := rank |} x out (local r) = Ok (tuple1 y) ∧
    ReduceScatterToTensorParallelRegion.bprop
      {| ReduceScatterToTensorParallelRegion.world_size := Z.of_nat ws |} x out (local r)
    = Ok (tuple1 y) ∧
    shape y = <[n := (ws * Dl)%nat]> (d0 :: rest) ∧
    ∀ idx, valid_index (shape y) idx →
      elem y idx = elem (local (nth n idx 0 / Dl)%nat) (alter (λ j, j mod Dl)%nat n idx).
Proof.
  intros n Dl Hws Hr Hd0 HDl Hshapes Hgathered.
  destruct (gather_rearrange ws local (local r) (AllGather get_tp_group (local r)) d0 rest)
    as (tl & y & Hg1 & Hg2 & Hg3 & Hys & Hye); [lia|done|done|by apply Hshapes|done|done|].
  exists y.
  destruct (gather_paths ws rank x out (local r) d0 tl y Hws Hg1 Hg2 Hg3)
    as (? & ? & ? & ?).
  done.
Qed.

Lemma gather_along_last_dim_witness :
  let local := λ k, {| shape := [1; 2]%nat; elem := λ idx, (10 * k + ravel [1; 2] idx)%nat |} in
  ∃ y,
    @GatherFromModelParallelRegion.construct nat
      (one_of nat 2 0 (stacked 2 1 [2%nat] local))
      {| GatherFromModelParallelRegion.world_size := 2;
         GatherFromModelParallelRegion.rank := 0 |} (local 0%nat) = Ok y ∧
    @AllGatherFromTensorParallelRegion.construct nat
      (one_of nat 2 0 (stacked 2 1 [2%nat] local))
      {| AllGatherFromTensorParallelRegion.world_size := 2 |} (local 0%nat) = Ok y ∧
    @ScatterToModelParallelRegion.bprop nat
      (one_of nat 2 0 (stacked 2 1 [2%nat] local))
      {| ScatterToModelParallelRegion.world_size := 2;
         ScatterToModelParallelRegion.rank := 0 |} (local 0%nat) (local 0%nat) (local 0%nat)
    = Ok (tuple1 y) ∧
    @ReduceScatterToTensorParallelRegion.bprop nat
      (one_of nat 2 0 (stacked 2 1 [2%nat] local))
      {| ReduceScatterToTensorParallelRegion.world_size := 2 |}
      (local 0%nat) (local 0%nat) (local 0%nat)
    = Ok (tuple1 y) ∧
    shape y = [1; 4]%nat ∧
    ∀ idx, valid_index (shape y) idx →
      elem y idx = elem (local (nth 1 idx 0 / 2)%nat) (alter (λ j, j mod 2)%nat 1%nat idx).
Proof.
  intros local.
  apply (@gather_along_last_dim nat (one_of nat 2 0 (stacked 2 1 [2%nat] local))
           2 0 0 local (local 0%nat) (local 0%nat) 1%nat [2%nat]).
  - lia.
  - lia.
  - lia.
  - cbn. lia.
  - intros k _. reflexivity.
  - apply stacked_gathered; [lia|]. intros k _. reflexivity.
Defined.

(** X17: [GatherFromModelParallelRegion] undoes
    [ScatterToModelParallelRegion].  On more than one rank, for an input
    whose first dimension is not empty and whose last dimension is a positive
    multiple of [world_size], gathering the chunks that the scatter gives the
    ranks returns a tensor with the shape and the elements of the input. *)
Theorem gather_inverts_scatter {A} `{CommOps A} (ws r : nat) (x : tensor A)
    (pre : list nat) (D : nat) (local : nat → tensor A) :
  (1 < ws)%nat → (r < ws)%nat → shape x = pre ++ [D] → (0 < nth 0 (shape x) 0)%nat →
  (0 < D)%nat → (D mod ws = 0)%nat →
  (∀ k, (k < ws)%nat →
     ScatterToModelParallelRegion.construct
       {| ScatterToModelParallelRegion.world_size := Z.of_nat ws;
          ScatterToModelParallelRegion.rank := Z.of_nat k |} x = Ok (local k)) →
  gathered_along_first_dim ws local (AllGather get_tp_group (local r)) →
  ∃ y, GatherFromModelParallelRegion.construct
         {| GatherFromModelParallelRegion.world_size := Z.of_nat ws;
            GatherFromModelParallelRegion.rank := Z.of_nat r |} (local r) = Ok y ∧
       same_tensor x y.
Proof. apply gather_of_scatter. Qed.

Lemma gather_inverts_scatter_witness :
  let x := arange [2; 4]%nat in
  let local := chunk x 1 2 4 in
  ∃ y, @GatherFromModelParallelRegion.construct nat
         (one_of nat 2 0 (stacked 2 2 [2%nat] local))
         {| GatherFromModelParallelRegion.world_size := 2;
            GatherFromModelParallelRegion.rank := 0 |} (local 0%nat) = Ok y ∧
       same_tensor x y.
Proof.
  intros x local.
  apply (@gather_inverts_scatter nat (one_of nat 2 0 (stacked 2 2 [2%nat] local))
           2 0 x [2%nat] 4%nat local).
  - lia.
  - lia.
  - reflexivity.
  - cbn. lia.
  - lia.
  - reflexivity.
  - intros [|[|k]] Hk; [reflexivity|reflexivity|lia].
  - apply stacked_gathered; [lia|]. intros [|[|k]] Hk; [reflexivity|reflexivity|lia].
Defined.

(** X18: gathering undoes the scatter of the sequence dimension.  On more
    than one rank, for an input whose first dimension is a multiple of
    [world_size], the all-gather of the slices that
    [ScatterToSequenceParallelRegion.construct] gives the ranks (which is what
    [GatherFromSequenceParallelRegion.construct] returns, and
    [ScatterToSequenceParallelRegion.bprop] in a 1-tuple) has the shape and the
    elements of the input. *)
Theorem sequence_gather_inverts_scatter {A} `{CommOps A} (ws r : nat) (b : bool)
    (x x' out : tensor A) (d0 : nat) (rest : list nat) (local : nat → tensor A) :
  (1 < ws)%nat → (r < ws)%nat → shape x = d0 :: rest → (d0 mod ws = 0)%nat →
  (∀ k, (k < ws)%nat →
     ScatterToSequenceParallelRegion.construct
       {| ScatterToSequenceParallelRegion.world_size := Z.of_nat ws;
          ScatterToSequenceParallelRegion.rank := Z.of_nat k |} x = Ok (local k)) →
  gathered_along_first_dim ws local (AllGather get_tp_group (local r)) →
  ∃ y, GatherFromSequenceParallelRegion.construct
         {| GatherFromSequenceParallelRegion.world_size := Z.of_nat ws;
            GatherFromSequenceParallelRegion.rank := Z.of_nat r;
            GatherFromSequenceParallelRegion.tensor_parallel_output_grad := b |}
         (local r) = Ok y ∧
       ScatterToSequenceParallelRegion.bprop
         {| ScatterToSequenceParallelRegion.world_size := Z.of_nat ws;
            ScatterToSequenceParallelRegion.rank := Z.of_nat r |} x' out (local r)
       = Ok (tuple1 y) ∧
       same_tensor x y.
Proof.
  intros Hws Hr Hshape Hdiv Hlocal Hgathered.
  exists (AllGather get_tp_group (local r)).
  unfold GatherFromSequenceParallelRegion.construct, ScatterToSequenceParallelRegion.bprop,
    created_if_parallel.
  cbn [GatherFromSequenceParallelRegion.world_size
       ScatterToSequenceParallelRegion.world_size].
  destruct (Z.eqb_spec (Z.of_nat ws) 1) as [?|_]; [lia|].
  destruct (Z.gtb_spec (Z.of_nat ws) 1) as [_|?]; [|lia].
  split; [done|]. split; [done|].
  by apply (gather_of_sequence_scatter ws r x d0 rest local).
Qed.

Lemma sequence_gather_inverts_scatter_witness :
  let x := arange [4; 3]%nat in
  let local := λ k, slice0 x (Z.of_nat k * 2) (Z.of_nat k * 2 + 2) in
  ∃ y, @GatherFromSequenceParallelRegion.construct nat
         (one_of nat 2 0 (stacked 2 2 [3%nat] local))
         {| GatherFromSequenceParallelRegion.world_size := 2;
            GatherFromSequenceParallelRegion.rank := 0;
            GatherFromSequenceParallelRegion.tensor_parallel_output_grad := true |}
         (local 0%nat) = Ok y ∧
       @ScatterToSequenceParallelRegion.bprop nat
         (one_of nat 2 0 (stacked 2 2 [3%nat] local))
         {| ScatterToSequenceParallelRegion.world_size := 2;
            ScatterToSequenceParallelRegion.rank := 0 |} x x (local 0%nat)
       = Ok (tuple1 y) ∧
       same_tensor x y.
Proof.
  intros x local.
  apply (@sequence_gather_inverts_scatter nat (one_of nat 2 0 (stacked 2 2 [3%nat] local))
           2 0 true x x x 4%nat [3%nat] local).
  - lia.
  - lia.
  - reflexivity.
  - reflexivity.
  - intros [|[|k]] Hk; [reflexivity|reflexivity|lia].
  - apply stacked_gathered; [lia|]. intros [|[|k]] Hk; [reflexivity|reflexivity|lia].
Defined.

(** X19: with a world size of one every [bprop] hands the incoming gradient
    back without a collective: in a 1-tuple, except that
    [ReduceScatterToSequenceParallelRegion.bprop] returns the tensor itself.
    [ReduceFromModelParallelRegion.bprop] does so at every world size, and
    [AllGatherFromTensorParallelRegion.bprop] moves the last dimension to the
    front and back again, which for a gradient with at least one dimension
    gives a tensor with its shape and elements. *)
Theorem bprop_at_world_size_one {A} `{CommOps A} `{UtilsOps} (x out dout : tensor A) :
  (∀ self, CopyToModelParallelRegion.world_size self = 1 →
     CopyToModelParallelRegion.bprop self x out dout = Ok (tuple1 dout)) ∧
  (∀ self, ScatterToModelParallelRegion.world_size self = 1 →
     ScatterToModelParallelRegion.bprop self x out dout = Ok (tuple1 dout)) ∧
  (∀ self, GatherFromTensorAndExpertParallelRegion.world_size self = 1 →
     GatherFromTensorAndExpertParallelRegion.bprop self x out dout = Ok (tuple1 dout)) ∧
  (∀ self, GatherFromModelParallelRegion.world_size self = 1 →
     GatherFromModelParallelRegion.bprop self x out dout = Ok (tuple1 dout)) ∧
  (∀ self, ReduceFromModelParallelRegion.bprop self x out dout = Ok (tuple1 dout)) ∧
  (∀ self, ReduceScatterToSequenceParallelRegion.world_size self = 1 →
     ReduceScatterToSequenceParallelRegion.bprop self x out dout = Ok (bare dout)) ∧
  (∀ self, ReduceScatterToTensorParallelRegion.world_size self = 1 →
     ReduceScatterToTensorParallelRegion.bprop self x out dout = Ok (tuple1 dout)) ∧
  (∀ self, ScatterToSequenceParallelRegion.world_size self = 1 →
     ScatterToSequenceParallelRegion.bprop self x out dout = Ok (tuple1 dout)) ∧
  (∀ self, GatherFromSequenceParallelRegion.world_size self = 1 →
     GatherFromSequenceParallelRegion.bprop self x out dout = Ok (tuple1 dout)) ∧
  (∀ self, AllToAllEven.world_size self = 1 →
     AllToAllEven.bprop self x out dout = Ok (tuple1 dout)) ∧
  (∀ self, AllToAll.world_size self = 1 →
     AllToAll.bprop self x out dout = Ok (tuple1 dout)) ∧
  (∀ self, AllGatherFromTensorParallelRegion.world_size self = 1 → shape dout ≠ [] →
     ∃ y, AllGatherFromTensorParallelRegion.bprop self x out dout = Ok (tuple1 y) ∧
          same_tensor dout y).
Proof.
  split_and!.
  - intros [ws] Hws. cbn in Hws. by subst.
  - intros [ws rank] Hws. cbn in Hws. by subst.
  - intros [ws] Hws. cbn in Hws. by subst.
  - intros [ws rank] Hws. cbn in Hws. by subst.
  - done.
  - intros [ws] Hws. cbn in Hws. by subst.
  - intros [ws] Hws. cbn in Hws. by subst.
  - intros [ws rank] Hws. cbn in Hws. by subst.
  - intros [ws rank b] Hws. cbn in Hws. by subst.
  - intros [ws g sc sd cd] Hws. cbn in Hws. by subst.
  - intros [g ws os ins osh ish b] Hws. cbn in Hws. by subst.
  - intros [ws] Hws Hne. cbn in Hws. subst.
    destruct (shape dout) as [|d rest] eqn:Hshape; [done|].
    destruct (rotate_transposes dout (length rest)) as (t1 & t2 & H1 & H2 & Hsame).
    { by rewrite Hshape. }
    unfold AllGatherFromTensorParallelRegion.bprop.
    cbn [AllGatherFromTensorParallelRegion.world_size Z.eqb Pos.eqb].
    cbv zeta. rewrite H1. cbn [fmap result_fmap mbind result_bind].
    unfold contiguous. rewrite H2. cbn [fmap result_fmap mbind result_bind].
    by exists t2.
Qed.

(** X20: the backward pass of a wrapper is the forward pass of its
    counterpart, on the incoming gradient and at every world size:
    copy and reduce, the scatter and the gather of the sequence dimension,
    the reduce-scatter and the all-gather of the tensor dimension, and an
    all-to-all with the roles of its two sides exchanged.  For the scatter to
    the model-parallel region, and for the reduce-scatter to the
    sequence-parallel region and the gather from it with
    [tensor_parallel_output_grad], this holds for a world size other than one;
    the last of these returns the tensor itself and not a 1-tuple.
    [GatherFromModelParallelRegion.bprop] is the scatter at the rank that
    [get_tp_rank] returns at that moment, whatever rank the cell has stored,
    when [divide] returns the floor quotient of the last dimension. *)
Theorem bprop_is_construct_of_counterpart {A} `{CommOps A} `{UtilsOps} (ws rank : Z)
    (b : bool) (x out dout : tensor A) :
  CopyToModelParallelRegion.bprop {| CopyToModelParallelRegion.world_size := ws |} x out dout
  = tuple1 <$> ReduceFromModelParallelRegion.construct
                 {| ReduceFromModelParallelRegion.world_size := ws |} dout ∧
  ReduceFromModelParallelRegion.bprop
    {| ReduceFromModelParallelRegion.world_size := ws |} x out dout
  = tuple1 <$> CopyToModelParallelRegion.construct
                 {| CopyToModelParallelRegion.world_size := ws |} dout ∧
  ScatterToSequenceParallelRegion.bprop
    {| ScatterToSequenceParallelRegion.world_size := ws;
       ScatterToSequenceParallelRegion.rank := rank |} x out dout
  = tuple1 <$> GatherFromSequenceParallelRegion.construct
                 {| GatherFromSequenceParallelRegion.world_size := ws;
                    GatherFromSequenceParallelRegion.rank := rank;
                    GatherFromSequenceParallelRegion.tensor_parallel_output_grad := b |}
                 dout ∧
  GatherFromSequenceParallelRegion.bprop
    {| GatherFromSequenceParallelRegion.world_size := ws;
       GatherFromSequenceParallelRegion.rank := rank;
       GatherFromSequenceParallelRegion.tensor_parallel_output_grad := false |} x out dout
  = tuple1 <$> ScatterToSequenceParallelRegion.construct
                 {| ScatterToSequenceParallelRegion.world_size := ws;
                    ScatterToSequenceParallelRegion.rank := rank |} dout ∧
  ReduceScatterToTensorParallelRegion.bprop
    {| ReduceScatterToTensorParallelRegion.world_size := ws |} x out dout
  = tuple1 <$> AllGatherFromTensorParallelRegion.construct
                 {| AllGatherFromTensorParallelRegion.world_size := ws |} dout ∧
  AllGatherFromTensorParallelRegion.bprop
    {| AllGatherFromTensorParallelRegion.world_size := ws |} x out dout
  = tuple1 <$> ReduceScatterToTensorParallelRegion.construct
                 {| ReduceScatterToTensorParallelRegion.world_size := ws |} dout ∧
  (∀ g split_count split_dim concat_dim,
     AllToAllEven.bprop
       {| AllToAllEven.world_size := ws; AllToAllEven.comm_group := g;
          AllToAllEven.split_count := split_count; AllToAllEven.split_dim := split_dim;
          AllToAllEven.concat_dim := concat_dim |} x out dout
     = tuple1 <$> AllToAllEven.construct
                    {| AllToAllEven.world_size := ws; AllToAllEven.comm_group := g;
                       AllToAllEven.split_count := split_count;
                       AllToAllEven.split_dim := concat_dim;
                       AllToAllEven.concat_dim := split_dim |} dout) ∧
  (∀ g output_shape input_shape output_splits input_splits self_defined,
     AllToAll.bprop
       {| AllToAll.comm_group := g; AllToAll.world_size := ws;
          AllToAll.output_splits := output_splits; AllToAll.input_splits := input_splits;
          AllToAll.output_shape := output_shape; AllToAll.input_shape := input_shape;
          AllToAll.use_self_defined_alltoall := self_defined |} x out dout
     = tuple1 <$> AllToAll.construct
                    {| AllToAll.comm_group := g; AllToAll.world_size := ws;
                       AllToAll.output_splits := input_splits;
                       AllToAll.input_splits := output_splits;
                       AllToAll.output_shape := input_shape;
                       AllToAll.input_shape := output_shape;
                       AllToAll.use_self_defined_alltoall := self_defined |} dout) ∧
  (ws ≠ 1 →
     ScatterToModelParallelRegion.bprop
       {| ScatterToModelParallelRegion.world_size := ws;
          ScatterToModelParallelRegion.rank := rank |} x out dout
     = tuple1 <$> GatherFromModelParallelRegion.construct
                    {| GatherFromModelParallelRegion.world_size := ws;
                       GatherFromModelParallelRegion.rank := rank |} dout) ∧
  (ws ≠ 1 →
     ReduceScatterToSequenceParallelRegion.bprop
       {| ReduceScatterToSequenceParallelRegion.world_size := ws |} x out dout
     = tuple1 <$> GatherFromSequenceParallelRegion.construct
                    {| GatherFromSequenceParallelRegion.world_size := ws;
                       GatherFromSequenceParallelRegion.rank := rank;
                       GatherFromSequenceParallelRegion.tensor_parallel_output_grad := b |}
                    dout) ∧
  (ws ≠ 1 →
     GatherFromSequenceParallelRegion.bprop
       {| GatherFromSequenceParallelRegion.world_size := ws;
          GatherFromSequenceParallelRegion.rank := rank;
          GatherFromSequenceParallelRegion.tensor_parallel_output_grad := true |} x out dout
     = bare <$> ReduceScatterToSequenceParallelRegion.construct
                  {| ReduceScatterToSequenceParallelRegion.world_size := ws |} dout) ∧
  (∀ d, ws ≠ 1 → py_getitem (shape dout) (ndim dout - 1) = Ok d →
     divide (Z.of_nat d) ws = py_floordiv (Z.of_nat d) ws →
     GatherFromModelParallelRegion.bprop
       {| GatherFromModelParallelRegion.world_size := ws;
          GatherFromModelParallelRegion.rank := rank |} x out dout
     = tuple1 <$> ScatterToModelParallelRegion.construct
                    {| ScatterToModelParallelRegion.world_size := ws;
                       ScatterToModelParallelRegion.rank := get_tp_rank |} dout).
Proof.
  assert (Hone : ws ≠ 1 → (ws =? 1) = false) by (intros; by apply Z.eqb_neq).
  split_and!.
  - unfold CopyToModelParallelRegion.bprop, ReduceFromModelParallelRegion.construct.
    cbn. destruct (ws =? 1); [done|]. by destruct (created_if_parallel _ _).
  - done.
  - unfold ScatterToSequenceParallelRegion.bprop, GatherFromSequenceParallelRegion.construct.
    cbn. destruct (ws =? 1); [done|]. by destruct (created_if_parallel _ _).
  - unfold GatherFromSequenceParallelRegion.bprop, ScatterToSequenceParallelRegion.construct.
    cbn. destruct (ws =? 1); [done|].
    destruct (py_getitem (shape dout) 0) as [d|]; [|done]. cbn.
    destruct (py_mod (Z.of_nat d) ws) as [r|]; [|done]. cbn.
    destruct (negb (r =? 0)); [done|].
    by destruct (py_floordiv (Z.of_nat d) ws).
  - unfold ReduceScatterToTensorParallelRegion.bprop,
      AllGatherFromTensorParallelRegion.construct.
    cbn. destruct (ws =? 1); [done|]. destruct (created_if_parallel _ _); [|done]. cbn.
    destruct (py_getitem (shape dout) 0) as [d|]; [|done]. cbn.
    destruct (split _ _ _) as [tl|]; [|done]. cbn.
    by destruct (cat _ _).
  - unfold AllGatherFromTensorParallelRegion.bprop,
      ReduceScatterToTensorParallelRegion.construct.
    cbn [AllGatherFromTensorParallelRegion.world_size
         ReduceScatterToTensorParallelRegion.world_size]. cbv zeta.
    destruct (transpose dout _) as [t1|]; [|done].
    cbn [fmap result_fmap mbind result_bind].
    destruct (ws =? 1).
    + cbn [mbind result_bind]. by destruct (transpose _ _).
    + destruct (created_if_parallel _ _); [|done]. cbn [mbind result_bind].
      by destruct (transpose _ _).
  - intros g sc sd cd. unfold AllToAllEven.bprop, AllToAllEven.construct.
    cbn. destruct (ws =? 1); [done|]. by destruct (created_if_parallel _ _).
  - intros g osh ish os ins sdf. unfold AllToAll.bprop, AllToAll.construct.
    cbn. by destruct (ws =? 1).
  - intros Hws. unfold ScatterToModelParallelRegion.bprop,
      GatherFromModelParallelRegion.construct.
    cbn. rewrite (Hone Hws). destruct (created_if_parallel _ _); [|done]. cbn.
    destruct (py_getitem (shape dout) 0) as [d|]; [|done]. cbn.
    destruct (split _ _ _) as [tl|]; [|done]. cbn.
    by destruct (cat _ _).
  - intros Hws. unfold ReduceScatterToSequenceParallelRegion.bprop,
      GatherFromSequenceParallelRegion.construct.
    cbn. rewrite (Hone Hws). by destruct (created_if_parallel _ _).
  - intros Hws. unfold GatherFromSequenceParallelRegion.bprop,
      ReduceScatterToSequenceParallelRegion.construct.
    cbn. rewrite (Hone Hws). by destruct (created_if_parallel _ _).
  - intros d Hws Hd Hdiv. unfold GatherFromModelParallelRegion.bprop,
      ScatterToModelParallelRegion.construct.
    cbn [GatherFromModelParallelRegion.world_size ScatterToModelParallelRegion.world_size
         ScatterToModelParallelRegion.rank]. cbv zeta.
    rewrite (Hone Hws), Hd. cbn [mbind result_bind]. rewrite Hdiv.
    destruct (py_floordiv _ _) as [q|]; [|done]. cbn [mbind result_bind].
    destruct (split _ _ _) as [tl|]; [|done]. cbn [mbind result_bind].
    by destruct (py_getitem tl get_tp_rank).
Qed.

(** X21: [AllToAllHP2SP] undoes [AllToAllSP2HP].  For a 2-D input with
    rows and with a last dimension that is a positive multiple of the world
    size, on a tensor-parallel group of that size and with an all-to-all
    that undoes itself, [AllToAllSP2HP.construct] returns a tensor on which
    [AllToAllHP2SP.construct] returns one with the shape and the elements of
    the input: the column blocks that the first stacks into rows are put back
    side by side by the second. *)
Theorem hp2sp_inverts_sp2hp {A} `{CommOps A} (x : tensor A) (n R q : nat) :
  (0 < n)%nat → (0 < R)%nat → (0 < q)%nat → shape x = [R; (n * q)%nat] →
  get_group_size get_tp_group = Z.of_nat n →
  (∀ t, AlltoAll (Z.of_nat n) 0 0 get_tp_group
          (AlltoAll (Z.of_nat n) 0 0 get_tp_group t) = t) →
  ∃ h y, AllToAllSP2HP.construct {| AllToAllSP2HP.world_size := Z.of_nat n |} x = Ok h ∧
         AllToAllHP2SP.construct {| AllToAllHP2SP.world_size := Z.of_nat n |} h = Ok y ∧
         same_tensor x y.
Proof. apply hp2sp_of_sp2hp. Qed.

Lemma hp2sp_inverts_sp2hp_witness :
  ∃ h y, @AllToAllSP2HP.construct nat (one_of nat 2 0 (arange []))
           {| AllToAllSP2HP.world_size := 2 |} (arange [3; 4]%nat) = Ok h ∧
         @AllToAllHP2SP.construct nat (one_of nat 2 0 (arange []))
           {| AllToAllHP2SP.world_size := 2 |} h = Ok y ∧
         same_tensor (arange [3; 4]%nat) y.
Proof.
  apply (@hp2sp_inverts_sp2hp nat (one_of nat 2 0 (arange [])) (arange [3; 4]%nat)
           2%nat 3%nat 2%nat).
  - lia.
  - lia.
  - lia.
  - reflexivity.
  - reflexivity.
  - intros t. reflexivity.
Defined.

(** The rearrangement of [AllToAllSP2HP] on one process: the two column
    blocks of a [2 x 4] tensor, one below the other. *)
Example sp2hp_blocks :
  to_list <$> @AllToAllSP2HP.construct nat (one_of nat 2 0 (arange []))
                {| AllToAllSP2HP.world_size := 2 |} (arange [2; 4]%nat)
  = Ok [0; 1; 4; 5; 2; 3; 6; 7]%nat.
Proof. reflexivity. Qed.

(** X22: the function [all_to_all_sp2hp] returns, or raises, what
    [construct] of a freshly made [AllToAllSP2HP] does, at every world
    size (a world size below one makes both fail before the branch on which
    they differ).  The function [all_to_all_hp2sp] and a freshly made
    [AllToAllHP2SP] agree for a world size of at least one. *)
Theorem all_to_all_functions_and_cells {A} `{CommOps A} (x : tensor A) :
  all_to_all_sp2hp x = AllToAllSP2HP.construct AllToAllSP2HP.__init__ x ∧
  (1 ≤ get_tp_world_size →
     all_to_all_hp2sp x = AllToAllHP2SP.construct AllToAllHP2SP.__init__ x).
Proof.
  split.
  - unfold all_to_all_sp2hp, AllToAllSP2HP.construct, AllToAllSP2HP.__init__.
    cbn [AllToAllSP2HP.world_size]. cbv zeta.
    destruct (py_getitem (shape x) (-1)) as [last|]; [|done]. cbn [mbind result_bind].
    destruct (reshape_rows x (Z.of_nat last)) as [x1|]; [|done]. cbn [mbind result_bind].
    destruct (py_getitem (shape x1) (-1)) as [last1|]; [|done]. cbn [mbind result_bind].
    destruct (py_floordiv (Z.of_nat last1) get_tp_world_size) as [size|] eqn:Hsize;
      [|done]. cbn [mbind result_bind].
    destruct (split x1 size 1) as [tl|] eqn:Hsplit; [|done]. cbn [mbind result_bind].
    destruct (cat tl 0) as [c|]; [|done]. cbn [mbind result_bind].
    assert (Hpos : 0 < size).
    { unfold split in Hsplit.
      destruct (canonicalize_axis 1 (length (shape x1))); [|done].
      cbn [mbind result_bind] in Hsplit.
      destruct (Z.leb_spec size 0); [done|lia]. }
    assert (Hws : 1 ≤ get_tp_world_size).
    { unfold py_floordiv in Hsize.
      destruct (Z.eqb_spec get_tp_world_size 0) as [?|Hne]; [done|].
      injection Hsize as <-.
      destruct (Z.le_gt_cases 1 get_tp_world_size) as [?|Hlt]; [done|].
      assert (Hneg : get_tp_world_size < 0) by lia.
      pose proof (Z.div_mod (Z.of_nat last1) get_tp_world_size Hne).
      pose proof (Z.mod_neg_bound (Z.of_nat last1) get_tp_world_size Hneg). nia. }
    unfold created_if_parallel.
    destruct (Z.eqb_spec get_tp_world_size 1) as [->|Hne]; [done|].
    destruct (Z.gtb_spec get_tp_world_size 1) as [_|?]; [done|lia].
  - intros Hws. unfold all_to_all_hp2sp, AllToAllHP2SP.construct, AllToAllHP2SP.__init__,
      created_if_parallel.
    cbn [AllToAllHP2SP.world_size]. cbv zeta.
    destruct (Z.eqb_spec get_tp_world_size 1) as [->|Hne]; [done|].
    destruct (Z.gtb_spec get_tp_world_size 1) as [_|?]; [done|lia].
Qed.

End CollectivePrimitivesFacts.
